(* ===== verification/_CoqProject ===== *)
-Q . S2P
Prelude.v
Machine.v
Spinlock.v
CString.v
Printf.v
Kalloc.v
Vm.v
PageTable.v
VmSpec.v
UserMem.v
Proc.v
ProcSpec.v
Sched.v
Sleeplock.v
SleeplockSpec.v
Console.v
Pipe.v
PipeSpec.v
PipeWeak.v
Bio.v
BlockData.v
Cache.v
CacheSpec.v
Virtio.v
VirtioSpec.v
Log.v
LogSpec.v
Crash.v
Txn.v
Fs.v
FsSpec.v
FileData.v
FileWrite.v
DirSpec.v
File.v
Exec.v
Lifecycle.v
Args.v
Sysfile.v
Syscall.v
Trap.v
Quota.v
Boot.v
User.v
Ulib.v
Grep.v
Utils.v
Stress.v
Sh.v
Umalloc.v
TestFiles.v
TestProcs.v
TestMemory.v
TestDrive.v
SysSpec.v
TestSpec.v
Mkfs.v
