(* ===== verification/Prelude.v ===== *)
(** * Verification of xv6 for RISC-V

    A shallow embedding of this variant of xv6 (Peterson's protocol in pipes,
    CPU quotas, the scheduler that knows about [schedtest], [ps]), with the
    theorems that make its parts correct.  The kernel is [src/kernel], the user
    programs are [src/user], the image builder is [src/mkfs/mkfs.c].

    ** How code is modelled

    A kernel function is a computation of the monad [M] below over the record
    [kernel] of [Machine], which holds all static data of the kernel, physical
    memory as a map from addresses to bytes, and the registers of the hart that
    runs.  A computation returns, panics, gives up the CPU at [swtch] with the
    rest of its work as a continuation, or hangs.  A pointer to an element of a
    static array is its index; a pointer to memory is an address.  Integers are
    of type [Z] with the wrap-around of their C type written out ([u8], [u16],
    [u32], [u64], [i32]).  A user program is a tree of system calls ([User]).

    A loop that ends by itself takes a bound computed from its arguments, and
    the theorems show that the bound is not reached.  A loop that waits for
    somebody else goes round [patience] times; the theorems about such loops
    follow the thread through [swtch] and say what it does when it is resumed.

    ** The parts

    - The machine: [Machine] (constants and structures of the headers),
      [Spinlock] ([spinlock.c], the CPU accessors), [CString] ([string.c]),
      [Printf] ([printf.c] and the console output under it, [panic] included).
    - Memory: [Kalloc] ([kalloc.c]), [Vm] ([vm.c]), [PageTable] (what a page
      table means), [VmSpec] and [UserMem] (the theorems on mapping and on
      copying to and from user space).
    - Processes: [Proc] and [Lifecycle] ([proc.c]), [ProcSpec] (sleep, wakeup,
      kill), [Sched] (the quota window and the choice of the scheduler),
      [Sleeplock] and [SleeplockSpec] ([sleeplock.c]), [Quota] (timer ticks,
      [setquota], the window and the dispatch of the scheduler together).
    - Devices: [Console] ([uart.c], [console.c]), [Virtio] ([virtio_disk.c])
      and [VirtioSpec], [Trap] ([trap.c], [plic.c]), [Boot] ([start.c],
      [main.c]).
    - Pipes: [Pipe] ([pipe.c]) and [PipeSpec] (the interleaving of its
      accesses), [PipeWeak] (the protocol on memory with store buffers).
    - The file system from the disk up: [Bio] ([bio.c]), [Cache] and
      [CacheSpec]; [Log] ([log.c]), [LogSpec], [Crash] and [Txn]; [Fs] ([fs.c])
      and [FsSpec] (the bitmap and the inodes), [FileData] (reading
      the bytes of a file), [FileWrite] (writing them, with the allocation of
      blocks), [DirSpec] (the entries of a directory); [File] ([file.c]);
      [BlockData] has the laws of the fields of a block.
    - System calls: [Args], [Sysfile] ([sysfile.c]), [Syscall] ([syscall.c],
      [sysproc.c]), [Exec] ([exec.c]).
    - User space: [User] (programs as trees of calls and the stream they read),
      [Ulib] ([ulib.c], [printf.c]), [Grep], [Utils] (the small programs),
      [Stress] (the stress tests and [hello_world]), [Sh] ([sh.c]),
      [Umalloc] ([umalloc.c]).
    - The tests of [usertests.c]: [TestFiles], [TestProcs], [TestMemory] and
      their driver [TestDrive]; [SysSpec] specifies the system calls as a
      program sees them, and [TestSpec] runs the driver on that.
    - The image: [Mkfs] ([mkfs.c]).

    Components meet in classes: [PageAlloc] is what the page tables need of the
    allocator, [Disk] and [DiskOk] are what the buffer cache needs of the
    driver, [Link] and [LinkOk] are the addresses the linker script provides.
    Theorems of the clients are proved against the class.

    ** What is shown

    - Locks: mutual exclusion of spin locks for any number of harts, the
      interrupt state after [acquire] and [release], the handing over of a
      sleep lock, no lost wakeup between [sleep] and [wakeup].
    - Memory: the allocator behaves as a stack of distinct pages; [mappages] and
      [uvmunmap] change exactly the requested pages; [copyin] and [copyout] move
      the bytes a user sees, and undo each other.
    - Scheduling: the process a turn of the scheduler runs, the tick accounting
      of the others, and that in quota mode a process never gets more ticks in
      a window than the largest quota it had in it, because a throttled process
      is not dispatched.
    - Pipes: with one writer and one reader on sequentially consistent memory
      the protocol excludes and the bytes arrive in order; with two writers a
      byte can be lost.  On memory with store buffers the protocol as it is
      coded does not exclude; with a fence it does.
    - The disk: the driver with a device that answers as the virtio
      specification says meets the contract of the buffer cache; the cache
      behaves as an array of blocks; a commit is atomic under a crash at any
      disk write, and so is a whole transaction of the file system; [balloc],
      [bfree], [iupdate] and [readi] do what they promise inside a transaction;
      [readi] returns what [writei] stored and [dirlookup] finds what [dirlink]
      entered, in blocks that were there or had to be allocated, and a full
      disk is reported; the image of [mkfs] meets what the kernel relies on.  A
      transaction that fills the log makes [commit] panic, because the cache has
      no buffer left.
    - User space: the shell parser terminates and its strings are the words of
      the line; [malloc] and [free] keep the heap; [grep] and [wc] against their
      specifications; the random numbers of [grind]; the driver of [usertests]
      reports its tests by their exit status.

    ** Not modelled

    - The assembly files ([entry.S], [kernelvec.S], [swtch.S], [trampoline.S])
      save and restore registers; [swtch] is the suspension of the monad.
    - The bodies of most kernel functions run on one hart.  The interleaving of
      harts is modelled where the code depends on it: spin locks and pipes.
    - What the devices do between two accesses is given by parameters: the
      answers to register reads, the received bytes, the effect of a disk
      request.
    - Whether the tests of [usertests.c] pass on this kernel: they are modelled
      as programs.  [SysSpec], on which the driver is run, is a specification of
      its own; that the kernel meets it is shown for the parts listed above, not
      as a whole.
    - [readi] and [writei] between a file and user memory: the theorems on file
      data are about buffers in kernel memory, as [dirlink] and [dirlookup] use
      them; [UserMem] has the copies to and from user memory.
    - Address arithmetic of [kernel.ld] and [user.ld], the declarations of
      [defs.h] and [types.h], the generated system call stubs.
    - [__sync_synchronize] and the memory model of RISC-V as a whole: the steps
      of the interleaving models are sequentially consistent.  [PipeWeak] has
      one relaxation, stores that reach memory late, because the pipe relies on
      plain loads and stores.

    This file has the monad, its laws and tactics, the machine integers and a
    few lemmas on lists. *)

From stdpp Require Import base numbers gmap sets strings option list.
From Stdlib Require Import FunctionalExtensionality.

#[global] Open Scope Z_scope.

(** ** Machine integers *)

Definition u8 (z : Z) : Z := z mod 2 ^ 8.
Definition u16 (z : Z) : Z := z mod 2 ^ 16.
Definition u32 (z : Z) : Z := z mod 2 ^ 32.
Definition u64 (z : Z) : Z := z mod 2 ^ 64.
(** C [int] with the two's-complement wrap the RISC-V [addw] family has. *)
Definition i32 (z : Z) : Z := (z + 2 ^ 31) mod 2 ^ 32 - 2 ^ 31.

(** [lia] after the Euclidean equations of every [/] and [mod] in sight. *)
Ltac zlia := Z.to_euclidean_division_equations; lia.

Lemma u32_small z : 0 <= z < 2 ^ 32 -> u32 z = z.
Proof. apply Z.mod_small. Qed.
Lemma u64_small z : 0 <= z < 2 ^ 64 -> u64 z = z.
Proof. apply Z.mod_small. Qed.
Lemma u32_range z : 0 <= u32 z < 2 ^ 32.
Proof. by apply Z.mod_pos_bound. Qed.
Lemma u64_range z : 0 <= u64 z < 2 ^ 64.
Proof. by apply Z.mod_pos_bound. Qed.
Lemma i32_small z : - 2 ^ 31 <= z < 2 ^ 31 -> i32 z = z.
Proof. intros. unfold i32. rewrite Z.mod_small; lia. Qed.
Lemma i32_range z : - 2 ^ 31 <= i32 z < 2 ^ 31.
Proof. unfold i32. pose proof (Z.mod_pos_bound (z + 2 ^ 31) (2 ^ 32)). lia. Qed.

(** Unsigned difference of two counters does not see their wrap-around. *)
Lemma u32_sub_wrap a d : 0 <= d < 2 ^ 32 -> u32 (u32 (a + d) - u32 a) = d.
Proof.
  intros. unfold u32. rewrite <- Zminus_mod. rewrite Z.add_simpl_l. by apply Z.mod_small.
Qed.

Create HintDb xv6.
#[export] Hint Resolve u32_range u64_range i32_range : xv6.
#[export] Hint Rewrite u32_small u64_small i32_small using lia : width.

(** ** Kernel threads

    A kernel function is a resumption: run on a state it returns, panics,
    hands the CPU to [swtch] with the rest of its work as a continuation, or
    is caught in a loop that only another CPU can end. *)

Inductive hang := HSpin | HFuel | HWild.

Inductive outcome (S A : Type) :=
| Ret (a : A) (s : S)
| Panic (msg : string)
| Switch (s : S) (k : S -> outcome S A)
| Hang (h : hang).
Arguments Ret {S A} a s.
Arguments Panic {S A} msg.
Arguments Switch {S A} s k.
Arguments Hang {S A} h.

Definition M (S A : Type) : Type := S -> outcome S A.

Fixpoint obind {S A B} (f : A -> M S B) (o : outcome S A) : outcome S B :=
  match o with
  | Ret a s => f a s
  | Panic msg => Panic msg
  | Switch s k => Switch s (fun s' => obind f (k s'))
  | Hang h => Hang h
  end.

#[export] Instance M_ret S : MRet (M S) := fun A a s => Ret a s.
#[export] Instance M_bind S : MBind (M S) := fun A B f m s => obind f (m s).

Definition gets {S A} (f : S -> A) : M S A := fun s => Ret (f s) s.
Definition modify {S} (f : S -> S) : M S () := fun s => Ret tt (f s).
Definition panic {S A} (msg : string) : M S A := fun _ => Panic msg.
Definition hangs {S A} (h : hang) : M S A := fun _ => Hang h.
(** [swtch()]: the thread leaves the CPU and goes on when it is switched back to. *)
Definition swtch {S} : M S () := fun s => Switch s (fun s' => Ret tt s').
Definition when {S} (b : bool) (m : M S ()) : M S () := if b then m else mret tt.
(** A pointer that must not be NULL. *)
Definition deref {S A} (o : option A) : M S A :=
  match o with Some a => mret a | None => hangs HWild end.

(** A C [for] loop over the elements of [l], without [break]. *)
Fixpoint forM {S A} (l : list A) (f : A -> M S ()) : M S () :=
  match l with
  | [] => mret tt
  | x :: l => f x;; forM l f
  end.

(** A loop that may [return] from the function: [Some r] ends it. *)
Fixpoint forM_until {S A B} (l : list A) (f : A -> M S (option B)) : M S (option B) :=
  match l with
  | [] => mret None
  | x :: l => r ← f x; match r with Some b => mret (Some b) | None => forM_until l f end
  end.

(** [while (cond) body], going round at most [fuel] times. *)
Fixpoint whileM {T} (fuel : nat) (cond : M T bool) (body : M T ()) : M T () :=
  c ← cond;
  if c : bool then
    match fuel with O => hangs HFuel | S fuel => body;; whileM fuel cond body end
  else mret tt.

(** A loop that carries its local variables: [inl] goes round again, [inr]
    leaves the loop. *)
Fixpoint iterM {T A B} (fuel : nat) (body : B -> M T (B + A)) (b : B) : M T A :=
  match fuel with
  | O => hangs HFuel
  | S fuel => r ← body b; match r with inl b => iterM fuel body b | inr a => mret a end
  end.

(** How often a loop that sleeps may be woken in vain before the model gives
    it up.  A loop that finds its condition right away needs no patience. *)
Class Patience := patience : nat.

Lemma imap_map {A B} (f : A -> B) l : imap (fun _ => f) l = map f l.
Proof. induction l as [|x l IH]; [done|]. rewrite imap_cons. simpl. f_equal. apply IH. Qed.

(** The first number that passes a test. *)
Lemma find_seq_Some (f : nat -> bool) a n i :
  List.find f (seq a n) = Some i -> (a <= i < a + n)%nat /\ f i = true /\ forall j, (a <= j < i)%nat -> f j = false.
Proof.
  revert a. induction n as [|n IH]; intros a; simpl; [done|]. destruct (f a) eqn:E.
  - intros [= <-]. split_and!; [lia|lia|done|lia].
  - intros (? & ? & Hm)%IH. split_and!; [lia|lia|done|].
    intros j Hj. destruct (decide (j = a)) as [->|]; [done|]. apply Hm. lia.
Qed.

Section monad_lemmas.
Context {S : Type}.

Lemma bind_Ret {A B} (m : M S A) (f : A -> M S B) s a s' :
  m s = Ret a s' -> (m ≫= f) s = f a s'.
Proof. unfold mbind, M_bind. by intros ->. Qed.

Lemma bind_Panic {A B} (m : M S A) (f : A -> M S B) s msg :
  m s = Panic msg -> (m ≫= f) s = Panic msg.
Proof. unfold mbind, M_bind. by intros ->. Qed.

Lemma bind_Hang {A B} (m : M S A) (f : A -> M S B) s h :
  m s = Hang h -> (m ≫= f) s = Hang h.
Proof. unfold mbind, M_bind. by intros ->. Qed.

Lemma bind_Switch {A B} (m : M S A) (f : A -> M S B) s s' k :
  m s = Switch s' k -> (m ≫= f) s = Switch s' (fun x => obind f (k x)).
Proof. unfold mbind, M_bind. by intros ->. Qed.

Lemma bind_gets {A B} (g : S -> A) (f : A -> M S B) s : (gets g ≫= f) s = f (g s) s.
Proof. done. Qed.
Lemma bind_modify {B} (g : S -> S) (f : () -> M S B) s : (modify g ≫= f) s = f tt (g s).
Proof. done. Qed.
Lemma bind_mret {A B} (a : A) (f : A -> M S B) s : (mret a ≫= f) s = f a s.
Proof. done. Qed.

Lemma obind_mbind {A B} (m : M S A) (f : A -> M S B) s : obind f (m s) = (m ≫= f) s.
Proof. done. Qed.
(** Two states that a first instruction does not tell apart. *)
Lemma bind_same {A B} (m : M S A) (f : A -> M S B) s s' : m s = m s' -> (m ≫= f) s = (m ≫= f) s'.
Proof. unfold mbind, M_bind. by intros ->. Qed.
Lemma bind_deref {A B} (a : A) (f : A -> M S B) s : (deref (Some a) ≫= f) s = f a s.
Proof. done. Qed.

Lemma bind_assoc {A B C} (m : M S A) (f : A -> M S B) (g : B -> M S C) s :
  ((m ≫= f) ≫= g) s = (m ≫= fun a => f a ≫= g) s.
Proof.
  unfold mbind, M_bind. induction (m s) as [a t|msg|t k IH|hg]; simpl; try done.
  f_equal. extensionality t'. apply IH.
Qed.

(** A loop whose body returns is a fold of the bodies' effects. *)
Lemma forM_fold {A} (P : S -> Prop) (f : A -> M S ()) (g : A -> S -> S) l s :
  P s ->
  (forall x t, x ∈ l -> P t -> f x t = Ret tt (g x t) /\ P (g x t)) ->
  forM l f s = Ret tt (foldl (fun t x => g x t) s l) /\ P (foldl (fun t x => g x t) s l).
Proof.
  revert s. induction l as [|x l IH]; intros s HP Hf; simpl; [done|].
  destruct (Hf x s) as [Hx HP']; [set_solver|done|].
  rewrite (bind_Ret _ _ _ _ _ Hx). apply IH; [done|].
  intros y t Hy. apply Hf. set_solver.
Qed.

(** A counting loop with an invariant. *)
Lemma forM_seq_ind (P : nat -> S -> Prop) (f : nat -> M S ()) m : forall k s,
  P k s -> (forall j t, (k <= j < k + m)%nat -> P j t -> exists t', f j t = Ret tt t' /\ P (Datatypes.S j) t') ->
  exists s', forM (seq k m) f s = Ret tt s' /\ P (k + m)%nat s'.
Proof.
  induction m as [|m IH]; intros k s HP Hf; simpl.
  - exists s. by rewrite Nat.add_0_r.
  - destruct (Hf k s) as (t & Ht & HPt); [lia|done|]. rewrite (bind_Ret _ _ _ _ _ Ht).
    destruct (IH (Datatypes.S k) t) as (s' & Hs' & HP'); [done| |].
    + intros j u Hj. apply Hf. lia.
    + exists s'. split; [done|]. by replace (k + Datatypes.S m)%nat with (Datatypes.S k + m)%nat by lia.
Qed.

(** A loop that looks for the first element that passes a test. *)
Lemma forM_until_find {A B} (f : A -> M S (option B)) (test : A -> bool) (b : A -> B) (g : A -> S) l s :
  (forall x, x ∈ l -> f x s = if test x then Ret (Some (b x)) (g x) else Ret None s) ->
  forM_until l f s = match List.find test l with
                     | Some x => Ret (Some (b x)) (g x)
                     | None => Ret None s
                     end.
Proof.
  induction l as [|x l IH]; intros Hf; simpl; [done|].
  pose proof (Hf x ltac:(set_solver)) as Hx. destruct (test x).
  - by rewrite (bind_Ret _ _ _ _ _ Hx).
  - rewrite (bind_Ret _ _ _ _ _ Hx). apply IH. intros y Hy. apply Hf. set_solver.
Qed.

(** A loop whose condition fails at once needs no fuel. *)
Lemma iterM_again {A B} n (body : B -> M S (B + A)) b b' s s' :
  body b s = Ret (inl b') s' -> iterM (Datatypes.S n) body b s = iterM n body b' s'.
Proof. intros E. cbn [iterM]. by rewrite (bind_Ret _ _ _ _ _ E). Qed.
Lemma iterM_ends {A B} n (body : B -> M S (B + A)) b a s s' :
  body b s = Ret (inr a) s' -> iterM (Datatypes.S n) body b s = Ret a s'.
Proof. intros E. cbn [iterM]. by rewrite (bind_Ret _ _ _ _ _ E). Qed.

Lemma whileM_done fuel (cond : M S bool) body s s' :
  cond s = Ret false s' -> whileM fuel cond body s = Ret tt s'.
Proof. intros Hc. destruct fuel; simpl; by rewrite (bind_Ret _ _ _ _ _ Hc). Qed.
End monad_lemmas.

(** Run the first instruction of a bind with the equation [H]. *)
Ltac mstep H := rewrite ?bind_assoc; first
  [ erewrite (bind_Ret _ _ _ _ _ H) | erewrite (bind_Panic _ _ _ _ H)
  | erewrite (bind_Switch _ _ _ _ _ H) | erewrite (bind_Hang _ _ _ _ H) ]; cbv beta.
(** The same with a lemma whose premises [tac] proves. *)
Tactic Notation "mapply" open_constr(L) "by" tactic3(tac) :=
  rewrite ?bind_assoc; first [ erewrite bind_Ret; [|eapply L; tac] | erewrite bind_Panic; [|eapply L; tac]
        | erewrite bind_Hang; [|eapply L; tac] | erewrite bind_Switch; [|eapply L; tac] ];
  cbv beta.
Ltac msimpl := repeat first
  [ rewrite bind_gets | rewrite bind_modify | rewrite bind_mret | rewrite bind_deref | rewrite bind_assoc ]; cbv beta.

(** Evaluate the monadic plumbing of straight-line code. *)
Ltac mrun := cbv [mbind M_bind mret M_ret gets modify when panic hangs deref]; cbn [obind].
