(* ===== verification/Machine.v ===== *)
(** * Kernel state

    The constants of [param.h], [memlayout.h], [fs.h] and [riscv.h], the C
    structures of the kernel headers as records, and the record [kernel] of
    all the kernel's static data together with the registers of the hart that
    runs.  Every record field has a [Setter] instance, written
    [r <| field := v |>]. *)

From stdpp Require Import base numbers gmap sets strings option countable list.
From S2P Require Import Prelude.

(** ** Constants *)

Definition NPROC : nat := 64.
Definition NCPU : nat := 8.
Definition NOFILE : nat := 16.
Definition NFILE : nat := 100.
Definition NINODE : nat := 50.
Definition NDEV : Z := 10.
Definition ROOTDEV : Z := 1.
Definition MAXARG : nat := 32.
Definition MAXOPBLOCKS : nat := 10.
Definition LOGBLOCKS : nat := 30.
Definition NBUF : nat := 30.
Definition FSSIZE : Z := 2000.
Definition MAXPATH : nat := 128.
Definition USERSTACK : Z := 1.

Definition BSIZE : Z := 1024.
Definition NDIRECT : nat := 12.
Definition DIRSIZ : nat := 14.
Definition PIPESIZE : Z := 512.

Definition PGSIZE : Z := 4096.
Definition KERNBASE : Z := 0x80000000.
Definition PHYSTOP : Z := KERNBASE + 128 * 1024 * 1024.
Definition MAXVA : Z := Z.shiftl 1 (9 + 9 + 9 + 12 - 1).
Definition TRAMPOLINE : Z := MAXVA - PGSIZE.
Definition TRAPFRAME : Z := TRAMPOLINE - PGSIZE.
Definition KSTACK (p : Z) : Z := TRAMPOLINE - (p + 1) * 2 * PGSIZE.

Definition ECO_OFF : Z := 0.
Definition ECO_QUOTA : Z := 1.
Definition WINDOW_SIZE : Z := 100.

(** Addresses that the linker script and the assembly files define. *)
Class Link := {
  end_ : Z;        (* first address after the kernel, kernel.ld *)
  etext : Z;       (* end of kernel text, kernel.ld *)
  trampoline : Z;  (* trampoline.S *)
  uservec : Z;     (* trampoline.S *)
  userret : Z;     (* trampoline.S *)
  kernelvec : Z;   (* kernelvec.S *)
  forkret_addr : Z;
  usertrap_addr : Z
}.

(** What [kernel.ld] guarantees of them: the kernel image ends inside RAM. *)
Class LinkOk `{Link} : Prop := {
  end_ge : KERNBASE <= end_;
  end_le : end_ <= PHYSTOP
}.

(** ** Record update *)

Class Setter {R T} (proj : R -> T) := upd : (T -> T) -> R -> R.
Arguments upd {R T} proj {Setter} f r /.
Notation "r <| f ::= g |>" := (upd f g r) (at level 12, left associativity).
Notation "r <| f := v |>" := (upd f (fun _ => v) r) (at level 12, left associativity).

(** Run a computation on one field of a bigger state. *)
Fixpoint ozoom {R T A} (proj : R -> T) `{!Setter proj} (o : outcome T A) (r : R) : outcome R A :=
  match o with
  | Ret a t => Ret a (r <| proj := t |>)
  | Panic msg => Panic msg
  | Switch t k => Switch (r <| proj := t |>) (fun r' => ozoom proj (k (proj r')) r')
  | Hang h => Hang h
  end.
Definition zoom {R T A} (proj : R -> T) `{!Setter proj} (m : M T A) : M R A :=
  fun r => ozoom proj (m (proj r)) r.

(** ** Locks and wait channels *)

(** Sleep locks are the [lock] fields of buffers and in-memory inodes. *)
Inductive slid := SlBuf (i : nat) | SlInode (i : nat).

(** Every spin lock of the kernel. *)
Inductive lockid :=
| LkKmem | LkPr | LkPid | LkWait | LkTicks | LkBcache | LkItable | LkLog
| LkFtable | LkCons | LkTx | LkDisk
| LkProc (i : nat) | LkPipe (pa : nat) | LkSleep (l : slid).

(** The addresses that [sleep] and [wakeup] use as channels. *)
Inductive channel :=
| ChProc (i : nat) | ChTicks | ChLog | ChSleep (l : slid) | ChCons | ChTx
| ChDiskFree | ChBuf (i : nat) | ChPipeRead (pa : nat) | ChPipeWrite (pa : nat).

#[export] Instance slid_eq_dec : EqDecision slid.
Proof. solve_decision. Defined.
#[export] Instance lockid_eq_dec : EqDecision lockid.
Proof. solve_decision. Defined.
#[export] Instance channel_eq_dec : EqDecision channel.
Proof. solve_decision. Defined.

Definition lockid_code (l : lockid) : nat + (nat + (nat + (nat + nat))) :=
  match l with
  | LkKmem => inl 0%nat | LkPr => inl 1%nat | LkPid => inl 2%nat | LkWait => inl 3%nat
  | LkTicks => inl 4%nat | LkBcache => inl 5%nat | LkItable => inl 6%nat | LkLog => inl 7%nat
  | LkFtable => inl 8%nat | LkCons => inl 9%nat | LkTx => inl 10%nat | LkDisk => inl 11%nat
  | LkProc i => inr (inl i)
  | LkPipe i => inr (inr (inl i))
  | LkSleep (SlBuf i) => inr (inr (inr (inl i)))
  | LkSleep (SlInode i) => inr (inr (inr (inr i)))
  end.
Definition lockid_decode (c : nat + (nat + (nat + (nat + nat)))) : lockid :=
  match c with
  | inl 0%nat => LkKmem | inl 1%nat => LkPr | inl 2%nat => LkPid | inl 3%nat => LkWait
  | inl 4%nat => LkTicks | inl 5%nat => LkBcache | inl 6%nat => LkItable | inl 7%nat => LkLog
  | inl 8%nat => LkFtable | inl 9%nat => LkCons | inl 10%nat => LkTx | inl _ => LkDisk
  | inr (inl i) => LkProc i
  | inr (inr (inl i)) => LkPipe i
  | inr (inr (inr (inl i))) => LkSleep (SlBuf i)
  | inr (inr (inr (inr i))) => LkSleep (SlInode i)
  end.
#[export] Instance lockid_countable : Countable lockid.
Proof. by refine (inj_countable' lockid_code lockid_decode _); intros [| | | | | | | | | | | | | |[]]. Defined.

Definition slid_code (l : slid) : nat + nat :=
  match l with SlBuf i => inl i | SlInode i => inr i end.
Definition slid_decode (c : nat + nat) : slid :=
  match c with inl i => SlBuf i | inr i => SlInode i end.
#[export] Instance slid_countable : Countable slid.
Proof. by refine (inj_countable' slid_code slid_decode _); intros []. Defined.

(** ** Hart and CPU state *)

(** [struct spinlock]; the [name] is for debugging only. *)
Record spinlock := mkSpinlock {
  locked : Z;
  lk_cpu : option nat
}.
#[export] Instance set_locked : Setter locked := fun f r => mkSpinlock (f (locked r)) (lk_cpu r).
#[export] Instance set_lk_cpu : Setter lk_cpu := fun f r => mkSpinlock (locked r) (f (lk_cpu r)).
Definition unlocked : spinlock := mkSpinlock 0 None.

(** [struct sleeplock]; its inner spin lock is [LkSleep]. *)
Record sleeplock := mkSleeplock {
  sl_locked : Z;
  sl_pid : Z
}.
#[export] Instance set_sl_locked : Setter sl_locked := fun f r => mkSleeplock (f (sl_locked r)) (sl_pid r).
#[export] Instance set_sl_pid : Setter sl_pid := fun f r => mkSleeplock (sl_locked r) (f (sl_pid r)).

(** [struct cpu]; the saved [context] belongs to [swtch]. *)
Record cpu := mkCpu {
  c_proc : option nat;
  noff : Z;
  intena : bool
}.
#[export] Instance set_c_proc : Setter c_proc := fun f r => mkCpu (f (c_proc r)) (noff r) (intena r).
#[export] Instance set_noff : Setter noff := fun f r => mkCpu (c_proc r) (f (noff r)) (intena r).
#[export] Instance set_intena : Setter intena := fun f r => mkCpu (c_proc r) (noff r) (f (intena r)).

(** The running hart's [tp] register and interrupt-enable bit, all [cpus] and all
    spin locks. *)
Record hart := mkHart {
  tp : nat;
  sie : bool;
  cpus : list cpu;
  locks : gmap lockid spinlock
}.
#[export] Instance set_tp : Setter tp := fun f r => mkHart (f (tp r)) (sie r) (cpus r) (locks r).
#[export] Instance set_sie : Setter sie := fun f r => mkHart (tp r) (f (sie r)) (cpus r) (locks r).
#[export] Instance set_cpus : Setter cpus := fun f r => mkHart (tp r) (sie r) (f (cpus r)) (locks r).
#[export] Instance set_locks : Setter locks := fun f r => mkHart (tp r) (sie r) (cpus r) (f (locks r)).

(** Control and status registers the trap code reads and writes. *)
Record csrs := mkCsrs {
  scause : Z;
  sepc : Z;
  stval : Z;
  spp : bool;
  spie : bool;
  stvec : Z;
  satp : Z;
  stimecmp : Z;
  time : Z
}.
#[export] Instance set_scause : Setter scause := fun f r => mkCsrs (f (scause r)) (sepc r) (stval r) (spp r) (spie r) (stvec r) (satp r) (stimecmp r) (time r).
#[export] Instance set_sepc : Setter sepc := fun f r => mkCsrs (scause r) (f (sepc r)) (stval r) (spp r) (spie r) (stvec r) (satp r) (stimecmp r) (time r).
#[export] Instance set_stval : Setter stval := fun f r => mkCsrs (scause r) (sepc r) (f (stval r)) (spp r) (spie r) (stvec r) (satp r) (stimecmp r) (time r).
#[export] Instance set_spp : Setter spp := fun f r => mkCsrs (scause r) (sepc r) (stval r) (f (spp r)) (spie r) (stvec r) (satp r) (stimecmp r) (time r).
#[export] Instance set_spie : Setter spie := fun f r => mkCsrs (scause r) (sepc r) (stval r) (spp r) (f (spie r)) (stvec r) (satp r) (stimecmp r) (time r).
#[export] Instance set_stvec : Setter stvec := fun f r => mkCsrs (scause r) (sepc r) (stval r) (spp r) (spie r) (f (stvec r)) (satp r) (stimecmp r) (time r).
#[export] Instance set_satp : Setter satp := fun f r => mkCsrs (scause r) (sepc r) (stval r) (spp r) (spie r) (stvec r) (f (satp r)) (stimecmp r) (time r).
#[export] Instance set_stimecmp : Setter stimecmp := fun f r => mkCsrs (scause r) (sepc r) (stval r) (spp r) (spie r) (stvec r) (satp r) (f (stimecmp r)) (time r).
#[export] Instance set_time : Setter time := fun f r => mkCsrs (scause r) (sepc r) (stval r) (spp r) (spie r) (stvec r) (satp r) (stimecmp r) (f (time r)).

(** ** Processes *)

Inductive procstate := UNUSED | USED | SLEEPING | RUNNABLE | RUNNING | ZOMBIE.
#[export] Instance procstate_eq_dec : EqDecision procstate.
Proof. solve_decision. Defined.

(** [struct proc]; pointers into static tables are indices, [NULL] is [None] or
    address 0. *)
Record proc := mkProc {
  state : procstate;
  chan : option channel;
  killed_flag : Z;
  xstate : Z;
  pid : Z;
  waiting_tick : Z;
  parent : option nat;
  kstack : Z;
  sz : Z;
  pagetable : Z;
  trapframe : Z;
  context_ra : Z;
  context_sp : Z;
  ofile : list (option nat);
  cwd : option nat;
  name : list Z;
  cpu_quota : Z;
  cpu_used_in_window : Z;
  throttled : Z;
  quota_violations : Z
}.
#[export] Instance set_state : Setter state := fun f r => mkProc (f (state r)) (chan r) (killed_flag r) (xstate r) (pid r) (waiting_tick r) (parent r) (kstack r) (sz r) (pagetable r) (trapframe r) (context_ra r) (context_sp r) (ofile r) (cwd r) (name r) (cpu_quota r) (cpu_used_in_window r) (throttled r) (quota_violations r).
#[export] Instance set_chan : Setter chan := fun f r => mkProc (state r) (f (chan r)) (killed_flag r) (xstate r) (pid r) (waiting_tick r) (parent r) (kstack r) (sz r) (pagetable r) (trapframe r) (context_ra r) (context_sp r) (ofile r) (cwd r) (name r) (cpu_quota r) (cpu_used_in_window r) (throttled r) (quota_violations r).
#[export] Instance set_killed_flag : Setter killed_flag := fun f r => mkProc (state r) (chan r) (f (killed_flag r)) (xstate r) (pid r) (waiting_tick r) (parent r) (kstack r) (sz r) (pagetable r) (trapframe r) (context_ra r) (context_sp r) (ofile r) (cwd r) (name r) (cpu_quota r) (cpu_used_in_window r) (throttled r) (quota_violations r).
#[export] Instance set_xstate : Setter xstate := fun f r => mkProc (state r) (chan r) (killed_flag r) (f (xstate r)) (pid r) (waiting_tick r) (parent r) (kstack r) (sz r) (pagetable r) (trapframe r) (context_ra r) (context_sp r) (ofile r) (cwd r) (name r) (cpu_quota r) (cpu_used_in_window r) (throttled r) (quota_violations r).
#[export] Instance set_pid : Setter pid := fun f r => mkProc (state r) (chan r) (killed_flag r) (xstate r) (f (pid r)) (waiting_tick r) (parent r) (kstack r) (sz r) (pagetable r) (trapframe r) (context_ra r) (context_sp r) (ofile r) (cwd r) (name r) (cpu_quota r) (cpu_used_in_window r) (throttled r) (quota_violations r).
#[export] Instance set_waiting_tick : Setter waiting_tick := fun f r => mkProc (state r) (chan r) (killed_flag r) (xstate r) (pid r) (f (waiting_tick r)) (parent r) (kstack r) (sz r) (pagetable r) (trapframe r) (context_ra r) (context_sp r) (ofile r) (cwd r) (name r) (cpu_quota r) (cpu_used_in_window r) (throttled r) (quota_violations r).
#[export] Instance set_parent : Setter parent := fun f r => mkProc (state r) (chan r) (killed_flag r) (xstate r) (pid r) (waiting_tick r) (f (parent r)) (kstack r) (sz r) (pagetable r) (trapframe r) (context_ra r) (context_sp r) (ofile r) (cwd r) (name r) (cpu_quota r) (cpu_used_in_window r) (throttled r) (quota_violations r).
#[export] Instance set_kstack : Setter kstack := fun f r => mkProc (state r) (chan r) (killed_flag r) (xstate r) (pid r) (waiting_tick r) (parent r) (f (kstack r)) (sz r) (pagetable r) (trapframe r) (context_ra r) (context_sp r) (ofile r) (cwd r) (name r) (cpu_quota r) (cpu_used_in_window r) (throttled r) (quota_violations r).
#[export] Instance set_sz : Setter sz := fun f r => mkProc (state r) (chan r) (killed_flag r) (xstate r) (pid r) (waiting_tick r) (parent r) (kstack r) (f (sz r)) (pagetable r) (trapframe r) (context_ra r) (context_sp r) (ofile r) (cwd r) (name r) (cpu_quota r) (cpu_used_in_window r) (throttled r) (quota_violations r).
#[export] Instance set_pagetable : Setter pagetable := fun f r => mkProc (state r) (chan r) (killed_flag r) (xstate r) (pid r) (waiting_tick r) (parent r) (kstack r) (sz r) (f (pagetable r)) (trapframe r) (context_ra r) (context_sp r) (ofile r) (cwd r) (name r) (cpu_quota r) (cpu_used_in_window r) (throttled r) (quota_violations r).
#[export] Instance set_trapframe : Setter trapframe := fun f r => mkProc (state r) (chan r) (killed_flag r) (xstate r) (pid r) (waiting_tick r) (parent r) (kstack r) (sz r) (pagetable r) (f (trapframe r)) (context_ra r) (context_sp r) (ofile r) (cwd r) (name r) (cpu_quota r) (cpu_used_in_window r) (throttled r) (quota_violations r).
#[export] Instance set_context_ra : Setter context_ra := fun f r => mkProc (state r) (chan r) (killed_flag r) (xstate r) (pid r) (waiting_tick r) (parent r) (kstack r) (sz r) (pagetable r) (trapframe r) (f (context_ra r)) (context_sp r) (ofile r) (cwd r) (name r) (cpu_quota r) (cpu_used_in_window r) (throttled r) (quota_violations r).
#[export] Instance set_context_sp : Setter context_sp := fun f r => mkProc (state r) (chan r) (killed_flag r) (xstate r) (pid r) (waiting_tick r) (parent r) (kstack r) (sz r) (pagetable r) (trapframe r) (context_ra r) (f (context_sp r)) (ofile r) (cwd r) (name r) (cpu_quota r) (cpu_used_in_window r) (throttled r) (quota_violations r).
#[export] Instance set_ofile : Setter ofile := fun f r => mkProc (state r) (chan r) (killed_flag r) (xstate r) (pid r) (waiting_tick r) (parent r) (kstack r) (sz r) (pagetable r) (trapframe r) (context_ra r) (context_sp r) (f (ofile r)) (cwd r) (name r) (cpu_quota r) (cpu_used_in_window r) (throttled r) (quota_violations r).
#[export] Instance set_cwd : Setter cwd := fun f r => mkProc (state r) (chan r) (killed_flag r) (xstate r) (pid r) (waiting_tick r) (parent r) (kstack r) (sz r) (pagetable r) (trapframe r) (context_ra r) (context_sp r) (ofile r) (f (cwd r)) (name r) (cpu_quota r) (cpu_used_in_window r) (throttled r) (quota_violations r).
#[export] Instance set_name : Setter name := fun f r => mkProc (state r) (chan r) (killed_flag r) (xstate r) (pid r) (waiting_tick r) (parent r) (kstack r) (sz r) (pagetable r) (trapframe r) (context_ra r) (context_sp r) (ofile r) (cwd r) (f (name r)) (cpu_quota r) (cpu_used_in_window r) (throttled r) (quota_violations r).
#[export] Instance set_cpu_quota : Setter cpu_quota := fun f r => mkProc (state r) (chan r) (killed_flag r) (xstate r) (pid r) (waiting_tick r) (parent r) (kstack r) (sz r) (pagetable r) (trapframe r) (context_ra r) (context_sp r) (ofile r) (cwd r) (name r) (f (cpu_quota r)) (cpu_used_in_window r) (throttled r) (quota_violations r).
#[export] Instance set_cpu_used_in_window : Setter cpu_used_in_window := fun f r => mkProc (state r) (chan r) (killed_flag r) (xstate r) (pid r) (waiting_tick r) (parent r) (kstack r) (sz r) (pagetable r) (trapframe r) (context_ra r) (context_sp r) (ofile r) (cwd r) (name r) (cpu_quota r) (f (cpu_used_in_window r)) (throttled r) (quota_violations r).
#[export] Instance set_throttled : Setter throttled := fun f r => mkProc (state r) (chan r) (killed_flag r) (xstate r) (pid r) (waiting_tick r) (parent r) (kstack r) (sz r) (pagetable r) (trapframe r) (context_ra r) (context_sp r) (ofile r) (cwd r) (name r) (cpu_quota r) (cpu_used_in_window r) (f (throttled r)) (quota_violations r).
#[export] Instance set_quota_violations : Setter quota_violations := fun f r => mkProc (state r) (chan r) (killed_flag r) (xstate r) (pid r) (waiting_tick r) (parent r) (kstack r) (sz r) (pagetable r) (trapframe r) (context_ra r) (context_sp r) (ofile r) (cwd r) (name r) (cpu_quota r) (cpu_used_in_window r) (throttled r) (f (quota_violations r)).

(** ** Files, pipes, inodes, buffers, log *)

Inductive ftype := FD_NONE | FD_PIPE | FD_INODE | FD_DEVICE.
#[export] Instance ftype_eq_dec : EqDecision ftype.
Proof. solve_decision. Defined.

(** [struct file] *)
Record file := mkFile {
  f_type : ftype;
  f_ref : Z;
  readable : Z;
  writable : Z;
  f_pipe : Z;
  f_ip : option nat;
  f_off : Z;
  f_major : Z
}.
#[export] Instance set_f_type : Setter f_type := fun f r => mkFile (f (f_type r)) (f_ref r) (readable r) (writable r) (f_pipe r) (f_ip r) (f_off r) (f_major r).
#[export] Instance set_f_ref : Setter f_ref := fun f r => mkFile (f_type r) (f (f_ref r)) (readable r) (writable r) (f_pipe r) (f_ip r) (f_off r) (f_major r).
#[export] Instance set_readable : Setter readable := fun f r => mkFile (f_type r) (f_ref r) (f (readable r)) (writable r) (f_pipe r) (f_ip r) (f_off r) (f_major r).
#[export] Instance set_writable : Setter writable := fun f r => mkFile (f_type r) (f_ref r) (readable r) (f (writable r)) (f_pipe r) (f_ip r) (f_off r) (f_major r).
#[export] Instance set_f_pipe : Setter f_pipe := fun f r => mkFile (f_type r) (f_ref r) (readable r) (writable r) (f (f_pipe r)) (f_ip r) (f_off r) (f_major r).
#[export] Instance set_f_ip : Setter f_ip := fun f r => mkFile (f_type r) (f_ref r) (readable r) (writable r) (f_pipe r) (f (f_ip r)) (f_off r) (f_major r).
#[export] Instance set_f_off : Setter f_off := fun f r => mkFile (f_type r) (f_ref r) (readable r) (writable r) (f_pipe r) (f_ip r) (f (f_off r)) (f_major r).
#[export] Instance set_f_major : Setter f_major := fun f r => mkFile (f_type r) (f_ref r) (readable r) (writable r) (f_pipe r) (f_ip r) (f_off r) (f (f_major r)).

(** [struct pipe]: the spin lock is [LkPipe], [data] the ring of [PIPESIZE] bytes.
    *)
Record pipe := mkPipe {
  p_data : list Z;
  nread : Z;
  nwrite : Z;
  readopen : Z;
  writeopen : Z;
  want : list Z;
  turn : Z
}.
#[export] Instance set_p_data : Setter p_data := fun f r => mkPipe (f (p_data r)) (nread r) (nwrite r) (readopen r) (writeopen r) (want r) (turn r).
#[export] Instance set_nread : Setter nread := fun f r => mkPipe (p_data r) (f (nread r)) (nwrite r) (readopen r) (writeopen r) (want r) (turn r).
#[export] Instance set_nwrite : Setter nwrite := fun f r => mkPipe (p_data r) (nread r) (f (nwrite r)) (readopen r) (writeopen r) (want r) (turn r).
#[export] Instance set_readopen : Setter readopen := fun f r => mkPipe (p_data r) (nread r) (nwrite r) (f (readopen r)) (writeopen r) (want r) (turn r).
#[export] Instance set_writeopen : Setter writeopen := fun f r => mkPipe (p_data r) (nread r) (nwrite r) (readopen r) (f (writeopen r)) (want r) (turn r).
#[export] Instance set_want : Setter want := fun f r => mkPipe (p_data r) (nread r) (nwrite r) (readopen r) (writeopen r) (f (want r)) (turn r).
#[export] Instance set_turn : Setter turn := fun f r => mkPipe (p_data r) (nread r) (nwrite r) (readopen r) (writeopen r) (want r) (f (turn r)).

(** [struct superblock] *)
Record superblock := mkSuperblock {
  sb_magic : Z;
  sb_size : Z;
  sb_nblocks : Z;
  sb_ninodes : Z;
  sb_nlog : Z;
  sb_logstart : Z;
  sb_inodestart : Z;
  sb_bmapstart : Z
}.
#[export] Instance set_sb_magic : Setter sb_magic := fun f r => mkSuperblock (f (sb_magic r)) (sb_size r) (sb_nblocks r) (sb_ninodes r) (sb_nlog r) (sb_logstart r) (sb_inodestart r) (sb_bmapstart r).
#[export] Instance set_sb_size : Setter sb_size := fun f r => mkSuperblock (sb_magic r) (f (sb_size r)) (sb_nblocks r) (sb_ninodes r) (sb_nlog r) (sb_logstart r) (sb_inodestart r) (sb_bmapstart r).
#[export] Instance set_sb_nblocks : Setter sb_nblocks := fun f r => mkSuperblock (sb_magic r) (sb_size r) (f (sb_nblocks r)) (sb_ninodes r) (sb_nlog r) (sb_logstart r) (sb_inodestart r) (sb_bmapstart r).
#[export] Instance set_sb_ninodes : Setter sb_ninodes := fun f r => mkSuperblock (sb_magic r) (sb_size r) (sb_nblocks r) (f (sb_ninodes r)) (sb_nlog r) (sb_logstart r) (sb_inodestart r) (sb_bmapstart r).
#[export] Instance set_sb_nlog : Setter sb_nlog := fun f r => mkSuperblock (sb_magic r) (sb_size r) (sb_nblocks r) (sb_ninodes r) (f (sb_nlog r)) (sb_logstart r) (sb_inodestart r) (sb_bmapstart r).
#[export] Instance set_sb_logstart : Setter sb_logstart := fun f r => mkSuperblock (sb_magic r) (sb_size r) (sb_nblocks r) (sb_ninodes r) (sb_nlog r) (f (sb_logstart r)) (sb_inodestart r) (sb_bmapstart r).
#[export] Instance set_sb_inodestart : Setter sb_inodestart := fun f r => mkSuperblock (sb_magic r) (sb_size r) (sb_nblocks r) (sb_ninodes r) (sb_nlog r) (sb_logstart r) (f (sb_inodestart r)) (sb_bmapstart r).
#[export] Instance set_sb_bmapstart : Setter sb_bmapstart := fun f r => mkSuperblock (sb_magic r) (sb_size r) (sb_nblocks r) (sb_ninodes r) (sb_nlog r) (sb_logstart r) (sb_inodestart r) (f (sb_bmapstart r)).

(** [struct inode]: the in-memory copy; the sleep lock is [SlInode]. *)
Record inode := mkInode {
  i_dev : Z;
  i_inum : Z;
  i_ref : Z;
  i_valid : Z;
  i_type : Z;
  i_major : Z;
  i_minor : Z;
  i_nlink : Z;
  i_size : Z;
  i_addrs : list Z
}.
#[export] Instance set_i_dev : Setter i_dev := fun f r => mkInode (f (i_dev r)) (i_inum r) (i_ref r) (i_valid r) (i_type r) (i_major r) (i_minor r) (i_nlink r) (i_size r) (i_addrs r).
#[export] Instance set_i_inum : Setter i_inum := fun f r => mkInode (i_dev r) (f (i_inum r)) (i_ref r) (i_valid r) (i_type r) (i_major r) (i_minor r) (i_nlink r) (i_size r) (i_addrs r).
#[export] Instance set_i_ref : Setter i_ref := fun f r => mkInode (i_dev r) (i_inum r) (f (i_ref r)) (i_valid r) (i_type r) (i_major r) (i_minor r) (i_nlink r) (i_size r) (i_addrs r).
#[export] Instance set_i_valid : Setter i_valid := fun f r => mkInode (i_dev r) (i_inum r) (i_ref r) (f (i_valid r)) (i_type r) (i_major r) (i_minor r) (i_nlink r) (i_size r) (i_addrs r).
#[export] Instance set_i_type : Setter i_type := fun f r => mkInode (i_dev r) (i_inum r) (i_ref r) (i_valid r) (f (i_type r)) (i_major r) (i_minor r) (i_nlink r) (i_size r) (i_addrs r).
#[export] Instance set_i_major : Setter i_major := fun f r => mkInode (i_dev r) (i_inum r) (i_ref r) (i_valid r) (i_type r) (f (i_major r)) (i_minor r) (i_nlink r) (i_size r) (i_addrs r).
#[export] Instance set_i_minor : Setter i_minor := fun f r => mkInode (i_dev r) (i_inum r) (i_ref r) (i_valid r) (i_type r) (i_major r) (f (i_minor r)) (i_nlink r) (i_size r) (i_addrs r).
#[export] Instance set_i_nlink : Setter i_nlink := fun f r => mkInode (i_dev r) (i_inum r) (i_ref r) (i_valid r) (i_type r) (i_major r) (i_minor r) (f (i_nlink r)) (i_size r) (i_addrs r).
#[export] Instance set_i_size : Setter i_size := fun f r => mkInode (i_dev r) (i_inum r) (i_ref r) (i_valid r) (i_type r) (i_major r) (i_minor r) (i_nlink r) (f (i_size r)) (i_addrs r).
#[export] Instance set_i_addrs : Setter i_addrs := fun f r => mkInode (i_dev r) (i_inum r) (i_ref r) (i_valid r) (i_type r) (i_major r) (i_minor r) (i_nlink r) (i_size r) (f (i_addrs r)).

(** [struct buf]; [prev] and [next] are indices, [NBUF] standing for [bcache.head].
    *)
Record buf := mkBuf {
  b_valid : Z;
  b_disk : Z;
  b_dev : Z;
  b_blockno : Z;
  b_refcnt : Z;
  b_prev : nat;
  b_next : nat;
  b_data : list Z
}.
#[export] Instance set_b_valid : Setter b_valid := fun f r => mkBuf (f (b_valid r)) (b_disk r) (b_dev r) (b_blockno r) (b_refcnt r) (b_prev r) (b_next r) (b_data r).
#[export] Instance set_b_disk : Setter b_disk := fun f r => mkBuf (b_valid r) (f (b_disk r)) (b_dev r) (b_blockno r) (b_refcnt r) (b_prev r) (b_next r) (b_data r).
#[export] Instance set_b_dev : Setter b_dev := fun f r => mkBuf (b_valid r) (b_disk r) (f (b_dev r)) (b_blockno r) (b_refcnt r) (b_prev r) (b_next r) (b_data r).
#[export] Instance set_b_blockno : Setter b_blockno := fun f r => mkBuf (b_valid r) (b_disk r) (b_dev r) (f (b_blockno r)) (b_refcnt r) (b_prev r) (b_next r) (b_data r).
#[export] Instance set_b_refcnt : Setter b_refcnt := fun f r => mkBuf (b_valid r) (b_disk r) (b_dev r) (b_blockno r) (f (b_refcnt r)) (b_prev r) (b_next r) (b_data r).
#[export] Instance set_b_prev : Setter b_prev := fun f r => mkBuf (b_valid r) (b_disk r) (b_dev r) (b_blockno r) (b_refcnt r) (f (b_prev r)) (b_next r) (b_data r).
#[export] Instance set_b_next : Setter b_next := fun f r => mkBuf (b_valid r) (b_disk r) (b_dev r) (b_blockno r) (b_refcnt r) (b_prev r) (f (b_next r)) (b_data r).
#[export] Instance set_b_data : Setter b_data := fun f r => mkBuf (b_valid r) (b_disk r) (b_dev r) (b_blockno r) (b_refcnt r) (b_prev r) (b_next r) (f (b_data r)).

(** [struct logheader] *)
Record logheader := mkLogheader {
  lh_n : Z;
  lh_block : list Z
}.
#[export] Instance set_lh_n : Setter lh_n := fun f r => mkLogheader (f (lh_n r)) (lh_block r).
#[export] Instance set_lh_block : Setter lh_block := fun f r => mkLogheader (lh_n r) (f (lh_block r)).

(** [struct log] *)
Record logst := mkLog {
  lg_start : Z;
  outstanding : Z;
  committing : Z;
  lg_dev : Z;
  lh : logheader
}.
#[export] Instance set_lg_start : Setter lg_start := fun f r => mkLog (f (lg_start r)) (outstanding r) (committing r) (lg_dev r) (lh r).
#[export] Instance set_outstanding : Setter outstanding := fun f r => mkLog (lg_start r) (f (outstanding r)) (committing r) (lg_dev r) (lh r).
#[export] Instance set_committing : Setter committing := fun f r => mkLog (lg_start r) (outstanding r) (f (committing r)) (lg_dev r) (lh r).
#[export] Instance set_lg_dev : Setter lg_dev := fun f r => mkLog (lg_start r) (outstanding r) (committing r) (f (lg_dev r)) (lh r).
#[export] Instance set_lh : Setter lh := fun f r => mkLog (lg_start r) (outstanding r) (committing r) (lg_dev r) (f (lh r)).

(** The console's input ring. *)
Record console := mkConsole {
  c_buf : list Z;
  c_r : Z;
  c_w : Z;
  c_e : Z
}.
#[export] Instance set_c_buf : Setter c_buf := fun f r => mkConsole (f (c_buf r)) (c_r r) (c_w r) (c_e r).
#[export] Instance set_c_r : Setter c_r := fun f r => mkConsole (c_buf r) (f (c_r r)) (c_w r) (c_e r).
#[export] Instance set_c_w : Setter c_w := fun f r => mkConsole (c_buf r) (c_r r) (f (c_w r)) (c_e r).
#[export] Instance set_c_e : Setter c_e := fun f r => mkConsole (c_buf r) (c_r r) (c_w r) (f (c_e r)).

(** What a virtio descriptor points at: nothing, [disk.ops[i]], the data of a
    buffer, or [disk.info[i].status]. *)
Inductive dptr := DNull | DOp (i : Z) | DData (b : nat) | DStatus (i : Z).

(** [struct virtq_desc] *)
Record vdesc := mkVdesc {
  d_addr : dptr;
  d_len : Z;
  d_flags : Z;
  d_next : Z
}.
#[export] Instance set_d_addr : Setter d_addr := fun f r => mkVdesc (f (d_addr r)) (d_len r) (d_flags r) (d_next r).
#[export] Instance set_d_len : Setter d_len := fun f r => mkVdesc (d_addr r) (f (d_len r)) (d_flags r) (d_next r).
#[export] Instance set_d_flags : Setter d_flags := fun f r => mkVdesc (d_addr r) (d_len r) (f (d_flags r)) (d_next r).
#[export] Instance set_d_next : Setter d_next := fun f r => mkVdesc (d_addr r) (d_len r) (d_flags r) (f (d_next r)).

(** [struct disk] of the virtio driver; [vd_avail_idx] and [vd_used_dev_idx] are the
    [idx] fields of the shared rings, [vd_used_ring] the [id]s the device wrote. *)
Record vdiskst := mkVdisk {
  vd_desc : list vdesc;
  vd_avail_ring : list Z;
  vd_avail_idx : Z;
  vd_used_ring : list Z;
  vd_used_dev_idx : Z;
  vd_free : list Z;
  vd_used_idx : Z;
  vd_info_b : list (option nat);
  vd_info_status : list Z;
  vd_ops_type : list Z;
  vd_ops_sector : list Z
}.
#[export] Instance set_vd_desc : Setter vd_desc := fun f r => mkVdisk (f (vd_desc r)) (vd_avail_ring r) (vd_avail_idx r) (vd_used_ring r) (vd_used_dev_idx r) (vd_free r) (vd_used_idx r) (vd_info_b r) (vd_info_status r) (vd_ops_type r) (vd_ops_sector r).
#[export] Instance set_vd_avail_ring : Setter vd_avail_ring := fun f r => mkVdisk (vd_desc r) (f (vd_avail_ring r)) (vd_avail_idx r) (vd_used_ring r) (vd_used_dev_idx r) (vd_free r) (vd_used_idx r) (vd_info_b r) (vd_info_status r) (vd_ops_type r) (vd_ops_sector r).
#[export] Instance set_vd_avail_idx : Setter vd_avail_idx := fun f r => mkVdisk (vd_desc r) (vd_avail_ring r) (f (vd_avail_idx r)) (vd_used_ring r) (vd_used_dev_idx r) (vd_free r) (vd_used_idx r) (vd_info_b r) (vd_info_status r) (vd_ops_type r) (vd_ops_sector r).
#[export] Instance set_vd_used_ring : Setter vd_used_ring := fun f r => mkVdisk (vd_desc r) (vd_avail_ring r) (vd_avail_idx r) (f (vd_used_ring r)) (vd_used_dev_idx r) (vd_free r) (vd_used_idx r) (vd_info_b r) (vd_info_status r) (vd_ops_type r) (vd_ops_sector r).
#[export] Instance set_vd_used_dev_idx : Setter vd_used_dev_idx := fun f r => mkVdisk (vd_desc r) (vd_avail_ring r) (vd_avail_idx r) (vd_used_ring r) (f (vd_used_dev_idx r)) (vd_free r) (vd_used_idx r) (vd_info_b r) (vd_info_status r) (vd_ops_type r) (vd_ops_sector r).
#[export] Instance set_vd_free : Setter vd_free := fun f r => mkVdisk (vd_desc r) (vd_avail_ring r) (vd_avail_idx r) (vd_used_ring r) (vd_used_dev_idx r) (f (vd_free r)) (vd_used_idx r) (vd_info_b r) (vd_info_status r) (vd_ops_type r) (vd_ops_sector r).
#[export] Instance set_vd_used_idx : Setter vd_used_idx := fun f r => mkVdisk (vd_desc r) (vd_avail_ring r) (vd_avail_idx r) (vd_used_ring r) (vd_used_dev_idx r) (vd_free r) (f (vd_used_idx r)) (vd_info_b r) (vd_info_status r) (vd_ops_type r) (vd_ops_sector r).
#[export] Instance set_vd_info_b : Setter vd_info_b := fun f r => mkVdisk (vd_desc r) (vd_avail_ring r) (vd_avail_idx r) (vd_used_ring r) (vd_used_dev_idx r) (vd_free r) (vd_used_idx r) (f (vd_info_b r)) (vd_info_status r) (vd_ops_type r) (vd_ops_sector r).
#[export] Instance set_vd_info_status : Setter vd_info_status := fun f r => mkVdisk (vd_desc r) (vd_avail_ring r) (vd_avail_idx r) (vd_used_ring r) (vd_used_dev_idx r) (vd_free r) (vd_used_idx r) (vd_info_b r) (f (vd_info_status r)) (vd_ops_type r) (vd_ops_sector r).
#[export] Instance set_vd_ops_type : Setter vd_ops_type := fun f r => mkVdisk (vd_desc r) (vd_avail_ring r) (vd_avail_idx r) (vd_used_ring r) (vd_used_dev_idx r) (vd_free r) (vd_used_idx r) (vd_info_b r) (vd_info_status r) (f (vd_ops_type r)) (vd_ops_sector r).
#[export] Instance set_vd_ops_sector : Setter vd_ops_sector := fun f r => mkVdisk (vd_desc r) (vd_avail_ring r) (vd_avail_idx r) (vd_used_ring r) (vd_used_dev_idx r) (vd_free r) (vd_used_idx r) (vd_info_b r) (vd_info_status r) (vd_ops_type r) (f (vd_ops_sector r)).

(** ** The whole kernel *)

(** All static data of the kernel, RAM, the disk, and what was printed.  [devsw]
    says which devices have their functions installed (only the console's exist);
    [uart_rx], [uart_tx_idle] and [irqs] are what the UART and the PLIC present
    next; [first] is the flag of [forkret], [started] the one of [main]; [mmio]
    lists the writes to the PLIC's and the disk's registers. *)
Record kernel := mkKernel {
  hw : hart;
  csr : csrs;
  mem : Z -> Z;
  freelist : Z;
  procs : list proc;
  nextpid : Z;
  initproc : option nat;
  ticks : Z;
  quota_window_start : Z;
  eco_mode : Z;
  ftable : list file;
  pipes : gmap Z pipe;
  itable : list inode;
  sb : superblock;
  bufs : list buf;
  log : logst;
  sleeplocks : gmap slid sleeplock;
  disk : gmap Z (list Z);
  dwrites : list (Z * list Z);
  kcons : console;
  devsw : list bool;
  tx_busy : Z;
  uart_rx : list Z;
  uart_tx_idle : bool;
  irqs : list Z;
  first : Z;
  started : Z;
  vdisk : vdiskst;
  mmio : list (Z * Z);
  kpagetable : Z;
  out : list Z
}.
#[export] Instance set_hw : Setter hw := fun f r => mkKernel (f (hw r)) (csr r) (mem r) (freelist r) (procs r) (nextpid r) (initproc r) (ticks r) (quota_window_start r) (eco_mode r) (ftable r) (pipes r) (itable r) (sb r) (bufs r) (log r) (sleeplocks r) (disk r) (dwrites r) (kcons r) (devsw r) (tx_busy r) (uart_rx r) (uart_tx_idle r) (irqs r) (first r) (started r) (vdisk r) (mmio r) (kpagetable r) (out r).
#[export] Instance set_csr : Setter csr := fun f r => mkKernel (hw r) (f (csr r)) (mem r) (freelist r) (procs r) (nextpid r) (initproc r) (ticks r) (quota_window_start r) (eco_mode r) (ftable r) (pipes r) (itable r) (sb r) (bufs r) (log r) (sleeplocks r) (disk r) (dwrites r) (kcons r) (devsw r) (tx_busy r) (uart_rx r) (uart_tx_idle r) (irqs r) (first r) (started r) (vdisk r) (mmio r) (kpagetable r) (out r).
#[export] Instance set_mem : Setter mem := fun f r => mkKernel (hw r) (csr r) (f (mem r)) (freelist r) (procs r) (nextpid r) (initproc r) (ticks r) (quota_window_start r) (eco_mode r) (ftable r) (pipes r) (itable r) (sb r) (bufs r) (log r) (sleeplocks r) (disk r) (dwrites r) (kcons r) (devsw r) (tx_busy r) (uart_rx r) (uart_tx_idle r) (irqs r) (first r) (started r) (vdisk r) (mmio r) (kpagetable r) (out r).
#[export] Instance set_freelist : Setter freelist := fun f r => mkKernel (hw r) (csr r) (mem r) (f (freelist r)) (procs r) (nextpid r) (initproc r) (ticks r) (quota_window_start r) (eco_mode r) (ftable r) (pipes r) (itable r) (sb r) (bufs r) (log r) (sleeplocks r) (disk r) (dwrites r) (kcons r) (devsw r) (tx_busy r) (uart_rx r) (uart_tx_idle r) (irqs r) (first r) (started r) (vdisk r) (mmio r) (kpagetable r) (out r).
#[export] Instance set_procs : Setter procs := fun f r => mkKernel (hw r) (csr r) (mem r) (freelist r) (f (procs r)) (nextpid r) (initproc r) (ticks r) (quota_window_start r) (eco_mode r) (ftable r) (pipes r) (itable r) (sb r) (bufs r) (log r) (sleeplocks r) (disk r) (dwrites r) (kcons r) (devsw r) (tx_busy r) (uart_rx r) (uart_tx_idle r) (irqs r) (first r) (started r) (vdisk r) (mmio r) (kpagetable r) (out r).
#[export] Instance set_nextpid : Setter nextpid := fun f r => mkKernel (hw r) (csr r) (mem r) (freelist r) (procs r) (f (nextpid r)) (initproc r) (ticks r) (quota_window_start r) (eco_mode r) (ftable r) (pipes r) (itable r) (sb r) (bufs r) (log r) (sleeplocks r) (disk r) (dwrites r) (kcons r) (devsw r) (tx_busy r) (uart_rx r) (uart_tx_idle r) (irqs r) (first r) (started r) (vdisk r) (mmio r) (kpagetable r) (out r).
#[export] Instance set_initproc : Setter initproc := fun f r => mkKernel (hw r) (csr r) (mem r) (freelist r) (procs r) (nextpid r) (f (initproc r)) (ticks r) (quota_window_start r) (eco_mode r) (ftable r) (pipes r) (itable r) (sb r) (bufs r) (log r) (sleeplocks r) (disk r) (dwrites r) (kcons r) (devsw r) (tx_busy r) (uart_rx r) (uart_tx_idle r) (irqs r) (first r) (started r) (vdisk r) (mmio r) (kpagetable r) (out r).
#[export] Instance set_ticks : Setter ticks := fun f r => mkKernel (hw r) (csr r) (mem r) (freelist r) (procs r) (nextpid r) (initproc r) (f (ticks r)) (quota_window_start r) (eco_mode r) (ftable r) (pipes r) (itable r) (sb r) (bufs r) (log r) (sleeplocks r) (disk r) (dwrites r) (kcons r) (devsw r) (tx_busy r) (uart_rx r) (uart_tx_idle r) (irqs r) (first r) (started r) (vdisk r) (mmio r) (kpagetable r) (out r).
#[export] Instance set_quota_window_start : Setter quota_window_start := fun f r => mkKernel (hw r) (csr r) (mem r) (freelist r) (procs r) (nextpid r) (initproc r) (ticks r) (f (quota_window_start r)) (eco_mode r) (ftable r) (pipes r) (itable r) (sb r) (bufs r) (log r) (sleeplocks r) (disk r) (dwrites r) (kcons r) (devsw r) (tx_busy r) (uart_rx r) (uart_tx_idle r) (irqs r) (first r) (started r) (vdisk r) (mmio r) (kpagetable r) (out r).
#[export] Instance set_eco_mode : Setter eco_mode := fun f r => mkKernel (hw r) (csr r) (mem r) (freelist r) (procs r) (nextpid r) (initproc r) (ticks r) (quota_window_start r) (f (eco_mode r)) (ftable r) (pipes r) (itable r) (sb r) (bufs r) (log r) (sleeplocks r) (disk r) (dwrites r) (kcons r) (devsw r) (tx_busy r) (uart_rx r) (uart_tx_idle r) (irqs r) (first r) (started r) (vdisk r) (mmio r) (kpagetable r) (out r).
#[export] Instance set_ftable : Setter ftable := fun f r => mkKernel (hw r) (csr r) (mem r) (freelist r) (procs r) (nextpid r) (initproc r) (ticks r) (quota_window_start r) (eco_mode r) (f (ftable r)) (pipes r) (itable r) (sb r) (bufs r) (log r) (sleeplocks r) (disk r) (dwrites r) (kcons r) (devsw r) (tx_busy r) (uart_rx r) (uart_tx_idle r) (irqs r) (first r) (started r) (vdisk r) (mmio r) (kpagetable r) (out r).
#[export] Instance set_pipes : Setter pipes := fun f r => mkKernel (hw r) (csr r) (mem r) (freelist r) (procs r) (nextpid r) (initproc r) (ticks r) (quota_window_start r) (eco_mode r) (ftable r) (f (pipes r)) (itable r) (sb r) (bufs r) (log r) (sleeplocks r) (disk r) (dwrites r) (kcons r) (devsw r) (tx_busy r) (uart_rx r) (uart_tx_idle r) (irqs r) (first r) (started r) (vdisk r) (mmio r) (kpagetable r) (out r).
#[export] Instance set_itable : Setter itable := fun f r => mkKernel (hw r) (csr r) (mem r) (freelist r) (procs r) (nextpid r) (initproc r) (ticks r) (quota_window_start r) (eco_mode r) (ftable r) (pipes r) (f (itable r)) (sb r) (bufs r) (log r) (sleeplocks r) (disk r) (dwrites r) (kcons r) (devsw r) (tx_busy r) (uart_rx r) (uart_tx_idle r) (irqs r) (first r) (started r) (vdisk r) (mmio r) (kpagetable r) (out r).
#[export] Instance set_sb : Setter sb := fun f r => mkKernel (hw r) (csr r) (mem r) (freelist r) (procs r) (nextpid r) (initproc r) (ticks r) (quota_window_start r) (eco_mode r) (ftable r) (pipes r) (itable r) (f (sb r)) (bufs r) (log r) (sleeplocks r) (disk r) (dwrites r) (kcons r) (devsw r) (tx_busy r) (uart_rx r) (uart_tx_idle r) (irqs r) (first r) (started r) (vdisk r) (mmio r) (kpagetable r) (out r).
#[export] Instance set_bufs : Setter bufs := fun f r => mkKernel (hw r) (csr r) (mem r) (freelist r) (procs r) (nextpid r) (initproc r) (ticks r) (quota_window_start r) (eco_mode r) (ftable r) (pipes r) (itable r) (sb r) (f (bufs r)) (log r) (sleeplocks r) (disk r) (dwrites r) (kcons r) (devsw r) (tx_busy r) (uart_rx r) (uart_tx_idle r) (irqs r) (first r) (started r) (vdisk r) (mmio r) (kpagetable r) (out r).
#[export] Instance set_log : Setter log := fun f r => mkKernel (hw r) (csr r) (mem r) (freelist r) (procs r) (nextpid r) (initproc r) (ticks r) (quota_window_start r) (eco_mode r) (ftable r) (pipes r) (itable r) (sb r) (bufs r) (f (log r)) (sleeplocks r) (disk r) (dwrites r) (kcons r) (devsw r) (tx_busy r) (uart_rx r) (uart_tx_idle r) (irqs r) (first r) (started r) (vdisk r) (mmio r) (kpagetable r) (out r).
#[export] Instance set_sleeplocks : Setter sleeplocks := fun f r => mkKernel (hw r) (csr r) (mem r) (freelist r) (procs r) (nextpid r) (initproc r) (ticks r) (quota_window_start r) (eco_mode r) (ftable r) (pipes r) (itable r) (sb r) (bufs r) (log r) (f (sleeplocks r)) (disk r) (dwrites r) (kcons r) (devsw r) (tx_busy r) (uart_rx r) (uart_tx_idle r) (irqs r) (first r) (started r) (vdisk r) (mmio r) (kpagetable r) (out r).
#[export] Instance set_disk : Setter disk := fun f r => mkKernel (hw r) (csr r) (mem r) (freelist r) (procs r) (nextpid r) (initproc r) (ticks r) (quota_window_start r) (eco_mode r) (ftable r) (pipes r) (itable r) (sb r) (bufs r) (log r) (sleeplocks r) (f (disk r)) (dwrites r) (kcons r) (devsw r) (tx_busy r) (uart_rx r) (uart_tx_idle r) (irqs r) (first r) (started r) (vdisk r) (mmio r) (kpagetable r) (out r).
#[export] Instance set_dwrites : Setter dwrites := fun f r => mkKernel (hw r) (csr r) (mem r) (freelist r) (procs r) (nextpid r) (initproc r) (ticks r) (quota_window_start r) (eco_mode r) (ftable r) (pipes r) (itable r) (sb r) (bufs r) (log r) (sleeplocks r) (disk r) (f (dwrites r)) (kcons r) (devsw r) (tx_busy r) (uart_rx r) (uart_tx_idle r) (irqs r) (first r) (started r) (vdisk r) (mmio r) (kpagetable r) (out r).
#[export] Instance set_kcons : Setter kcons := fun f r => mkKernel (hw r) (csr r) (mem r) (freelist r) (procs r) (nextpid r) (initproc r) (ticks r) (quota_window_start r) (eco_mode r) (ftable r) (pipes r) (itable r) (sb r) (bufs r) (log r) (sleeplocks r) (disk r) (dwrites r) (f (kcons r)) (devsw r) (tx_busy r) (uart_rx r) (uart_tx_idle r) (irqs r) (first r) (started r) (vdisk r) (mmio r) (kpagetable r) (out r).
#[export] Instance set_devsw : Setter devsw := fun f r => mkKernel (hw r) (csr r) (mem r) (freelist r) (procs r) (nextpid r) (initproc r) (ticks r) (quota_window_start r) (eco_mode r) (ftable r) (pipes r) (itable r) (sb r) (bufs r) (log r) (sleeplocks r) (disk r) (dwrites r) (kcons r) (f (devsw r)) (tx_busy r) (uart_rx r) (uart_tx_idle r) (irqs r) (first r) (started r) (vdisk r) (mmio r) (kpagetable r) (out r).
#[export] Instance set_tx_busy : Setter tx_busy := fun f r => mkKernel (hw r) (csr r) (mem r) (freelist r) (procs r) (nextpid r) (initproc r) (ticks r) (quota_window_start r) (eco_mode r) (ftable r) (pipes r) (itable r) (sb r) (bufs r) (log r) (sleeplocks r) (disk r) (dwrites r) (kcons r) (devsw r) (f (tx_busy r)) (uart_rx r) (uart_tx_idle r) (irqs r) (first r) (started r) (vdisk r) (mmio r) (kpagetable r) (out r).
#[export] Instance set_uart_rx : Setter uart_rx := fun f r => mkKernel (hw r) (csr r) (mem r) (freelist r) (procs r) (nextpid r) (initproc r) (ticks r) (quota_window_start r) (eco_mode r) (ftable r) (pipes r) (itable r) (sb r) (bufs r) (log r) (sleeplocks r) (disk r) (dwrites r) (kcons r) (devsw r) (tx_busy r) (f (uart_rx r)) (uart_tx_idle r) (irqs r) (first r) (started r) (vdisk r) (mmio r) (kpagetable r) (out r).
#[export] Instance set_uart_tx_idle : Setter uart_tx_idle := fun f r => mkKernel (hw r) (csr r) (mem r) (freelist r) (procs r) (nextpid r) (initproc r) (ticks r) (quota_window_start r) (eco_mode r) (ftable r) (pipes r) (itable r) (sb r) (bufs r) (log r) (sleeplocks r) (disk r) (dwrites r) (kcons r) (devsw r) (tx_busy r) (uart_rx r) (f (uart_tx_idle r)) (irqs r) (first r) (started r) (vdisk r) (mmio r) (kpagetable r) (out r).
#[export] Instance set_irqs : Setter irqs := fun f r => mkKernel (hw r) (csr r) (mem r) (freelist r) (procs r) (nextpid r) (initproc r) (ticks r) (quota_window_start r) (eco_mode r) (ftable r) (pipes r) (itable r) (sb r) (bufs r) (log r) (sleeplocks r) (disk r) (dwrites r) (kcons r) (devsw r) (tx_busy r) (uart_rx r) (uart_tx_idle r) (f (irqs r)) (first r) (started r) (vdisk r) (mmio r) (kpagetable r) (out r).
#[export] Instance set_first : Setter first := fun f r => mkKernel (hw r) (csr r) (mem r) (freelist r) (procs r) (nextpid r) (initproc r) (ticks r) (quota_window_start r) (eco_mode r) (ftable r) (pipes r) (itable r) (sb r) (bufs r) (log r) (sleeplocks r) (disk r) (dwrites r) (kcons r) (devsw r) (tx_busy r) (uart_rx r) (uart_tx_idle r) (irqs r) (f (first r)) (started r) (vdisk r) (mmio r) (kpagetable r) (out r).
#[export] Instance set_started : Setter started := fun f r => mkKernel (hw r) (csr r) (mem r) (freelist r) (procs r) (nextpid r) (initproc r) (ticks r) (quota_window_start r) (eco_mode r) (ftable r) (pipes r) (itable r) (sb r) (bufs r) (log r) (sleeplocks r) (disk r) (dwrites r) (kcons r) (devsw r) (tx_busy r) (uart_rx r) (uart_tx_idle r) (irqs r) (first r) (f (started r)) (vdisk r) (mmio r) (kpagetable r) (out r).
#[export] Instance set_vdisk : Setter vdisk := fun f r => mkKernel (hw r) (csr r) (mem r) (freelist r) (procs r) (nextpid r) (initproc r) (ticks r) (quota_window_start r) (eco_mode r) (ftable r) (pipes r) (itable r) (sb r) (bufs r) (log r) (sleeplocks r) (disk r) (dwrites r) (kcons r) (devsw r) (tx_busy r) (uart_rx r) (uart_tx_idle r) (irqs r) (first r) (started r) (f (vdisk r)) (mmio r) (kpagetable r) (out r).
#[export] Instance set_mmio : Setter mmio := fun f r => mkKernel (hw r) (csr r) (mem r) (freelist r) (procs r) (nextpid r) (initproc r) (ticks r) (quota_window_start r) (eco_mode r) (ftable r) (pipes r) (itable r) (sb r) (bufs r) (log r) (sleeplocks r) (disk r) (dwrites r) (kcons r) (devsw r) (tx_busy r) (uart_rx r) (uart_tx_idle r) (irqs r) (first r) (started r) (vdisk r) (f (mmio r)) (kpagetable r) (out r).
#[export] Instance set_kpagetable : Setter kpagetable := fun f r => mkKernel (hw r) (csr r) (mem r) (freelist r) (procs r) (nextpid r) (initproc r) (ticks r) (quota_window_start r) (eco_mode r) (ftable r) (pipes r) (itable r) (sb r) (bufs r) (log r) (sleeplocks r) (disk r) (dwrites r) (kcons r) (devsw r) (tx_busy r) (uart_rx r) (uart_tx_idle r) (irqs r) (first r) (started r) (vdisk r) (mmio r) (f (kpagetable r)) (out r).
#[export] Instance set_out : Setter out := fun f r => mkKernel (hw r) (csr r) (mem r) (freelist r) (procs r) (nextpid r) (initproc r) (ticks r) (quota_window_start r) (eco_mode r) (ftable r) (pipes r) (itable r) (sb r) (bufs r) (log r) (sleeplocks r) (disk r) (dwrites r) (kcons r) (devsw r) (tx_busy r) (uart_rx r) (uart_tx_idle r) (irqs r) (first r) (started r) (vdisk r) (mmio r) (kpagetable r) (f (out r)).

(** A kernel function run by one kernel thread. *)
Abbreviation K := (M kernel).

(** Normalise record updates and projections. *)
Ltac ksimpl :=
  cbv [upd
    set_locked set_lk_cpu set_sl_locked set_sl_pid set_c_proc set_noff set_intena set_tp
    set_sie set_cpus set_locks set_scause set_sepc set_stval set_spp set_spie set_stvec
    set_satp set_stimecmp set_time set_state set_chan set_killed_flag set_xstate set_pid
    set_waiting_tick set_parent set_kstack set_sz set_pagetable set_trapframe set_context_ra
    set_context_sp set_ofile set_cwd set_name set_cpu_quota set_cpu_used_in_window
    set_throttled set_quota_violations set_f_type set_f_ref set_readable set_writable
    set_f_pipe set_f_ip set_f_off set_f_major set_p_data set_nread set_nwrite set_readopen
    set_writeopen set_want set_turn set_sb_magic set_sb_size set_sb_nblocks set_sb_ninodes
    set_sb_nlog set_sb_logstart set_sb_inodestart set_sb_bmapstart set_i_dev set_i_inum
    set_i_ref set_i_valid set_i_type set_i_major set_i_minor set_i_nlink set_i_size set_i_addrs
    set_b_valid set_b_disk set_b_dev set_b_blockno set_b_refcnt set_b_prev set_b_next
    set_b_data set_lh_n set_lh_block set_lg_start set_outstanding set_committing set_lg_dev
    set_lh set_c_buf set_c_r set_c_w set_c_e set_d_addr set_d_len set_d_flags set_d_next
    set_vd_desc set_vd_avail_ring set_vd_avail_idx set_vd_used_ring set_vd_used_dev_idx
    set_vd_free set_vd_used_idx set_vd_info_b set_vd_info_status set_vd_ops_type
    set_vd_ops_sector set_hw set_csr set_mem set_freelist set_procs set_nextpid set_initproc
    set_ticks set_quota_window_start set_eco_mode set_ftable set_pipes set_itable set_sb
    set_bufs set_log set_sleeplocks set_disk set_dwrites set_kcons set_devsw set_tx_busy
    set_uart_rx set_uart_tx_idle set_irqs set_first set_started set_vdisk set_mmio
    set_kpagetable set_out];
  cbn [
    locked lk_cpu sl_locked sl_pid c_proc noff intena tp sie cpus locks scause sepc stval spp
    spie stvec satp stimecmp time state chan killed_flag xstate pid waiting_tick parent kstack
    sz pagetable trapframe context_ra context_sp ofile cwd name cpu_quota cpu_used_in_window
    throttled quota_violations f_type f_ref readable writable f_pipe f_ip f_off f_major p_data
    nread nwrite readopen writeopen want turn sb_magic sb_size sb_nblocks sb_ninodes sb_nlog
    sb_logstart sb_inodestart sb_bmapstart i_dev i_inum i_ref i_valid i_type i_major i_minor
    i_nlink i_size i_addrs b_valid b_disk b_dev b_blockno b_refcnt b_prev b_next b_data lh_n
    lh_block lg_start outstanding committing lg_dev lh c_buf c_r c_w c_e d_addr d_len d_flags
    d_next vd_desc vd_avail_ring vd_avail_idx vd_used_ring vd_used_dev_idx vd_free vd_used_idx
    vd_info_b vd_info_status vd_ops_type vd_ops_sector hw csr mem freelist procs nextpid
    initproc ticks quota_window_start eco_mode ftable pipes itable sb bufs log sleeplocks disk
    dwrites kcons devsw tx_busy uart_rx uart_tx_idle irqs first started vdisk mmio kpagetable
    out].
(** Equality of two states that differ only in how they were updated. *)
Ltac kext s := destruct s; ksimpl; simpl in *; subst; reflexivity.
