(* ===== verification/Spinlock.v ===== *)
(** * Spin locks and interrupt nesting

    [spinlock.c]: [push_off]/[pop_off], [acquire]/[release]/[holding], and
    the CPU accessors [cpuid], [mycpu], [myproc] of [proc.c].

    [acquired h X] is the hart state reached from the quiet state [h] by taking
    the set [X] of locks in any order; the lemmas [acquire_ok] and
    [release_ok] say that [acquire] and [release] add to and remove from [X]
    and change nothing else.  The rest of the development reasons about locked
    code through them.  The last section is the interleaving of several harts
    at the granularity of the atomic swap. *)

From stdpp Require Import base numbers gmap sets strings option functions list.
From S2P Require Import Prelude Machine.

(** ** Operations on the hart *)

Definition intr_off : M hart () := modify (fun h => h <| sie := false |>).
Definition intr_on : M hart () := modify (fun h => h <| sie := true |>).

(** [mycpu()]: the CPU record of this hart, and updates through that pointer. *)
Definition mycpu_h : M hart cpu :=
  id ← gets tp; cs ← gets cpus; deref (cs !! id).
Definition mycpu_upd (f : cpu -> cpu) : M hart () :=
  modify (fun h => h <| cpus ::= alter f (tp h) |>).

Definition lock_of (lk : lockid) (h : hart) : spinlock := default unlocked (locks h !! lk).
Definition lock_upd (lk : lockid) (f : spinlock -> spinlock) : M hart () :=
  modify (fun h => h <| locks ::= <[lk := f (lock_of lk h)]> |>).

Definition initlock_h (lk : lockid) : M hart () := lock_upd lk (fun _ => unlocked).

Definition push_off_h : M hart () :=
  old ← gets sie;
  intr_off;;
  c ← mycpu_h;
  when (noff c =? 0) (mycpu_upd (fun c => c <| intena := old |>));;
  mycpu_upd (fun c => c <| noff ::= fun n => n + 1 |>).

Definition pop_off_h : M hart () :=
  c ← mycpu_h;
  on ← gets sie;
  if on : bool then panic "pop_off - interruptible"
  else if noff c <? 1 then panic "pop_off"
  else
    mycpu_upd (fun c => c <| noff ::= fun n => n - 1 |>);;
    c ← mycpu_h;
    when ((noff c =? 0) && intena c) intr_on.

(** Is this CPU holding the lock? *)
Definition holds (id : nat) (l : spinlock) : bool :=
  negb (locked l =? 0) && bool_decide (lk_cpu l = Some id).
Definition holding_h (lk : lockid) : M hart bool :=
  id ← gets tp;
  l ← gets (lock_of lk);
  mret (holds id l).

(** The swap loop spins for as long as another CPU has the lock. *)
Definition acquire_h (lk : lockid) : M hart () :=
  push_off_h;;
  b ← holding_h lk;
  if b : bool then panic "acquire"
  else
    l ← gets (lock_of lk);
    if locked l =? 0 then
      lock_upd lk (fun l => l <| locked := 1 |>);;
      id ← gets tp;
      lock_upd lk (fun l => l <| lk_cpu := Some id |>)
    else hangs HSpin.

Definition release_h (lk : lockid) : M hart () :=
  b ← holding_h lk;
  if negb b then panic "release"
  else
    lock_upd lk (fun l => l <| lk_cpu := None |>);;
    lock_upd lk (fun l => l <| locked := 0 |>);;
    pop_off_h.

(** The current process, or none. *)
Definition myproc_h : M hart (option nat) :=
  push_off_h;;
  c ← mycpu_h;
  pop_off_h;;
  mret (c_proc c).

(** ** The same operations in kernel code *)

Definition cpuid : K nat := gets (fun s => tp (hw s)).
Definition intr_get : K bool := gets (fun s => sie (hw s)).
Definition mycpu : K cpu := zoom hw mycpu_h.
Definition initlock (lk : lockid) : K () := zoom hw (initlock_h lk).
Definition push_off : K () := zoom hw push_off_h.
Definition pop_off : K () := zoom hw pop_off_h.
Definition holding (lk : lockid) : K bool := zoom hw (holding_h lk).
Definition acquire (lk : lockid) : K () := zoom hw (acquire_h lk).
Definition release (lk : lockid) : K () := zoom hw (release_h lk).
Definition myproc : K (option nat) := zoom hw myproc_h.

(** ** Sets of held locks *)

Definition held (id : nat) : spinlock := mkSpinlock 1 (Some id).

(** A hart state in which this CPU holds no lock. *)
Definition quiet (h : hart) : Prop :=
  exists c, cpus h !! tp h = Some c /\ noff c = 0 /\ intena c = sie h.

Definition lock_free (h : hart) (lk : lockid) : Prop := locks h !! lk = Some unlocked.

Definition acquired (h : hart) (X : gset lockid) : hart :=
  mkHart (tp h) (sie h && bool_decide (X = ∅))
    (alter (fun c => c <| noff := Z.of_nat (size X) |>) (tp h) (cpus h))
    (gset_to_gmap (held (tp h)) X ∪ locks h).

(** The process that runs on this CPU. *)
Definition curproc (h : hart) : option nat := c ← cpus h !! tp h; c_proc c.

Section acquired.
Implicit Types (h : hart) (X : gset lockid).

Lemma acquired_empty h : quiet h -> acquired h ∅ = h.
Proof.
  intros (c & Hc & Hn & Hi). unfold acquired. rewrite size_empty.
  destruct h as [t i cs ls]; simpl in *.
  rewrite bool_decide_eq_true_2, andb_true_r by done. f_equal.
  - apply list_eq. intros j.
    destruct (decide (t = j)) as [->|Hne].
    + rewrite list_lookup_alter_eq, Hc. simpl. f_equal. destruct c; simpl in *; by subst.
    + by rewrite list_lookup_alter_ne.
  - by rewrite gset_to_gmap_empty, (left_id_L ∅ (∪)).
Qed.

Lemma acquired_cpu h X c :
  cpus h !! tp h = Some c ->
  cpus (acquired h X) !! tp h = Some (c <| noff := Z.of_nat (size X) |>).
Proof. intros Hc. simpl. by rewrite list_lookup_alter_eq, Hc. Qed.

Lemma acquired_curproc h X : curproc (acquired h X) = curproc h.
Proof.
  unfold curproc. simpl. rewrite list_lookup_alter_eq. by destruct (cpus h !! tp h).
Qed.

Lemma acquired_lock_in h X lk : lk ∈ X -> lock_of lk (acquired h X) = held (tp h).
Proof.
  intros. unfold lock_of; simpl. erewrite lookup_union_Some_l; [done|].
  by apply lookup_gset_to_gmap_Some.
Qed.

Lemma acquired_lock_out h X lk : lk ∉ X -> lock_of lk (acquired h X) = lock_of lk h.
Proof.
  intros. unfold lock_of; simpl. by rewrite lookup_union_r; [|apply lookup_gset_to_gmap_None].
Qed.

Lemma acquired_insert h X lk :
  <[lk := held (tp h)]> (gset_to_gmap (held (tp h)) X ∪ locks h)
  = gset_to_gmap (held (tp h)) ({[lk]} ∪ X) ∪ locks h.
Proof. by rewrite gset_to_gmap_union_singleton, insert_union_l. Qed.

Lemma acquired_remove h X lk :
  lock_free h lk ->
  <[lk := unlocked]> (gset_to_gmap (held (tp h)) X ∪ locks h)
  = gset_to_gmap (held (tp h)) (X ∖ {[lk]}) ∪ locks h.
Proof.
  intros Hf. apply map_eq. intros l. destruct (decide (lk = l)) as [<-|Hne].
  - rewrite lookup_insert_eq, lookup_union_r; [done|].
    apply lookup_gset_to_gmap_None. set_solver.
  - rewrite lookup_insert_ne by done. rewrite !lookup_union. f_equal.
    destruct (decide (l ∈ X)).
    + rewrite !(proj2 (lookup_gset_to_gmap_Some _ _ _ (held (tp h)))) by set_solver. done.
    + rewrite !(proj2 (lookup_gset_to_gmap_None _ _ _)) by set_solver. done.
Qed.
End acquired.

(** ** Functional behaviour *)

Ltac hart_simpl :=
  cbv [acquired set_tp set_sie set_cpus set_locks set_noff set_intena upd set_locked set_lk_cpu];
  cbn [tp sie cpus locks noff intena c_proc locked lk_cpu].

Lemma mycpu_h_Ret h c : cpus h !! tp h = Some c -> mycpu_h h = Ret c h.
Proof. intros Hc. unfold mycpu_h. mrun. by rewrite Hc. Qed.

Section lock_ops.
Context (h : hart) (Hq : quiet h).
Implicit Types (X : gset lockid).

(** The hart between a [push_off] and its [pop_off]. *)
Definition pushed (X : gset lockid) : hart :=
  mkHart (tp h) false
    (alter (fun c => c <| noff := Z.of_nat (size X) + 1 |>) (tp h) (cpus h))
    (gset_to_gmap (held (tp h)) X ∪ locks h).

Lemma alter_cpu f g :
  (forall c, cpus h !! tp h = Some c -> f c = g c) ->
  alter f (tp h) (cpus h) = alter g (tp h) (cpus h).
Proof.
  intros Hfg. apply list_eq. intros j. destruct (decide (tp h = j)) as [<-|Hne].
  - rewrite !list_lookup_alter_eq. destruct (cpus h !! tp h) eqn:E; [|done].
    simpl. by rewrite Hfg.
  - by rewrite !list_lookup_alter_ne.
Qed.

Lemma push_off_h_ok X : push_off_h (acquired h X) = Ret tt (pushed X).
Proof.
  destruct Hq as (c & Hc & Hn & Hi).
  unfold push_off_h, intr_off. msimpl.
  mapply mycpu_h_Ret by (by apply (acquired_cpu h X)).
  unfold mycpu_upd. mrun. unfold pushed.
  assert (X = ∅ \/ Z.of_nat (size X) <> 0) as [->|Hne].
  { destruct (decide (size X = 0%nat)) as [?%size_empty_iff%leibniz_equiv|]; [by left|right; lia]. }
  - hart_simpl. rewrite size_empty. change (Z.of_nat 0 =? 0) with true. cbn [obind]. hart_simpl. do 2 f_equal.
    rewrite bool_decide_eq_true_2, andb_true_r by done.
    rewrite !list_alter_alter_eq. apply alter_cpu. intros c' Hc'; simplify_eq.
    cbn. f_equal. done.
  - hart_simpl. rewrite (proj2 (Z.eqb_neq _ _) Hne). cbn [obind]. hart_simpl. do 2 f_equal.
    rewrite !list_alter_alter_eq. by apply alter_cpu.
Qed.

Lemma pop_off_h_ok X Y c :
  cpus h !! tp h = Some c ->
  pop_off_h (mkHart (tp h) false
    (alter (fun c => c <| noff := Z.of_nat (size X) + 1 |>) (tp h) (cpus h))
    (gset_to_gmap (held (tp h)) X ∪ Y))
  = Ret tt (mkHart (tp h) (sie h && bool_decide (X = ∅))
    (alter (fun c => c <| noff := Z.of_nat (size X) |>) (tp h) (cpus h))
    (gset_to_gmap (held (tp h)) X ∪ Y)).
Proof.
  intros Hc. destruct Hq as (c' & Hc' & Hn & Hi). simplify_eq.
  unfold pop_off_h. mapply mycpu_h_Ret by (simpl; by rewrite list_lookup_alter_eq, Hc).
  msimpl. simpl. rewrite (proj2 (Z.ltb_ge _ _)) by lia.
  unfold mycpu_upd. msimpl. mapply mycpu_h_Ret by (simpl; by rewrite !list_lookup_alter_eq, Hc).
  hart_simpl. replace (Z.of_nat (size X) + 1 - 1) with (Z.of_nat (size X)) by lia.
  rewrite list_alter_alter_eq.
  rewrite (alter_cpu _ (fun c => c <| noff := Z.of_nat (size X) |>)).
  2: { intros c0 _. unfold compose. hart_simpl. f_equal. lia. }
  destruct (decide (X = ∅)) as [->|Hne].
  - rewrite bool_decide_eq_true_2, andb_true_r by done. rewrite size_empty.
    change (Z.of_nat 0 =? 0) with true. rewrite Hi. by destruct (sie h).
  - rewrite bool_decide_eq_false_2, andb_false_r by done.
    rewrite (proj2 (Z.eqb_neq _ _)). { done. }
    intros E. apply Hne. apply leibniz_equiv, size_empty_iff. lia.
Qed.

Lemma myproc_h_ok X : myproc_h (acquired h X) = Ret (curproc h) (acquired h X).
Proof.
  destruct Hq as (c & Hc & Hn & Hi). unfold myproc_h.
  mapply push_off_h_ok by idtac.
  mapply mycpu_h_Ret by (simpl; by rewrite list_lookup_alter_eq, Hc).
  mapply pop_off_h_ok by done. unfold curproc. by rewrite Hc.
Qed.

Lemma holding_h_in X lk : lk ∈ X -> holding_h lk (acquired h X) = Ret true (acquired h X).
Proof.
  intros. unfold holding_h. msimpl. rewrite acquired_lock_in by done. unfold holds. simpl.
  by rewrite bool_decide_eq_true_2.
Qed.

Lemma acquire_h_ok X lk :
  lock_free h lk -> lk ∉ X -> acquire_h lk (acquired h X) = Ret tt (acquired h ({[lk]} ∪ X)).
Proof.
  intros Hf Hlk. unfold acquire_h. mapply push_off_h_ok by idtac.
  assert (lock_of lk (pushed X) = unlocked) as Hl.
  { change (lock_of lk (acquired h X) = unlocked).
    rewrite acquired_lock_out by done. unfold lock_of. by rewrite Hf. }
  unfold holding_h, holds. mrun. rewrite Hl. simpl. unfold lock_upd. mrun. rewrite Hl. simpl.
  unfold lock_of at 1. simpl. rewrite lookup_insert_eq. simpl. rewrite !Hl.
  unfold pushed. hart_simpl. do 2 f_equal.
  - rewrite bool_decide_eq_false_2, andb_false_r by set_solver. done.
  - rewrite size_union, size_singleton by set_solver. apply alter_cpu. intros c _. f_equal. lia.
  - rewrite insert_insert_eq. apply acquired_insert.
Qed.

Lemma release_h_ok X lk :
  lock_free h lk -> lk ∈ X -> release_h lk (acquired h X) = Ret tt (acquired h (X ∖ {[lk]})).
Proof.
  intros Hf Hlk. destruct Hq as (c & Hc & Hn & Hi). unfold release_h.
  mapply holding_h_in by done. simpl. unfold lock_upd. msimpl.
  set (h' := upd locks _ _).
  assert (h' = mkHart (tp h) false
    (alter (fun c => c <| noff := Z.of_nat (size (X ∖ {[lk]})) + 1 |>) (tp h) (cpus h))
    (gset_to_gmap (held (tp h)) (X ∖ {[lk]}) ∪ locks h)) as ->.
  { unfold h'. simpl. rewrite acquired_lock_in by done.
    unfold lock_of. hart_simpl. rewrite lookup_insert_eq, insert_insert_eq. hart_simpl.
    rewrite <- (acquired_remove h X lk) by done. f_equal.
    - rewrite bool_decide_eq_false_2, andb_false_r by set_solver. done.
    - apply alter_cpu. intros c' _. f_equal.
      rewrite size_difference by set_solver. rewrite size_singleton.
      assert (size X <> 0%nat); [|lia]. intros E%size_empty_iff. set_solver. }
  rewrite (pop_off_h_ok _ _ c) by done. done.
Qed.

(** Taking a lock this CPU already holds panics instead of deadlocking. *)
Lemma acquire_h_self X lk : lk ∈ X -> acquire_h lk (acquired h X) = Panic "acquire".
Proof.
  intros Hlk. unfold acquire_h. mapply push_off_h_ok by idtac.
  erewrite bind_Ret; [|apply (eq_refl : holding_h lk (pushed X) = _)]. cbv beta.
  change (lock_of lk (pushed X)) with (lock_of lk (acquired h X)).
  rewrite acquired_lock_in by done. unfold holds. simpl. by rewrite bool_decide_eq_true_2.
Qed.
End lock_ops.

Lemma zoom_Ret {R T A} (proj : R -> T) `{!Setter proj} (m : M T A) r a t :
  m (proj r) = Ret a t -> zoom proj m r = Ret a (r <| proj := t |>).
Proof. unfold zoom. by intros ->. Qed.
Lemma zoom_Panic {R T A} (proj : R -> T) `{!Setter proj} (m : M T A) r msg :
  m (proj r) = Panic msg -> zoom proj m r = Panic msg.
Proof. unfold zoom. by intros ->. Qed.

Lemma upd_hw_id (s : kernel) h : hw s = h -> s <| hw := h |> = s.
Proof. intros <-. by destruct s. Qed.

(** ** The interface the locked code of the kernel is verified against *)

Section kernel_locks.
Context (h : hart) (Hq : quiet h).
Implicit Types (X : gset lockid) (s : kernel).

Lemma acquire_ok X lk s :
  hw s = acquired h X -> lock_free h lk -> lk ∉ X ->
  acquire lk s = Ret tt (s <| hw := acquired h ({[lk]} ∪ X) |>).
Proof. intros Hs ??. apply zoom_Ret. rewrite Hs. by apply acquire_h_ok. Qed.

Lemma release_ok X lk s :
  hw s = acquired h X -> lock_free h lk -> lk ∈ X ->
  release lk s = Ret tt (s <| hw := acquired h (X ∖ {[lk]}) |>).
Proof. intros Hs ??. apply zoom_Ret. rewrite Hs. by apply release_h_ok. Qed.

Lemma acquire_self X lk s :
  hw s = acquired h X -> lk ∈ X -> acquire lk s = Panic "acquire".
Proof. intros Hs ?. apply zoom_Panic. rewrite Hs. by apply acquire_h_self. Qed.

Lemma holding_ok X lk s : hw s = acquired h X -> lk ∈ X -> holding lk s = Ret true s.
Proof.
  intros Hs ?. rewrite <- (upd_hw_id s (acquired h X)) at 2 by done.
  apply zoom_Ret. rewrite Hs. by apply holding_h_in.
Qed.

Lemma myproc_ok X s : hw s = acquired h X -> myproc s = Ret (curproc h) s.
Proof.
  intros Hs. rewrite <- (upd_hw_id s (acquired h X)) at 2 by done.
  apply zoom_Ret. rewrite Hs. by apply myproc_h_ok.
Qed.

(** A critical section: the body runs with the lock added to the held set. *)
Lemma locked_ok {A} X lk (body : K A) (g : kernel -> kernel) (a : A) s :
  hw s = acquired h X -> lock_free h lk -> lk ∉ X ->
  body (s <| hw := acquired h ({[lk]} ∪ X) |>)
    = Ret a (g s <| hw := acquired h ({[lk]} ∪ X) |>) ->
  (acquire lk;; x ← body; release lk;; mret x) s = Ret a (g s <| hw := acquired h X |>).
Proof.
  intros Hs Hf Hlk Hb. mapply acquire_ok by done.
  rewrite (bind_Ret _ _ _ _ _ Hb). cbv beta.
  mapply (release_ok ({[lk]} ∪ X)) by (simpl; set_solver).
  rewrite difference_union_distr_l_L, difference_diag_L, (left_id_L ∅ (∪)).
  rewrite difference_disjoint_L by set_solver. done.
Qed.
End kernel_locks.

(** ** Several harts contending for one lock

    Each hart runs [acquire] and [release] of the same lock over and over; a
    step is one access to the shared [struct spinlock]: the atomic swap, the
    store of [lk->cpu], its clearing, and the final atomic store. *)

Inductive spin_pc := Outside | Swapping | Swapped | Inside | Clearing.
#[export] Instance spin_pc_eq_dec : EqDecision spin_pc.
Proof. solve_decision. Defined.

Record spin_sys := mkSpinSys { sp_lock : spinlock; sp_pc : nat -> spin_pc }.

Definition spin_goto (i : nat) (pc : spin_pc) (l : spinlock) (y : spin_sys) : spin_sys :=
  mkSpinSys l (<[i := pc]> (sp_pc y)).

Inductive spin_step : spin_sys -> spin_sys -> Prop :=
| spin_enter i y :
    sp_pc y i = Outside -> holds i (sp_lock y) = false ->
    spin_step y (spin_goto i Swapping (sp_lock y) y)
| spin_retry i y :
    sp_pc y i = Swapping -> locked (sp_lock y) <> 0 ->
    spin_step y (spin_goto i Swapping (sp_lock y <| locked := 1 |>) y)
| spin_take i y :
    sp_pc y i = Swapping -> locked (sp_lock y) = 0 ->
    spin_step y (spin_goto i Swapped (sp_lock y <| locked := 1 |>) y)
| spin_set_cpu i y :
    sp_pc y i = Swapped -> spin_step y (spin_goto i Inside (sp_lock y <| lk_cpu := Some i |>) y)
| spin_clear_cpu i y :
    sp_pc y i = Inside -> holds i (sp_lock y) = true ->
    spin_step y (spin_goto i Clearing (sp_lock y <| lk_cpu := None |>) y)
| spin_drop i y :
    sp_pc y i = Clearing -> spin_step y (spin_goto i Outside (sp_lock y <| locked := 0 |>) y).

Definition spin_init : spin_sys := mkSpinSys unlocked (fun _ => Outside).

Definition spin_owner (pc : spin_pc) : bool :=
  match pc with Swapped | Inside | Clearing => true | _ => false end.

(** The lock word and [lk->cpu] tell exactly who is where. *)
Definition spin_inv (y : spin_sys) : Prop :=
  (locked (sp_lock y) = 0 /\ lk_cpu (sp_lock y) = None /\ forall i, spin_owner (sp_pc y i) = false)
  \/ (exists o, locked (sp_lock y) = 1
        /\ (forall i, spin_owner (sp_pc y i) = bool_decide (i = o))
        /\ lk_cpu (sp_lock y) = (if decide (sp_pc y o = Inside) then Some o else None)).

Lemma spin_inv_step y y' : spin_step y y' -> spin_inv y -> spin_inv y'.
Proof.
  intros Hstep [(Hl & Hc & Ho)|(o & Hl & Ho & Hc)].
  - destruct Hstep as [i y H1 H2|i y H1 H2|i y H1 H2|i y H1|i y H1 H2|i y H1];
      pose proof (Ho i) as Hi; rewrite H1 in Hi; simpl in Hi; try done.
    + left. simpl. split_and!; [done..|]. intros j.
      destruct (decide (i = j)) as [->|]; [by rewrite fn_lookup_insert|by rewrite fn_lookup_insert_ne].
    + right. exists i. simpl. rewrite fn_lookup_insert, decide_False by done.
      split_and!; [done| |done]. intros j. destruct (decide (i = j)) as [->|].
      * by rewrite fn_lookup_insert, bool_decide_eq_true_2.
      * by rewrite fn_lookup_insert_ne, bool_decide_eq_false_2, Ho by done.
  - destruct Hstep as [i y H1 H2|i y H1 H2|i y H1 H2|i y H1|i y H1 H2|i y H1];
      pose proof (Ho i) as Hi; rewrite H1 in Hi; simpl in Hi; try lia.
    1,2: assert (i <> o) by (intros ->; by rewrite bool_decide_eq_true_2 in Hi);
      right; exists o; simpl; rewrite fn_lookup_insert_ne by done; split_and!; [done| |done];
      intros j; destruct (decide (i = j)) as [->|];
      [by rewrite fn_lookup_insert, bool_decide_eq_false_2|by rewrite fn_lookup_insert_ne].
    all: symmetry in Hi; apply bool_decide_eq_true in Hi as ->.
    1,2: right; exists o; simpl; rewrite fn_lookup_insert; split_and!; [done| |done];
      intros j; destruct (decide (o = j)) as [->|];
      [by rewrite fn_lookup_insert, bool_decide_eq_true_2|by rewrite fn_lookup_insert_ne].
    left. simpl. rewrite Hc, decide_False by congruence. split_and!; [done..|].
    intros j. destruct (decide (o = j)) as [->|]; [by rewrite fn_lookup_insert|].
    rewrite fn_lookup_insert_ne, Ho by done. by apply bool_decide_eq_false_2.
Qed.

Lemma spin_inv_reachable y : rtc spin_step spin_init y -> spin_inv y.
Proof.
  assert (spin_inv spin_init) as H0 by (by left).
  induction 1; [done|]. eauto using spin_inv_step.
Qed.

(** C30: Two different harts are never both between the winning swap of [acquire]
    and the final store of [release]; moreover [holding()] answers yes on a hart
    exactly while that hart is inside its critical section, so neither the
    [acquire] nor the [release] panic can fire in a correct program. *)
Theorem spin_mutual_exclusion y i j :
  rtc spin_step spin_init y ->
  (spin_owner (sp_pc y i) = true -> spin_owner (sp_pc y j) = true -> i = j)
  /\ (holds i (sp_lock y) = true <-> sp_pc y i = Inside).
Proof.
  intros [(Hl & Hc & Ho)|(o & Hl & Ho & Hc)]%spin_inv_reachable; unfold holds; rewrite Hl, Hc; simpl.
  - split; [by rewrite Ho|]. split; [done|]. intros E. specialize (Ho i). by rewrite E in Ho.
  - split.
    + rewrite !Ho. intros ->%bool_decide_eq_true ->%bool_decide_eq_true. done.
    + rewrite bool_decide_eq_true. specialize (Ho i). case_decide as E.
      * split; [by intros [= ->]|]. intros E'. rewrite E' in Ho. simpl in Ho.
        symmetry in Ho. apply bool_decide_eq_true in Ho as ->. done.
      * split; [done|]. intros E'. rewrite E' in Ho. simpl in Ho.
        symmetry in Ho. apply bool_decide_eq_true in Ho as ->. done.
Qed.

Lemma spin_mutual_exclusion_witness :
  exists y, rtc spin_step spin_init y /\ sp_pc y 3 = Inside /\ holds 3 (sp_lock y) = true.
Proof.
  exists (mkSpinSys (mkSpinlock 1 (Some 3%nat)) (<[3%nat := Inside]> (<[3%nat := Swapped]>
           (<[3%nat := Swapping]> (sp_pc spin_init))))).
  assert (rtc spin_step spin_init (mkSpinSys (mkSpinlock 1 (Some 3%nat)) (<[3%nat := Inside]> (<[3%nat := Swapped]>
           (<[3%nat := Swapping]> (sp_pc spin_init)))))) as Hr.
  { eapply rtc_l. { by apply (spin_enter 3%nat). }
    eapply rtc_l. { by apply (spin_take 3%nat). }
    eapply rtc_l. { by apply (spin_set_cpu 3%nat). }
    apply rtc_refl. }
  split; [exact Hr|]. split; [reflexivity|].
  apply (spin_mutual_exclusion _ 3%nat 3%nat Hr). reflexivity.
Defined.

(** [release] undoes [acquire]: whatever other locks [X] this CPU already
    holds, taking and dropping a free lock restores the lock, the nesting depth,
    the saved interrupt flag and the interrupt-enable bit; with the lock held a
    second [acquire] panics. *)
Theorem acquire_release_roundtrip h X lk s :
  quiet h -> hw s = acquired h X -> lock_free h lk -> lk ∉ X ->
  (acquire lk;; release lk) s = Ret tt s
  /\ (acquire lk;; acquire lk) s = Panic "acquire"
  /\ (push_off;; pop_off) s = Ret tt s.
Proof.
  intros Hq Hs Hf Hlk. split_and!.
  - mapply acquire_ok by done.
    rewrite (release_ok h Hq ({[lk]} ∪ X)) by (simpl; set_solver). f_equal.
    replace (({[lk]} ∪ X) ∖ {[lk]}) with X by set_solver. by destruct s; simpl in *; subst.
  - mapply acquire_ok by done. by eapply (acquire_self h Hq ({[lk]} ∪ X)); [|set_solver].
  - unfold push_off, pop_off. mapply zoom_Ret by (rewrite Hs; by apply push_off_h_ok).
    pose proof Hq as (c & Hc & _).
    erewrite zoom_Ret; [|apply (pop_off_h_ok h Hq X (locks h) c Hc)].
    by destruct s; simpl in *; subst.
Qed.

(** ** Environments of locked code

    The locks of the static tables are initialised at boot.  [env h X s]: the
    code runs on the quiet hart [h] with exactly the locks [X] taken, and every
    other static lock is free. *)

Definition static_lock (lk : lockid) : bool :=
  match lk with
  | LkPipe _ => false
  | LkProc i => (i <? NPROC)%nat
  | LkSleep (SlBuf i) => (i <? NBUF)%nat
  | LkSleep (SlInode i) => (i <? NINODE)%nat
  | _ => true
  end.

Record env (h : hart) (X : gset lockid) (s : kernel) : Prop := {
  env_quiet : quiet h;
  env_hw : hw s = acquired h X;
  env_free : forall lk, static_lock lk = true -> lock_free h lk
}.

Section env.
Context (h : hart) (X : gset lockid).

Lemma env_upd s s' : env h X s -> hw s' = hw s -> env h X s'.
Proof. intros [? H ?] E. split; [done|by rewrite E|done]. Qed.

Lemma env_add s Y : env h X s -> env h Y (s <| hw := acquired h Y |>).
Proof. intros []. by split. Qed.

Lemma env_acquire lk s :
  env h X s -> static_lock lk = true -> lk ∉ X ->
  acquire lk s = Ret tt (s <| hw := acquired h ({[lk]} ∪ X) |>).
Proof. intros [Hq Hs Hf] Hl HX. by apply acquire_ok; auto. Qed.

Lemma env_release lk s :
  env h X s -> static_lock lk = true -> lk ∈ X ->
  release lk s = Ret tt (s <| hw := acquired h (X ∖ {[lk]}) |>).
Proof. intros [Hq Hs Hf] Hl HX. by apply release_ok; auto. Qed.

(** Leaving a critical section: back to the held set [X]. *)
Lemma env_release_last lk s :
  env h ({[lk]} ∪ X) s -> static_lock lk = true -> lk ∉ X ->
  release lk s = Ret tt (s <| hw := acquired h X |>).
Proof.
  intros [Hq Hs Hf] Hl HX. rewrite (release_ok h Hq ({[lk]} ∪ X)); [|by auto..|set_solver].
  by replace (({[lk]} ∪ X) ∖ {[lk]}) with X by set_solver.
Qed.

Lemma env_myproc s : env h X s -> myproc s = Ret (curproc h) s.
Proof. intros [Hq Hs Hf]. by eapply myproc_ok. Qed.

Lemma env_holding lk s : env h X s -> lk ∈ X -> holding lk s = Ret true s.
Proof. intros [Hq Hs Hf]. by apply (holding_ok h). Qed.

(** Initialising a free lock again changes nothing. *)
Lemma initlock_id lk s :
  env h X s -> static_lock lk = true -> lk ∉ X -> initlock lk s = Ret tt s.
Proof.
  intros [Hq Hs Hf] Hl HX. rewrite <- (upd_hw_id s (acquired h X)) at 2 by done.
  apply zoom_Ret. rewrite Hs. unfold initlock_h, lock_upd, modify. f_equal.
  unfold acquired. hart_simpl. f_equal. apply insert_id.
  rewrite lookup_union_r; [by apply Hf|]. by apply lookup_gset_to_gmap_None.
Qed.

Lemma env_hw_id s : env h X s -> s <| hw := acquired h X |> = s.
Proof. intros [_ Hs _]. by apply upd_hw_id. Qed.
End env.
#[export] Hint Resolve env_quiet env_hw env_free env_add : xv6.

(** The environment of a state computed from one whose environment is known,
    and the side conditions of the lock lemmas. *)
Ltac solve_env := match goal with
  | H : env ?h ?X ?s |- env ?h ?Y _ =>
      split; [exact (env_quiet _ _ _ H)
             |first [reflexivity | exact (env_hw _ _ _ H)]
             |exact (env_free _ _ _ H)]
  end.
Ltac envtac := first
  [ eassumption | solve_env | reflexivity | by apply Nat.ltb_lt
  | match goal with |- _ ∉ _ => set_solver | |- _ ∈ _ => set_solver end ].

(** ** A hart after boot *)

Definition static_locks : list lockid :=
  [LkKmem; LkPr; LkPid; LkWait; LkTicks; LkBcache; LkItable; LkLog; LkFtable; LkCons; LkTx; LkDisk]
  ++ map LkProc (seq 0 NPROC)
  ++ map (fun i => LkSleep (SlBuf i)) (seq 0 NBUF)
  ++ map (fun i => LkSleep (SlInode i)) (seq 0 NINODE).

(** Every static lock initialised, nothing held, process [p] running. *)
Definition boot_hart (p : option nat) : hart :=
  mkHart 0 true (replicate NCPU (mkCpu p 0 true)) (gset_to_gmap unlocked (list_to_set static_locks)).

Lemma boot_hart_quiet p : quiet (boot_hart p).
Proof. by exists (mkCpu p 0 true). Qed.
#[export] Hint Resolve boot_hart_quiet : xv6.

Lemma static_locks_spec lk : static_lock lk = true -> lk ∈ static_locks.
Proof.
  unfold static_locks. rewrite !list_elem_of_In, !in_app_iff, !in_map_iff.
  destruct lk as [| | | | | | | | | | | |i| |[i|i]]; cbn [static_lock];
    rewrite ?Nat.ltb_lt; intros H; try done.
  all: try (left; simpl; tauto).
  all: right; try (left; exists i; split; [done|]; apply in_seq; lia).
  all: right; try (left; exists i; split; [done|]; apply in_seq; lia).
  right; exists i; split; [done|]; apply in_seq; lia.
Qed.

Lemma boot_hart_free p lk : static_lock lk = true -> lock_free (boot_hart p) lk.
Proof.
  intros H%static_locks_spec. apply lookup_gset_to_gmap_Some. split; [|done].
  by apply elem_of_list_to_set.
Qed.

(** A kernel whose static data is all zero, for concrete runs. *)
Definition zero_kernel (h : hart) : kernel :=
  mkKernel h (mkCsrs 0 0 0 false false 0 0 0 0) (fun _ => 0) 0 [] 1 None 0 0 ECO_QUOTA [] ∅ []
    (mkSuperblock 0 0 0 0 0 0 0 0) [] (mkLog 0 0 0 0 (mkLogheader 0 []))
    ∅ ∅ [] (mkConsole [] 0 0 0) (replicate 10 false) 0 [] true [] 1 0
    (mkVdisk [] [] 0 [] 0 [] 0 [] [] [] []) [] 0 [].

Lemma zero_kernel_env p s : hw s = boot_hart p -> env (boot_hart p) ∅ s.
Proof.
  intros Hs. split; [apply boot_hart_quiet| |apply boot_hart_free].
  by rewrite acquired_empty by apply boot_hart_quiet.
Qed.

Lemma acquire_release_roundtrip_witness :
  exists h s, quiet h /\ hw s = acquired h {[LkWait]} /\ lock_free h LkKmem /\
  (acquire LkKmem;; release LkKmem) s = Ret tt s.
Proof.
  exists (boot_hart None), (zero_kernel (acquired (boot_hart None) {[LkWait]})).
  split; [apply boot_hart_quiet|]. split; [reflexivity|].
  split; [apply boot_hart_free; reflexivity|].
  apply (acquire_release_roundtrip (boot_hart None) {[LkWait]});
    [apply boot_hart_quiet|reflexivity|apply boot_hart_free; reflexivity|].
  set_solver.
Defined.
