(* ===== verification/CString.v ===== *)
(** * Memory and string routines

    [kernel/string.c].  Memory is a map from addresses to bytes; a
    [const char *] is the view of memory at its offsets, so [*p] is [p 0] and
    [p++] shifts the view.  [char] is unsigned on RISC-V.  The loops are the
    C loops; the lemmas give their closed forms, which the rest of the
    development uses.  Little-endian loads and stores are here as well. *)

From stdpp Require Import base numbers list.
From Stdlib Require Import FunctionalExtensionality.
From S2P Require Import Prelude.

Definition memory := Z -> Z.
Definition cptr := Z -> Z.

Definition store8 (m : memory) (a v : Z) : memory := fun x => if x =? a then u8 v else m x.
(** The view of memory at address [a], and a view moved by [k] characters. *)
Definition at_ (m : memory) (a : Z) : cptr := fun i => m (a + i).
Definition adv (p : cptr) (k : Z) : cptr := fun i => p (k + i).

(** ** string.c *)

Fixpoint memset_loop (n : nat) (i : Z) (m : memory) (cdst c : Z) : memory :=
  match n with
  | O => m
  | S n => memset_loop n (i + 1) (store8 m (cdst + i) c) cdst c
  end.
Definition memset (m : memory) (dst c n : Z) : memory := memset_loop (Z.to_nat n) 0 m dst c.

Fixpoint memcmp_loop (n : nat) (s1 s2 : cptr) : Z :=
  match n with
  | O => 0
  | S n => if s1 0 =? s2 0 then memcmp_loop n (adv s1 1) (adv s2 1) else s1 0 - s2 0
  end.
Definition memcmp (v1 v2 : cptr) (n : Z) : Z := memcmp_loop (Z.to_nat n) v1 v2.

Fixpoint memmove_up (n : nat) (m : memory) (d s : Z) : memory :=
  match n with
  | O => m
  | S n => memmove_up n (store8 m d (m s)) (d + 1) (s + 1)
  end.
Fixpoint memmove_down (n : nat) (m : memory) (d s : Z) : memory :=
  match n with
  | O => m
  | S n => memmove_down n (store8 m (d - 1) (m (s - 1))) (d - 1) (s - 1)
  end.
Definition memmove (m : memory) (dst src n : Z) : memory :=
  if n =? 0 then m
  else if (src <? dst) && (src + n >? dst)
  then memmove_down (Z.to_nat n) m (dst + n) (src + n)
  else memmove_up (Z.to_nat n) m dst src.

Definition memcpy (m : memory) (dst src n : Z) : memory := memmove m dst src n.

Fixpoint strncmp_loop (n : nat) (p q : cptr) : Z :=
  match n with
  | O => 0
  | S n' => if negb (p 0 =? 0) && (p 0 =? q 0)
            then strncmp_loop n' (adv p 1) (adv q 1)
            else p 0 - q 0
  end.
Definition strncmp (p q : cptr) (n : Z) : Z := strncmp_loop (Z.to_nat n) p q.

(** [while(n-- > 0) *s++ = 0;] *)
Fixpoint zero_loop (n : nat) (m : memory) (s : Z) : memory :=
  match n with
  | O => m
  | S n => zero_loop n (store8 m s 0) (s + 1)
  end.
Fixpoint strncpy_loop (n : nat) (m : memory) (s : Z) (t : cptr) : memory :=
  match n with
  | O => m
  | S n =>
      let m' := store8 m s (t 0) in
      if t 0 =? 0 then zero_loop n m' (s + 1) else strncpy_loop n m' (s + 1) (adv t 1)
  end.
Definition strncpy (m : memory) (s : Z) (t : cptr) (n : Z) : memory :=
  strncpy_loop (Z.to_nat n) m s t.

(** [k] is the value of [--n]; the terminating store follows the loop. *)
Fixpoint safestrcpy_loop (k : nat) (m : memory) (s : Z) (t : cptr) : memory :=
  match k with
  | O => store8 m s 0
  | S k =>
      let m' := store8 m s (t 0) in
      if t 0 =? 0 then store8 m' (s + 1) 0 else safestrcpy_loop k m' (s + 1) (adv t 1)
  end.
Definition safestrcpy (m : memory) (s : Z) (t : cptr) (n : Z) : memory :=
  if n <=? 0 then m else safestrcpy_loop (Z.to_nat (n - 1)) m s t.

(** [strlen] looks at no more than [fuel] characters. *)
Fixpoint strlen (fuel : nat) (s : cptr) : option Z :=
  match fuel with
  | O => None
  | S fuel => if s 0 =? 0 then Some 0 else Z.add 1 <$> strlen fuel (adv s 1)
  end.

(** ** Arrays of bytes *)

Definition chars (l : list Z) : cptr := fun i => if i <? 0 then 0 else nth (Z.to_nat i) l 0.
Fixpoint read_bytes (n : nat) (m : memory) (a : Z) : list Z :=
  match n with
  | O => []
  | S n => m a :: read_bytes n m (a + 1)
  end.
(** Store the bytes [l] at [a]. *)
Definition write_bytes (m : memory) (a : Z) (l : list Z) : memory :=
  fun x => if (a <=? x) && (x <? a + Z.of_nat (length l)) then nth (Z.to_nat (x - a)) l 0 else m x.

(** ** Little-endian words *)

Fixpoint load_le (n : nat) (m : memory) (a : Z) : Z :=
  match n with
  | O => 0
  | S n => m a + 256 * load_le n m (a + 1)
  end.
Definition store_le (n : nat) (m : memory) (a v : Z) : memory :=
  fun x => if (a <=? x) && (x <? a + Z.of_nat n) then v / 256 ^ (x - a) mod 256 else m x.

Definition load32 := load_le 4.
Definition load64 := load_le 8.
Definition store32 := store_le 4.
Definition store64 := store_le 8.

(** ** Closed forms *)

Lemma chars_bytes l i : Forall (fun b => 0 <= b < 256) l -> 0 <= chars l i < 256.
Proof.
  intros Hl. unfold chars. case_match; [lia|]. destruct (nth_in_or_default (Z.to_nat i) l 0) as [Hin| -> ].
  - by apply (proj1 (List.Forall_forall _ _) Hl).
  - lia.
Qed.

(** Memory holds bytes. *)
Definition bytes (m : memory) : Prop := forall x, 0 <= m x < 256.

Lemma u8_small z : 0 <= z < 256 -> u8 z = z.
Proof. apply Z.mod_small. Qed.
Lemma u8_range z : 0 <= u8 z < 256.
Proof. by apply Z.mod_pos_bound. Qed.

Lemma store8_eq m a v : store8 m a v a = u8 v.
Proof. unfold store8. by rewrite Z.eqb_refl. Qed.
Lemma store8_ne m a v x : x <> a -> store8 m a v x = m x.
Proof. intros. unfold store8. by rewrite (proj2 (Z.eqb_neq x a)). Qed.
Lemma store8_bytes m a v : bytes m -> bytes (store8 m a v).
Proof. intros Hm x. unfold store8. case_match; [apply u8_range|apply Hm]. Qed.

(** Case split on every comparison of integers in the goal. *)
Ltac zcases := repeat match goal with
  | |- context [?a =? ?b] => destruct (Z.eqb_spec a b)
  | |- context [?a <? ?b] => destruct (Z.ltb_spec a b)
  | |- context [?a <=? ?b] => destruct (Z.leb_spec a b)
  end; simpl.

(** The address lies in the [n] bytes at [a]. *)
Definition inrange (a n x : Z) : bool := (a <=? x) && (x <? a + n).

Lemma inrange_spec a n x : inrange a n x = true <-> a <= x < a + n.
Proof. unfold inrange. rewrite andb_true_iff, Z.leb_le, Z.ltb_lt. lia. Qed.
Lemma inrange_false a n x : inrange a n x = false <-> ~ (a <= x < a + n).
Proof. rewrite <- not_true_iff_false, inrange_spec. done. Qed.

Lemma memset_loop_spec n i m dst c x :
  memset_loop n i m dst c x = if inrange (dst + i) (Z.of_nat n) x then u8 c else m x.
Proof.
  revert i m. induction n as [|n IH]; intros i m; simpl memset_loop.
  - unfold inrange. zcases; lia || done.
  - rewrite IH. unfold inrange, store8. zcases; lia || done.
Qed.

Lemma memset_spec m dst c n x :
  memset m dst c n x = if inrange dst n x then u8 c else m x.
Proof.
  unfold memset. rewrite memset_loop_spec, Z.add_0_r. unfold inrange.
  zcases; lia || done.
Qed.

Lemma memset_bytes m dst c n : bytes m -> bytes (memset m dst c n).
Proof. intros Hm x. rewrite memset_spec. case_match; [apply u8_range|apply Hm]. Qed.

Lemma memmove_up_spec n m d s x :
  bytes m -> d <= s \/ s + Z.of_nat n <= d ->
  memmove_up n m d s x = if inrange d (Z.of_nat n) x then m (s + (x - d)) else m x.
Proof.
  revert m d s. induction n as [|n IH]; intros m d s Hm Hov; simpl memmove_up.
  - unfold inrange. zcases; lia || done.
  - rewrite IH by (auto using store8_bytes; lia).
    unfold inrange, store8. rewrite (u8_small (m s)) by done.
    zcases; try lia; try done; f_equal; lia.
Qed.

Lemma memmove_down_spec n m d s x :
  bytes m -> s < d ->
  memmove_down n m d s x
  = if inrange (d - Z.of_nat n) (Z.of_nat n) x then m (s + (x - d)) else m x.
Proof.
  revert m d s. induction n as [|n IH]; intros m d s Hm Hov; simpl memmove_down.
  - unfold inrange. zcases; lia || done.
  - rewrite IH by (auto using store8_bytes; lia).
    unfold inrange, store8. rewrite (u8_small (m (s - 1))) by done.
    zcases; try lia; try done; f_equal; lia.
Qed.

Lemma memmove_spec m dst src n x :
  bytes m -> 0 <= n ->
  memmove m dst src n x = if inrange dst n x then m (src + (x - dst)) else m x.
Proof.
  intros Hm Hn. unfold memmove. destruct (Z.eqb_spec n 0) as [->|].
  { unfold inrange. zcases; lia || done. }
  destruct ((src <? dst) && (src + n >? dst)) eqn:E.
  - rewrite memmove_down_spec by (done || lia). rewrite Z2Nat.id by done.
    rewrite Z.add_simpl_r. case_match; [|done]. f_equal. lia.
  - rewrite memmove_up_spec by (done || lia). by rewrite Z2Nat.id.
Qed.

(** [memmove] copies the [n] source bytes to the destination and touches
    nothing else, however the two ranges overlap. *)
Theorem memmove_correct m dst src n :
  bytes m -> 0 <= n ->
  (forall i, 0 <= i < n -> memmove m dst src n (dst + i) = m (src + i))
  /\ (forall x, ~ (dst <= x < dst + n) -> memmove m dst src n x = m x).
Proof.
  intros Hm Hn. split.
  - intros i Hi. rewrite memmove_spec by done. rewrite (proj2 (inrange_spec _ _ _)) by lia.
    f_equal. lia.
  - intros x Hx. rewrite memmove_spec by done. by rewrite (proj2 (inrange_false _ _ _)).
Qed.

Lemma memmove_correct_witness :
  bytes (fun x => x mod 256) /\ 0 <= 4 /\ memmove (fun x => x mod 256) 12 10 4 (12 + 1) = 11.
Proof.
  assert (bytes (fun x => x mod 256)) as Hb by (intros x; by apply Z.mod_pos_bound).
  split; [exact Hb|]. split; [lia|].
  rewrite (proj1 (memmove_correct (fun x => x mod 256) 12 10 4 Hb ltac:(lia)) 1 ltac:(lia)).
  reflexivity.
Defined.

Lemma memmove_bytes m dst src n : bytes m -> 0 <= n -> bytes (memmove m dst src n).
Proof. intros Hm Hn x. rewrite memmove_spec by done. case_match; apply Hm. Qed.

(** ** Strings *)

(** The strings agree on their first [n] characters, up to and including the
    first NUL of [p]. *)
Definition streq (n : Z) (p q : cptr) : Prop :=
  forall i, 0 <= i < n -> (forall j, 0 <= j < i -> p j <> 0) -> p i = q i.

Lemma streq_step n p q :
  0 < n -> streq n p q <-> p 0 = q 0 /\ (p 0 <> 0 -> streq (n - 1) (adv p 1) (adv q 1)).
Proof.
  intros Hn. unfold streq, adv. split.
  - intros H. split; [apply H; lia|]. intros Hp i Hi Hj. apply H; [lia|].
    intros j Hj'. destruct (decide (j = 0)) as [->|]; [done|].
    replace j with (1 + (j - 1)) by lia. apply Hj. lia.
  - intros [H0 H] i Hi Hj. destruct (decide (i = 0)) as [->|]; [done|].
    replace i with (1 + (i - 1)) by lia. apply H; [apply Hj; lia|lia|].
    intros j Hj'. apply Hj. lia.
Qed.

Lemma strncmp_loop_zero n p q :
  strncmp_loop n p q = 0 <-> streq (Z.of_nat n) p q.
Proof.
  revert p q. induction n as [|n IH]; intros p q; simpl strncmp_loop.
  - split; [intros _ i Hi; lia|done].
  - rewrite streq_step by lia. replace (Z.of_nat (S n) - 1) with (Z.of_nat n) by lia.
    destruct (Z.eqb_spec (p 0) 0) as [E|E]; simpl.
    + split; [split; [lia|done]|lia].
    + destruct (Z.eqb_spec (p 0) (q 0)) as [E'|E']; simpl; [|split; lia || tauto].
      rewrite IH. tauto.
Qed.

(** [strncmp] returns zero exactly on strings that agree on their first
    [n] characters or up to a common NUL. *)
Theorem strncmp_zero p q n : strncmp p q n = 0 <-> streq n p q.
Proof.
  unfold strncmp. rewrite strncmp_loop_zero. unfold streq.
  split; intros H i Hi; apply H; lia.
Qed.

(** The first [k] characters of [t] are not NUL. *)
Definition nonul (t : cptr) (k : Z) : Prop := forall j, 0 <= j < k -> t j <> 0.

Lemma strlen_spec fuel t k :
  0 <= k < Z.of_nat fuel -> nonul t k -> t k = 0 -> strlen fuel t = Some k.
Proof.
  revert t k. induction fuel as [|fuel IH]; intros t k Hk Hn Hz; simpl; [lia|].
  destruct (decide (k = 0)) as [->|]; [by rewrite Hz|].
  rewrite (proj2 (Z.eqb_neq _ _)) by (apply Hn; lia).
  rewrite (IH _ (k - 1)); [simpl; f_equal; lia|lia| |].
  - intros j Hj. unfold adv. apply Hn. lia.
  - unfold adv. by replace (1 + (k - 1)) with k by lia.
Qed.

Lemma safestrcpy_loop_out k m s t x :
  ~ (s <= x < s + Z.of_nat k + 1) -> safestrcpy_loop k m s t x = m x.
Proof.
  revert m s t. induction k as [|k IH]; intros m s t Hx; simpl.
  - apply store8_ne. lia.
  - case_match; [rewrite !store8_ne by lia; done|].
    rewrite IH by lia. apply store8_ne. lia.
Qed.

Lemma safestrcpy_loop_spec k m s t :
  (forall i, 0 <= t i < 256) ->
  exists l, 0 <= l <= Z.of_nat k /\ nonul t l /\ (l < Z.of_nat k -> t l = 0)
    /\ (forall i, 0 <= i < l -> safestrcpy_loop k m s t (s + i) = t i)
    /\ safestrcpy_loop k m s t (s + l) = 0.
Proof.
  revert m s t. induction k as [|k IH]; intros m s t Ht; simpl.
  - exists 0. split_and!; try lia; [intros j; lia|]. rewrite Z.add_0_r. apply store8_eq.
  - destruct (Z.eqb_spec (t 0) 0) as [E|E].
    + exists 0. split_and!; try lia; [intros j; lia|].
      rewrite store8_ne by lia. rewrite Z.add_0_r, store8_eq, E. done.
    + destruct (IH (store8 m s (t 0)) (s + 1) (adv t 1)) as (l & Hl & Hn & Hz & Hc & H0).
      { intros i. apply Ht. }
      exists (l + 1). split_and!; try lia.
      * intros j Hj. destruct (decide (j = 0)) as [->|]; [done|].
        replace j with (1 + (j - 1)) by lia. apply Hn. lia.
      * intros. rewrite <- Hz by lia. unfold adv. f_equal. lia.
      * intros i Hi. destruct (decide (i = 0)) as [->|].
        -- rewrite Z.add_0_r, safestrcpy_loop_out, store8_eq, u8_small by (lia || done). done.
        -- replace (s + i) with (s + 1 + (i - 1)) by lia. rewrite Hc by lia.
           unfold adv. f_equal. lia.
      * by replace (s + (l + 1)) with (s + 1 + l) by lia.
Qed.

(** [safestrcpy] into a buffer of [n > 0] bytes always leaves a
    NUL-terminated string inside the buffer, the longest prefix of the source
    that fits, and writes nothing outside the buffer. *)
Theorem safestrcpy_spec m s t n :
  0 < n -> (forall i, 0 <= t i < 256) ->
  (exists l, 0 <= l < n /\ nonul t l /\ (l < n - 1 -> t l = 0)
     /\ (forall i, 0 <= i < l -> safestrcpy m s t n (s + i) = t i)
     /\ safestrcpy m s t n (s + l) = 0)
  /\ (forall x, ~ (s <= x < s + n) -> safestrcpy m s t n x = m x).
Proof.
  intros Hn Ht. unfold safestrcpy. rewrite (proj2 (Z.leb_gt _ _)) by lia. split.
  - destruct (safestrcpy_loop_spec (Z.to_nat (n - 1)) m s t Ht) as (l & Hl & ? & ? & ? & ?).
    exists l. rewrite Z2Nat.id in * by lia. split_and!; eauto; lia.
  - intros x Hx. apply safestrcpy_loop_out. lia.
Qed.

Lemma safestrcpy_spec_witness :
  exists m t, 0 < 3 /\ (forall i, 0 <= t i < 256) /\
  exists l, 0 <= l < 3 /\ safestrcpy m 100 t 3 (100 + l) = 0.
Proof.
  exists (fun _ => 7), (chars [115; 99; 104; 101; 100]).
  assert (forall i, 0 <= chars [115; 99; 104; 101; 100] i < 256) as Ht.
  { intros i. apply chars_bytes. repeat constructor; lia. }
  split; [lia|]. split; [exact Ht|].
  destruct (safestrcpy_spec (fun _ => 7) 100 _ 3 ltac:(lia) Ht) as [(l & Hl & _ & _ & _ & H0) _].
  exists l. split; [exact Hl|exact H0].
Defined.

(** ** Loads and stores *)

Section words.
Implicit Types (m : memory) (n : nat).

Lemma load_le_ext n m m' a :
  (forall x, a <= x < a + Z.of_nat n -> m x = m' x) -> load_le n m a = load_le n m' a.
Proof.
  revert a. induction n as [|n IH]; intros a H; simpl; [done|].
  rewrite (H a) by lia. rewrite (IH (a + 1)); [done|]. intros x Hx. apply H. lia.
Qed.

Lemma load_le_range n m a : bytes m -> 0 <= load_le n m a < 256 ^ Z.of_nat n.
Proof.
  intros Hm. revert a. induction n as [|n IH]; intros a.
  - simpl. lia.
  - rewrite Nat2Z.inj_succ, Z.pow_succ_r by lia. simpl.
    specialize (IH (a + 1)). specialize (Hm a). lia.
Qed.

Lemma load_le_digits n m a v :
  0 <= v < 256 ^ Z.of_nat n ->
  (forall i, 0 <= i < Z.of_nat n -> m (a + i) = v / 256 ^ i mod 256) ->
  load_le n m a = v.
Proof.
  revert a v. induction n as [|n IH]; intros a v Hv H.
  - simpl in *. lia.
  - simpl. rewrite <- (Z.add_0_r a) at 1. rewrite (H 0) by lia.
    rewrite Z.pow_0_r, Z.div_1_r.
    rewrite Nat2Z.inj_succ, Z.pow_succ_r in Hv by lia.
    rewrite (IH (a + 1) (v / 256)).
    + pose proof (Z.div_mod v 256). lia.
    + split; [apply Z.div_pos; lia|]. apply Z.div_lt_upper_bound; lia.
    + intros i Hi. replace (a + 1 + i) with (a + (i + 1)) by lia. rewrite H by lia.
      rewrite Z.pow_add_r, Z.pow_1_r, (Z.mul_comm _ 256), Zdiv.Zdiv_Zdiv by lia. done.
Qed.

Lemma load_store_le n m a v :
  0 <= v < 256 ^ Z.of_nat n -> load_le n (store_le n m a v) a = v.
Proof.
  intros Hv. apply load_le_digits; [done|]. intros i Hi. unfold store_le.
  zcases; try lia. repeat f_equal. lia.
Qed.

Lemma store_le_out n m a v x : ~ (a <= x < a + Z.of_nat n) -> store_le n m a v x = m x.
Proof. intros. unfold store_le. zcases; lia || done. Qed.

Lemma load_store_le_other n k m a b v :
  a + Z.of_nat n <= b \/ b + Z.of_nat k <= a -> load_le n (store_le k m b v) a = load_le n m a.
Proof. intros. apply load_le_ext. intros x Hx. apply store_le_out. lia. Qed.

Lemma store_le_bytes n m a v : bytes m -> bytes (store_le n m a v).
Proof.
  intros Hm x. unfold store_le. case_match; [by apply Z.mod_pos_bound|apply Hm].
Qed.

Lemma load_le_zero n m a : (forall x, a <= x < a + Z.of_nat n -> m x = 0) -> load_le n m a = 0.
Proof.
  intros Hz. apply load_le_digits; [lia|]. intros i Hi. rewrite Hz by lia.
  by rewrite Z.div_0_l, Z.mod_0_l by lia.
Qed.

Lemma load_memset_zero n m dst len a :
  dst <= a -> a + Z.of_nat n <= dst + len -> load_le n (memset m dst 0 len) a = 0.
Proof.
  intros H1 H2. apply load_le_zero. intros x Hx. rewrite memset_spec.
  by rewrite (proj2 (inrange_spec _ _ _)) by lia.
Qed.

Lemma load_memset_other n m dst c len a :
  a + Z.of_nat n <= dst \/ dst + len <= a ->
  load_le n (memset m dst c len) a = load_le n m a.
Proof.
  intros H. apply load_le_ext. intros x Hx. rewrite memset_spec.
  rewrite (proj2 (inrange_false _ _ _)) by lia. done.
Qed.
End words.
#[export] Hint Resolve store8_bytes memset_bytes store_le_bytes memmove_bytes : xv6.
#[global] Opaque memset memmove.
