(* ===== verification/Printf.v ===== *)
(** * Kernel formatted output

    [kernel/printf.c] with the console path under it: [consputc] of
    [console.c] and [uartputc_sync] of [uart.c].  [format] computes the
    arguments of the successive [consputc] calls of one [printf]; the kernel
    field [out] collects the bytes written to the UART's transmit register.
    The wait for the transmitter to become idle is the device's business. *)

From stdpp Require Import base numbers gmap sets strings option list.
From Stdlib Require Import Ascii FunctionalExtensionality.
From S2P Require Import Prelude Machine Spinlock CString.

(** Character constants and string literals as bytes. *)
Definition ch (a : ascii) : Z := Z.of_N (N_of_ascii a).
(** [\n] and [\t] stand for the newline and the tab, as in C. *)
Fixpoint unescape (l : list Z) : list Z :=
  match l with
  | 92 :: 110 :: l => 10 :: unescape l
  | 92 :: 116 :: l => 9 :: unescape l
  | c :: l => c :: unescape l
  | [] => []
  end.
Definition str (s : string) : list Z := unescape (map ch (String.list_ascii_of_string s)).

Definition BACKSPACE : Z := 0x100.

Definition uartputc_sync (c : Z) : K () :=
  push_off;;
  modify (fun s => s <| out ::= fun o => o ++ [u8 c] |>);;
  pop_off.

Definition consputc (c : Z) : K () :=
  if c =? BACKSPACE then
    uartputc_sync 8;; uartputc_sync (ch " ");; uartputc_sync 8
  else uartputc_sync c.

Definition digits : list Z := Eval cbv in str "0123456789abcdef".

(** The do-while loop of [printint]: [buf], least significant digit first. *)
Fixpoint digit_loop (fuel : nat) (x base : Z) : option (list Z) :=
  match fuel with
  | O => None
  | S fuel =>
      let d := nth (Z.to_nat (x mod base)) digits 0 in
      let x := x / base in
      if x =? 0 then Some [d] else cons d <$> digit_loop fuel x base
  end.

(** [char buf[20]] bounds the loop. *)
Definition BUFLEN : nat := 20.
Definition printint (xx base : Z) (sign : bool) : option (list Z) :=
  let sign := sign && (xx <? 0) in
  let x := if sign then u64 (- xx) else u64 xx in
  buf ← digit_loop BUFLEN x base;
  let buf := if sign then buf ++ [ch "-"] else buf in
  guard (length buf <= BUFLEN)%nat;;
  Some (rev buf).

Fixpoint printptr_loop (n : nat) (x : Z) : list Z :=
  match n with
  | O => []
  | S n => nth (Z.to_nat (Z.shiftr x 60)) digits 0 :: printptr_loop n (u64 (Z.shiftl x 4))
  end.
Definition printptr (x : Z) : list Z := ch "0" :: ch "x" :: printptr_loop 16 (u64 x).

(** Variadic arguments: registers and strings ([None] is the null pointer). *)
Inductive varg := VInt (z : Z) | VStr (s : option (list Z)).

(** [(long long)] of a 64-bit value. *)
Definition i64 (z : Z) : Z := (z + 2 ^ 63) mod 2 ^ 64 - 2 ^ 63.

(** One [%] directive: how many characters follow the [%] sign, and what the
    next argument prints. *)
Inductive conv := CvInt | CvLong | CvUint | CvUlong | CvHex | CvHexlong | CvPtr | CvChar | CvStr.
Definition directive (c0 c1 c2 : Z) : option (nat * conv) :=
  if c0 =? ch "d" then Some (1%nat, CvInt)
  else if (c0 =? ch "l") && (c1 =? ch "d") then Some (2%nat, CvLong)
  else if (c0 =? ch "l") && (c1 =? ch "l") && (c2 =? ch "d") then Some (3%nat, CvLong)
  else if c0 =? ch "u" then Some (1%nat, CvUint)
  else if (c0 =? ch "l") && (c1 =? ch "u") then Some (2%nat, CvUlong)
  else if (c0 =? ch "l") && (c1 =? ch "l") && (c2 =? ch "u") then Some (3%nat, CvUlong)
  else if c0 =? ch "x" then Some (1%nat, CvHex)
  else if (c0 =? ch "l") && (c1 =? ch "x") then Some (2%nat, CvHexlong)
  else if (c0 =? ch "l") && (c1 =? ch "l") && (c2 =? ch "x") then Some (3%nat, CvHexlong)
  else if c0 =? ch "p" then Some (1%nat, CvPtr)
  else if c0 =? ch "c" then Some (1%nat, CvChar)
  else if c0 =? ch "s" then Some (1%nat, CvStr)
  else None.

Definition print_arg (cv : conv) (a : varg) : option (list Z) :=
  match cv, a with
  | CvInt, VInt z => printint (i32 z) 10 true
  | CvLong, VInt z => printint (i64 z) 10 true
  | CvUint, VInt z => printint (u32 z) 10 false
  | CvUlong, VInt z => printint (i64 z) 10 false
  | CvHex, VInt z => printint (u32 z) 16 false
  | CvHexlong, VInt z => printint (i64 z) 16 false
  | CvPtr, VInt z => Some (printptr z)
  | CvChar, VInt z => Some [u32 z]
  | CvStr, VStr (Some s) => Some s
  | CvStr, VStr None => Some (str "(null)")
  | _, _ => None
  end.

(** The loop over [fmt]; [None] is a use of a missing or ill-typed argument. *)
Fixpoint format_loop (fuel : nat) (fmt : list Z) (ap : list varg) : option (list Z) :=
  match fuel, fmt with
  | O, _ | _, [] => Some []
  | S fuel, cx :: fmt =>
      if negb (cx =? ch "%") then cons cx <$> format_loop fuel fmt ap
      else
        let c0 := nth 0 fmt 0 in let c1 := nth 1 fmt 0 in let c2 := nth 2 fmt 0 in
        match directive c0 c1 c2 with
        | Some (n, cv) =>
            match ap with
            | a :: ap => bs ← print_arg cv a; app bs <$> format_loop fuel (drop n fmt) ap
            | [] => None
            end
        | None =>
            if c0 =? ch "%" then cons (ch "%") <$> format_loop fuel (drop 1 fmt) ap
            else if c0 =? 0 then Some []
            else app [ch "%"; c0] <$> format_loop fuel (drop 1 fmt) ap
        end
  end.
Definition format (fmt : list Z) (ap : list varg) : option (list Z) :=
  format_loop (length fmt) fmt ap.

Definition printf (fmt : string) (ap : list varg) : K () :=
  acquire LkPr;;
  cs ← deref (format (str fmt) ap);
  forM cs consputc;;
  release LkPr.

(** *** Panic

    The outcome [Panic] of the monad is the call of [panic]; what the hart does
    from there on is this: with [panicking] set the output takes no lock and
    leaves the interrupt nesting alone, and once [panicked] is set every
    [uartputc_sync] of any hart spins. *)
Definition uartputc_panicking (c : Z) : K () := modify (fun s => s <| out ::= fun o => o ++ [u8 c] |>).
Definition uartputc_panicked (c : Z) : K () := hangs HSpin.
Definition consputc_panicking (c : Z) : K () :=
  if c =? BACKSPACE then
    uartputc_panicking 8;; uartputc_panicking (ch " ");; uartputc_panicking 8
  else uartputc_panicking c.
Definition printf_panicking (fmt : string) (ap : list varg) : K () :=
  cs ← deref (format (str fmt) ap);
  forM cs consputc_panicking.
(** The last thing the hart does before it spins for ever. *)
Definition panic_message (s : list Z) : K () :=
  printf_panicking "panic: " [];;
  printf_panicking "%s\n" [VStr (Some s)].

(** The bytes one [consputc] sends. *)
Definition cons_bytes (c : Z) : list Z :=
  if c =? BACKSPACE then [8; 32; 8] else [u8 c].

(** ** Output under any set of held locks *)

Section output.
Context (h : hart) (Hq : quiet h) (X : gset lockid).

Lemma uartputc_sync_ok c s :
  hw s = acquired h X -> uartputc_sync c s = Ret tt (s <| out ::= fun o => o ++ [u8 c] |>).
Proof.
  intros Hs. unfold uartputc_sync, push_off, pop_off.
  mapply zoom_Ret by (rewrite Hs; by apply push_off_h_ok). msimpl.
  pose proof Hq as (c0 & Hc & _).
  erewrite zoom_Ret; [|apply (pop_off_h_ok h Hq X (locks h) c0 Hc)].
  destruct s; simpl in *; by subst.
Qed.

Lemma upd_out_out s f g : s <| out ::= f |> <| out ::= g |> = s <| out ::= fun o => g (f o) |>.
Proof. done. Qed.

Lemma consputc_ok c s :
  hw s = acquired h X ->
  consputc c s = Ret tt (s <| out ::= fun o => o ++ cons_bytes c |>).
Proof.
  intros Hs. unfold consputc, cons_bytes. destruct (c =? BACKSPACE).
  - mapply uartputc_sync_ok by done. mapply uartputc_sync_ok by done.
    rewrite uartputc_sync_ok by done. f_equal.
    unfold set_out. simpl. by rewrite <- !app_assoc.
  - by apply uartputc_sync_ok.
Qed.

Lemma forM_consputc_ok cs s :
  hw s = acquired h X ->
  forM cs consputc s = Ret tt (s <| out ::= fun o => o ++ concat (map cons_bytes cs) |>).
Proof.
  revert s. induction cs as [|c cs IH]; intros s Hs; simpl.
  - unfold mret, M_ret. f_equal. destruct s; unfold set_out; simpl. by rewrite app_nil_r.
  - mapply consputc_ok by done. rewrite IH by done. f_equal.
    unfold set_out. simpl. by rewrite <- app_assoc.
Qed.
End output.

(** [printf] prints atomically and leaves the locks as they were. *)
Lemma printf_ok h X fmt ap cs s :
  quiet h -> hw s = acquired h X -> lock_free h LkPr -> LkPr ∉ X ->
  format (str fmt) ap = Some cs ->
  printf fmt ap s = Ret tt (s <| out ::= fun o => o ++ concat (map cons_bytes cs) |>).
Proof.
  intros Hq Hs Hf HX Hfmt. unfold printf. mapply acquire_ok by done.
  rewrite Hfmt. cbn [deref]. msimpl.
  mapply (forM_consputc_ok h Hq ({[LkPr]} ∪ X)) by done.
  rewrite (release_ok h Hq ({[LkPr]} ∪ X)) by (simpl; set_solver).
  replace (({[LkPr]} ∪ X) ∖ {[LkPr]}) with X by set_solver.
  f_equal. destruct s; simpl in *; by subst.
Qed.

(** ** Numbers *)

(** The value of a printed digit, and of a printed number. *)
Definition dval (c : Z) : Z := if c <? 58 then c - 48 else c - 87.
Definition dvalue (base : Z) (ds : list Z) : Z := foldl (fun a c => a * base + dval c) 0 ds.
Definition parse_num (base : Z) (cs : list Z) : Z :=
  match cs with
  | c :: ds => if c =? ch "-" then - dvalue base ds else dvalue base cs
  | [] => 0
  end.

Definition hexdigit (i : Z) : Z := nth (Z.to_nat i) digits 0.

Lemma hexdigit_dval i : 0 <= i < 16 -> dval (hexdigit i) = i /\ hexdigit i <> ch "-".
Proof.
  intros Hi.
  assert (forall k, (k < 16)%nat -> dval (hexdigit (Z.of_nat k)) = Z.of_nat k /\ hexdigit (Z.of_nat k) <> ch "-").
  { intros k Hk. do 16 (destruct k as [|k]; [by vm_compute|]). lia. }
  specialize (H (Z.to_nat i) ltac:(lia)). by rewrite Z2Nat.id in H by lia.
Qed.

Lemma digit_loop_spec fuel x base :
  2 <= base <= 16 -> 0 <= x < base ^ Z.of_nat fuel -> (0 < fuel)%nat ->
  exists l, digit_loop fuel x base = Some l /\ dvalue base (rev l) = x
    /\ (forall k, x < base ^ Z.of_nat k -> (0 < k)%nat -> (length l <= k)%nat)
    /\ exists d l', rev l = d :: l' /\ d <> ch "-".
Proof.
  intros Hb. revert x. induction fuel as [|fuel IH]; intros x Hx Hf; [lia|].
  cbn [digit_loop]. pose proof (Z.mod_pos_bound x base ltac:(lia)) as Hm.
  destruct (hexdigit_dval (x mod base)) as [Hd Hne]; [lia|].
  fold (hexdigit (x mod base)).
  destruct (Z.eqb_spec (x / base) 0) as [E|E].
  - eexists. split; [done|]. split_and!.
    + unfold dvalue. simpl. rewrite Hd. pose proof (Z.div_mod x base). lia.
    + intros k _ Hk. simpl. lia.
    + simpl. eauto.
  - assert (0 < x / base) as Hpos.
    { pose proof (Z.div_pos x base ltac:(lia) ltac:(lia)). lia. }
    assert (forall k, x < base ^ Z.of_nat (S k) -> x / base < base ^ Z.of_nat k) as Hdiv.
    { intros k Hk. apply Z.div_lt_upper_bound; [lia|].
      by rewrite Nat2Z.inj_succ, Z.pow_succ_r in Hk by lia. }
    destruct fuel as [|fuel].
    { specialize (Hdiv O ltac:(lia)). simpl in Hdiv. lia. }
    destruct (IH (x / base)) as (l & Hl & Hv & Hlen & d & l' & Hrev & Hd').
    { split; [lia|]. apply Hdiv. lia. } { lia. }
    rewrite Hl. simpl. eexists. split; [done|]. split_and!.
    + simpl. unfold dvalue in *. rewrite foldl_app, Hv. simpl. rewrite Hd.
      pose proof (Z.div_mod x base). lia.
    + intros [|k] Hk Hk0; [lia|]. simpl. apply le_n_S. apply Hlen; [by apply Hdiv|].
      destruct k; [|lia]. specialize (Hdiv O Hk). simpl in Hdiv. lia.
    + simpl. rewrite Hrev. simpl. eauto.
Qed.

Lemma printint_ok xx base sign :
  base = 10 \/ base = 16 ->
  - 2 ^ 63 <= xx < 2 ^ 64 -> (sign = true -> xx < 2 ^ 63) ->
  exists cs, printint xx base sign = Some cs /\ (length cs <= 20)%nat
    /\ parse_num base cs = (if sign then xx else u64 xx).
Proof.
  intros Hbase Hxx Hs. unfold printint.
  set (neg := sign && (xx <? 0)). set (x := if neg then u64 (- xx) else u64 xx).
  assert (0 <= x < 2 ^ 64) as Hx by (unfold x; destruct neg; apply u64_range).
  destruct (digit_loop_spec BUFLEN x base) as (l & Hl & Hv & Hlen & d & l' & Hrev & Hd).
  { lia. } { unfold BUFLEN. destruct Hbase; subst base; simpl; lia. } { unfold BUFLEN; lia. }
  rewrite Hl. cbn [mbind option_bind].
  destruct neg eqn:En.
  - unfold neg in En. apply andb_true_iff in En as [-> E%Z.ltb_lt].
    assert (x = - xx) as Hxe by (unfold x; rewrite u64_small; lia).
    assert (length l <= 19)%nat as H19.
    { apply Hlen; [|lia]. destruct Hbase; subst base; simpl; lia. }
    rewrite option_guard_True by (unfold BUFLEN; rewrite length_app; simpl; lia).
    rewrite rev_app_distr. simpl. eexists. split; [done|]. split.
    + simpl. rewrite length_rev. lia.
    + simpl. rewrite Hv, Hxe. lia.
  - assert (length l <= 20)%nat as H20.
    { apply Hlen; [|lia]. destruct Hbase; subst base; simpl; lia. }
    rewrite option_guard_True by (unfold BUFLEN; lia).
    eexists. split; [done|]. split; [by rewrite length_rev|].
    rewrite Hrev. unfold parse_num. rewrite (proj2 (Z.eqb_neq d (ch "-")) Hd). rewrite <- Hrev, Hv.
    unfold x, neg in *. destruct sign; [|done].
    simpl in En. apply Z.ltb_ge in En. apply u64_small. specialize (Hs eq_refl). lia.
Qed.

(** ** Formatting never fails on well-typed arguments *)

Lemma i64_range z : - 2 ^ 63 <= i64 z < 2 ^ 63.
Proof. unfold i64. pose proof (Z.mod_pos_bound (z + 2 ^ 63) (2 ^ 64)). lia. Qed.

(** Same C type of argument. *)
Definition same_kind (a b : varg) : bool :=
  match a, b with VInt _, VInt _ | VStr _, VStr _ => true | _, _ => false end.

Lemma print_arg_kind cv a b cs :
  same_kind a b = true -> print_arg cv a = Some cs -> exists cs', print_arg cv b = Some cs'.
Proof.
  intros Hk. destruct cv, a, b as [w|[]]; try discriminate Hk; simpl; try (by eauto); intros _.
  all: match goal with |- exists _, printint ?x ?b ?s = _ =>
      destruct (printint_ok x b s) as (l & Hl & _); [lia| |intros E; try discriminate E|by exists l] end;
    pose proof (i32_range w); pose proof (u32_range w); pose proof (i64_range w); lia.
Qed.

Lemma format_loop_kind n fmt ap bp cs :
  Forall2 (fun a b => same_kind a b = true) ap bp -> format_loop n fmt ap = Some cs ->
  exists cs', format_loop n fmt bp = Some cs'.
Proof.
  revert fmt ap bp cs. induction n as [|n IH]; intros fmt ap bp cs HF; [by eauto|].
  destruct fmt as [|c fmt]; [by eauto|]. cbn [format_loop]. cbv zeta.
  assert (forall ap bp fmt (f : list Z -> list Z), Forall2 (fun a b => same_kind a b = true) ap bp ->
    f <$> format_loop n fmt ap = Some cs -> exists cs', f <$> format_loop n fmt bp = Some cs') as IH'.
  { intros ap' bp' fmt' f HF' (x & Hx & _)%fmap_Some. destruct (IH _ _ _ _ HF' Hx) as [y ->]. simpl. eauto. }
  destruct (negb _); [by apply IH'|].
  destruct (directive _ _ _) as [[m cv]|].
  - destruct HF as [|a b ap bp Hab HF]; [done|]. intros (x & Hx & Hr)%bind_Some.
    destruct (print_arg_kind _ _ _ _ Hab Hx) as [y ->]. simpl.
    destruct (format_loop n (drop m fmt) ap) as [w|] eqn:Hw; [|done].
    destruct (IH _ _ _ _ HF Hw) as [z ->]. simpl. eauto.
  - destruct (_ =? _); [by apply IH'|]. destruct (_ =? _); [by eauto|]. by apply IH'.
Qed.

(** A format that can print some arguments can print all arguments of the same
    types. *)
Lemma printf_total h X fmt ap bp s :
  env h X s -> LkPr ∉ X -> format (str fmt) bp <> None ->
  Forall2 (fun a b => same_kind a b = true) bp ap ->
  exists o, printf fmt ap s = Ret tt (s <| out ::= fun x => x ++ o |>).
Proof.
  intros [Hq Hs Hf] HX Hb HF. destruct (format (str fmt) bp) as [cs|] eqn:E; [|done]. destruct (format_loop_kind _ _ _ _ _ HF E) as [cs' Hcs].
  eexists. eapply printf_ok; try done. by apply Hf.
Qed.

(** C39: [printint] prints every 64-bit number, in base 10 or 16, signed or not: the
    twenty bytes of its buffer always suffice, and reading the characters back
    gives the number. *)
Theorem printint_correct xx base sign :
  base = 10 \/ base = 16 ->
  - 2 ^ 63 <= xx < 2 ^ 64 -> (sign = true -> xx < 2 ^ 63) ->
  exists cs, printint xx base sign = Some cs /\ (length cs <= 20)%nat
    /\ parse_num base cs = (if sign then xx else u64 xx).
Proof. apply printint_ok. Qed.

Lemma printint_correct_witness :
  exists cs, printint (-2147483648) 10 true = Some cs /\ parse_num 10 cs = -2147483648.
Proof.
  destruct (printint_correct (-2147483648) 10 true) as (cs & H1 & _ & H2);
    [by left|lia|intros _; lia|].
  exists cs. split; [exact H1|exact H2].
Defined.

(** The message of a panic comes out whatever locks are held, the one of [printf] included. *)
Lemma forM_consputc_panicking cs : forall s,
  forM cs consputc_panicking s = Ret tt (s <| out ::= fun o => o ++ concat (map cons_bytes cs) |>).
Proof.
  induction cs as [|c cs IH]; intros s; simpl.
  - unfold mret, M_ret. f_equal. destruct s; unfold set_out; simpl. by rewrite app_nil_r.
  - assert (consputc_panicking c s = Ret tt (s <| out ::= fun o => o ++ cons_bytes c |>)) as Hc.
    { unfold consputc_panicking, cons_bytes. destruct (c =? BACKSPACE); [|done].
      transitivity (Ret (S := kernel) tt (s <| out ::= fun o => ((o ++ [8]) ++ [32]) ++ [8] |>)); [done|].
      do 2 f_equal. extensionality o. by rewrite <- !app_assoc. }
    mapply Hc by done. rewrite IH. f_equal. unfold set_out. simpl. by rewrite <- app_assoc.
Qed.

Lemma panic_message_ok l s :
  Forall (fun c => 0 < c < 256) l ->
  panic_message l s = Ret tt (s <| out ::= fun o => o ++ str "panic: " ++ l ++ [10] |>).
Proof.
  intros Hl. unfold panic_message, printf_panicking.
  assert (format (str "%s\n") [VStr (Some l)] = Some (l ++ [10])) as -> by reflexivity.
  change (format (str "panic: ") []) with (Some (str "panic: ")). cbn [deref]. msimpl.
  mapply forM_consputc_panicking by done. cbn [deref]. msimpl. rewrite forM_consputc_panicking.
  assert (concat (map cons_bytes (l ++ [10])) = l ++ [10]) as ->.
  { rewrite map_app, concat_app. f_equal. induction Hl as [|c l Hc _ IH]; [done|]. simpl. rewrite IH.
    unfold cons_bytes, u8. rewrite (proj2 (Z.eqb_neq c BACKSPACE)) by (unfold BACKSPACE; lia). by rewrite Z.mod_small by lia. }
  change (concat (map cons_bytes (str "panic: "))) with (str "panic: "). rewrite upd_out_out.
  do 2 f_equal. extensionality o. by rewrite <- app_assoc.
Qed.
