(* ===== verification/Kalloc.v ===== *)
(** * Physical page allocator

    [kernel/kalloc.c].  The free list is threaded through the free pages
    themselves: [kmem.freelist] is the kernel field [freelist] and [r->next]
    the first eight bytes of page [r].  [free_list] relates it to a list of
    pages; [kmem_inv] is the allocator's invariant.  The class [PageAlloc]
    states what the allocator promises to the page-table code. *)

From stdpp Require Import base numbers gmap sets strings option list.
From Stdlib Require Import FunctionalExtensionality.
From S2P Require Import Prelude Machine Spinlock CString.

(** ** Page arithmetic *)

Definition PGROUNDUP (a : Z) : Z := Z.land (u64 (a + PGSIZE - 1)) (Z.lnot (PGSIZE - 1)).
Definition PGROUNDDOWN (a : Z) : Z := Z.land (u64 a) (Z.lnot (PGSIZE - 1)).

Lemma land_page a : Z.land a (Z.lnot (PGSIZE - 1)) = a / PGSIZE * PGSIZE.
Proof.
  change (PGSIZE - 1) with (Z.ones 12). rewrite <- Z.ldiff_land, Z.ldiff_ones_r by lia.
  by rewrite Z.shiftl_mul_pow2, Z.shiftr_div_pow2.
Qed.

Lemma PGROUNDDOWN_eq a : 0 <= a < 2 ^ 64 -> PGROUNDDOWN a = a / PGSIZE * PGSIZE.
Proof. intros. unfold PGROUNDDOWN. by rewrite land_page, u64_small. Qed.
Lemma PGROUNDUP_eq a :
  0 <= a < 2 ^ 64 - PGSIZE -> PGROUNDUP a = (a + PGSIZE - 1) / PGSIZE * PGSIZE.
Proof. intros. unfold PGROUNDUP. rewrite land_page, u64_small; [done|]. unfold PGSIZE in *. lia. Qed.

(** ** Operations *)

Section ops.
Context `{Link}.

Definition kfree (pa : Z) : K () :=
  if negb (pa mod PGSIZE =? 0) || (pa <? end_) || (pa >=? PHYSTOP) then panic "kfree"
  else
    modify (fun s => s <| mem ::= fun m => memset m pa 1 PGSIZE |>);;
    acquire LkKmem;;
    r ← gets freelist;
    modify (fun s => s <| mem ::= fun m => store64 m pa r |>);;
    modify (fun s => s <| freelist := pa |>);;
    release LkKmem.

Definition kalloc : K Z :=
  acquire LkKmem;;
  r ← gets freelist;
  when (negb (r =? 0)) (modify (fun s => s <| freelist := load64 (mem s) r |>));;
  release LkKmem;;
  when (negb (r =? 0)) (modify (fun s => s <| mem ::= fun m => memset m r 5 PGSIZE |>));;
  mret r.

(** The loop frees the whole pages between [p] and [pa_end]; it runs once per
    page. *)
Fixpoint freerange_loop (n : nat) (p pa_end : Z) : K () :=
  match n with
  | O => mret tt
  | S n => if p + PGSIZE <=? pa_end then kfree p;; freerange_loop n (p + PGSIZE) pa_end
           else mret tt
  end.
Definition freerange (pa_start pa_end : Z) : K () :=
  let p := PGROUNDUP pa_start in
  freerange_loop (S (Z.to_nat ((pa_end - p) / PGSIZE))) p pa_end.

Definition kinit : K () := initlock LkKmem;; freerange end_ PHYSTOP.
End ops.

(** ** The free list *)

Section inv.
Context `{LinkOk}.

(** A page the allocator may hand out. *)
Definition page_ok (p : Z) : Prop := p mod PGSIZE = 0 /\ end_ <= p < PHYSTOP.

Lemma page_ok_range p : page_ok p -> KERNBASE <= p < PHYSTOP.
Proof. intros [_ Hp]. pose proof end_ge. lia. Qed.
Lemma page_ok_nonzero p : page_ok p -> p <> 0.
Proof. intros Hp%page_ok_range. unfold KERNBASE in Hp. lia. Qed.

(** Two different pages do not overlap. *)
Lemma page_disjoint p q :
  p mod PGSIZE = 0 -> q mod PGSIZE = 0 -> p <> q -> p + PGSIZE <= q \/ q + PGSIZE <= p.
Proof. unfold PGSIZE. intros. zlia. Qed.

Fixpoint free_list (m : memory) (head : Z) (l : list Z) : Prop :=
  match l with
  | [] => head = 0
  | p :: l => head = p /\ free_list m (load64 m p) l
  end.

Record kmem_inv (s : kernel) (l : list Z) : Prop := {
  ki_list : free_list (mem s) (freelist s) l;
  ki_nodup : NoDup l;
  ki_pages : Forall page_ok l;
  ki_bytes : bytes (mem s)
}.

Lemma free_list_ext m m' head l :
  (forall p, p ∈ l -> load64 m p = load64 m' p) -> free_list m head l -> free_list m' head l.
Proof.
  revert head. induction l as [|p l IH]; intros head Hm; simpl; [done|].
  intros [-> Hl]. split; [done|]. rewrite <- (Hm p) by set_solver.
  apply IH; [|done]. intros q Hq. apply Hm. set_solver.
Qed.

(** Writing inside a page that is not free keeps the free list. *)
Lemma free_list_frame m m' head l p :
  p mod PGSIZE = 0 -> p ∉ l -> Forall page_ok l ->
  (forall x, ~ (p <= x < p + PGSIZE) -> m' x = m x) ->
  free_list m head l -> free_list m' head l.
Proof.
  intros Hp Hnl Hok Hm. apply free_list_ext. intros q Hq.
  apply load_le_ext. intros x Hx. rewrite Hm; [done|].
  assert (page_ok q) as [Hq' _] by (rewrite Forall_forall in Hok; by apply Hok).
  assert (p <> q) as Hne by (by intros ->).
  pose proof (page_disjoint p q Hp Hq' Hne). unfold PGSIZE in *. lia.
Qed.

(** [s'] is [s] except for the contents of page [p] and the list head. *)
Record page_step (p : Z) (s s' : kernel) : Prop := {
  ps_eq : s' = s <| mem := mem s' |> <| freelist := freelist s' |>;
  ps_out : forall x, ~ (p <= x < p + PGSIZE) -> mem s' x = mem s x
}.

Definition take_page (p : Z) (s : kernel) : kernel :=
  s <| freelist := load64 (mem s) p |> <| mem ::= fun m => memset m p 5 PGSIZE |>.
Definition put_page (p : Z) (s : kernel) : kernel :=
  s <| mem ::= fun m => store64 (memset m p 1 PGSIZE) p (freelist s) |> <| freelist := p |>.

Context (h : hart) (X : gset lockid).

Lemma kalloc_some s p l :
  env h X s -> LkKmem ∉ X -> kmem_inv s (p :: l) -> kalloc s = Ret p (take_page p s).
Proof.
  intros He HX [[Hh Hl] _ Hok _]. apply Forall_cons in Hok as [Hp _].
  apply page_ok_nonzero in Hp. unfold kalloc.
  mapply (env_acquire h X) by envtac. msimpl. cbn [freelist set_hw upd]. rewrite Hh.
  rewrite (proj2 (Z.eqb_neq p 0) Hp). cbn [negb when]. msimpl.
  mapply (env_release_last h X) by envtac.
  msimpl. unfold mret, M_ret, take_page. f_equal.
  apply env_hw in He. destruct s; simpl in *; by subst.
Qed.

Lemma kalloc_none s : env h X s -> LkKmem ∉ X -> kmem_inv s [] -> kalloc s = Ret 0 s.
Proof.
  intros He HX [Hh _ _ _]. simpl in Hh. unfold kalloc.
  mapply (env_acquire h X) by envtac. msimpl. cbn [freelist set_hw upd]. rewrite Hh.
  cbn [negb when Z.eqb]. msimpl. mapply (env_release_last h X) by envtac.
  msimpl. unfold mret, M_ret. f_equal. apply env_hw in He. destruct s; simpl in *; by subst.
Qed.

Lemma kfree_some s p :
  env h X s -> LkKmem ∉ X -> page_ok p -> kfree p s = Ret tt (put_page p s).
Proof.
  intros He HX [Hp Hr]. unfold kfree. rewrite Hp, Z.eqb_refl.
  rewrite (proj2 (Z.ltb_ge p end_)), Z.geb_leb, (proj2 (Z.leb_gt PHYSTOP p)) by lia.
  cbn [negb orb]. msimpl.
  mapply (env_acquire h X) by envtac. msimpl.
  rewrite (env_release_last h X) by envtac.
  unfold put_page. f_equal. apply env_hw in He. destruct s; simpl in *; by subst.
Qed.

(** Freeing an unaligned address, or one outside the allocatable RAM. *)
Lemma kfree_panic s p : ~ page_ok p -> kfree p s = Panic "kfree".
Proof.
  intros Hn. unfold kfree. destruct (negb (p mod PGSIZE =? 0) || (p <? end_) || (p >=? PHYSTOP)) eqn:E.
  - done.
  - exfalso. apply Hn. apply orb_false_iff in E as [[E1 E2]%orb_false_iff E3].
    apply negb_false_iff, Z.eqb_eq in E1. unfold page_ok. lia.
Qed.

Lemma take_page_inv s p l : kmem_inv s (p :: l) -> kmem_inv (take_page p s) l.
Proof.
  intros [[Hh Hl] Hnd Hok Hb]. apply NoDup_cons in Hnd as [Hnl Hnd].
  apply Forall_cons in Hok as [[Hp Hr] Hok]. split; [|done|done|by apply memset_bytes].
  eapply (free_list_frame (mem s)); [exact Hp|done|done| |exact Hl].
  intros x Hx. simpl. rewrite memset_spec. by rewrite (proj2 (inrange_false _ _ _) Hx).
Qed.

Lemma take_page_step s p : page_step p s (take_page p s).
Proof.
  split; [unfold take_page; kext s|]. intros x Hx. simpl. rewrite memset_spec.
  by rewrite (proj2 (inrange_false _ _ _) Hx).
Qed.

Lemma free_list_head m head l : free_list m head l -> Forall page_ok l -> 0 <= head < 2 ^ 64.
Proof.
  destruct l as [|p l]; simpl; [lia|]. intros [-> _] [Hp%page_ok_range _]%Forall_cons.
  unfold KERNBASE, PHYSTOP, KERNBASE in Hp. lia.
Qed.

Lemma put_page_out s p x : ~ (p <= x < p + PGSIZE) -> mem (put_page p s) x = mem s x.
Proof.
  intros Hx. simpl. unfold store64. rewrite store_le_out by (unfold PGSIZE in Hx; lia).
  rewrite memset_spec. by rewrite (proj2 (inrange_false _ _ _) Hx).
Qed.

Lemma put_page_inv s p l :
  page_ok p -> p ∉ l -> kmem_inv s l -> kmem_inv (put_page p s) (p :: l).
Proof.
  intros [Hp Hr] Hnl [Hl Hnd Hok Hb]. split.
  - split; [done|]. replace (load64 (mem (put_page p s)) p) with (freelist s).
    + eapply free_list_frame; [exact Hp|done|done|apply put_page_out|done].
    + simpl. unfold load64, store64. rewrite load_store_le; [done|]. by eapply free_list_head.
  - by apply NoDup_cons.
  - by apply Forall_cons.
  - simpl. unfold store64. by apply store_le_bytes, memset_bytes.
Qed.

Lemma put_page_step s p : page_step p s (put_page p s).
Proof. split; [unfold put_page; kext s|apply put_page_out]. Qed.
End inv.

(** ** The allocator's contract *)

(** What the allocator promises to its clients: a pool of distinct pages,
    not disturbed by writes to other pages, from which [kalloc] takes the first
    and to which [kfree] returns one; neither touches any other memory. *)
Class PageAlloc `{LinkOk} (pool : kernel -> list Z -> Prop) : Prop := {
  pool_pages s l : pool s l -> NoDup l /\ Forall page_ok l /\ bytes (mem s);
  pool_frame s s' l :
    pool s l -> freelist s' = freelist s -> bytes (mem s') ->
    (forall p x, p ∈ l -> p <= x < p + PGSIZE -> mem s' x = mem s x) -> pool s' l;
  pool_alloc h X s p l :
    env h X s -> LkKmem ∉ X -> pool s (p :: l) ->
    exists s', kalloc s = Ret p s' /\ pool s' l /\ page_step p s s';
  pool_empty h X s : env h X s -> LkKmem ∉ X -> pool s [] -> kalloc s = Ret 0 s;
  pool_free h X s p l :
    env h X s -> LkKmem ∉ X -> page_ok p -> p ∉ l -> pool s l ->
    exists s', kfree p s = Ret tt s' /\ pool s' (p :: l) /\ page_step p s s'
}.

#[export] Instance kmem_alloc `{LinkOk} : PageAlloc kmem_inv.
Proof.
  split.
  - intros s l []. done.
  - intros s s' l [Hl Hnd Hok Hb] Hf Hb' Hm. split; [|done..]. rewrite Hf.
    eapply free_list_ext; [|done]. intros p Hp. apply load_le_ext. intros x Hx. symmetry.
    apply (Hm p); [done|]. unfold PGSIZE. lia.
  - intros h X s p l He HX Hinv. exists (take_page p s).
    split_and!; eauto using kalloc_some, take_page_inv, take_page_step.
  - intros h X s He HX Hinv. by eapply kalloc_none.
  - intros h X s p l He HX Hp Hnl Hinv. exists (put_page p s).
    split_and!; eauto using kfree_some, put_page_inv, put_page_step.
Qed.

(** ** Properties *)

(** The abstract allocator: a stack of free pages. *)
Inductive aop := AAlloc | AFree (p : Z).

Section refinement.
Context `{LinkOk}.

Definition spec_op (l : list Z) (o : aop) (r : Z) (l' : list Z) : Prop :=
  match o with
  | AAlloc => match l with [] => r = 0 /\ l' = [] | p :: q => r = p /\ l' = q end
  | AFree p => page_ok p /\ p ∉ l /\ r = 0 /\ l' = p :: l
  end.
Inductive spec_run : list Z -> list aop -> list Z -> list Z -> Prop :=
| spec_nil l : spec_run l [] [] l
| spec_cons l o r l' os rs l'' :
    spec_op l o r l' -> spec_run l' os rs l'' -> spec_run l (o :: os) (r :: rs) l''.

(** The same sequence of calls made to the real allocator. *)
Fixpoint run_ops (os : list aop) : K (list Z) :=
  match os with
  | [] => mret []
  | AAlloc :: os => r ← kalloc; rs ← run_ops os; mret (r :: rs)
  | AFree p :: os => kfree p;; rs ← run_ops os; mret (0 :: rs)
  end.

Lemma run_ops_refines h X s l os rs l' :
  env h X s -> LkKmem ∉ X -> kmem_inv s l -> spec_run l os rs l' ->
  exists s', run_ops os s = Ret rs s' /\ kmem_inv s' l' /\ env h X s'
    /\ (forall x, (forall p, p ∈ l \/ AFree p ∈ os -> ~ (p <= x < p + PGSIZE)) -> mem s' x = mem s x).
Proof.
  intros He HX Hinv Hrun. revert s He Hinv.
  induction Hrun as [l|l o r l1 os rs l' Hop Hrun IH]; intros s He Hinv.
  { exists s. split_and!; done. }
  destruct o as [|p]; simpl in Hop |- *.
  - destruct l as [|p l]; destruct Hop as [-> ->].
    + destruct (IH s He Hinv) as (s' & Hr & Hi & He' & Hm). exists s'.
      mstep (kalloc_none h X s He HX Hinv). mstep Hr. split_and!; try done.
      intros x Hx. apply Hm. set_solver.
    + destruct (IH (take_page p s)) as (s' & Hr & Hi & He' & Hm);
        [eapply env_upd; [done|reflexivity]|by apply take_page_inv|].
      exists s'. mstep (kalloc_some h X s p l He HX Hinv). mstep Hr. split_and!; try done.
      intros x Hx. rewrite Hm by set_solver. apply take_page_step. apply Hx. set_solver.
  - destruct Hop as (Hp & Hnl & -> & ->).
    destruct (IH (put_page p s)) as (s' & Hr & Hi & He' & Hm);
      [eapply env_upd; [done|reflexivity]|by apply put_page_inv|].
    exists s'. mstep (kfree_some h X s p He HX Hp). mstep Hr. split_and!; try done.
    intros x Hx. rewrite Hm by set_solver. apply put_page_step. apply Hx. set_solver.
Qed.

(** C7: Any sequence of [kalloc] and legal [kfree] calls returns exactly what a
    stack of distinct pages returns, keeps the free list well formed, leaves
    the locks as they were, and writes to no memory outside free pages and
    the pages being freed; in particular an allocated page is never handed out
    a second time before it is freed. *)
Theorem kalloc_refines_stack h X s l os rs l' :
  env h X s -> LkKmem ∉ X -> kmem_inv s l -> spec_run l os rs l' ->
  exists s', run_ops os s = Ret rs s' /\ kmem_inv s' l' /\ hw s' = hw s
    /\ (forall x, (forall p, p ∈ l \/ AFree p ∈ os -> ~ (p <= x < p + PGSIZE)) -> mem s' x = mem s x).
Proof.
  intros He HX Hinv Hrun.
  destruct (run_ops_refines h X s l os rs l' He HX Hinv Hrun) as (s' & ? & ? & He' & ?).
  exists s'. split_and!; try done. by rewrite (env_hw _ _ _ He), (env_hw _ _ _ He').
Qed.

(** ** Boot *)

(** The [n] pages from [p] up, last one first. *)
Fixpoint pages_up (n : nat) (p : Z) (l : list Z) : list Z :=
  match n with
  | O => l
  | S n => pages_up n (p + PGSIZE) (p :: l)
  end.

Lemma freerange_loop_ok h X n p pa_end k l s :
  env h X s -> LkKmem ∉ X -> kmem_inv s l ->
  p mod PGSIZE = 0 -> end_ <= p -> pa_end <= PHYSTOP -> Forall (fun q => q < p) l ->
  pa_end - PGSIZE < p + Z.of_nat k * PGSIZE <= pa_end -> (k < n)%nat ->
  exists s', freerange_loop n p pa_end s = Ret tt s' /\ kmem_inv s' (pages_up k p l) /\ env h X s'.
Proof.
  intros He HX. revert p k l s He. induction n as [|n IH]; intros p k l s He Hinv Hp Hlo Hhi Hl Hk Hn; [lia|].
  cbn [freerange_loop]. destruct k as [|k].
  - rewrite (proj2 (Z.leb_gt _ _)) by lia. exists s. done.
  - rewrite (proj2 (Z.leb_le _ _)) by (unfold PGSIZE in *; lia).
    assert (page_ok p) as Hpok by (split; unfold PGSIZE in *; lia).
    assert (p ∉ l) as Hnl by (rewrite Forall_forall in Hl; intros Hin%Hl; lia).
    mstep (kfree_some h X s p He HX Hpok).
    destruct (IH (p + PGSIZE) k (p :: l) (put_page p s)) as (s' & Hr & Hi & He');
      [eapply env_upd; [done|reflexivity]|by apply put_page_inv|..|by exists s'].
    1-5: try (unfold PGSIZE in *; zlia).
    + apply Forall_cons. split; [unfold PGSIZE; lia|].
      eapply Forall_impl; [exact Hl|]. unfold PGSIZE. simpl. lia.
    + unfold PGSIZE in *; lia.
Qed.

Lemma elem_of_pages_up n p l q :
  q ∈ pages_up n p l <-> q ∈ l \/ exists i, 0 <= i < Z.of_nat n /\ q = p + i * PGSIZE.
Proof.
  revert p l. induction n as [|n IH]; intros p l; cbn [pages_up].
  - split; [by left|]. intros [?|(i & ? & ?)]; [done|lia].
  - rewrite IH, elem_of_cons. split.
    + intros [[->|?]|(i & ? & ->)]; [right; exists 0; lia|by left|right; exists (i + 1); lia].
    + intros [?|(i & ? & ->)]; [tauto|]. destruct (decide (i = 0)) as [->|].
      * left. left. lia.
      * right. exists (i - 1). lia.
Qed.

(** C36: [kinit] leaves on the free list, once each, exactly the aligned pages
    between the end of the kernel image and the top of RAM. *)
Theorem kinit_frees_ram h s :
  env h ∅ s -> freelist s = 0 -> bytes (mem s) ->
  exists s' l, kinit s = Ret tt s' /\ kmem_inv s' l /\ (forall p, p ∈ l <-> page_ok p)
    /\ hw s' = hw s.
Proof.
  intros He Hf Hb. unfold kinit. mapply (initlock_id h ∅) by envtac. unfold freerange.
  pose proof end_ge as He1. pose proof end_le as He2.
  assert (PGROUNDUP end_ = (end_ + PGSIZE - 1) / PGSIZE * PGSIZE) as Hr.
  { apply PGROUNDUP_eq. unfold KERNBASE, PHYSTOP, KERNBASE, PGSIZE in *. lia. }
  rewrite Hr. set (p0 := (end_ + PGSIZE - 1) / PGSIZE * PGSIZE).
  assert (p0 mod PGSIZE = 0 /\ end_ <= p0 < end_ + PGSIZE) as [Hp0 Hp0'].
  { unfold p0, PGSIZE. zlia. }
  assert (PHYSTOP mod PGSIZE = 0) as Htop by done.
  assert (p0 <= PHYSTOP) as Hle by (unfold PGSIZE in *; zlia).
  set (k := Z.to_nat ((PHYSTOP - p0) / PGSIZE)).
  assert (Z.of_nat k * PGSIZE = PHYSTOP - p0) as Hk.
  { unfold k. rewrite Z2Nat.id; unfold PGSIZE in *; zlia. }
  destruct (freerange_loop_ok h ∅ (S k) p0 PHYSTOP k [] s) as (s' & Hr' & Hi & He');
    [done|set_solver|by split; [| |constructor|]; try apply NoDup_nil_2|lia|lia|lia|constructor| |lia|].
  { rewrite Hk. unfold PGSIZE. lia. }
  exists s', (pages_up k p0 []). split_and!; [done|done| |].
  - intros p. rewrite elem_of_pages_up. unfold page_ok. split.
    + intros [?%elem_of_nil|(i & Hi' & ->)]; [done|]. unfold PGSIZE in *. zlia.
    + intros [Hp Hp']. right. exists ((p - p0) / PGSIZE). unfold PGSIZE in *. zlia.
  - by rewrite (env_hw _ _ _ He), (env_hw _ _ _ He').
Qed.
End refinement.

(** The link addresses of a small kernel, for concrete runs. *)
Definition demo_link : Link := {|
  end_ := KERNBASE + 0x20000; etext := KERNBASE + 0x8000; trampoline := KERNBASE + 0x7000;
  uservec := KERNBASE + 0x7000; userret := KERNBASE + 0x7090; kernelvec := KERNBASE + 0x5000;
  forkret_addr := KERNBASE + 0x1000; usertrap_addr := KERNBASE + 0x2000 |}.
Lemma demo_link_ok : @LinkOk demo_link.
Proof. by split. Qed.

Lemma kinit_frees_ram_witness :
  exists s' (l : list Z), @kinit demo_link (zero_kernel (boot_hart None)) = Ret tt s'
    /\ (forall p, p ∈ l <-> @page_ok demo_link p) /\ KERNBASE + 0x20000 ∈ l.
Proof.
  destruct (@kinit_frees_ram demo_link demo_link_ok (boot_hart None) (zero_kernel (boot_hart None)))
    as (s' & l & H1 & _ & H2 & _); [by apply zero_kernel_env|reflexivity|intros x; simpl; lia|].
  exists s', l. split; [exact H1|]. split; [exact H2|]. apply H2. split; [reflexivity|]. by split.
Defined.

Lemma kalloc_refines_stack_witness :
  exists (l : list Z) s', l = [KERNBASE + 0x20000]
    /\ @run_ops demo_link [AAlloc; AAlloc; AFree (KERNBASE + 0x20000); AAlloc]
        (zero_kernel (boot_hart None) <| freelist := KERNBASE + 0x20000 |>)
      = Ret [KERNBASE + 0x20000; 0; 0; KERNBASE + 0x20000] s'.
Proof.
  eexists [KERNBASE + 0x20000].
  destruct (@kalloc_refines_stack demo_link demo_link_ok (boot_hart None) ∅
    (zero_kernel (boot_hart None) <| freelist := KERNBASE + 0x20000 |>) [KERNBASE + 0x20000]
    [AAlloc; AAlloc; AFree (KERNBASE + 0x20000); AAlloc]
    [KERNBASE + 0x20000; 0; 0; KERNBASE + 0x20000] []) as (s' & H1 & _).
  - by apply zero_kernel_env.
  - set_solver.
  - split; [by split|by apply NoDup_singleton|by repeat constructor|intros x; simpl; lia].
  - eapply (spec_cons _ AAlloc _ []); [by split|].
    eapply (spec_cons _ AAlloc _ []); [by split|].
    eapply (spec_cons _ (AFree _) _ [_]); [split_and!; [by split|set_solver|done|done]|].
    eapply (spec_cons _ AAlloc _ []); [by split|constructor].
  - exists s'. split; [reflexivity|exact H1].
Defined.
