(* ===== verification/Vm.v ===== *)
(** * Page tables and user memory

    [kernel/vm.c] with the Sv39 macros of [riscv.h].  A page table is the
    physical address of its root page; page-table pages are pages of RAM, so
    every operation reads and writes the byte memory through [load64] and
    [store64].  [vmfault] consults the process that runs.  [copyin] and
    [copyinstr] return, with their result code, the bytes they stored through
    [dst]; [copyout] takes the bytes at [src].  Loops carry a bound computed
    from their arguments. *)

From stdpp Require Import base numbers gmap sets strings option list.
From S2P Require Import Prelude Machine Spinlock CString Kalloc.

(** ** riscv.h *)

Definition PTE_V : Z := 1.
Definition PTE_R : Z := 2.
Definition PTE_W : Z := 4.
Definition PTE_X : Z := 8.
Definition PTE_U : Z := 16.

Definition PA2PTE (pa : Z) : Z := Z.shiftl (Z.shiftr pa 12) 10.
Definition PTE2PA (pte : Z) : Z := u64 (Z.shiftl (Z.shiftr pte 10) 12).
Definition PTE_FLAGS (pte : Z) : Z := Z.land pte 0x3FF.

Definition PXMASK : Z := 0x1FF.
Definition PXSHIFT (level : Z) : Z := 12 + 9 * level.
Definition PX (level va : Z) : Z := Z.land (Z.shiftr va (PXSHIFT level)) PXMASK.

(** [pte & flag]. *)
Definition flag (pte f : Z) : bool := negb (Z.land pte f =? 0).

Section ops.
Context `{Link}.

Definition pte_load (a : Z) : K Z := gets (fun s => load64 (mem s) a).
Definition pte_store (a v : Z) : K () := modify (fun s => s <| mem ::= fun m => store64 m a v |>).
Definition kmemset (a c n : Z) : K () := modify (fun s => s <| mem ::= fun m => memset m a c n |>).
Definition kmemmove (d a n : Z) : K () := modify (fun s => s <| mem ::= fun m => memmove m d a n |>).

(** One turn of the loop of [walk]: the next table, or [None] to return 0. *)
Definition walk_level (pagetable va level : Z) (alloc : bool) : K (option Z) :=
  let pte := pagetable + 8 * PX level va in
  v ← pte_load pte;
  if flag v PTE_V then mret (Some (PTE2PA v))
  else if negb alloc then mret None
  else
    pagetable ← kalloc;
    if pagetable =? 0 then mret None
    else
      kmemset pagetable 0 PGSIZE;;
      pte_store pte (Z.lor (PA2PTE pagetable) PTE_V);;
      mret (Some pagetable).

Fixpoint walk_loop (levels : list Z) (pagetable va : Z) (alloc : bool) : K (option Z) :=
  match levels with
  | [] => mret (Some pagetable)
  | level :: levels =>
      r ← walk_level pagetable va level alloc;
      match r with
      | Some pagetable => walk_loop levels pagetable va alloc
      | None => mret None
      end
  end.

(** The address of the PTE, or 0. *)
Definition walk (pagetable va : Z) (alloc : bool) : K Z :=
  if va >=? MAXVA then panic "walk"
  else
    r ← walk_loop [2; 1] pagetable va alloc;
    match r with
    | Some pagetable => mret (pagetable + 8 * PX 0 va)
    | None => mret 0
    end.

Definition walkaddr (pagetable va : Z) : K Z :=
  if va >=? MAXVA then mret 0
  else
    pte ← walk pagetable va false;
    if pte =? 0 then mret 0
    else
      v ← pte_load pte;
      if negb (flag v PTE_V) then mret 0
      else if negb (flag v PTE_U) then mret 0
      else mret (PTE2PA v).

Fixpoint mappages_loop (n : nat) (pagetable a last pa perm : Z) : K Z :=
  match n with
  | O => hangs HFuel
  | S n =>
      pte ← walk pagetable a true;
      if pte =? 0 then mret (-1)
      else
        v ← pte_load pte;
        if flag v PTE_V then panic "mappages: remap"
        else
          pte_store pte (Z.lor (Z.lor (PA2PTE pa) perm) PTE_V);;
          if a =? last then mret 0
          else mappages_loop n pagetable (u64 (a + PGSIZE)) last (u64 (pa + PGSIZE)) perm
  end.
Definition mappages (pagetable va size pa perm : Z) : K Z :=
  if negb (va mod PGSIZE =? 0) then panic "mappages: va not aligned"
  else if negb (size mod PGSIZE =? 0) then panic "mappages: size not aligned"
  else if size =? 0 then panic "mappages: size"
  else mappages_loop (Z.to_nat (size / PGSIZE)) pagetable va (u64 (va + size - PGSIZE)) pa perm.

Definition uvmcreate : K Z :=
  pagetable ← kalloc;
  if pagetable =? 0 then mret 0
  else kmemset pagetable 0 PGSIZE;; mret pagetable.

Fixpoint uvmunmap_loop (n : nat) (pagetable a stop : Z) (do_free : bool) : K () :=
  match n with
  | O => mret tt
  | S n =>
      if a <? stop then
        pte ← walk pagetable a false;
        (if pte =? 0 then mret tt
         else
           v ← pte_load pte;
           if negb (flag v PTE_V) then mret tt
           else
             when do_free (kfree (PTE2PA v));;
             pte_store pte 0);;
        uvmunmap_loop n pagetable (u64 (a + PGSIZE)) stop do_free
      else mret tt
  end.
Definition uvmunmap (pagetable va npages : Z) (do_free : bool) : K () :=
  if negb (va mod PGSIZE =? 0) then panic "uvmunmap: not aligned"
  else uvmunmap_loop (Z.to_nat npages) pagetable va (u64 (va + npages * PGSIZE)) do_free.

Definition uvmdealloc (pagetable oldsz newsz : Z) : K Z :=
  if newsz >=? oldsz then mret oldsz
  else
    when (PGROUNDUP newsz <? PGROUNDUP oldsz)
      (let npages := i32 ((PGROUNDUP oldsz - PGROUNDUP newsz) / PGSIZE) in
       uvmunmap pagetable (PGROUNDUP newsz) (u64 npages) true);;
    mret newsz.

Fixpoint uvmalloc_loop (n : nat) (pagetable a oldsz newsz xperm : Z) : K Z :=
  match n with
  | O => hangs HFuel
  | S n =>
      if a <? newsz then
        m ← kalloc;
        if m =? 0 then uvmdealloc pagetable a oldsz;; mret 0
        else
          kmemset m 0 PGSIZE;;
          r ← mappages pagetable a PGSIZE m (Z.lor (Z.lor PTE_R PTE_U) xperm);
          if negb (r =? 0) then kfree m;; uvmdealloc pagetable a oldsz;; mret 0
          else uvmalloc_loop n pagetable (u64 (a + PGSIZE)) oldsz newsz xperm
      else mret newsz
  end.
Definition uvmalloc (pagetable oldsz newsz xperm : Z) : K Z :=
  if newsz <? oldsz then mret oldsz
  else
    let oldsz := PGROUNDUP oldsz in
    uvmalloc_loop (Z.to_nat ((newsz - oldsz) / PGSIZE + 2)) pagetable oldsz oldsz newsz xperm.

(** [depth] bounds the recursion: a page table has three levels. *)
Fixpoint freewalk (depth : nat) (pagetable : Z) : K () :=
  match depth with
  | O => hangs HFuel
  | S depth =>
      forM (map Z.of_nat (seq 0 512)) (fun i =>
        let a := pagetable + 8 * i in
        pte ← pte_load a;
        if flag pte PTE_V && negb (flag pte (Z.lor (Z.lor PTE_R PTE_W) PTE_X)) then
          freewalk depth (PTE2PA pte);; pte_store a 0
        else if flag pte PTE_V then panic "freewalk: leaf"
        else mret tt);;
      kfree pagetable
  end.

Definition uvmfree (pagetable sz : Z) : K () :=
  when (sz >? 0) (uvmunmap pagetable 0 (PGROUNDUP sz / PGSIZE) true);;
  freewalk 3 pagetable.

(** [inl i]: the [err] label with loop variable [i]. *)
Fixpoint uvmcopy_loop (n : nat) (old new i sz : Z) : K (Z + unit) :=
  match n with
  | O => hangs HFuel
  | S n =>
      if i <? sz then
        let next := uvmcopy_loop n old new (u64 (i + PGSIZE)) sz in
        pte ← walk old i false;
        if pte =? 0 then next
        else
          v ← pte_load pte;
          if negb (flag v PTE_V) then next
          else
            let pa := PTE2PA v in
            let flags := PTE_FLAGS v in
            m ← kalloc;
            if m =? 0 then mret (inl i)
            else
              kmemmove m pa PGSIZE;;
              r ← mappages new i PGSIZE m flags;
              if negb (r =? 0) then kfree m;; mret (inl i)
              else next
      else mret (inr tt)
  end.
Definition uvmcopy (old new sz : Z) : K Z :=
  r ← uvmcopy_loop (Z.to_nat (sz / PGSIZE + 2)) old new 0 sz;
  match r with
  | inr _ => mret 0
  | inl i => uvmunmap new 0 (i / PGSIZE) true;; mret (-1)
  end.

Definition uvmclear (pagetable va : Z) : K () :=
  pte ← walk pagetable va false;
  if pte =? 0 then panic "uvmclear"
  else v ← pte_load pte; pte_store pte (Z.land v (Z.lnot PTE_U)).

Definition ismapped (pagetable va : Z) : K bool :=
  pte ← walk pagetable va false;
  if pte =? 0 then mret false
  else v ← pte_load pte; mret (flag v PTE_V).

(** The record of the current process. *)
Definition mine : K proc :=
  i ← myproc; i ← deref i; ps ← gets procs; deref (ps !! i).

(** The parameter [read] is not used. *)
Definition vmfault (pagetable va : Z) : K Z :=
  p ← mine;
  if va >=? sz p then mret 0
  else
    let va := PGROUNDDOWN va in
    mapped ← ismapped pagetable va;
    if mapped : bool then mret 0
    else
      m ← kalloc;
      if m =? 0 then mret 0
      else
        kmemset m 0 PGSIZE;;
        r ← mappages (Machine.pagetable p) va PGSIZE m (Z.lor (Z.lor PTE_W PTE_U) PTE_R);
        if negb (r =? 0) then kfree m;; mret 0
        else mret m.

(** The physical page behind a user page, allocated on demand. *)
Definition user_page (pagetable va0 : Z) : K Z :=
  pa0 ← walkaddr pagetable va0;
  if pa0 =? 0 then vmfault pagetable va0 else mret pa0.

Fixpoint copyout_loop (n : nat) (pagetable dstva : Z) (src : list Z) : K Z :=
  match n with
  | O => hangs HFuel
  | S n =>
      let len := Z.of_nat (length src) in
      if len >? 0 then
        let va0 := PGROUNDDOWN dstva in
        if va0 >=? MAXVA then mret (-1)
        else
          pa0 ← user_page pagetable va0;
          if pa0 =? 0 then mret (-1)
          else
            pte ← walk pagetable va0 false;
            if pte =? 0 then hangs HWild
            else
              v ← pte_load pte;
              if negb (flag v PTE_W) then mret (-1)
              else
                let n1 := Z.min (PGSIZE - (dstva - va0)) len in
                modify (fun s => s <| mem ::= fun m =>
                  write_bytes m (pa0 + (dstva - va0)) (take (Z.to_nat n1) src) |>);;
                copyout_loop n pagetable (u64 (va0 + PGSIZE)) (drop (Z.to_nat n1) src)
      else mret 0
  end.
Definition copyout (pagetable dstva : Z) (src : list Z) : K Z :=
  copyout_loop (S (length src)) pagetable dstva src.

Fixpoint copyin_loop (n : nat) (pagetable srcva len : Z) (dst : list Z) : K (Z * list Z) :=
  match n with
  | O => hangs HFuel
  | S n =>
      if len >? 0 then
        let va0 := PGROUNDDOWN srcva in
        pa0 ← user_page pagetable va0;
        if pa0 =? 0 then mret (-1, dst)
        else
          let n1 := Z.min (PGSIZE - (srcva - va0)) len in
          bs ← gets (fun s => read_bytes (Z.to_nat n1) (mem s) (pa0 + (srcva - va0)));
          copyin_loop n pagetable (u64 (va0 + PGSIZE)) (len - n1) (dst ++ bs)
      else mret (0, dst)
  end.
Definition copyin (pagetable srcva len : Z) : K (Z * list Z) :=
  copyin_loop (S (Z.to_nat len)) pagetable srcva len [].

(** The inner loop: [n] bytes left on this page; the bytes and whether NUL
    was seen. *)
Fixpoint strpage_loop (n : nat) (m : memory) (p : Z) : list Z * bool :=
  match n with
  | O => ([], false)
  | S n => if m p =? 0 then ([0], true)
           else let '(l, b) := strpage_loop n m (p + 1) in (m p :: l, b)
  end.
Fixpoint copyinstr_loop (n : nat) (pagetable srcva max : Z) (dst : list Z) : K (Z * list Z) :=
  match n with
  | O => hangs HFuel
  | S n =>
      if max >? 0 then
        let va0 := PGROUNDDOWN srcva in
        pa0 ← walkaddr pagetable va0;
        if pa0 =? 0 then mret (-1, dst)
        else
          let n1 := Z.min (PGSIZE - (srcva - va0)) max in
          r ← gets (fun s => strpage_loop (Z.to_nat n1) (mem s) (pa0 + (srcva - va0)));
          let '(bs, got_null) := r in
          if got_null : bool then mret (0, dst ++ bs)
          else copyinstr_loop n pagetable (u64 (va0 + PGSIZE)) (max - n1) (dst ++ bs)
      else mret (-1, dst)
  end.
Definition copyinstr (pagetable srcva max : Z) : K (Z * list Z) :=
  copyinstr_loop (S (Z.to_nat max)) pagetable srcva max [].

(** ** The kernel's own page table *)

Definition kvmmap (kpgtbl va pa size perm : Z) : K () :=
  r ← mappages kpgtbl va size pa perm;
  if negb (r =? 0) then panic "kvmmap" else mret tt.

(** [proc_mapstacks] of [proc.c]: a stack page for each process slot, with an
    unmapped guard page below it. *)
Definition proc_mapstacks (kpgtbl : Z) : K () :=
  forM (seq 0 NPROC) (fun i =>
    pa ← kalloc;
    if pa =? 0 then panic "kalloc"
    else kvmmap kpgtbl (KSTACK (Z.of_nat i)) pa PGSIZE (Z.lor PTE_R PTE_W)).

Definition UART0 : Z := 0x10000000.
Definition VIRTIO0 : Z := 0x10001000.
Definition PLIC : Z := 0x0c000000.

Definition kvmmake : K Z :=
  kpgtbl ← kalloc;
  kmemset kpgtbl 0 PGSIZE;;
  kvmmap kpgtbl UART0 UART0 PGSIZE (Z.lor PTE_R PTE_W);;
  kvmmap kpgtbl VIRTIO0 VIRTIO0 PGSIZE (Z.lor PTE_R PTE_W);;
  kvmmap kpgtbl PLIC PLIC 0x4000000 (Z.lor PTE_R PTE_W);;
  kvmmap kpgtbl KERNBASE KERNBASE (etext - KERNBASE) (Z.lor PTE_R PTE_X);;
  kvmmap kpgtbl etext etext (PHYSTOP - etext) (Z.lor PTE_R PTE_W);;
  kvmmap kpgtbl TRAMPOLINE trampoline PGSIZE (Z.lor PTE_R PTE_X);;
  proc_mapstacks kpgtbl;;
  mret kpgtbl.

Definition kvminit : K () :=
  kpgtbl ← kvmmake; modify (fun s => s <| kpagetable := kpgtbl |>).
End ops.
