(* ===== verification/PageTable.v ===== *)
(** * The three-level page table as a data structure

    What a Sv39 page table in memory means, independently of the code: [sub]
    follows one entry, [leaf_addr] locates the leaf entry of a virtual
    address, [leaf] reads it.  [pt_wf] says that the tables form a tree of
    distinct pages.  The lemmas tell what one store to an interior or a leaf
    entry does to the whole tree; [VmSpec] builds on them. *)

From stdpp Require Import base numbers gmap sets strings option list.
From S2P Require Import Prelude Machine Spinlock CString Kalloc Vm.

(** ** Entries *)

Lemma lor_add a f n : 0 <= n -> 0 <= f < 2 ^ n -> Z.lor (Z.shiftl a n) f = a * 2 ^ n + f.
Proof.
  intros Hn Hf. rewrite <- Z.shiftl_mul_pow2 by done.
  rewrite <- Z.add_lor_land. replace (Z.land (Z.shiftl a n) f) with 0; [lia|].
  symmetry. apply Z.bits_inj'. intros k Hk. rewrite Z.land_spec, Z.bits_0.
  destruct (Z.ltb_spec k n).
  - by rewrite Z.shiftl_spec_low.
  - destruct (decide (f = 0)) as [->|Hf0]; [by rewrite Z.bits_0, andb_false_r|].
    rewrite (Z.bits_above_log2 f k), andb_false_r; [done|lia|].
    apply Z.lt_le_trans with n; [|done]. apply Z.log2_lt_pow2; lia.
Qed.

(** The entry that maps [pa] with permissions [f]. *)
Definition mkpte (pa f : Z) : Z := Z.lor (Z.lor (PA2PTE pa) f) PTE_V.

(** A physical page a PTE can name. *)
Definition frame_ok (pa : Z) : Prop := pa mod PGSIZE = 0 /\ 0 <= pa < 2 ^ 56.

Lemma lor_lt f g n : 0 <= n -> 0 <= f < 2 ^ n -> 0 <= g < 2 ^ n -> 0 <= Z.lor f g < 2 ^ n.
Proof.
  intros Hn Hf Hg. split; [apply Z.lor_nonneg; lia|].
  destruct (decide (Z.lor f g = 0)) as [->|Hne]; [lia|].
  assert (0 < Z.lor f g) by (assert (0 <= Z.lor f g) by (apply Z.lor_nonneg; lia); lia).
  apply Z.log2_lt_pow2; [done|]. rewrite Z.log2_lor by lia.
  destruct (decide (n = 0)) as [->|].
  { assert (f = 0) as -> by lia. assert (g = 0) as -> by lia. done. }
  assert (forall x, 0 <= x < 2 ^ n -> Z.log2 x < n) as Hlog.
  { intros x Hx. destruct (decide (x = 0)) as [->|]; [simpl; lia|]. apply Z.log2_lt_pow2; lia. }
  pose proof (Hlog f Hf). pose proof (Hlog g Hg). lia.
Qed.

Lemma mkpte_eq pa f :
  frame_ok pa -> 0 <= f < 1024 -> mkpte pa f = pa / PGSIZE * 1024 + Z.lor f PTE_V.
Proof.
  intros [Hm Hr] Hf. unfold mkpte, PA2PTE. rewrite <- Z.lor_assoc.
  rewrite lor_add; [|lia|]. { by rewrite Z.shiftr_div_pow2. }
  change 1024 with (2 ^ 10) in *. apply (lor_lt f PTE_V 10); unfold PTE_V; lia.
Qed.

Lemma lor_V_range f : 0 <= f < 1024 -> 0 <= Z.lor f PTE_V < 1024.
Proof. intros. apply (lor_lt f PTE_V 10); unfold PTE_V; lia. Qed.

Lemma PTE2PA_mkpte pa f : frame_ok pa -> 0 <= f < 1024 -> PTE2PA (mkpte pa f) = pa.
Proof.
  intros Hp Hf. rewrite mkpte_eq by done. destruct Hp as [Hm Hr]. pose proof (lor_V_range f Hf).
  unfold PTE2PA. rewrite Z.shiftl_mul_pow2, Z.shiftr_div_pow2 by lia.
  change (2 ^ 10) with 1024. rewrite Z.div_add_l, (Z.div_small (Z.lor f PTE_V)) by lia.
  unfold PGSIZE in *. rewrite u64_small; zlia.
Qed.

Lemma PTE_FLAGS_mkpte pa f :
  frame_ok pa -> 0 <= f < 1024 -> PTE_FLAGS (mkpte pa f) = Z.lor f PTE_V.
Proof.
  intros Hp Hf. rewrite mkpte_eq by done. pose proof (lor_V_range f Hf).
  unfold PTE_FLAGS. change 0x3FF with (Z.ones 10). rewrite Z.land_ones by lia.
  change (2 ^ 10) with 1024. rewrite Z.add_comm, Z_mod_plus_full. by apply Z.mod_small.
Qed.

Lemma flag_pow2 v k : 0 <= k -> flag v (2 ^ k) = Z.testbit v k.
Proof.
  intros Hk. unfold flag. destruct (Z.testbit v k) eqn:E.
  - apply negb_true_iff, Z.eqb_neq. intros H0.
    assert (Z.testbit (Z.land v (2 ^ k)) k = true) as Ht.
    { by rewrite Z.land_spec, E, Z.pow2_bits_true. }
    by rewrite H0, Z.bits_0 in Ht.
  - apply negb_false_iff, Z.eqb_eq. apply Z.bits_inj'. intros j Hj.
    rewrite Z.land_spec, Z.bits_0. destruct (decide (k = j)) as [->|].
    + by rewrite E.
    + by rewrite Z.pow2_bits_false, andb_false_r.
Qed.

(** A low flag of an entry is that flag of its permissions. *)
Lemma flag_mkpte pa f k :
  frame_ok pa -> 0 <= f < 1024 -> 0 <= k < 10 ->
  flag (mkpte pa f) (2 ^ k) = Z.testbit f k || (k =? 0).
Proof.
  intros Hp Hf Hk. rewrite flag_pow2 by lia.
  assert (Z.testbit (mkpte pa f) k = Z.testbit (PTE_FLAGS (mkpte pa f)) k) as ->.
  { unfold PTE_FLAGS. change 0x3FF with (Z.ones 10).
    by rewrite Z.land_spec, Z.ones_spec_low, andb_true_r by lia. }
  rewrite PTE_FLAGS_mkpte by done. rewrite Z.lor_spec. f_equal.
Qed.

Lemma mkpte_valid pa f : frame_ok pa -> 0 <= f < 1024 -> flag (mkpte pa f) PTE_V = true.
Proof. intros. change PTE_V with (2 ^ 0). rewrite flag_mkpte by (done || lia). by destruct (Z.testbit f 0). Qed.

Lemma mkpte_range pa f : frame_ok pa -> 0 <= f < 1024 -> 0 <= mkpte pa f < 2 ^ 64.
Proof.
  intros Hp Hf. rewrite mkpte_eq by done. pose proof (lor_V_range f Hf).
  destruct Hp as [Hm Hr]. unfold PGSIZE in *. zlia.
Qed.

Lemma flag_0 f : flag 0 f = false.
Proof. unfold flag. by rewrite Z.land_0_l. Qed.

(** ** Indices *)

Lemma PX_eq level va : 0 <= level -> PX level va = va / 2 ^ (12 + 9 * level) mod 512.
Proof.
  intros. unfold PX, PXSHIFT, PXMASK. change 0x1FF with (Z.ones 9).
  rewrite Z.land_ones by lia. by rewrite Z.shiftr_div_pow2 by lia.
Qed.

Lemma PX_range level va : 0 <= level -> 0 <= PX level va < 512.
Proof. intros. rewrite PX_eq by done. by apply Z.mod_pos_bound. Qed.

(** A user-mappable page address. *)
Definition va_ok (va : Z) : Prop := va mod PGSIZE = 0 /\ 0 <= va < MAXVA.

Lemma PX_inj va va' :
  va_ok va -> va_ok va' -> PX 2 va = PX 2 va' -> PX 1 va = PX 1 va' -> PX 0 va = PX 0 va' -> va = va'.
Proof.
  intros [H1 H2] [H3 H4]. rewrite !PX_eq by lia. unfold PGSIZE, MAXVA in *.
  change (12 + 9 * 2) with 30. change (12 + 9 * 1) with 21. change (12 + 9 * 0) with 12.
  change (Z.shiftl 1 (9 + 9 + 9 + 12 - 1)) with (2 ^ 38) in *.
  rewrite (Z.mod_small (va / 2 ^ 30)), (Z.mod_small (va' / 2 ^ 30)) by zlia.
  intros E2 E1 E0. zlia.
Qed.

(** ** Tables in memory *)

Definition idx (i : Z) : Prop := 0 <= i < 512.

(** Entry [i] of the table at [pt], and the page it leads to. *)
Definition ent (m : memory) (pt i : Z) : Z := load64 m (pt + 8 * i).
Definition sub (m : memory) (pt i : Z) : option Z :=
  if flag (ent m pt i) PTE_V then Some (PTE2PA (ent m pt i)) else None.

(** Follow a path of indices down from a table. *)
Fixpoint follow (m : memory) (pt : Z) (path : list Z) : option Z :=
  match path with
  | [] => Some pt
  | i :: path => x ← sub m pt i; follow m x path
  end.

Definition leaf_path (va : Z) : list Z := [PX 2 va; PX 1 va].
Definition leaf_pt (m : memory) (root va : Z) : option Z := follow m root (leaf_path va).
Definition leaf_addr (m : memory) (root va : Z) : option Z :=
  (fun p => p + 8 * PX 0 va) <$> leaf_pt m root va.
(** The leaf entry of [va]; zero when a table is missing. *)
Definition leaf (m : memory) (root va : Z) : Z :=
  match leaf_pt m root va with Some p => ent m p (PX 0 va) | None => 0 end.

Section tree.
Context `{LinkOk}.

Lemma page_frame p : page_ok p -> frame_ok p.
Proof.
  intros Hp. pose proof (page_ok_range p Hp). destruct Hp as [? _]. split; [done|].
  unfold KERNBASE, PHYSTOP, KERNBASE in *. lia.
Qed.

(** Paths to tables: at most two indices. *)
Definition path_ok (path : list Z) : Prop := Forall idx path /\ (length path <= 2)%nat.

(** The tables form a tree: every table is an allocatable page, and no page
    is reached by two paths. *)
Definition pt_wf (m : memory) (root : Z) : Prop :=
  forall path path' p, path_ok path -> path_ok path' ->
    follow m root path = Some p -> follow m root path' = Some p -> path = path' /\ page_ok p.

Definition is_node (m : memory) (root q : Z) : Prop :=
  exists path, path_ok path /\ follow m root path = Some q.

Lemma is_node_page m root q : pt_wf m root -> is_node m root q -> page_ok q.
Proof. intros Hwf (path & Hp & Hf). by apply (Hwf path path q). Qed.

Lemma root_node m root : is_node m root root.
Proof. exists []. repeat split; [constructor|simpl; lia]. Qed.

Lemma follow_snoc m pt path i : follow m pt (path ++ [i]) = (y ← follow m pt path; sub m y i).
Proof.
  revert pt. induction path as [|k path IH]; intros pt; simpl.
  - by destruct (sub m pt i).
  - destruct (sub m pt k); simpl; [apply IH|done].
Qed.

Lemma path_ok_snoc path i : path_ok (path ++ [i]) -> path_ok path /\ idx i /\ (length path <= 1)%nat.
Proof.
  intros [Hf Hl]. apply Forall_app in Hf as [Hf Hi]. rewrite Forall_singleton in Hi.
  rewrite length_app in Hl. simpl in Hl. split_and!; [split; [done|lia]|done|lia].
Qed.

Lemma path_ok_leaf va : path_ok (leaf_path va).
Proof. split; [|simpl; lia]. repeat constructor; apply PX_range; lia. Qed.

Lemma ent_bytes m pt i : bytes m -> 0 <= ent m pt i < 2 ^ 64.
Proof. intros. by apply (load_le_range 8). Qed.

(** Two tables with the same entries. *)
Lemma ent_agree m m' q i :
  idx i -> (forall x, q <= x < q + PGSIZE -> m' x = m x) -> ent m' q i = ent m q i.
Proof.
  intros Hi Hm. apply load_le_ext. intros x Hx. apply Hm. unfold idx, PGSIZE in *. lia.
Qed.

Lemma sub_ent m m' q i : ent m' q i = ent m q i -> sub m' q i = sub m q i.
Proof. unfold sub. by intros ->. Qed.

Lemma entry_disjoint x y i j :
  x mod PGSIZE = 0 -> y mod PGSIZE = 0 -> idx i -> idx j -> (x, i) <> (y, j) ->
  x + 8 * i + 8 <= y + 8 * j \/ y + 8 * j + 8 <= x + 8 * i.
Proof.
  intros Hx Hy Hi Hj Hne. destruct (decide (x = y)) as [->|Hxy].
  - assert (i <> j) by congruence. lia.
  - pose proof (page_disjoint x y Hx Hy Hxy). unfold idx, PGSIZE in *. lia.
Qed.

(** One store to entry [k] of table [x]. *)
Lemma ent_store m x k v y j :
  x mod PGSIZE = 0 -> y mod PGSIZE = 0 -> idx k -> idx j -> 0 <= v < 2 ^ 64 ->
  ent (store64 m (x + 8 * k) v) y j = if decide ((y, j) = (x, k)) then v else ent m y j.
Proof.
  intros Hx Hy Hk Hj Hv. unfold ent, load64, store64. case_decide as E.
  - injection E as -> ->. by apply load_store_le.
  - apply load_store_le_other. pose proof (entry_disjoint y x j k Hy Hx Hj Hk E). lia.
Qed.

(** Linking a zeroed page [p] into entry [k] of table [x]. *)
Definition link (m : memory) (x k p : Z) : memory :=
  store64 (memset m p 0 PGSIZE) (x + 8 * k) (mkpte p 0).

Lemma ent_memset m p y j :
  p mod PGSIZE = 0 -> y mod PGSIZE = 0 -> idx j ->
  ent (memset m p 0 PGSIZE) y j = if decide (y = p) then 0 else ent m y j.
Proof.
  intros Hp Hy Hj. unfold ent, load64. case_decide as E.
  - subst. apply load_memset_zero; unfold idx, PGSIZE in *; lia.
  - apply load_memset_other. pose proof (page_disjoint y p Hy Hp E).
    unfold idx, PGSIZE in *. lia.
Qed.

Lemma sub_link m x k p y j :
  page_ok x -> page_ok p -> page_ok y -> idx k -> idx j -> x <> p ->
  sub (link m x k p) y j
  = if decide ((y, j) = (x, k)) then Some p else if decide (y = p) then None else sub m y j.
Proof.
  intros [Hx _] Hp [Hy _] Hk Hj Hne. pose proof (page_frame p Hp) as Hf.
  unfold sub, link. rewrite ent_store by (done || by apply mkpte_range).
  case_decide as E.
  - rewrite mkpte_valid, PTE2PA_mkpte by done. done.
  - rewrite ent_memset by (done || apply Hp). case_decide; [by rewrite flag_0|done].
Qed.

Lemma ent_link m x k p y j :
  page_ok x -> page_ok p -> page_ok y -> idx k -> idx j ->
  y <> p -> (y, j) <> (x, k) -> ent (link m x k p) y j = ent m y j.
Proof.
  intros [Hx _] Hp [Hy _] Hk Hj Hyp Hne. pose proof (page_frame p Hp) as Hf.
  unfold link. rewrite ent_store by (done || by apply mkpte_range).
  rewrite decide_False by done. rewrite ent_memset by (done || apply Hp). by rewrite decide_False.
Qed.

(** What linking a fresh page does to the tree: nothing but the new, empty
    table. *)
Record grows (m m' : memory) (root p : Z) : Prop := {
  gr_wf : pt_wf m' root;
  gr_leaf va : leaf m' root va = leaf m root va;
  gr_node q : is_node m' root q <-> is_node m root q \/ q = p
}.

Section link.
Context (m : memory) (root : Z) (Hwf : pt_wf m root).
Context (px : list Z) (x k p : Z) (Hpx : path_ok (px ++ [k])) (Hx : follow m root px = Some x).
Context (Hnone : sub m x k = None) (Hp : page_ok p) (Hfresh : ~ is_node m root p).

Lemma link_sub path y j :
  path_ok path -> idx j -> follow m root path = Some y ->
  sub (link m x k p) y j = if decide (path ++ [j] = px ++ [k]) then Some p else sub m y j.
Proof.
  intros Hpath Hj Hy. destruct (path_ok_snoc _ _ Hpx) as (Hpx' & Hk & _).
  assert (y <> p) as Hyp by (intros ->; apply Hfresh; by exists path).
  assert (x <> p) as Hxp by (intros ->; apply Hfresh; by exists px).
  destruct (Hwf path path y) as [_ Hyok]; [done..|].
  destruct (Hwf px px x) as [_ Hxok]; [done..|].
  rewrite sub_link by done. rewrite (decide_False (P := y = p)) by done.
  destruct (decide (y = x)) as [->|Hyx].
  - destruct (Hwf path px x) as [-> _]; [done..|].
    destruct (decide (j = k)) as [->|]; [by rewrite !decide_True|].
    rewrite !decide_False; [done| |congruence]. intros E%app_inj_tail. naive_solver.
  - rewrite !decide_False; [done| |congruence]. intros [E _]%app_inj_tail. subst. congruence.
Qed.

Lemma link_sub_new j : idx j -> sub (link m x k p) p j = None /\ ent (link m x k p) p j = 0.
Proof.
  intros Hj. destruct (path_ok_snoc _ _ Hpx) as (Hpx' & Hk & _).
  assert (x <> p) as Hxp by (intros ->; apply Hfresh; by exists px).
  destruct (Hwf px px x) as [_ Hxok]; [done..|]. pose proof (page_frame p Hp) as Hf.
  assert (ent (link m x k p) p j = 0) as He.
  { destruct Hxok as [Hxm _], Hp as [Hpm _]. unfold link.
    rewrite ent_store by (done || by apply mkpte_range). rewrite decide_False by congruence.
    rewrite ent_memset by done. by rewrite decide_True. }
  split; [|done]. unfold sub. by rewrite He, flag_0.
Qed.

Lemma link_follow path :
  path_ok path ->
  follow (link m x k p) root path = if decide (path = px ++ [k]) then Some p else follow m root path.
Proof.
  induction path as [|i path IH] using rev_ind; intros Hpath.
  { rewrite decide_False; [done|]. by destruct px. }
  destruct (path_ok_snoc _ _ Hpath) as (Hpath' & Hi & Hlen).
  rewrite !follow_snoc, IH by done. case_decide as E.
  - simpl. rewrite (proj1 (link_sub_new i Hi)), E, follow_snoc, Hx. simpl. rewrite Hnone.
    rewrite decide_False; [done|]. intros E'. apply (f_equal length) in E'.
    rewrite !length_app in E'. simpl in E'. lia.
  - destruct (follow m root path) as [y|] eqn:Hy; simpl; [by apply link_sub|].
    rewrite decide_False; [done|]. intros [-> ->]%app_inj_tail. congruence.
Qed.

Lemma link_ent path q j :
  path_ok path -> length path = 2%nat -> follow m root path = Some q -> idx j ->
  ent (link m x k p) q j = ent m q j.
Proof.
  intros Hpath Hlen Hq Hj. destruct (path_ok_snoc _ _ Hpx) as (Hpx' & Hk & Hl1).
  destruct (Hwf px px x) as [_ Hxok]; [done..|]. destruct (Hwf path path q) as [_ Hqok]; [done..|].
  apply ent_link; try done.
  - intros ->. apply Hfresh. by exists path.
  - intros [= -> ->]. destruct (Hwf path px x) as [-> _]; [done..|]. lia.
Qed.

Lemma link_grows : follow (link m x k p) root (px ++ [k]) = Some p /\ grows m (link m x k p) root p.
Proof.
  split; [by rewrite link_follow, decide_True|]. split.
  - intros path path' q Hpath Hpath'. rewrite !link_follow by done.
    do 2 case_decide; subst.
    + intros [= <-] _. done.
    + intros [= <-] Hf. exfalso. apply Hfresh. by exists path'.
    + intros Hf [= <-]. exfalso. apply Hfresh. by exists path.
    + by apply Hwf.
  - intros va. pose proof (path_ok_leaf va) as Hl. pose proof (PX_range 0 va ltac:(lia)) as H0'.
    unfold leaf, leaf_pt. rewrite link_follow by done. case_decide as E.
    + rewrite (proj2 (link_sub_new _ H0')), E, follow_snoc, Hx. simpl. by rewrite Hnone.
    + destruct (follow m root (leaf_path va)) as [q|] eqn:Hq; [|done].
      by apply (link_ent (leaf_path va)).
  - intros q. split.
    + intros (path & Hpath & Hf). rewrite link_follow in Hf by done.
      case_decide; [right; congruence|left; by exists path].
    + intros [(path & Hpath & Hf)| ->].
      * exists path. split; [done|]. rewrite link_follow by done. rewrite decide_False; [done|].
        intros ->. rewrite follow_snoc, Hx in Hf. simpl in Hf. congruence.
      * exists (px ++ [k]). split; [done|]. by rewrite link_follow, decide_True.
Qed.
End link.

(** Storing to a leaf entry changes that leaf and no other, and no table. *)
Section leaf_store.
Context (m : memory) (root : Z) (Hwf : pt_wf m root).
Context (va a v : Z) (Ha : leaf_addr m root va = Some a) (Hv : 0 <= v < 2 ^ 64).

Lemma leaf_store_follow path :
  path_ok path -> follow (store64 m a v) root path = follow m root path.
Proof.
  unfold leaf_addr, leaf_pt in Ha. apply fmap_Some in Ha as (q & Hq & ->).
  pose proof (path_ok_leaf va) as Hl. pose proof (PX_range 0 va ltac:(lia)) as H0'.
  destruct (Hwf (leaf_path va) (leaf_path va) q) as [_ [Hqm _]]; [done..|].
  induction path as [|i path IH] using rev_ind; intros Hpath; [done|].
  destruct (path_ok_snoc _ _ Hpath) as (Hpath' & Hi & Hlen).
  rewrite !follow_snoc, IH by done. destruct (follow m root path) as [y|] eqn:Hy; simpl; [|done].
  destruct (Hwf path path y) as [_ [Hym _]]; [done..|].
  apply sub_ent. rewrite ent_store by done. rewrite decide_False; [done|].
  intros [= -> ->]. destruct (Hwf path (leaf_path va) q) as [-> _]; [done..|]. simpl in Hlen. lia.
Qed.

Lemma leaf_store_wf : pt_wf (store64 m a v) root.
Proof. intros path path' p Hp Hp'. rewrite !leaf_store_follow by done. by apply Hwf. Qed.

Lemma leaf_store_node q : is_node (store64 m a v) root q <-> is_node m root q.
Proof.
  split; intros (path & Hp & Hf); exists path; (split; [done|]).
  - by rewrite leaf_store_follow in Hf.
  - by rewrite leaf_store_follow.
Qed.

Lemma leaf_store va' :
  va_ok va -> va_ok va' ->
  leaf (store64 m a v) root va' = if decide (va' = va) then v else leaf m root va'.
Proof.
  intros Hva Hva'. unfold leaf, leaf_pt. rewrite leaf_store_follow by apply path_ok_leaf.
  unfold leaf_addr, leaf_pt in Ha. apply fmap_Some in Ha as (q & Hq & ->).
  pose proof (path_ok_leaf va) as Hl. pose proof (path_ok_leaf va') as Hl'.
  pose proof (PX_range 0 va ltac:(lia)) as H0'. pose proof (PX_range 0 va' ltac:(lia)) as H0''.
  destruct (Hwf (leaf_path va) (leaf_path va) q) as [_ [Hqm _]]; [done..|].
  destruct (follow m root (leaf_path va')) as [q'|] eqn:Hq'.
  - destruct (Hwf (leaf_path va') (leaf_path va') q') as [_ [Hqm' _]]; [done..|].
    rewrite ent_store by done. case_decide as E; case_decide as E'; subst; try done.
    + injection E as -> E0. destruct (Hwf (leaf_path va') (leaf_path va) q) as [E1 _]; [done..|].
      injection E1 as E2 E1. exfalso. apply E'. by apply PX_inj.
    + congruence.
  - rewrite decide_False; [done|]. intros ->. congruence.
Qed.
End leaf_store.

(** Changes outside the tables keep the tree and all its leaves. *)
Section frame.
Context (m m' : memory) (root : Z) (Hwf : pt_wf m root).
Context (Hm : forall q x, is_node m root q -> q <= x < q + PGSIZE -> m' x = m x).

Lemma frame_follow path : path_ok path -> follow m' root path = follow m root path.
Proof.
  induction path as [|i path IH] using rev_ind; intros Hpath; [done|].
  destruct (path_ok_snoc _ _ Hpath) as (Hpath' & Hi & Hlen).
  rewrite !follow_snoc, IH by done. destruct (follow m root path) as [y|] eqn:Hy; simpl; [|done].
  apply sub_ent, ent_agree; [done|]. intros z Hz. apply (Hm y); [by exists path|done].
Qed.

Lemma frame_tree :
  pt_wf m' root /\ (forall q, is_node m' root q <-> is_node m root q)
  /\ (forall va, leaf_addr m' root va = leaf_addr m root va)
  /\ (forall va, leaf m' root va = leaf m root va).
Proof.
  split_and!.
  - intros path path' p Hp Hp'. rewrite !frame_follow by done. by apply Hwf.
  - intros q; split; intros (path & Hp & Hf); exists path; (split; [done|]);
      [by rewrite frame_follow in Hf|by rewrite frame_follow].
  - intros va. unfold leaf_addr, leaf_pt. by rewrite frame_follow by apply path_ok_leaf.
  - intros va. unfold leaf, leaf_pt. rewrite frame_follow by apply path_ok_leaf.
    destruct (follow m root (leaf_path va)) as [q|] eqn:Hq; [|done].
    apply ent_agree; [apply PX_range; lia|]. intros z Hz.
    apply (Hm q); [|done]. exists (leaf_path va). split; [apply path_ok_leaf|done].
Qed.
End frame.
End tree.
