(* ===== verification/VmSpec.v ===== *)
(** * Correctness of the page-table operations

    The functions of [Vm] against the tree view of [PageTable].  [pt_own]
    says that a root is a well-formed tree none of whose tables is free;
    [pt_ext] says what an operation that may allocate tables does: the tree
    grows by pages of the pool, no leaf changes, nothing else is written.
    Everything is proved for any allocator that meets [PageAlloc]. *)

From stdpp Require Import base numbers gmap sets strings option list.
From Stdlib Require Import FunctionalExtensionality.
From S2P Require Import Prelude Machine Spinlock CString Kalloc Vm PageTable.

(** The bytes of page [p]. *)
Definition in_page (p x : Z) : Prop := p <= x < p + PGSIZE.

Lemma memset_agree m m' p c n :
  (forall x, ~ (p <= x < p + n) -> m' x = m x) -> memset m' p c n = memset m p c n.
Proof.
  intros Hm. extensionality x. rewrite !memset_spec.
  destruct (inrange p n x) eqn:E; [done|]. by apply Hm, inrange_false.
Qed.

Lemma memset_page m p x : memset m p 0 PGSIZE x = if decide (in_page p x) then 0 else m x.
Proof.
  rewrite memset_spec. unfold in_page. case_decide as Hx.
  - by rewrite (proj2 (inrange_spec _ _ _) Hx).
  - by rewrite (proj2 (inrange_false _ _ _) Hx).
Qed.

Lemma store64_out m a v x : ~ (a <= x < a + 8) -> store64 m a v x = m x.
Proof. intros. apply store_le_out. lia. Qed.

Lemma in_page_unique p q x :
  p mod PGSIZE = 0 -> q mod PGSIZE = 0 -> in_page p x -> in_page q x -> p = q.
Proof. unfold in_page, PGSIZE. intros. zlia. Qed.

(** Two steps that change only the memory and the head of the free list. *)
Lemma only_mem_trans (s1 s2 s3 : kernel) :
  s2 = s1 <| mem := mem s2 |> <| freelist := freelist s2 |> ->
  s3 = s2 <| mem := mem s3 |> <| freelist := freelist s3 |> ->
  s3 = s1 <| mem := mem s3 |> <| freelist := freelist s3 |>.
Proof. intros E1 E2. rewrite E2 at 1. rewrite E1. kext s1. Qed.

Lemma va_u64 va : va_ok va -> 0 <= va < 2 ^ 64.
Proof. unfold va_ok. change MAXVA with (2 ^ 38). lia. Qed.
Lemma frame_u64 pa : frame_ok pa -> 0 <= pa < 2 ^ 64.
Proof. unfold frame_ok. lia. Qed.

Section vm.
Context `{LinkOk} (pool : kernel -> list Z -> Prop) `{!PageAlloc pool}.
Context (h : hart) (X : gset lockid) (HX : LkKmem ∉ X).

(** [root] is a page table whose tables are not free. *)
Record pt_own (s : kernel) (root : Z) (l : list Z) : Prop := {
  po_pool : pool s l;
  po_wf : pt_wf (mem s) root;
  po_fresh q : is_node (mem s) root q -> q ∉ l
}.

(** An operation that takes the first pages of the pool as new tables, makes
    [L] the leaf entries, and writes only inside tables. *)
Record pt_upd (root : Z) (L : Z -> Z) (s : kernel) (l : list Z) (s' : kernel) (l' : list Z) : Prop := {
  pe_eq : s' = s <| mem := mem s' |> <| freelist := freelist s' |>;
  pe_own : pt_own s' root l';
  pe_leaf va : va_ok va -> leaf (mem s') root va = L va;
  pe_used : exists used, l = used ++ l'
    /\ forall q, is_node (mem s') root q <-> is_node (mem s) root q \/ q ∈ used;
  pe_out x : (forall q, is_node (mem s') root q -> ~ in_page q x) -> mem s' x = mem s x
}.
Definition pt_ext (root : Z) (s : kernel) := pt_upd root (leaf (mem s) root) s.

Lemma pt_upd_refl root L s l :
  pt_own s root l -> (forall va, va_ok va -> leaf (mem s) root va = L va) -> pt_upd root L s l s l.
Proof.
  intros Ho HL. split; [kext s|done|done| |done]. exists []. split; [done|]. set_solver.
Qed.
Lemma pt_ext_refl root s l : pt_own s root l -> pt_ext root s l s l.
Proof. intros. by apply pt_upd_refl. Qed.

Lemma pt_upd_trans root L1 L2 s1 l1 s2 l2 s3 l3 :
  pt_upd root L1 s1 l1 s2 l2 -> pt_upd root L2 s2 l2 s3 l3 -> pt_upd root L2 s1 l1 s3 l3.
Proof.
  intros [E1 _ L1' (u1 & U1 & N1) M1] [E2 O2 L2' (u2 & U2 & N2) M2]. split.
  - by eapply only_mem_trans.
  - done.
  - done.
  - exists (u1 ++ u2). split; [by rewrite U1, U2, (assoc_L (++))|].
    intros q. rewrite N2, N1. set_solver.
  - intros x Hx. rewrite M2 by done. apply M1. intros q Hq. apply Hx, N2. by left.
Qed.

Lemma pt_upd_leaf root L L' s l s' l' :
  pt_upd root L s l s' l' -> (forall va, va_ok va -> L va = L' va) -> pt_upd root L' s l s' l'.
Proof. intros [] HL. split; try done. intros va Hva. rewrite <- HL by done. auto. Qed.

Lemma pt_ext_trans root s1 l1 s2 l2 s3 l3 :
  pt_ext root s1 l1 s2 l2 -> pt_ext root s2 l2 s3 l3 -> pt_ext root s1 l1 s3 l3.
Proof.
  intros E1 E2. eapply pt_upd_trans; [exact E1|]. eapply pt_upd_leaf; [exact E2|]. apply E1.
Qed.

Lemma pt_upd_env root L s l s' l' : pt_upd root L s l s' l' -> env h X s -> env h X s'.
Proof. intros He Henv. eapply env_upd; [done|]. rewrite (pe_eq _ _ _ _ _ _ He). done. Qed.

(** ** walk *)

Lemma walk_level_some x va level alloc s y :
  sub (mem s) x (PX level va) = Some y -> walk_level x va level alloc s = Ret (Some y) s.
Proof.
  unfold sub, ent, walk_level, pte_load. intros Hs. msimpl.
  destruct (flag _ PTE_V); [|done]. by injection Hs as ->.
Qed.

Lemma walk_level_none x va level s :
  sub (mem s) x (PX level va) = None -> walk_level x va level false s = Ret None s.
Proof.
  unfold sub, ent, walk_level, pte_load. intros Hs. msimpl. by destruct (flag _ PTE_V).
Qed.

(** Without allocation [walk] computes [leaf_addr]. *)
Lemma walk_lookup root va s :
  va < MAXVA -> walk root va false s = Ret (default 0 (leaf_addr (mem s) root va)) s.
Proof.
  intros Hva. unfold walk. rewrite Z.geb_leb, (proj2 (Z.leb_gt _ _)) by done.
  unfold leaf_addr, leaf_pt. cbn [follow leaf_path walk_loop].
  destruct (sub (mem s) root (PX 2 va)) as [x|] eqn:H2; simpl.
  - unfold walk_loop. mstep (walk_level_some root va 2 false s x H2).
    destruct (sub (mem s) x (PX 1 va)) as [y|] eqn:H1; simpl.
    + by mstep (walk_level_some x va 1 false s y H1).
    + by mstep (walk_level_none x va 1 s H1).
  - by mstep (walk_level_none root va 2 s H2).
Qed.

Lemma fresh_page s root p l : pt_own s root (p :: l) -> page_ok p /\ p ∉ l /\ ~ is_node (mem s) root p.
Proof.
  intros [Hp Hwf Hf]. destruct (pool_pages _ _ Hp) as (Hnd & Hok & _).
  apply NoDup_cons in Hnd as [? _]. apply Forall_cons in Hok as [? _].
  split_and!; [done|done|]. intros Hn%Hf. set_solver.
Qed.

Lemma link_bytes m x k p : bytes m -> bytes (link m x k p).
Proof. intros. by apply store_le_bytes, memset_bytes. Qed.

Lemma link_out m x k p z : idx k -> ~ in_page p z -> ~ in_page x z -> link m x k p z = m z.
Proof.
  intros Hk Hzp Hzx. unfold link, in_page, idx, PGSIZE in *. rewrite store64_out by lia.
  rewrite memset_spec. by rewrite (proj2 (inrange_false _ _ _)) by lia.
Qed.

Lemma link_agree m m' x k p :
  (forall z, ~ in_page p z -> m' z = m z) ->
  store64 (memset m' p 0 PGSIZE) (x + 8 * k) (Z.lor (PA2PTE p) PTE_V) = link m x k p.
Proof. intros Hm. unfold link, mkpte. by rewrite Z.lor_0_r, (memset_agree m m' p 0 PGSIZE Hm). Qed.

(** Taking a page from the pool and linking it as a table. *)
Lemma link_ext root px x k p l s s1 s' :
  pt_own s root (p :: l) -> path_ok (px ++ [k]) -> follow (mem s) root px = Some x ->
  sub (mem s) x k = None -> pool s1 l -> page_step p s s1 ->
  mem s' = link (mem s) x k p -> s' = s1 <| mem := mem s' |> ->
  pt_ext root s (p :: l) s' l /\ follow (mem s') root (px ++ [k]) = Some p.
Proof.
  intros Ho Hpath Hx Hnone Hp1 [E1 M1] Hm E'. destruct (fresh_page _ _ _ _ Ho) as (Hp & Hpl & Hpn).
  pose proof (po_wf _ _ _ Ho) as Hwf. destruct (path_ok_snoc _ _ Hpath) as (Hpx & Hk & _).
  destruct (link_grows (mem s) root Hwf px x k p Hpath Hx Hnone Hp Hpn) as [Hf [Gw Gl Gn]].
  destruct (Hwf px px x) as [_ [Hxm _]]; [done..|].
  rewrite <- Hm in Hf, Gw, Gl, Gn. split; [|done].
  assert (is_node (mem s) root x) as Hxn by (by exists px).
  destruct (pool_pages _ _ Hp1) as (_ & Hok1 & _).
  destruct (pool_pages _ _ (po_pool _ _ _ Ho)) as (_ & _ & Hb).
  split; [| |done| |].
  - rewrite E', E1. kext s.
  - split; [|done|].
    + eapply pool_frame; [exact Hp1|by rewrite E'|rewrite Hm; by apply link_bytes|].
      intros q z Hq Hz. rewrite Forall_forall in Hok1. destruct (Hok1 q Hq) as [Hqm _].
      assert (~ in_page p z) as Hzp.
      { intros Hz'. apply Hpl. by rewrite (in_page_unique p q z (proj1 Hp) Hqm Hz' Hz). }
      rewrite Hm, M1 by done. apply link_out; [done|done|].
      intros Hz'. apply (po_fresh _ _ _ Ho x Hxn). apply elem_of_cons. right.
      by rewrite (in_page_unique x q z Hxm Hqm Hz' Hz).
    + intros q [Hq| ->]%Gn; [|done]. pose proof (po_fresh _ _ _ Ho q Hq). set_solver.
  - exists [p]. split; [done|]. intros q. rewrite Gn. set_solver.
  - intros z Hz. rewrite Hm. apply link_out; [done|apply Hz, Gn; by right|apply Hz, Gn; by left].
Qed.

Lemma walk_level_alloc root px x va level s l :
  env h X s -> pt_own s root l -> path_ok (px ++ [PX level va]) -> follow (mem s) root px = Some x ->
  exists r s' l', walk_level x va level true s = Ret r s' /\ pt_ext root s l s' l'
    /\ (length l <= length l' + 1)%nat
    /\ match r with
       | Some y => follow (mem s') root (px ++ [PX level va]) = Some y
       | None => l = []
       end.
Proof.
  intros He Ho Hpath Hx. destruct (sub (mem s) x (PX level va)) as [y|] eqn:Hs.
  { exists (Some y), s, l. split; [by apply walk_level_some|].
    split; [by apply pt_ext_refl|]. split; [lia|]. by rewrite follow_snoc, Hx. }
  assert (flag (load64 (mem s) (x + 8 * PX level va)) PTE_V = false) as Hv.
  { unfold sub, ent in Hs. by destruct (flag _ PTE_V). }
  unfold walk_level, pte_load, kmemset, pte_store. msimpl. rewrite Hv. cbn [negb].
  destruct l as [|p l].
  - mstep (pool_empty h X s He HX (po_pool _ _ _ Ho)). rewrite Z.eqb_refl.
    exists None, s, []. split; [done|]. split; [by apply pt_ext_refl|]. split; [lia|done].
  - destruct (pool_alloc h X s p l He HX (po_pool _ _ _ Ho)) as (s1 & Hk & Hp1 & Hs1).
    mstep Hk. destruct (fresh_page _ _ _ _ Ho) as (Hp%page_ok_nonzero & _).
    rewrite (proj2 (Z.eqb_neq p 0)) by done. msimpl.
    eexists (Some p), _, l. split; [reflexivity|].
    destruct (link_ext root px x (PX level va) p l s s1 (s1
      <| mem := store64 (memset (mem s1) p 0 PGSIZE) (x + 8 * PX level va) (Z.lor (PA2PTE p) PTE_V) |>))
      as [Hext Hf]; [done..|by apply link_agree, Hs1|done|].
    split; [exact Hext|]. split; [simpl; lia|exact Hf].
Qed.

(** With allocation [walk] finds or makes the table of [va]; it fails only for
    want of memory. *)
Lemma walk_alloc root va s l :
  va < MAXVA -> env h X s -> pt_own s root l ->
  exists r s' l', walk root va true s = Ret r s' /\ pt_ext root s l s' l'
    /\ (length l <= length l' + 2)%nat
    /\ (r = 0 /\ l' = [] /\ (length l <= 1)%nat \/ leaf_addr (mem s') root va = Some r).
Proof.
  intros Hva He Ho. unfold walk. rewrite Z.geb_leb, (proj2 (Z.leb_gt _ _)) by done.
  unfold walk_loop.
  pose proof (path_ok_leaf va) as Hpl. pose proof (path_ok_snoc [PX 2 va] _ Hpl) as (Hpl' & _).
  destruct (walk_level_alloc root [] root va 2 s l) as (r & s1 & l1 & Hr & E1 & Hl1 & Hc);
    [done..|].
  mstep Hr. destruct r as [x|].
  - destruct (walk_level_alloc root [PX 2 va] x va 1 s1 l1) as (r & s2 & l2 & Hr2 & E2 & Hl2 & Hc2);
      [by eapply pt_upd_env|apply E1|done|done|].
    mstep Hr2. exists (match r with Some y => y + 8 * PX 0 va | None => 0 end), s2, l2.
    destruct r as [y|].
    + split; [done|]. split; [by eapply pt_ext_trans|]. split; [lia|]. right.
      unfold leaf_addr, leaf_pt, leaf_path. simpl in Hc2. simpl. by rewrite Hc2.
    + split; [done|]. split; [by eapply pt_ext_trans|]. subst. simpl in *.
      destruct (pe_used _ _ _ _ _ _ E2) as (u & Hu & _). symmetry in Hu. apply app_nil in Hu as [-> ->].
      simpl in *. split; [lia|left]. split_and!; [done|done|lia].
  - exists 0, s1, l1. msimpl. subst. simpl in *.
    destruct (pe_used _ _ _ _ _ _ E1) as (u & Hu & _). symmetry in Hu. apply app_nil in Hu as [-> ->].
    split; [done|]. split; [done|]. simpl. split; [lia|left]. split_and!; [done|done|lia].
Qed.

(** ** mappages *)

(** Writing the leaf entry of [va]. *)
Lemma leaf_upd root va a v s l :
  pt_own s root l -> va_ok va -> leaf_addr (mem s) root va = Some a -> 0 <= v < 2 ^ 64 ->
  pt_upd root (fun va' => if decide (va' = va) then v else leaf (mem s) root va') s l
    (s <| mem := store64 (mem s) a v |>) l.
Proof.
  intros Ho Hva Ha Hv. pose proof (po_wf _ _ _ Ho) as Hwf.
  assert (exists q, is_node (mem s) root q /\ q <= a /\ a + 8 <= q + PGSIZE) as (q & Hq & Hlo & Hhi).
  { unfold leaf_addr, leaf_pt in Ha. apply fmap_Some in Ha as (q & Hq & ->).
    exists q. split; [exists (leaf_path va); split; [apply path_ok_leaf|done]|].
    pose proof (PX_range 0 va). unfold PGSIZE. lia. }
  pose proof (is_node_page _ _ _ Hwf Hq) as [Hqm _].
  destruct (pool_pages _ _ (po_pool _ _ _ Ho)) as (_ & Hok & Hb).
  split; [kext s| | | |].
  - split; [|by eapply leaf_store_wf|].
    + eapply pool_frame; [apply Ho|done|by apply store_le_bytes|].
      intros q' z Hq' Hz. simpl. apply store64_out. intros Hz'.
      rewrite Forall_forall in Hok. destruct (Hok q' Hq') as [Hqm' _].
      apply (po_fresh _ _ _ Ho q Hq). rewrite (in_page_unique q q' z); [done|done|done| |done].
      unfold in_page. lia.
    + intros q' Hq'. apply (po_fresh _ _ _ Ho).
      by apply (leaf_store_node (mem s) root Hwf va a v Ha Hv).
  - intros va' Hva'. by eapply leaf_store.
  - exists []. split; [done|]. intros q'. simpl. 
    rewrite (leaf_store_node (mem s) root Hwf va a v Ha Hv). set_solver.
  - intros z Hz. simpl in *. apply store64_out. intros Hz'. apply (Hz q); [|unfold in_page; lia].
    by apply (leaf_store_node (mem s) root Hwf va a v Ha Hv).
Qed.

(** The leaves of a range of [k] pages from [a], mapped to the frames from
    [pa] up. *)
Definition map_range (a : Z) (k : nat) (pa perm : Z) (L : Z -> Z) (va : Z) : Z :=
  if (a <=? va) && (va <? a + Z.of_nat k * PGSIZE) then mkpte (pa + (va - a)) perm else L va.

Lemma map_range_0 a pa perm L va : map_range a 0 pa perm L va = L va.
Proof. unfold map_range. 
  destruct (Z.leb_spec a va), (Z.ltb_spec va (a + Z.of_nat 0 * PGSIZE)); try done. lia. Qed.

Lemma map_range_S a k pa perm L va :
  va_ok a -> va_ok va ->
  map_range (a + PGSIZE) k (pa + PGSIZE) perm
    (fun va' => if decide (va' = a) then mkpte pa perm else L va') va
  = map_range a (S k) pa perm L va.
Proof.
  intros [Ha _] [Hva _]. unfold map_range.
  destruct (decide (va = a)) as [->|Hne].
  - rewrite (proj2 (Z.leb_gt (a + PGSIZE) a)) by (unfold PGSIZE; lia). simpl.
    rewrite Z.leb_refl, (proj2 (Z.ltb_lt _ _)) by (unfold PGSIZE; lia). simpl. f_equal. lia.
  - replace (a <=? va) with (a + PGSIZE <=? va).
    2: { destruct (Z.leb_spec (a + PGSIZE) va), (Z.leb_spec a va); unfold PGSIZE in *; zlia. }
    replace (a + PGSIZE + Z.of_nat k * PGSIZE) with (a + Z.of_nat (S k) * PGSIZE) by lia.
    by replace (pa + PGSIZE + (va - (a + PGSIZE))) with (pa + (va - a)) by lia.
Qed.

Lemma leaf_addr_load m root va a : leaf_addr m root va = Some a -> load64 m a = leaf m root va.
Proof.
  unfold leaf_addr, leaf, leaf_pt. intros (q & -> & ->)%fmap_Some. done.
Qed.

Lemma leaf_addr_nonzero m root va a : pt_wf m root -> leaf_addr m root va = Some a -> a <> 0.
Proof.
  unfold leaf_addr, leaf_pt. intros Hwf (q & Hq & ->)%fmap_Some.
  assert (page_ok q) as Hp%page_ok_range.
  { apply (is_node_page m root q Hwf). exists (leaf_path va). split; [apply path_ok_leaf|done]. }
  pose proof (PX_range 0 va). unfold KERNBASE in Hp. lia.
Qed.

(** Pages [a], [a + PGSIZE], ... of a range of [k] pages. *)
Definition pages_in (a : Z) (k : nat) (va : Z) : Prop := va_ok va /\ a <= va < a + Z.of_nat k * PGSIZE.

Lemma pages_in_S a k va : va_ok a -> pages_in a (S k) va <-> va = a \/ pages_in (a + PGSIZE) k va.
Proof.
  intros Ha. unfold pages_in. split.
  - intros [Hva Hr]. destruct (decide (va = a)); [by left|right]. split; [done|].
    destruct Ha, Hva. unfold PGSIZE in *. zlia.
  - intros [-> | [Hva Hr]]; (split; [done|]); unfold PGSIZE in *; lia.
Qed.

(** What a call of [mappages] may do: map the whole range, map a prefix of it
    until memory runs out, or panic because a page of the range is mapped. *)
Definition maps (root a : Z) (n : nat) (pa perm : Z) (s : kernel) (l : list Z) (o : outcome kernel Z) : Prop :=
  (o = Panic "mappages: remap" /\ exists va, pages_in a n va /\ flag (leaf (mem s) root va) PTE_V = true)
  \/ exists r s' l' k,
    o = Ret r s'
    /\ pt_upd root (map_range a k pa perm (leaf (mem s) root)) s l s' l'
    /\ (forall va, pages_in a k va -> flag (leaf (mem s) root va) PTE_V = false)
    /\ (r = 0 /\ k = n /\ (length l <= length l' + 2 * n)%nat
        \/ r = -1 /\ (k < n)%nat /\ l' = [] /\ (length l < 2 * n)%nat).

(** The first page is mapped in [s2]; the rest of the range follows. *)
Lemma maps_cons n root a pa perm s l s2 l2 o :
  va_ok a -> flag (leaf (mem s) root a) PTE_V = false ->
  pt_upd root (fun va => if decide (va = a) then mkpte pa perm else leaf (mem s) root va) s l s2 l2 ->
  (length l <= length l2 + 2)%nat ->
  maps root (a + PGSIZE) n (pa + PGSIZE) perm s2 l2 o -> maps root a (S n) pa perm s l o.
Proof.
  intros Ha Hv E2 Hl.
  assert (forall k va, pages_in (a + PGSIZE) k va -> leaf (mem s2) root va = leaf (mem s) root va) as Hsame.
  { intros k va [Hva Hr]. rewrite (pe_leaf _ _ _ _ _ _ E2) by done.
    by rewrite decide_False by (unfold PGSIZE in *; lia). }
  intros [(-> & va & Hva & Hf)|(r & s' & l' & k & -> & E3 & Hinv & Hc)].
  - left. split; [done|]. exists va. rewrite <- (Hsame n va Hva). split; [|done].
    apply pages_in_S; [done|by right].
  - right. exists r, s', l', (S k). split; [done|]. split; [|split].
    + eapply pt_upd_leaf; [eapply pt_upd_trans; [exact E2|exact E3]|].
      intros va Hva. rewrite <- map_range_S by done. unfold map_range.
      destruct ((_ <=? _) && _); [done|]. by apply E2.
    + intros va [-> |Hva]%pages_in_S; [done| |done]. rewrite <- (Hsame k va Hva). by apply Hinv.
    + destruct Hc as [(-> & -> & ?)|(-> & ? & -> & ?)]; [left|right]; split_and!; done || lia.
Qed.

Lemma mappages_loop_ok n root a pa perm s l :
  env h X s -> pt_own s root l -> va_ok a -> (0 < n)%nat -> a + Z.of_nat n * PGSIZE <= MAXVA ->
  0 <= perm < 1024 -> frame_ok pa -> pa + Z.of_nat n * PGSIZE <= 2 ^ 56 ->
  maps root a n pa perm s l (mappages_loop n root a (a + (Z.of_nat n - 1) * PGSIZE) pa perm s).
Proof.
  revert a pa s l. induction n as [|n IH]; intros a pa s l He Ho Ha Hn Hmax Hperm Hpa Hpmax; [lia|].
  cbn [mappages_loop].
  destruct (walk_alloc root a s l) as (r & s1 & l1 & Hw & E1 & Hl1 & Hc); [apply Ha|done|done|].
  mstep Hw. destruct Hc as [(-> & -> & Hl)|Hr].
  { rewrite Z.eqb_refl. right. exists (-1), s1, [], 0%nat. split; [done|]. split; [|split].
    - eapply pt_upd_leaf; [exact E1|]. intros va Hva. by rewrite map_range_0.
    - unfold pages_in. intros va. lia.
    - right. split_and!; [done|lia|done|lia]. }
  pose proof (pe_own _ _ _ _ _ _ E1) as Ho1.
  rewrite (proj2 (Z.eqb_neq r 0)) by (eapply leaf_addr_nonzero; [apply Ho1|done]).
  unfold pte_load, pte_store. msimpl. rewrite (leaf_addr_load _ _ _ _ Hr), (pe_leaf _ _ _ _ _ _ E1) by done.
  destruct (flag (leaf (mem s) root a) PTE_V) eqn:Hv.
  { left. split; [done|]. exists a. split; [|done]. apply pages_in_S; [done|by left]. }
  msimpl.
  pose proof (leaf_upd root a r (mkpte pa perm) s1 l1 Ho1 Ha Hr ltac:(by apply mkpte_range)) as E2.
  assert (pt_upd root (fun va => if decide (va = a) then mkpte pa perm else leaf (mem s) root va) s l
            (s1 <| mem := store64 (mem s1) r (mkpte pa perm) |>) l1) as E12.
  { eapply pt_upd_trans; [exact E1|]. eapply pt_upd_leaf; [exact E2|].
    intros va Hva. cbv beta. case_decide; [done|]. by apply E1. }
  change (s1 <| mem ::= _ |>) with (s1 <| mem := store64 (mem s1) r (mkpte pa perm) |>).
  destruct (Z.eqb_spec a (a + (Z.of_nat (S n) - 1) * PGSIZE)) as [Heq|Hne].
  - assert (n = 0%nat) as -> by (unfold PGSIZE in Heq; lia).
    right. eexists 0, _, l1, 1%nat. split; [reflexivity|]. split; [|split; [|left; split_and!; done || lia]].
    + eapply pt_upd_leaf; [exact E12|]. intros va Hva. rewrite <- map_range_S by done. by rewrite map_range_0.
    + intros va [-> |[? ?]]%pages_in_S; [done|lia|done].
  - assert (0 < n)%nat as Hn' by (unfold PGSIZE in Hne; lia).
    assert (va_ok (a + PGSIZE)) as Ha'.
    { destruct Ha. split; unfold PGSIZE in *; [zlia|lia]. }
    assert (frame_ok (pa + PGSIZE)) as Hpa'.
    { destruct Hpa. split; unfold PGSIZE in *; [zlia|lia]. }
    rewrite (u64_small (a + PGSIZE)), (u64_small (pa + PGSIZE)) by auto using va_u64, frame_u64.
    replace (a + (Z.of_nat (S n) - 1) * PGSIZE) with (a + PGSIZE + (Z.of_nat n - 1) * PGSIZE) by lia.
    eapply maps_cons; [done|done|exact E12|lia|]. apply IH; try done; [by eapply pt_upd_env|apply E12|lia|lia].
Qed.

Lemma mappages_ok n root a pa perm s l :
  env h X s -> pt_own s root l -> va_ok a -> (0 < n)%nat -> a + Z.of_nat n * PGSIZE <= MAXVA ->
  0 <= perm < 1024 -> frame_ok pa -> pa + Z.of_nat n * PGSIZE <= 2 ^ 56 ->
  maps root a n pa perm s l (mappages root a (Z.of_nat n * PGSIZE) pa perm s).
Proof.
  intros He Ho Ha Hn Hmax Hperm Hpa Hpmax. unfold mappages. pose proof Ha as [Ham Har].
  rewrite Ham, Z.mod_mul, Z.div_mul by done. cbn [negb Z.eqb].
  rewrite (proj2 (Z.eqb_neq _ 0)) by (unfold PGSIZE; lia). rewrite Nat2Z.id, u64_small.
  - replace (a + Z.of_nat n * PGSIZE - PGSIZE) with (a + (Z.of_nat n - 1) * PGSIZE) by lia.
    by apply mappages_loop_ok.
  - change MAXVA with (2 ^ 38) in *. unfold PGSIZE in *. lia.
Qed.

(** ** Lookups *)

(** The physical page a user access to page [va] reaches. *)
Definition user_pa (m : memory) (root va : Z) : Z :=
  let v := leaf m root va in
  if flag v PTE_V && flag v PTE_U then PTE2PA v else 0.

Lemma leaf_missing m root va : leaf_addr m root va = None -> leaf m root va = 0.
Proof. unfold leaf_addr, leaf. by destruct (leaf_pt m root va). Qed.

Lemma walk_found root va s :
  va < MAXVA -> pt_wf (mem s) root ->
  exists a, walk root va false s = Ret a s /\
    ((a = 0 /\ leaf_addr (mem s) root va = None /\ leaf (mem s) root va = 0)
     \/ ((a =? 0) = false /\ leaf_addr (mem s) root va = Some a
         /\ load64 (mem s) a = leaf (mem s) root va)).
Proof.
  intros Hva Hwf. rewrite (walk_lookup root va s Hva).
  destruct (leaf_addr (mem s) root va) as [a|] eqn:Ha; eexists; (split; [reflexivity|]); [right|left].
  - split_and!; try done.
    + apply Z.eqb_neq. by eapply leaf_addr_nonzero.
    + by apply leaf_addr_load.
  - split_and!; try done. by apply leaf_missing.
Qed.

Lemma walkaddr_ok root va s :
  va < MAXVA -> pt_wf (mem s) root -> walkaddr root va s = Ret (user_pa (mem s) root va) s.
Proof.
  intros Hva Hwf. unfold walkaddr, user_pa. rewrite Z.geb_leb, (proj2 (Z.leb_gt _ _)) by done.
  destruct (walk_found root va s Hva Hwf) as (a & Hw & [(-> & _ & Hl)|(Hz & _ & Hl)]); mstep Hw.
  - by rewrite Hl, flag_0.
  - rewrite Hz. unfold pte_load. msimpl. rewrite Hl.
    destruct (flag _ PTE_V), (flag _ PTE_U); done.
Qed.

Lemma ismapped_ok root va s :
  va < MAXVA -> pt_wf (mem s) root -> ismapped root va s = Ret (flag (leaf (mem s) root va) PTE_V) s.
Proof.
  intros Hva Hwf. unfold ismapped.
  destruct (walk_found root va s Hva Hwf) as (a & Hw & [(-> & _ & Hl)|(Hz & _ & Hl)]); mstep Hw.
  - by rewrite Hl, flag_0.
  - rewrite Hz. unfold pte_load. msimpl. by rewrite Hl.
Qed.

Lemma user_pa_mkpte m root va pa perm :
  leaf m root va = mkpte pa perm -> frame_ok pa -> 0 <= perm < 1024 -> flag perm PTE_U = true ->
  user_pa m root va = pa.
Proof.
  intros Hl Hpa Hperm Hu. unfold user_pa. rewrite Hl, mkpte_valid, PTE2PA_mkpte by done.
  change PTE_U with (2 ^ 4) in *. rewrite flag_mkpte by (done || lia).
  rewrite flag_pow2 in Hu by lia. by rewrite Hu.
Qed.

(** ** User address spaces *)

(** The leaves below [TRAPFRAME] lead to distinct allocated pages, none of
    them a table; what is mapped above is not for user code. *)
Record uas (s : kernel) (root : Z) (l : list Z) : Prop := {
  ua_own : pt_own s root l;
  ua_page va : va_ok va -> va < TRAPFRAME -> flag (leaf (mem s) root va) PTE_V = true ->
    page_ok (PTE2PA (leaf (mem s) root va)) /\ PTE2PA (leaf (mem s) root va) ∉ l
    /\ ~ is_node (mem s) root (PTE2PA (leaf (mem s) root va));
  ua_inj va va' : va_ok va -> va_ok va' -> va < TRAPFRAME -> va' < TRAPFRAME ->
    flag (leaf (mem s) root va) PTE_V = true -> flag (leaf (mem s) root va') PTE_V = true ->
    PTE2PA (leaf (mem s) root va) = PTE2PA (leaf (mem s) root va') -> va = va';
  ua_top va : va_ok va -> TRAPFRAME <= va -> flag (leaf (mem s) root va) PTE_V = true ->
    flag (leaf (mem s) root va) PTE_U = false
}.

(** An operation that keeps the tables and writes only to them and to the
    pages [F]. *)
Record keeps (root : Z) (F : list Z) (s s' : kernel) : Prop := {
  ke_eq : s' = s <| mem := mem s' |> <| freelist := freelist s' |>;
  ke_node q : is_node (mem s') root q <-> is_node (mem s) root q;
  ke_out x : (forall q, is_node (mem s) root q \/ q ∈ F -> ~ in_page q x) -> mem s' x = mem s x
}.

Lemma keeps_refl root s : keeps root [] s s.
Proof. split; [kext s|done|done]. Qed.

Lemma keeps_trans root F1 F2 s1 s2 s3 :
  keeps root F1 s1 s2 -> keeps root F2 s2 s3 -> keeps root (F1 ++ F2) s1 s3.
Proof.
  intros [E1 N1 M1] [E2 N2 M2]. split.
  - by eapply only_mem_trans.
  - intros q. by rewrite N2, N1.
  - intros x Hx. rewrite M2, M1; [done| |]; intros q Hq; apply Hx; rewrite ?N1 in Hq; set_solver.
Qed.

Lemma keeps_env root F s s' : keeps root F s s' -> env h X s -> env h X s'.
Proof. intros He Henv. eapply env_upd; [done|]. by rewrite (ke_eq _ _ _ _ He). Qed.

(** Freeing a page that is not a table does not change the tree. *)
Lemma kfree_tree root p s l :
  env h X s -> pt_own s root l -> page_ok p -> p ∉ l -> ~ is_node (mem s) root p ->
  exists s', kfree p s = Ret tt s' /\ pt_own s' root (p :: l) /\ keeps root [p] s s'
    /\ (forall va, leaf_addr (mem s') root va = leaf_addr (mem s) root va)
    /\ (forall va, leaf (mem s') root va = leaf (mem s) root va).
Proof.
  intros He Ho Hp Hpl Hpn.
  destruct (pool_free h X s p l He HX Hp Hpl (po_pool _ _ _ Ho)) as (s' & Hk & Hpool & [E M]).
  pose proof (po_wf _ _ _ Ho) as Hwf.
  destruct (frame_tree (mem s) (mem s') root Hwf) as (Hwf' & Hn & Ha & Hl).
  { intros q x Hq Hx. apply M. intros Hx'. apply Hpn.
    destruct Hp as [Hpm _]. destruct (is_node_page _ _ _ Hwf Hq) as [Hqm _].
    by rewrite (in_page_unique p q x Hpm Hqm Hx' Hx). }
  exists s'. split_and!; [done| | |done|done].
  - split; [done|done|]. intros q Hq%Hn. apply not_elem_of_cons. split; [by intros ->|by apply Ho].
  - split; [done|done|]. intros x Hx. apply M. apply Hx. set_solver.
Qed.

(** Unmapping and freeing one mapped user page. *)
Lemma unmap_page root a pte s l :
  env h X s -> uas s root l -> va_ok a -> a < TRAPFRAME -> leaf_addr (mem s) root a = Some pte ->
  flag (leaf (mem s) root a) PTE_V = true ->
  let p := PTE2PA (leaf (mem s) root a) in
  exists s1, kfree p s = Ret tt s1 /\
    let s' := s1 <| mem := store64 (mem s1) pte 0 |> in
    uas s' root (p :: l) /\ keeps root [p] s s'
    /\ (forall va, va_ok va -> leaf (mem s') root va = if decide (va = a) then 0 else leaf (mem s) root va).
Proof.
  intros He Hu Ha Hlt Hpte Hv p. destruct (ua_page _ _ _ Hu a Ha Hlt Hv) as (Hp & Hpl & Hpn).
  destruct (kfree_tree root p s l He (ua_own _ _ _ Hu) Hp Hpl Hpn) as (s1 & Hk & Ho1 & K1 & La1 & L1).
  rewrite <- La1 in Hpte.
  pose proof (leaf_upd root a pte 0 s1 (p :: l) Ho1 Ha Hpte ltac:(lia)) as [E2 O2 L2 (u & U2 & N2) M2].
  exists s1. split; [done|]. intros s2. fold s2 in E2, O2, L2, N2, M2.
  assert (u = []) as -> by (by apply (app_inv_tail (p :: l))).
  assert (forall q, is_node (mem s2) root q <-> is_node (mem s) root q) as N12.
  { intros q. rewrite N2, (ke_node _ _ _ _ K1). set_solver. }
  assert (forall va, va_ok va -> leaf (mem s2) root va = if decide (va = a) then 0 else leaf (mem s) root va) as L12.
  { intros va Hva. rewrite L2 by done. by rewrite L1. }
  split_and!; [|split|done].
  - split; [done| | |].
    + intros va Hva Hlt'. rewrite L12 by done. case_decide; [by rewrite flag_0|]. intros Hv'.
      destruct (ua_page _ _ _ Hu va Hva Hlt' Hv') as (? & ? & ?). split_and!; [done| |by rewrite N12].
      apply not_elem_of_cons. split; [|done]. intros E. by apply (ua_inj _ _ _ Hu) in E.
    + intros va va' Hva Hva' Hlt1 Hlt2. rewrite !L12 by done.
      do 2 case_decide; rewrite ?flag_0; try done. by apply Hu.
    + intros va Hva. rewrite L12 by done. case_decide; [by rewrite flag_0|]. by apply Hu.
  - by eapply only_mem_trans; [apply K1|].
  - done.
  - intros x Hx. rewrite M2; [|intros q Hq; apply Hx; left; by apply N12].
    apply (ke_out _ _ _ _ K1). done.
Qed.

Definition unmap_range (a : Z) (n : nat) (L : Z -> Z) (va : Z) : Z :=
  if (a <=? va) && (va <? a + Z.of_nat n * PGSIZE) && flag (L va) PTE_V then 0 else L va.

Lemma in_range_S a n va :
  va_ok a -> va_ok va -> va <> a ->
  (a <=? va) && (va <? a + Z.of_nat (S n) * PGSIZE)
  = (a + PGSIZE <=? va) && (va <? a + PGSIZE + Z.of_nat n * PGSIZE).
Proof.
  intros [Ha _] [Hva _] Hne. f_equal.
  - destruct (Z.leb_spec (a + PGSIZE) va), (Z.leb_spec a va); unfold PGSIZE in *; zlia.
  - f_equal. lia.
Qed.

Lemma unmap_range_skip a n L va :
  va_ok a -> va_ok va -> flag (L a) PTE_V = false ->
  unmap_range (a + PGSIZE) n L va = unmap_range a (S n) L va.
Proof.
  intros Ha Hva HL. unfold unmap_range. destruct (decide (va = a)) as [->|Hne].
  - by rewrite HL, !andb_false_r.
  - by rewrite in_range_S.
Qed.
Lemma unmap_range_S a n L va :
  va_ok a -> va_ok va -> flag (L a) PTE_V = true ->
  unmap_range (a + PGSIZE) n (fun va' => if decide (va' = a) then 0 else L va') va
  = unmap_range a (S n) L va.
Proof.
  intros Ha Hva HL. unfold unmap_range. destruct (decide (va = a)) as [->|Hne].
  - rewrite HL, flag_0, !andb_false_r, andb_true_r.
    by rewrite Z.leb_refl, (proj2 (Z.ltb_lt _ _)) by (unfold PGSIZE; lia).
  - by rewrite in_range_S.
Qed.

(** The effect of unmapping [n] pages from [a]: their pages [F] are free. *)
Record unmaps (root a : Z) (n : nat) (s : kernel) (l : list Z) (s' : kernel) (F : list Z) : Prop := {
  un_as : uas s' root (F ++ l);
  un_keeps : keeps root F s s';
  un_leaf va : va_ok va -> leaf (mem s') root va = unmap_range a n (leaf (mem s) root) va;
  un_free p : p ∈ F <-> exists va, pages_in a n va
                /\ flag (leaf (mem s) root va) PTE_V = true /\ p = PTE2PA (leaf (mem s) root va)
}.

Lemma unmaps_nil root a s l : uas s root l -> unmaps root a 0 s l s [].
Proof.
  intros Hu. split; [done|apply keeps_refl| |].
  - intros va _. unfold unmap_range.
    destruct (Z.leb_spec a va), (Z.ltb_spec va (a + Z.of_nat 0 * PGSIZE)); try done. lia.
  - intros p. split; [set_solver|]. intros (va & [_ ?] & _). lia.
Qed.

Lemma unmaps_skip root a n s l s' F :
  va_ok a -> flag (leaf (mem s) root a) PTE_V = false ->
  unmaps root (a + PGSIZE) n s l s' F -> unmaps root a (S n) s l s' F.
Proof.
  intros Ha Hv [Hu K L Fr]. split; [done|done| |].
  - intros va Hva. by rewrite <- unmap_range_skip, L.
  - intros p. rewrite Fr. split; intros (va & Hr & Hv' & ->); exists va; (split; [|done]).
    + apply pages_in_S; auto.
    + apply pages_in_S in Hr as [-> |]; [congruence|done|done].
Qed.

Lemma unmaps_cons root a n s l s1 s' F :
  va_ok a -> flag (leaf (mem s) root a) PTE_V = true -> keeps root [PTE2PA (leaf (mem s) root a)] s s1 ->
  (forall va, va_ok va -> leaf (mem s1) root va = if decide (va = a) then 0 else leaf (mem s) root va) ->
  unmaps root (a + PGSIZE) n s1 (PTE2PA (leaf (mem s) root a) :: l) s' F ->
  unmaps root a (S n) s l s' (F ++ [PTE2PA (leaf (mem s) root a)]).
Proof.
  intros Ha Hv K1 L1 [Hu K L Fr].
  assert (forall va, pages_in (a + PGSIZE) n va -> leaf (mem s1) root va = leaf (mem s) root va) as Hsame.
  { intros va [Hva Hr]. by rewrite L1, decide_False by (done || unfold PGSIZE in *; lia). }
  split.
  - by rewrite <- (assoc_L (++)).
  - destruct (keeps_trans _ _ _ _ _ _ K1 K) as [E N M]. split; [done|done|].
    intros x Hx. apply M. intros q Hq. apply Hx. set_solver.
  - intros va Hva. rewrite L by done. rewrite <- unmap_range_S by done. unfold unmap_range.
    by rewrite !L1 by done.
  - intros p. rewrite elem_of_app, list_elem_of_singleton, Fr. split.
    + intros [(va & Hr & Hv' & ->)| ->].
      * exists va. rewrite <- (Hsame va Hr). split; [|done]. apply pages_in_S; auto.
      * exists a. split; [|done]. apply pages_in_S; auto.
    + intros (va & Hr & Hv' & ->). apply pages_in_S in Hr as [-> |Hr]; [by right|left|done].
      exists va. by rewrite (Hsame va Hr).
Qed.

Lemma uvmunmap_loop_ok n root a s l :
  env h X s -> uas s root l -> a mod PGSIZE = 0 -> 0 <= a -> a + Z.of_nat n * PGSIZE <= TRAPFRAME ->
  exists s' F, uvmunmap_loop n root a (a + Z.of_nat n * PGSIZE) true s = Ret tt s'
    /\ unmaps root a n s l s' F.
Proof.
  revert a s l. induction n as [|n IH]; intros a s l He Hu Ham Ha0 Hmax.
  { exists s, []. split; [done|by apply unmaps_nil]. }
  assert (a < TRAPFRAME) as Hlt by (unfold PGSIZE in Hmax; lia).
  assert (va_ok a) as Ha by (split; [done|]; change MAXVA with (TRAPFRAME + 2 * PGSIZE); unfold PGSIZE; lia).
  cbn [uvmunmap_loop]. rewrite (proj2 (Z.ltb_lt a _)) by (unfold PGSIZE; lia).
  rewrite u64_small by (change TRAPFRAME with (2 ^ 38 - 8192) in *; unfold PGSIZE in *; lia).
  replace (a + Z.of_nat (S n) * PGSIZE) with (a + PGSIZE + Z.of_nat n * PGSIZE) in * by lia.
  assert ((a + PGSIZE) mod PGSIZE = 0) as Ham' by (unfold PGSIZE in *; zlia).
  assert (0 <= a + PGSIZE) as Ha0' by (unfold PGSIZE; lia).
  pose proof (po_wf _ _ _ (ua_own _ _ _ Hu)) as Hwf.
  destruct (walk_found root a s (proj2 (proj2 Ha)) Hwf) as (pte & Hw & Hc). mstep Hw.
  destruct (flag (leaf (mem s) root a) PTE_V) eqn:Hv.
  - destruct Hc as [(_ & _ & Hl)|(Hz & Hpte & Hl)]; [by rewrite Hl, flag_0 in Hv|].
    rewrite Hz. unfold pte_load, pte_store. msimpl. rewrite Hl, Hv. cbn [negb when].
    destruct (unmap_page root a pte s l) as (s1 & Hrun & Hu1 & K1 & L1); [done..|].
    mstep Hrun. msimpl. destruct (IH _ _ _ (keeps_env _ _ _ _ K1 He) Hu1 Ham' Ha0' Hmax) as (s' & F & Hr & U).
    eexists s', _. split; [exact Hr|]. by eapply unmaps_cons.
  - destruct (IH _ _ _ He Hu Ham' Ha0' Hmax) as (s' & F & Hr & U).
    exists s', F. split; [|by apply unmaps_skip].
    destruct Hc as [(-> & _ & _)|(Hz & Hpte & Hl)].
    + by msimpl.
    + rewrite Hz. unfold pte_load. msimpl. rewrite Hl, Hv. by msimpl.
Qed.

(** ** Mapping fresh pages *)

(** A page that is neither free, nor a table, nor mapped. *)
Record reserved (s : kernel) (root : Z) (l : list Z) (p : Z) : Prop := {
  rs_page : page_ok p;
  rs_pool : p ∉ l;
  rs_node : ~ is_node (mem s) root p;
  rs_map va : va_ok va -> va < TRAPFRAME -> flag (leaf (mem s) root va) PTE_V = true ->
    PTE2PA (leaf (mem s) root va) <> p
}.

(** Pages that are neither free nor tables keep their contents. *)
Lemma pt_upd_mem root L s l s' l' q x :
  pt_wf (mem s) root -> pt_upd root L s l s' l' -> page_ok q -> q ∉ l -> ~ is_node (mem s) root q ->
  in_page q x -> mem s' x = mem s x.
Proof.
  intros Hwf E [Hqm _] Hql Hqn Hx. apply E. intros q' Hq' Hx'.
  destruct (is_node_page _ _ _ (po_wf _ _ _ (pe_own _ _ _ _ _ _ E)) Hq') as [Hqm' _].
  assert (q' = q) as -> by (by apply (in_page_unique q' q x)).
  destruct (pe_used _ _ _ _ _ _ E) as (u & -> & N). apply N in Hq' as [?|?]; [done|set_solver].
Qed.

Lemma pt_upd_node root L s l s' l' q :
  pt_upd root L s l s' l' -> q ∉ l -> ~ is_node (mem s) root q -> q ∉ l' /\ ~ is_node (mem s') root q.
Proof.
  intros E Hql Hqn. destruct (pe_used _ _ _ _ _ _ E) as (u & -> & N). rewrite N. set_solver.
Qed.

(** Mapping one reserved page at an unmapped address. *)
Lemma uas_map root L s l s' l' a p perm :
  uas s root l -> pt_upd root L s l s' l' -> reserved s root l p -> va_ok a -> a < TRAPFRAME ->
  0 <= perm < 1024 ->
  (forall va, va_ok va -> L va = if decide (va = a) then mkpte p perm else leaf (mem s) root va) ->
  uas s' root l'.
Proof.
  intros Hu E R Ha Hlt Hperm HL. pose proof (page_frame _ (rs_page _ _ _ _ R)) as Hfr.
  assert (forall va, va_ok va -> leaf (mem s') root va = if decide (va = a) then mkpte p perm else leaf (mem s) root va) as L'.
  { intros va Hva. rewrite (pe_leaf _ _ _ _ _ _ E) by done. by apply HL. }
  split; [apply E| | |].
  - intros va Hva Hlt'. rewrite L' by done. case_decide.
    + intros _. rewrite PTE2PA_mkpte by done. split; [apply R|]. eapply pt_upd_node; [done|apply R..].
    + intros Hv. destruct (ua_page _ _ _ Hu va Hva Hlt' Hv) as (? & ? & ?).
      split; [done|]. by eapply pt_upd_node.
  - intros va va' Hva Hva' Hlt1 Hlt2. rewrite !L' by done. do 2 case_decide; subst; try done.
    + rewrite PTE2PA_mkpte by done. intros _ Hv E'. by destruct (rs_map _ _ _ _ R va').
    + rewrite PTE2PA_mkpte by done. intros Hv _ E'. by destruct (rs_map _ _ _ _ R va).
    + by apply Hu.
  - intros va Hva Htop. rewrite L' by done. rewrite decide_False by lia. by apply Hu.
Qed.

(** Allocating tables changes nothing for the user. *)
Lemma uas_ext root s l s' l' :
  uas s root l -> pt_ext root s l s' l' ->
  uas s' root l' /\ forall p, reserved s root l p -> reserved s' root l' p.
Proof.
  intros Hu E. pose proof (pe_leaf _ _ _ _ _ _ E) as L'. split.
  - split; [apply E| | |].
    + intros va Hva Hlt'. rewrite L' by done. intros Hv.
      destruct (ua_page _ _ _ Hu va Hva Hlt' Hv) as (? & ? & ?). split; [done|]. by eapply pt_upd_node.
    + intros va va' Hva Hva' Hlt1 Hlt2. rewrite !L' by done. by apply Hu.
    + intros va Hva Htop. rewrite L' by done. by apply Hu.
  - intros p [Hp Hpl Hpn Hpm]. destruct (pt_upd_node _ _ _ _ _ _ p E Hpl Hpn). split; try done.
    intros va Hva Hlt. rewrite L' by done. auto.
Qed.

(** Taking a page from the pool and zeroing it. *)
Lemma uas_take root p l s s1 s2 :
  uas s root (p :: l) -> pool s1 l -> page_step p s s1 ->
  (forall x, mem s2 x = if decide (in_page p x) then 0 else mem s1 x) -> s2 = s1 <| mem := mem s2 |> ->
  uas s2 root l /\ reserved s2 root l p /\ keeps root [p] s s2
  /\ (forall va, leaf (mem s2) root va = leaf (mem s) root va)
  /\ (forall x, mem s2 x = if decide (in_page p x) then 0 else mem s x).
Proof.
  intros Hu Hp1 [E1 M1] Hm2 E2. destruct (fresh_page _ _ _ _ (ua_own _ _ _ Hu)) as (Hp & Hpl & Hpn).
  pose proof (ua_own _ _ _ Hu) as [_ Hwf Hfresh].
  assert (forall x, mem s2 x = if decide (in_page p x) then 0 else mem s x) as M2.
  { intros x. rewrite Hm2. case_decide; [done|]. by apply M1. }
  destruct (frame_tree (mem s) (mem s2) root Hwf) as (Hwf' & Hn & Ha & Hl).
  { intros q x Hq Hx. rewrite M2. rewrite decide_False; [done|]. intros Hx'. apply Hpn.
    destruct Hp as [Hpm _]. destruct (is_node_page _ _ _ Hwf Hq) as [Hqm _].
    by rewrite (in_page_unique p q x Hpm Hqm Hx' Hx). }
  assert (reserved s2 root l p) as R.
  { split; [done|done|by rewrite Hn|]. intros va Hva Hlt. rewrite Hl. intros Hv E.
    destruct (ua_page _ _ _ Hu va Hva Hlt Hv) as (_ & Hno & _). rewrite E in Hno.
    by apply not_elem_of_cons in Hno as [? _]. }
  split_and!; try done.
  - split.
    + split; [|done|].
      * destruct (pool_pages _ _ Hp1) as (_ & Hok & Hb). rewrite Forall_forall in Hok.
        eapply pool_frame; [exact Hp1|by rewrite E2| |].
        { intros x. rewrite Hm2. case_decide; [lia|apply Hb]. }
        intros q x Hq Hx. destruct (Hok q Hq) as [Hqm _].
        assert (~ in_page p x) as Hpx.
        { intros Hx'. apply Hpl. by rewrite (in_page_unique p q x (proj1 Hp) Hqm Hx' Hx). }
        rewrite M2, decide_False by done. by rewrite M1.
      * intros q Hq%Hn. specialize (Hfresh q Hq). set_solver.
    + intros va Hva Hlt. rewrite !Hl. intros Hv. destruct (ua_page _ _ _ Hu va Hva Hlt Hv) as (? & ? & ?).
      split_and!; [done|set_solver|by rewrite Hn].
    + intros va va' ? ? ? ?. rewrite !Hl. by apply Hu.
    + intros va ? ?. rewrite !Hl. by apply Hu.
  - split; [|done|].
    + rewrite E2, E1. kext s.
    + intros x Hx. rewrite M2. rewrite decide_False; [done|]. apply Hx. set_solver.
Qed.

Lemma uas_free root p s l :
  env h X s -> uas s root l -> reserved s root l p ->
  exists s', kfree p s = Ret tt s' /\ uas s' root (p :: l) /\ keeps root [p] s s'
    /\ (forall va, leaf (mem s') root va = leaf (mem s) root va).
Proof.
  intros He Hu [Hp Hpl Hpn Hpm].
  destruct (kfree_tree root p s l He (ua_own _ _ _ Hu) Hp Hpl Hpn) as (s' & Hk & Ho & K & _ & L).
  exists s'. split_and!; try done. split; [done| | |].
  - intros va Hva Hlt. rewrite !L. intros Hv. destruct (ua_page _ _ _ Hu va Hva Hlt Hv) as (? & ? & ?).
    split_and!; [done| |by rewrite (ke_node _ _ _ _ K)]. apply not_elem_of_cons. split; [|done].
    by apply Hpm.
  - intros va va' ? ? ? ?. rewrite !L. by apply Hu.
  - intros va ? ?. rewrite !L. by apply Hu.
Qed.

(** ** What user code sees *)

(** The byte at a user address, when it is accessible. *)
Definition ubyte (m : memory) (root va : Z) : option Z :=
  let pa := user_pa m root (va / PGSIZE * PGSIZE) in
  if (0 <=? va) && (va <? MAXVA) && negb (pa =? 0) then Some (m (pa + va mod PGSIZE)) else None.

(** Pages a user access can reach. *)
Lemma user_pa_page s root l va :
  uas s root l -> va_ok va -> user_pa (mem s) root va <> 0 ->
  let p := user_pa (mem s) root va in
  va < TRAPFRAME /\ flag (leaf (mem s) root va) PTE_V = true /\ p = PTE2PA (leaf (mem s) root va)
  /\ page_ok p /\ p ∉ l /\ ~ is_node (mem s) root p.
Proof.
  intros Hu Hva Hne p. unfold p in *. clear p. unfold user_pa in *.
  destruct (flag _ PTE_V) eqn:Hv; [|done]. destruct (flag (leaf (mem s) root va) PTE_U) eqn:HU; [|done].
  cbn [andb] in *. destruct (Z.lt_ge_cases va TRAPFRAME) as [Hlt|Hge].
  - destruct (ua_page _ _ _ Hu va Hva Hlt Hv) as (? & ? & ?). by split_and!.
  - by rewrite (ua_top _ _ _ Hu va Hva Hge Hv) in HU.
Qed.

Lemma va_ok_down va : 0 <= va < MAXVA -> va_ok (va / PGSIZE * PGSIZE).
Proof. unfold va_ok, PGSIZE. change MAXVA with (2 ^ 38). intros. zlia. Qed.

Lemma ubyte_inv m root va b :
  ubyte m root va = Some b ->
  let pa := user_pa m root (va / PGSIZE * PGSIZE) in
  0 <= va < MAXVA /\ va_ok (va / PGSIZE * PGSIZE) /\ pa <> 0 /\ b = m (pa + va mod PGSIZE).
Proof.
  unfold ubyte. destruct (Z.leb_spec 0 va), (Z.ltb_spec va MAXVA), (Z.eqb_spec (user_pa m root (va / PGSIZE * PGSIZE)) 0);
    simpl; try done. intros [= <-]. split_and!; [done|done|by apply va_ok_down|done|done].
Qed.

(** The user view grows by pages of zeros. *)
Record uext (root : Z) (s s' : kernel) : Prop := {
  ux_eq : s' = s <| mem := mem s' |> <| freelist := freelist s' |>;
  ux_leaf va : va_ok va -> flag (leaf (mem s) root va) PTE_V = true ->
    leaf (mem s') root va = leaf (mem s) root va;
  ux_byte va : ubyte (mem s') root va = ubyte (mem s) root va
    \/ ubyte (mem s) root va = None /\ ubyte (mem s') root va = Some 0
}.

Lemma uext_refl root s : uext root s s.
Proof. split; [kext s|done|by left]. Qed.

Lemma uext_trans root s1 s2 s3 : uext root s1 s2 -> uext root s2 s3 -> uext root s1 s3.
Proof.
  intros [E1 L1 B1] [E2 L2 B2]. split; [by eapply only_mem_trans| |].
  - intros va Hva Hv. rewrite L2, L1; [done|done|done|done|]. by rewrite L1.
  - intros va. destruct (B1 va) as [<- |[-> HB]], (B2 va) as [-> |[? ->]]; auto.
Qed.

Lemma uext_env root s s' : uext root s s' -> env h X s -> env h X s'.
Proof. intros He Henv. eapply env_upd; [done|]. by rewrite (ux_eq _ _ _ He). Qed.

(** Same leaves, same contents of the mapped pages: same user view. *)
Lemma uext_same root s s' l :
  uas s root l -> s' = s <| mem := mem s' |> <| freelist := freelist s' |> ->
  (forall va, va_ok va -> leaf (mem s') root va = leaf (mem s) root va) ->
  (forall va x, va_ok va -> user_pa (mem s) root va <> 0 -> in_page (user_pa (mem s) root va) x ->
     mem s' x = mem s x) ->
  uext root s s'.
Proof.
  intros Hu E L M. split; [done|by auto|]. intros va. left. unfold ubyte.
  destruct (Z.leb_spec 0 va), (Z.ltb_spec va MAXVA); try done. cbn [andb].
  assert (va_ok (va / PGSIZE * PGSIZE)) as Hva by (by apply va_ok_down).
  assert (user_pa (mem s') root (va / PGSIZE * PGSIZE) = user_pa (mem s) root (va / PGSIZE * PGSIZE)) as ->.
  { unfold user_pa. by rewrite L. }
  destruct (Z.eqb_spec (user_pa (mem s) root (va / PGSIZE * PGSIZE)) 0) as [|Hne]; [done|]. cbn [negb]. f_equal.
  eapply M; [exact Hva|done|]. unfold in_page, PGSIZE. zlia.
Qed.

Lemma uext_map root L s l s' l' a p perm :
  uas s root l -> pt_upd root L s l s' l' -> reserved s root l p -> va_ok a -> 0 <= perm < 1024 ->
  (forall x, in_page p x -> mem s x = 0) ->
  flag (leaf (mem s) root a) PTE_V = false ->
  (forall va, va_ok va -> L va = if decide (va = a) then mkpte p perm else leaf (mem s) root va) ->
  uext root s s'.
Proof.
  intros Hu E R Ha Hperm Hz Hinv HL. pose proof (page_frame _ (rs_page _ _ _ _ R)) as Hfr.
  pose proof (po_wf _ _ _ (ua_own _ _ _ Hu)) as Hwf.
  assert (forall va, va_ok va -> leaf (mem s') root va = if decide (va = a) then mkpte p perm else leaf (mem s) root va) as L'.
  { intros va Hva. rewrite (pe_leaf _ _ _ _ _ _ E) by done. by apply HL. }
  split; [apply E| |].
  { intros va Hva Hv. rewrite L' by done. case_decide; [by subst; rewrite Hinv in Hv|done]. }
  intros va. unfold ubyte. destruct (Z.leb_spec 0 va), (Z.ltb_spec va MAXVA); try by left. cbn [andb].
  assert (va_ok (va / PGSIZE * PGSIZE)) as Hva by (by apply va_ok_down).
  assert (forall q, in_page q (q + va mod PGSIZE)) as Hin by (intros q; unfold in_page, PGSIZE; zlia).
  destruct (decide (va / PGSIZE * PGSIZE = a)) as [->|Hne].
  - replace (user_pa (mem s) root a) with 0 by (unfold user_pa; by rewrite Hinv).
    destruct (Z.eqb_spec (user_pa (mem s') root a) 0) as [->|Hnz]; [by left|right]. split; [done|]. simpl. f_equal.
    assert (user_pa (mem s') root a = p) as ->.
    { unfold user_pa in *. rewrite L', decide_True, PTE2PA_mkpte in * by done. by destruct (_ && _). }
    erewrite (pt_upd_mem root L s l s' l' p); [by apply Hz|done|done|apply R..|done].
  - left. assert (user_pa (mem s') root (va / PGSIZE * PGSIZE) = user_pa (mem s) root (va / PGSIZE * PGSIZE)) as ->.
    { unfold user_pa. by rewrite L', decide_False. }
    destruct (Z.eqb_spec (user_pa (mem s) root (va / PGSIZE * PGSIZE)) 0) as [|Hnz]; [done|]. cbn [negb]. f_equal.
    destruct (user_pa_page s root l _ Hu Hva Hnz) as (_ & _ & _ & Hp & Hpl & Hpn).
    by eapply (pt_upd_mem root L s l s' l' (user_pa (mem s) root (va / PGSIZE * PGSIZE))).
Qed.

Lemma keeps_uext root F s s' l :
  uas s root l -> keeps root F s s' -> (forall va, leaf (mem s') root va = leaf (mem s) root va) ->
  (forall p, p ∈ F -> p mod PGSIZE = 0 /\ forall va, va_ok va -> user_pa (mem s) root va <> p) ->
  uext root s s'.
Proof.
  intros Hu K L HF. eapply uext_same; [done|apply K|by auto|].
  intros va x Hva Hnz Hx. destruct (user_pa_page s root l _ Hu Hva Hnz) as (_ & _ & _ & [Hpm _] & _ & Hpn).
  apply K. intros q Hq Hx'. destruct Hq as [Hq|Hq].
  - apply Hpn. destruct (is_node_page _ _ _ (po_wf _ _ _ (ua_own _ _ _ Hu)) Hq) as [Hqm _].
    by rewrite (in_page_unique _ q x Hpm Hqm Hx Hx').
  - destruct (HF q Hq) as [Hqm Hne]. apply (Hne va Hva). by apply (in_page_unique _ _ x).
Qed.

Lemma reserved_user s root l p va :
  uas s root l -> reserved s root l p -> va_ok va -> user_pa (mem s) root va <> p.
Proof.
  intros Hu R Hva E. assert (user_pa (mem s) root va <> 0) as Hnz.
  { rewrite E. apply page_ok_nonzero, R. }
  destruct (user_pa_page s root l _ Hu Hva Hnz) as (Hlt & Hv & Ep & _).
  apply (rs_map _ _ _ _ R va); [done..|]. congruence.
Qed.

Lemma pool_user s root p l va : uas s root (p :: l) -> va_ok va -> user_pa (mem s) root va <> p.
Proof.
  intros Hu Hva E. destruct (decide (user_pa (mem s) root va = 0)) as [E0|Hnz].
  - destruct (fresh_page _ _ _ _ (ua_own _ _ _ Hu)) as (Hp%page_ok_nonzero & _). congruence.
  - destruct (user_pa_page s root (p :: l) _ Hu Hva Hnz) as (_ & _ & _ & _ & Hpl & _). set_solver.
Qed.

(** ** Allocate, zero and map one page: the core of [uvmalloc] and [vmfault] *)

(** The outcome of mapping the reserved, zeroed page [p] at [a]. *)
Lemma map_reserved root a perm p s l :
  env h X s -> uas s root l -> reserved s root l p -> (forall x, in_page p x -> mem s x = 0) ->
  va_ok a -> a < TRAPFRAME -> 0 <= perm < 1024 -> flag (leaf (mem s) root a) PTE_V = false ->
  exists r s3 l3, mappages root a PGSIZE p perm s = Ret r s3 /\
    ((r = 0 /\ uas s3 root l3 /\ uext root s s3 /\ (length l <= length l3 + 2)%nat
      /\ (forall va, va_ok va -> leaf (mem s3) root va = if decide (va = a) then mkpte p perm else leaf (mem s) root va))
     \/ (r = -1 /\ (length l < 2)%nat /\ exists s4, kfree p s3 = Ret tt s4 /\ uas s4 root (p :: l3) /\ uext root s s4
          /\ (forall va, va_ok va -> leaf (mem s4) root va = leaf (mem s) root va))).
Proof.
  intros He Hu R Hz Ha Hlt Hperm Hinv. pose proof (page_frame _ (rs_page _ _ _ _ R)) as Hfr.
  pose proof (page_ok_range _ (rs_page _ _ _ _ R)) as Hpr.
  destruct (mappages_ok 1 root a p perm s l He (ua_own _ _ _ Hu) Ha) as [(_ & va & Hr & Hv)|Hm];
    [lia|change MAXVA with (TRAPFRAME + 2 * PGSIZE); unfold PGSIZE; lia|done|done|
     change PHYSTOP with 0x88000000 in *; unfold PGSIZE; lia| |].
  { apply pages_in_S in Hr as [-> |[_ ?]]; [congruence|lia|done]. }
  destruct Hm as (r & s3 & l3 & k & Hrun & E & _ & Hc). change (Z.of_nat 1 * PGSIZE) with PGSIZE in Hrun.
  exists r, s3, l3. split; [done|]. destruct Hc as [(-> & -> & Hl)|(-> & Hk & -> & Hl)].
  - left. assert (forall va, va_ok va -> map_range a 1 p perm (leaf (mem s) root) va
      = if decide (va = a) then mkpte p perm else leaf (mem s) root va) as HL.
    { intros va Hva. rewrite <- map_range_S by done. by rewrite map_range_0. }
    split_and!; [done|by eapply uas_map|by eapply uext_map| |].
    + lia.
    + intros va Hva. rewrite (pe_leaf _ _ _ _ _ _ E) by done. by apply HL.
  - right. assert (k = 0%nat) as -> by lia.
    assert (pt_ext root s l s3 []) as E0.
    { eapply pt_upd_leaf; [exact E|]. intros va Hva. by rewrite map_range_0. }
    destruct (uas_ext root s l s3 [] Hu E0) as [Hu3 HR]. specialize (HR p R).
    destruct (uas_free root p s3 []) as (s4 & Hk4 & Hu4 & K4 & L4); [by eapply pt_upd_env|done|done|].
    split_and!; [done|lia|]. exists s4. split_and!; [done|done| |].
    + eapply uext_trans.
      * eapply (uext_same root s s3 l); [done|apply E0|apply E0|]. intros va x Hva Hnz Hx.
        destruct (user_pa_page s root l _ Hu Hva Hnz) as (_ & _ & _ & Hp & Hpl & Hpn).
        eapply pt_upd_mem; [apply Hu|exact E0|exact Hp|done|done|done].
      * eapply keeps_uext; [exact Hu3|exact K4|done|]. intros q ->%list_elem_of_singleton.
        split; [apply R|]. intros va Hva. by eapply reserved_user.
    + intros va Hva. rewrite L4. by apply E0.
Qed.

Lemma modify_mem f s :
  exists s', modify (fun s => s <| mem ::= f |>) s = Ret tt s' /\ mem s' = f (mem s)
    /\ s' = s <| mem := mem s' |>.
Proof. by exists (s <| mem := f (mem s) |>). Qed.

Lemma kmemset_page p s :
  exists s', kmemset p 0 PGSIZE s = Ret tt s'
    /\ (forall x, mem s' x = if decide (in_page p x) then 0 else mem s x) /\ s' = s <| mem := mem s' |>.
Proof.
  destruct (modify_mem (fun m => memset m p 0 PGSIZE) s) as (s' & Hr & Hm & E).
  exists s'. split; [exact Hr|]. split; [|exact E]. intros x. rewrite Hm. apply memset_page.
Qed.

(** ** Page faults *)

Lemma mine_ok s i p : env h X s -> curproc h = Some i -> procs s !! i = Some p -> mine s = Ret p s.
Proof.
  intros He Hi Hp. unfold mine. mstep (env_myproc h X s He). rewrite Hi. cbn [deref]. msimpl.
  by rewrite Hp.
Qed.

Lemma vmfault_ok s l i p va :
  env h X s -> curproc h = Some i -> procs s !! i = Some p -> sz p <= TRAPFRAME ->
  let root := Machine.pagetable p in
  uas s root l -> va mod PGSIZE = 0 -> 0 <= va < 2 ^ 64 ->
  (va < MAXVA -> user_pa (mem s) root va = 0) ->
  exists pa s' l', vmfault root va s = Ret pa s' /\ uas s' root l' /\ uext root s s'
    /\ pa = (if va <? MAXVA then user_pa (mem s') root va else 0).
Proof.
  intros He Hi Hp Hsz root Hu Hal Hrng Hnone. unfold vmfault. mstep (mine_ok s i p He Hi Hp).
  destruct (Z.geb_spec va (sz p)) as [Hge|Hlt].
  { exists 0, s, l. split_and!; [done|done|apply uext_refl|]. destruct (Z.ltb_spec va MAXVA); [|done].
    symmetry. by apply Hnone. }
  assert (va < MAXVA) as Hmax by (change MAXVA with (TRAPFRAME + 2 * PGSIZE); unfold PGSIZE; lia).
  rewrite (proj2 (Z.ltb_lt va MAXVA) Hmax).
  rewrite PGROUNDDOWN_eq by done. replace (va / PGSIZE * PGSIZE) with va by (unfold PGSIZE in *; zlia).
  assert (va_ok va) as Hva by (split; [done|lia]).
  mstep (ismapped_ok root va s Hmax (po_wf _ _ _ (ua_own _ _ _ Hu))).
  destruct (flag (leaf (mem s) root va) PTE_V) eqn:Hv.
  { exists 0, s, l. split_and!; [done|done|apply uext_refl|]. symmetry. by apply Hnone. }
  destruct l as [|q l].
  { mstep (pool_empty h X s He HX (po_pool _ _ _ (ua_own _ _ _ Hu))). rewrite Z.eqb_refl.
    exists 0, s, []. split_and!; [done|done|apply uext_refl|]. symmetry. by apply Hnone. }
  destruct (pool_alloc h X s q l He HX (po_pool _ _ _ (ua_own _ _ _ Hu))) as (s1 & Hk & Hp1 & Hs1).
  mstep Hk. destruct (fresh_page _ _ _ _ (ua_own _ _ _ Hu)) as (Hq & _).
  rewrite (proj2 (Z.eqb_neq q 0)) by (by apply page_ok_nonzero).
  destruct (kmemset_page q s1) as (s2 & Hms & Hm2 & E2). mstep Hms.
  destruct (uas_take root q l s s1 s2) as (Hu2 & R & K2 & L2 & M2); [done..|].
  assert (uext root s s2) as X2.
  { eapply keeps_uext; [exact Hu|exact K2|done|]. intros z ->%list_elem_of_singleton.
    split; [apply Hq|]. intros va' Hva'. by eapply pool_user. }
  destruct (map_reserved root va (Z.lor (Z.lor PTE_W PTE_U) PTE_R) q s2 l) as (r & s3 & l3 & Hm & Hc);
    [by eapply uext_env|done|done|intros x Hx; by rewrite M2, decide_True|done|lia|done|by rewrite L2|].
  mstep Hm. destruct Hc as [(-> & Hu3 & X3 & _ & L3)|(-> & _ & s4 & Hf & Hu4 & X4 & L4)].
  - exists q, s3, l3. split_and!; [done|done|by eapply uext_trans|]. symmetry.
    eapply (user_pa_mkpte _ _ _ _ (Z.lor (Z.lor PTE_W PTE_U) PTE_R)); [|by apply page_frame|done|done].
    by rewrite L3, decide_True.
  - cbn [negb Z.eqb]. mstep Hf. exists 0, s4, (q :: l3). split_and!; [done|done|by eapply uext_trans|].
    unfold user_pa. by rewrite L4, L2, Hv by done.
Qed.

Lemma user_page_ok s l i p va :
  env h X s -> curproc h = Some i -> procs s !! i = Some p -> sz p <= TRAPFRAME ->
  let root := Machine.pagetable p in
  uas s root l -> va mod PGSIZE = 0 -> 0 <= va < 2 ^ 64 ->
  exists pa s' l', user_page root va s = Ret pa s' /\ uas s' root l' /\ uext root s s'
    /\ pa = (if va <? MAXVA then user_pa (mem s') root va else 0)
    /\ (va < MAXVA -> user_pa (mem s) root va <> 0 -> s' = s).
Proof.
  intros He Hi Hp Hsz root Hu Hal Hrng. unfold user_page.
  pose proof (po_wf _ _ _ (ua_own _ _ _ Hu)) as Hwf.
  assert (walkaddr root va s = Ret (if va <? MAXVA then user_pa (mem s) root va else 0) s) as Hw.
  { destruct (Z.ltb_spec va MAXVA); [by apply walkaddr_ok|]. unfold walkaddr.
    by rewrite Z.geb_leb, (proj2 (Z.leb_le _ _)). }
  mstep Hw. destruct (Z.eqb_spec (if va <? MAXVA then user_pa (mem s) root va else 0) 0) as [E|Hne].
  - destruct (vmfault_ok s l i p va) as (pa & s' & l' & Hr & Hu' & X' & Hpa); try done.
    { intros Hm. by rewrite (proj2 (Z.ltb_lt va MAXVA) Hm) in E. }
    exists pa, s', l'. split_and!; try done. intros Hm Hnz. by rewrite (proj2 (Z.ltb_lt va MAXVA) Hm) in E.
  - eexists _, s, l. split_and!; [reflexivity|done|apply uext_refl|done|done].
Qed.

(** ** Empty page tables *)

Lemma empty_root m root :
  page_ok root -> (forall i, idx i -> ent m root i = 0) ->
  pt_wf m root /\ (forall q, is_node m root q <-> q = root) /\ (forall va, leaf m root va = 0).
Proof.
  intros Hp Hz.
  assert (forall path, path_ok path -> follow m root path = if decide (path = []) then Some root else None) as Hf.
  { intros [|i path] [Hi _]; [done|]. apply Forall_cons in Hi as [Hi _]. simpl. unfold sub.
    by rewrite Hz, flag_0. }
  split_and!.
  - intros path path' q Ho Ho'. rewrite !Hf by done. do 2 case_decide; try done. intros [= <-] _. by subst.
  - intros q. split.
    + intros (path & Ho & Hq). rewrite Hf in Hq by done. case_decide; congruence.
    + intros ->. apply root_node.
  - intros va. unfold leaf, leaf_pt. rewrite Hf by apply path_ok_leaf. by rewrite decide_False.
Qed.

Lemma empty_uas s root l :
  pool s l -> page_ok root -> root ∉ l -> (forall i, idx i -> ent (mem s) root i = 0) -> uas s root l.
Proof.
  intros Hp Hr Hl Hz. destruct (empty_root (mem s) root Hr Hz) as (Hwf & Hn & Hlf). split.
  - split; [done|done|]. intros q ->%Hn. done.
  - intros va _ _. by rewrite Hlf, flag_0.
  - intros va va' _ _ _ _. by rewrite Hlf, flag_0.
  - intros va _ _. by rewrite Hlf, flag_0.
Qed.

(** [uvmcreate] makes an empty address space. *)
Lemma uvmcreate_ok s l :
  env h X s -> pool s l ->
  (l = [] /\ uvmcreate s = Ret 0 s)
  \/ exists root s' l', l = root :: l' /\ uvmcreate s = Ret root s' /\ uas s' root l'
      /\ s' = s <| mem := mem s' |> <| freelist := freelist s' |>.
Proof.
  intros He Hp. unfold uvmcreate. destruct l as [|root l]; [left|right].
  { split; [done|]. by mstep (pool_empty h X s He HX Hp). }
  destruct (pool_alloc h X s root l He HX Hp) as (s1 & Hk & Hp1 & [E1 M1]). mstep Hk.
  destruct (pool_pages _ _ Hp) as ([Hnl _]%NoDup_cons & [Hr _]%Forall_cons & _).
  rewrite (proj2 (Z.eqb_neq root 0)) by (by apply page_ok_nonzero).
  destruct (kmemset_page root s1) as (s2 & Hms & Hm2 & E2). mstep Hms.
  destruct (pool_pages _ _ Hp1) as (_ & Hok & Hb). rewrite Forall_forall in Hok.
  exists root, s2, l. split_and!; [done|done| |rewrite E2, E1; kext s].
  apply empty_uas; [|done|done|].
  - eapply pool_frame; [exact Hp1|by rewrite E2| |].
    + intros x. rewrite Hm2. case_decide; [lia|apply Hb].
    + intros q x Hq Hx. rewrite Hm2, decide_False; [done|]. intros Hx'. apply Hnl.
      destruct (Hok q Hq) as [Hqm _]. by rewrite (in_page_unique root q x (proj1 Hr) Hqm Hx' Hx).
  - intros i Hi. apply (load_le_zero 8). intros x Hx. rewrite Hm2, decide_True; [done|].
    unfold in_page, idx, PGSIZE in *. lia.
Qed.
(** ** Properties *)

(** C19: [mappages] on a range with no mapped page either maps all of it or
    returns -1 because memory ran out, which cannot happen with two free pages
    for each page of the range.  On success every address of the range leads to
    its own frame with the given permissions, [walkaddr] finds it when the
    permissions include the user bit, and no other address changes; no memory
    outside the tables is written. *)
Theorem mappages_correct n root a pa perm s l :
  env h X s -> pt_own s root l -> va_ok a -> (0 < n)%nat -> a + Z.of_nat n * PGSIZE <= MAXVA ->
  0 <= perm < 1024 -> frame_ok pa -> pa + Z.of_nat n * PGSIZE <= 2 ^ 56 ->
  (forall va, pages_in a n va -> flag (leaf (mem s) root va) PTE_V = false) ->
  exists r s' l', mappages root a (Z.of_nat n * PGSIZE) pa perm s = Ret r s' /\ pt_own s' root l'
    /\ (r = 0 \/ r = -1) /\ ((2 * n <= length l)%nat -> r = 0)
    /\ (r = 0 -> forall va, va_ok va ->
         leaf (mem s') root va
         = if (a <=? va) && (va <? a + Z.of_nat n * PGSIZE) then mkpte (pa + (va - a)) perm else leaf (mem s) root va)
    /\ (r = 0 -> flag perm PTE_U = true ->
         forall va, pages_in a n va -> walkaddr root va s' = Ret (pa + (va - a)) s')
    /\ (forall x, (forall q, is_node (mem s') root q -> ~ in_page q x) -> mem s' x = mem s x).
Proof.
  intros He Ho Ha Hn Hmax Hperm Hpa Hpmax Hfree.
  destruct (mappages_ok n root a pa perm s l) as [(_ & va & Hin & Hv)|Hm]; [done..| |].
  { by rewrite Hfree in Hv. }
  destruct Hm as (r & s' & l' & k & Hrun & E & _ & Hc). exists r, s', l'.
  split_and!; [done|apply E|destruct Hc; naive_solver|destruct Hc as [?|?]; lia| | |apply E].
  - intros -> va Hva. destruct Hc as [(_ & -> & _)|]; [|lia]. by apply E.
  - intros -> Hu va [Hva Hr]. destruct Hc as [(_ & -> & _)|]; [|lia].
    rewrite walkaddr_ok by (apply Hva || apply E). f_equal.
    apply (user_pa_mkpte _ _ _ _ perm); [|destruct Hpa, Ha, Hva; split; unfold PGSIZE in *; [zlia|lia]|done|done].
    rewrite (pe_leaf _ _ _ _ _ _ E) by done. unfold map_range.
    by rewrite (proj2 (Z.leb_le _ _)), (proj2 (Z.ltb_lt _ _)) by lia.
Qed.

(** A range that contains a mapped page is refused: [mappages] never reports
    success for it, it panics unless memory runs out first. *)
Theorem mappages_remap_refused n root a pa perm s l va :
  env h X s -> pt_own s root l -> va_ok a -> (0 < n)%nat -> a + Z.of_nat n * PGSIZE <= MAXVA ->
  0 <= perm < 1024 -> frame_ok pa -> pa + Z.of_nat n * PGSIZE <= 2 ^ 56 ->
  pages_in a n va -> flag (leaf (mem s) root va) PTE_V = true ->
  let o := mappages root a (Z.of_nat n * PGSIZE) pa perm s in
  o = Panic "mappages: remap" \/ (length l < 2 * n)%nat /\ exists s', o = Ret (-1) s'.
Proof.
  intros He Ho Ha Hn Hmax Hperm Hpa Hpmax Hin Hv o.
  destruct (mappages_ok n root a pa perm s l) as [(E & _)|(r & s' & l' & k & Hrun & _ & Hinv & Hc)]; [done..|by left|].
  right. destruct Hc as [(-> & -> & _)|(-> & _ & _ & Hl)].
  - by rewrite (Hinv va Hin) in Hv.
  - split; [done|]. by exists s'.
Qed.

(** C29: [uvmunmap] with [do_free] removes exactly the mapped pages of the range
    from a user address space and returns each of them to the allocator once;
    it never panics on unmapped holes, and every page that stays mapped keeps
    its contents. *)
Theorem uvmunmap_correct n root a s l :
  env h X s -> uas s root l -> a mod PGSIZE = 0 -> 0 <= a -> a + Z.of_nat n * PGSIZE <= TRAPFRAME ->
  exists s' F, uvmunmap root a (Z.of_nat n) true s = Ret tt s' /\ uas s' root (F ++ l)
    /\ (forall va, va_ok va -> leaf (mem s') root va
         = if (a <=? va) && (va <? a + Z.of_nat n * PGSIZE) && flag (leaf (mem s) root va) PTE_V
           then 0 else leaf (mem s) root va)
    /\ (forall p, p ∈ F <-> exists va, pages_in a n va
          /\ flag (leaf (mem s) root va) PTE_V = true /\ p = PTE2PA (leaf (mem s) root va))
    /\ (forall va x, va_ok va -> va < TRAPFRAME -> flag (leaf (mem s') root va) PTE_V = true ->
         in_page (PTE2PA (leaf (mem s') root va)) x -> mem s' x = mem s x).
Proof.
  intros He Hu Ham Ha0 Hmax. unfold uvmunmap. rewrite Ham, Nat2Z.id. cbn [negb Z.eqb].
  rewrite u64_small by (change TRAPFRAME with (2 ^ 38 - 8192) in *; unfold PGSIZE in *; lia).
  destruct (uvmunmap_loop_ok n root a s l) as (s' & F & Hr & [Hu' K L Fr]); [done..|].
  exists s', F. split_and!; try done. intros va x Hva Hlt Hv Hx. apply K. intros q Hq Hx'.
  destruct (ua_page _ _ _ Hu' va Hva Hlt Hv) as ([Hpm _] & HpF & Hpn).
  assert (q mod PGSIZE = 0) as Hqm.
  { destruct Hq as [Hq|Hq].
    - by apply (is_node_page _ _ _ (po_wf _ _ _ (ua_own _ _ _ Hu)) Hq).
    - apply Fr in Hq as (vq & [Hvq Hrq] & Hfq & ->). apply (ua_page _ _ _ Hu vq Hvq); [lia|done]. }
  rewrite (in_page_unique _ q x Hpm Hqm Hx Hx') in HpF, Hpn.
  rewrite (ke_node _ _ _ _ K) in Hpn. set_solver.
Qed.
End vm.

(** ** A small world for concrete runs

    A kernel with an empty page table at [demo_root], four free pages, and one
    process that owns the page table. *)

Definition demo_root : Z := KERNBASE + 0x20000.
Definition demo_page (i : Z) : Z := demo_root + (i + 1) * PGSIZE.
Definition demo_mem : memory :=
  store64 (store64 (store64 (fun _ => 0) (demo_page 0) (demo_page 1)) (demo_page 1) (demo_page 2))
    (demo_page 2) (demo_page 3).
Definition demo_proc : proc :=
  mkProc RUNNING None 0 0 1 0 None 0 (3 * PGSIZE) demo_root 0 0 0 [] None [] 0 0 0 0.
Definition demo_kernel : kernel :=
  zero_kernel (boot_hart (Some 0%nat)) <| procs := [demo_proc] |> <| mem := demo_mem |>
    <| freelist := demo_page 0 |>.
Definition demo_pages : list Z := [demo_page 0; demo_page 1; demo_page 2; demo_page 3].

Section demo.
#[local] Existing Instance demo_link.
#[local] Existing Instance demo_link_ok.

Lemma demo_env : env (boot_hart (Some 0%nat)) ∅ demo_kernel.
Proof. by apply zero_kernel_env. Qed.

Lemma demo_pool : kmem_inv demo_kernel demo_pages.
Proof.
  split.
  - by repeat split.
  - unfold demo_pages. repeat (apply NoDup_cons; split; [by apply (bool_decide_unpack _)|]). apply NoDup_nil_2.
  - unfold demo_pages. repeat (apply Forall_cons; split; [by split|]). apply Forall_nil_2.
  - unfold demo_kernel, demo_mem. cbn [mem upd set_mem set_freelist].
    do 3 apply store_le_bytes. intros x. lia.
Qed.

Lemma demo_root_empty i : idx i -> ent (mem demo_kernel) demo_root i = 0.
Proof.
  intros Hi. apply (load_le_zero 8). intros x Hx.
  unfold demo_kernel, demo_mem. cbn [mem upd set_mem set_freelist].
  unfold idx, demo_page, demo_root, PGSIZE, KERNBASE in *.
  by rewrite !store64_out by lia.
Qed.

Lemma demo_uas : uas kmem_inv demo_kernel demo_root demo_pages.
Proof.
  apply empty_uas; [apply demo_pool|by split| |apply demo_root_empty].
  unfold demo_pages. repeat (apply not_elem_of_cons; split; [done|]). apply not_elem_of_nil.
Qed.

Lemma mappages_correct_witness :
  exists s', mappages demo_root PGSIZE (1 * PGSIZE) (demo_page 5) (Z.lor PTE_R PTE_U) demo_kernel = Ret 0 s'
    /\ walkaddr demo_root PGSIZE s' = Ret (demo_page 5) s'.
Proof.
  destruct (mappages_correct kmem_inv (boot_hart (Some 0%nat)) ∅ ltac:(set_solver) 1 demo_root PGSIZE (demo_page 5)
    (Z.lor PTE_R PTE_U) demo_kernel demo_pages) as (r & s' & l' & Hr & _ & _ & Hok & _ & Hw & _);
    [apply demo_env|apply demo_uas|by split|lia|done|done|by split|done| |].
  { intros va _. assert (leaf (mem demo_kernel) demo_root va = 0) as ->; [|reflexivity].
    apply empty_root; [by split|]. apply demo_root_empty. }
  assert (r = 0) as -> by (apply Hok; simpl; lia).
  exists s'. split; [exact Hr|]. clear Hr. replace (demo_page 5) with (demo_page 5 + (PGSIZE - PGSIZE)) by lia.
  apply Hw; [done|reflexivity|]. apply pages_in_S; [by split|by left].
Defined.

Lemma mappages_remap_refused_witness :
  exists s, mappages demo_root 0 (1 * PGSIZE) (demo_page 6) PTE_R s = Panic "mappages: remap"
    \/ exists s', mappages demo_root 0 (1 * PGSIZE) (demo_page 6) PTE_R s = Ret (-1) s'.
Proof.
  destruct (mappages_ok kmem_inv (boot_hart (Some 0%nat)) ∅ ltac:(set_solver) 1 demo_root 0 (demo_page 5)
    PTE_R demo_kernel demo_pages) as [(_ & va & _ & Hv)|(r & s' & l' & k & _ & E & _ & Hc)];
    [apply demo_env|apply demo_uas|by split|lia|done|done|by split|done| |].
  { assert (leaf (mem demo_kernel) demo_root va = 0) as E; [|by rewrite E in Hv].
    apply empty_root; [by split|]. apply demo_root_empty. }
  destruct Hc as [(-> & -> & _)|(_ & _ & _ & Hl)]; [|simpl in Hl; lia].
  exists s'. destruct (mappages_remap_refused kmem_inv (boot_hart (Some 0%nat)) ∅ ltac:(set_solver) 1 demo_root 0
    (demo_page 6) PTE_R s' l' 0) as [?|[_ ?]]; [|apply E|by split|lia|done|done|by split|done| | |by left|by right].
  - eapply pt_upd_env; [exact E|apply demo_env].
  - apply pages_in_S; [by split|by left].
  - rewrite (pe_leaf _ _ _ _ _ _ _ E) by (by split). reflexivity.
Defined.
End demo.
