(* ===== verification/UserMem.v ===== *)
(** * Copying to and from user space

    [copyin], [copyout] and [copyinstr] of [vm.c] against the user view
    [ubyte] of an address space: the partial function from user addresses to
    bytes that the page table and the physical memory define together. *)

From stdpp Require Import base numbers gmap sets strings option list.
From Stdlib Require Import FunctionalExtensionality.
From S2P Require Import Prelude Machine Spinlock CString Kalloc Vm PageTable VmSpec.

Lemma read_bytes_length n m a : length (read_bytes n m a) = n.
Proof. revert a. induction n; intros a; simpl; [done|]. by rewrite IHn. Qed.

Lemma read_bytes_lookup n m a i : (i < n)%nat -> read_bytes n m a !! i = Some (m (a + Z.of_nat i)).
Proof.
  revert a i. induction n as [|n IH]; intros a [|i] Hi; simpl; try lia.
  - by rewrite Z.add_0_r.
  - rewrite IH by lia. do 2 f_equal. lia.
Qed.

Lemma write_bytes_in m a l x :
  a <= x < a + Z.of_nat (length l) -> Some (write_bytes m a l x) = l !! Z.to_nat (x - a).
Proof.
  intros Hx. unfold write_bytes.
  rewrite (proj2 (Z.leb_le _ _)), (proj2 (Z.ltb_lt _ _)) by lia. cbn [andb].
  rewrite nth_lookup. destruct (l !! Z.to_nat (x - a)) eqn:E; [done|].
  apply lookup_ge_None in E. lia.
Qed.
Lemma write_bytes_out m a l x :
  ~ (a <= x < a + Z.of_nat (length l)) -> write_bytes m a l x = m x.
Proof.
  intros Hx. unfold write_bytes.
  destruct (Z.leb_spec a x), (Z.ltb_spec x (a + Z.of_nat (length l))); try done. lia.
Qed.

Definition is_byte (b : Z) : Prop := 0 <= b < 256.

Lemma write_bytes_bytes m a l : bytes m -> Forall is_byte l -> bytes (write_bytes m a l).
Proof.
  intros Hm Hl x. destruct (decide (a <= x < a + Z.of_nat (length l))) as [Hx|Hx].
  - pose proof (write_bytes_in m a l x Hx) as E. symmetry in E.
    exact (Forall_lookup_1 _ _ _ _ Hl E).
  - by rewrite write_bytes_out.
Qed.

Lemma ubyte_page m root a off :
  va_ok a -> 0 <= off < PGSIZE -> user_pa m root a <> 0 ->
  ubyte m root (a + off) = Some (m (user_pa m root a + off)).
Proof.
  intros [Ham Har] Hoff Hnz. unfold ubyte.
  assert ((a + off) / PGSIZE * PGSIZE = a) as -> by (unfold PGSIZE in *; zlia).
  assert ((a + off) mod PGSIZE = off) as -> by (unfold PGSIZE in *; zlia).
  rewrite (proj2 (Z.leb_le _ _)), (proj2 (Z.ltb_lt _ _)), (proj2 (Z.eqb_neq _ _)); try done; try lia.
  change MAXVA with (2 ^ 38) in *. unfold PGSIZE in *. zlia.
Qed.

Lemma ubyte_none m root a off :
  va_ok a -> 0 <= off < PGSIZE -> user_pa m root a = 0 -> ubyte m root (a + off) = None.
Proof.
  intros [Ham Har] Hoff Hz. unfold ubyte.
  assert ((a + off) / PGSIZE * PGSIZE = a) as -> by (unfold PGSIZE in *; zlia).
  rewrite Hz. by rewrite Z.eqb_refl, !andb_false_r.
Qed.

Lemma ubyte_high m root va : MAXVA <= va -> ubyte m root va = None.
Proof. intros. unfold ubyte. by rewrite (proj2 (Z.ltb_ge va MAXVA)), andb_false_r. Qed.

Section copy.
Context `{LinkOk} (pool : kernel -> list Z -> Prop) `{!PageAlloc pool}.
Context (h : hart) (X : gset lockid) (HX : LkKmem ∉ X).

(** The process [p] that runs, and its address space. *)
Record running (s : kernel) (p : proc) (l : list Z) : Prop := {
  rn_env : env h X s;
  rn_cur : exists i, curproc h = Some i /\ procs s !! i = Some p;
  rn_sz : sz p <= TRAPFRAME;
  rn_as : uas pool s (Machine.pagetable p) l
}.

Lemma running_uext s s' p l l' :
  running s p l -> uext (Machine.pagetable p) s s' -> uas pool s' (Machine.pagetable p) l' -> running s' p l'.
Proof.
  intros [He (i & Hi & Hp) Hsz Hu] Xs Hu'. split; [by eapply uext_env|exists i|done|done].
  split; [done|]. by rewrite (ux_eq _ _ _ Xs).
Qed.

(** Reaching a user page for one turn of a copy loop. *)
Lemma user_page_running s p l va :
  running s p l -> 0 <= va < 2 ^ 64 ->
  let va0 := PGROUNDDOWN va in let root := Machine.pagetable p in
  exists pa s' l', user_page root va0 s = Ret pa s' /\ running s' p l' /\ uext root s s'
    /\ va0 = va / PGSIZE * PGSIZE /\ 0 <= va - va0 < PGSIZE
    /\ (pa = 0 /\ ubyte (mem s') root va = None
        \/ pa <> 0 /\ va_ok va0 /\ pa = user_pa (mem s') root va0)
    /\ (is_Some (ubyte (mem s) root va) -> s' = s).
Proof.
  intros R Hva va0 root. assert (va0 = va / PGSIZE * PGSIZE) as E0 by (by apply PGROUNDDOWN_eq).
  assert (0 <= va - va0 < PGSIZE /\ va0 mod PGSIZE = 0 /\ 0 <= va0 < 2 ^ 64) as (Hoff & Hal & Hr).
  { rewrite E0. unfold PGSIZE. zlia. }
  destruct R as [He (i & Hi & Hp) Hsz Hu] eqn:ER.
  destruct (user_page_ok pool h X HX s l i p va0) as (pa & s' & l' & Hrun & Hu' & Xs & Hpa & Hsame); try done.
  exists pa, s', l'. split_and!; try done; try lia.
  - by eapply running_uext.
  - destruct (Z.ltb_spec va0 MAXVA) as [Hlt|Hge].
    + assert (va_ok va0) as Hok by (split; [done|lia]).
      destruct (decide (pa = 0)) as [->|Hnz]; [left|by right]. split; [done|].
      replace va with (va0 + (va - va0)) by lia. by apply ubyte_none.
    + left. split; [done|]. apply ubyte_high. lia.
  - intros [b Hb%ubyte_inv]. destruct Hb as (Hm & Hok & Hnz & _). rewrite <- E0 in *.
    apply Hsame; [|done]. destruct Hok. lia.
Qed.

(** ** copyin *)

(** [bs] is what the user sees from [va] up. *)
Definition usees (m : memory) (root va : Z) (bs : list Z) : Prop :=
  forall i : nat, (i < length bs)%nat -> ubyte m root (va + Z.of_nat i) = bs !! i.

Lemma usees_app m root va bs cs :
  usees m root va bs -> usees m root (va + Z.of_nat (length bs)) cs -> usees m root va (bs ++ cs).
Proof.
  intros H1 H2 i Hi. rewrite length_app in Hi. destruct (decide (i < length bs)%nat).
  - rewrite lookup_app_l by done. by apply H1.
  - rewrite lookup_app_r by lia. rewrite <- H2 by lia. f_equal. lia.
Qed.

Lemma usees_uext root s s' va bs : uext root s s' -> usees (mem s) root va bs -> usees (mem s') root va bs.
Proof.
  intros Xs Hs i Hi. specialize (Hs i Hi).
  destruct (ux_byte _ _ _ Xs (va + Z.of_nat i)) as [-> |[E _]]; [done|].
  rewrite E in Hs. symmetry in Hs. apply lookup_ge_None in Hs. lia.
Qed.

Lemma usees_read m root a off n :
  va_ok a -> 0 <= off -> off + Z.of_nat n <= PGSIZE -> user_pa m root a <> 0 ->
  usees m root (a + off) (read_bytes n m (user_pa m root a + off)).
Proof.
  intros Ha Hoff Hn Hnz i Hi. rewrite read_bytes_length in Hi. rewrite read_bytes_lookup by done.
  rewrite <- Z.add_assoc. rewrite ubyte_page by (done || lia). do 2 f_equal. lia.
Qed.

Lemma copyin_loop_ok n p s l va len dst :
  running s p l -> 0 <= va < 2 ^ 64 -> 0 <= len -> (Z.to_nat len < n)%nat ->
  let root := Machine.pagetable p in
  exists r bs s' l', copyin_loop n root va len dst s = Ret (r, dst ++ bs) s'
    /\ running s' p l' /\ uext root s s' /\ usees (mem s') root va bs
    /\ (r = 0 /\ Z.of_nat (length bs) = len
        \/ r = -1 /\ Z.of_nat (length bs) < len
           /\ ubyte (mem s') root (u64 (va + Z.of_nat (length bs))) = None)
    /\ ((forall i, 0 <= i < len -> is_Some (ubyte (mem s) root (va + i))) -> r = 0 /\ s' = s).
Proof.
  intros R Hva Hlen Hn root. revert s l va len dst R Hva Hlen Hn.
  induction n as [|n IH]; intros s l va len dst R Hva Hlen Hn; [lia|]. cbn [copyin_loop].
  destruct (Z.gtb_spec len 0) as [Hpos|Hz].
  2: { exists 0, [], s, l. rewrite app_nil_r. split_and!; [done|done|apply uext_refl|by intros i ?%Nat.nlt_0_r| |done].
       left. simpl. lia. }
  destruct (user_page_running s p l va R Hva) as (pa & s1 & l1 & Hrun & R1 & X1 & E0 & Hoff & Hc & Hsame).
  mstep Hrun. destruct Hc as [[-> Hnone]|(Hnz & Hok & Hpa)].
  { rewrite Z.eqb_refl. exists (-1), [], s1, l1. rewrite app_nil_r.
    split_and!; [done|done|done|by intros i ?%Nat.nlt_0_r| |].
    - right. simpl. rewrite Z.add_0_r, u64_small by done. split_and!; [done|lia|done].
    - intros Hall. assert (s1 = s) as ->.
      { apply Hsame. rewrite <- (Z.add_0_r va). apply Hall. lia. }
      destruct (Hall 0) as [b Hb]; [lia|]. rewrite Z.add_0_r in Hb. unfold root in Hb. congruence. }
  rewrite (proj2 (Z.eqb_neq pa 0)) by done.
  set (va0 := PGROUNDDOWN va) in *. set (n1 := Z.min (PGSIZE - (va - va0)) len). msimpl.
  assert (0 < n1 <= len /\ n1 <= PGSIZE - (va - va0)) as [Hn1 Hn1'] by (unfold n1; lia).
  set (bs1 := read_bytes (Z.to_nat n1) (mem s1) (pa + (va - va0))).
  assert (length bs1 = Z.to_nat n1) as Hbl by apply read_bytes_length.
  assert (usees (mem s1) root va bs1) as Hs1.
  { unfold bs1. subst pa. replace va with (va0 + (va - va0)) at 1 by lia.
    apply usees_read; [done|lia|lia|done]. }
  assert (n1 = len \/ va0 + PGSIZE = va + n1) as Hstep by (unfold n1; lia).
  assert (0 <= va0 + PGSIZE < 2 ^ 64) as Hnext.
  { destruct Hok as [_ Hr]. change MAXVA with (2 ^ 38) in Hr. unfold PGSIZE. lia. }
  rewrite u64_small by done.
  destruct (IH s1 l1 (va0 + PGSIZE) (len - n1) (dst ++ bs1) R1 Hnext) as (r & bs2 & s' & l' & Hr & R' & X' & Hs2 & Hc & Hfull);
    [lia|lia|].
  exists r, (bs1 ++ bs2), s', l'. rewrite length_app, Nat2Z.inj_add, Hbl, Z2Nat.id by lia.
  rewrite (assoc_L (++)). split_and!; [exact Hr|done|by eapply uext_trans| | |].
  - destruct Hstep as [E|E].
    + assert (bs2 = []) as -> by (destruct Hc as [[_ ?]|(_ & ? & _)]; destruct bs2; simpl in *; [done|lia|done|lia]).
      rewrite app_nil_r. by eapply usees_uext.
    + apply usees_app; [by eapply usees_uext|]. rewrite Hbl, Z2Nat.id by lia. by rewrite <- E.
  - destruct Hc as [[-> Hl]|(-> & Hl & Hnone)]; [left; lia|right]. split_and!; [done|lia|].
    destruct Hstep as [E|E]; [lia|]. by rewrite Z.add_assoc, <- E.
  - intros Hall. assert (s1 = s) as ->.
    { apply Hsame. rewrite <- (Z.add_0_r va). apply Hall. lia. }
    destruct Hfull as [-> ->]; [|done]. intros i Hi. destruct Hstep as [E|E]; [lia|].
    rewrite E. rewrite <- Z.add_assoc. apply Hall. lia.
Qed.

(** ** copyout *)

(** Storing bytes through one user page. *)
Lemma uwrite s root l a off bs s' :
  uas pool s root l -> va_ok a -> user_pa (mem s) root a <> 0 -> 0 <= off ->
  off + Z.of_nat (length bs) <= PGSIZE -> Forall is_byte bs ->
  mem s' = write_bytes (mem s) (user_pa (mem s) root a + off) bs -> s' = s <| mem := mem s' |> ->
  uas pool s' root l /\ (forall va, leaf (mem s') root va = leaf (mem s) root va)
  /\ forall va, ubyte (mem s') root va
     = if decide (a + off <= va < a + off + Z.of_nat (length bs)) then bs !! Z.to_nat (va - (a + off))
       else ubyte (mem s) root va.
Proof.
  intros Hu Ha Hnz Hoff Hlen Hbs Hm E. set (p := user_pa (mem s) root a) in *.
  destruct (user_pa_page pool s root l a Hu Ha Hnz) as (Hlt & Hv & Ep & Hp & Hpl & Hpn). fold p in Ep, Hp, Hpl, Hpn.
  pose proof (po_wf _ _ _ _ (ua_own _ _ _ _ Hu)) as Hwf. assert (user_pa (mem s) root a = p) as Hpa by done.
  clearbody p.
  assert (forall q x, q mod PGSIZE = 0 -> q <> p -> in_page q x -> mem s' x = mem s x) as Hout.
  { intros q x Hq Hne Hx. rewrite Hm. apply write_bytes_out. intros Hx'. apply Hne.
    apply (in_page_unique q p x); [done|apply Hp|done|]. unfold in_page. lia. }
  destruct (frame_tree (mem s) (mem s') root Hwf) as (Hwf' & Hn & _ & Hl).
  { intros q x Hq Hx. destruct (is_node_page _ _ _ Hwf Hq) as [Hqm _]. eapply Hout; [done| |done]. by intros ->. }
  split_and!; [|done|].
  - split.
    + split; [|done|].
      * destruct (pool_pages _ _ (po_pool _ _ _ _ (ua_own _ _ _ _ Hu))) as (_ & Hok & Hb).
        eapply pool_frame; [apply Hu|by rewrite E|rewrite Hm; by apply write_bytes_bytes|].
        rewrite Forall_forall in Hok. intros q x Hq Hx. eapply Hout; [apply (Hok q Hq)| |done]. intros ->. done.
      * intros q Hq%Hn. by apply (po_fresh _ _ _ _ (ua_own _ _ _ _ Hu)).
    + intros va ? ?. rewrite !Hl, Hn. apply Hu; done.
    + intros va va' ? ? ? ?. rewrite !Hl. apply Hu; done.
    + intros va ? ?. rewrite !Hl. apply Hu; done.
  - intros va. unfold ubyte at 1. assert (forall b, user_pa (mem s') root b = user_pa (mem s) root b) as Hupa.
    { intros b. unfold user_pa. by rewrite Hl. }
    rewrite Hupa. destruct (decide (0 <= va < MAXVA)) as [Hr|Hr].
    2: { rewrite decide_False; [unfold ubyte|].
         - destruct (Z.leb_spec 0 va), (Z.ltb_spec va MAXVA); try done. lia.
         - intros Hc. apply Hr. destruct Ha as [Ham Har]. change MAXVA with (2 ^ 38) in *. unfold PGSIZE in *. zlia. }
    pose proof (va_ok_down va Hr) as Hok. set (b := va / PGSIZE * PGSIZE) in *.
    assert (va = b + va mod PGSIZE /\ 0 <= va mod PGSIZE < PGSIZE) as [Eva Hmod] by (unfold b, PGSIZE; zlia).
    rewrite (proj2 (Z.leb_le _ _)), (proj2 (Z.ltb_lt _ _)) by lia. cbn [andb].
    destruct (decide (b = a)) as [Eb|Hne].
    + rewrite Eb, Hpa. rewrite (proj2 (Z.eqb_neq p 0)) by done. cbn [negb]. rewrite Hm. case_decide as Hc.
      * rewrite write_bytes_in by lia. f_equal. lia.
      * rewrite write_bytes_out by lia. rewrite Eva at 2. rewrite Eb, ubyte_page by (done || congruence). by rewrite Hpa.
    + rewrite decide_False.
      2: { intros Hc. apply Hne. unfold b. destruct Ha as [Ham _]. unfold PGSIZE in *. zlia. }
      unfold ubyte. fold b. rewrite (proj2 (Z.leb_le _ _)), (proj2 (Z.ltb_lt _ _)) by lia. cbn [andb].
      destruct (Z.eqb_spec (user_pa (mem s) root b) 0) as [|Hbz]; [done|]. cbn [negb]. f_equal.
      destruct (user_pa_page pool s root l b Hu Hok Hbz) as (Hlt' & Hv' & Ep' & Hp' & _).
      eapply Hout; [apply Hp'| |unfold in_page; lia]. intros E'. apply Hne.
      eapply (ua_inj _ _ _ _ Hu); try done. congruence.
Qed.

(** The user view after [k] bytes of [src] are stored from [va] up: those
    bytes, and elsewhere the old view grown by pages of zeros. *)
Record uwrites (root va : Z) (src : list Z) (s s' : kernel) : Prop := {
  uw_eq : s' = s <| mem := mem s' |> <| freelist := freelist s' |>;
  uw_leaf a : va_ok a -> flag (leaf (mem s) root a) PTE_V = true -> leaf (mem s') root a = leaf (mem s) root a;
  uw_in : usees (mem s') root va src;
  uw_out x : ~ (va <= x < va + Z.of_nat (length src)) ->
    ubyte (mem s') root x = ubyte (mem s) root x
    \/ ubyte (mem s) root x = None /\ ubyte (mem s') root x = Some 0
}.

Lemma uwrites_nil root va s s' : uext root s s' -> uwrites root va [] s s'.
Proof. intros [E L B]. split; [done|done|by intros i ?%Nat.nlt_0_r|by auto]. Qed.

Lemma uwrites_app root va bs cs s s1 s' :
  uwrites root va bs s s1 -> uwrites root (va + Z.of_nat (length bs)) cs s1 s' ->
  uwrites root va (bs ++ cs) s s'.
Proof.
  intros [E1 L1 I1 O1] [E2 L2 I2 O2]. split.
  - by eapply only_mem_trans.
  - intros a Ha Hv. rewrite L2, L1; try done. by rewrite L1.
  - apply usees_app; [|done]. intros i Hi. specialize (I1 i Hi).
    destruct (O2 (va + Z.of_nat i)) as [-> |[E _]]; [lia|done|].
    rewrite E in I1. symmetry in I1. apply lookup_ge_None in I1. lia.
  - intros x Hx. rewrite length_app in Hx.
    destruct (O1 x ltac:(lia)) as [? |[? ?]], (O2 x ltac:(lia)) as [? |[? ?]];
      first [left; congruence | right; split; congruence].
Qed.

Lemma uwrites_chunk s root l a off bs s' :
  uas pool s root l -> va_ok a -> user_pa (mem s) root a <> 0 -> 0 <= off ->
  off + Z.of_nat (length bs) <= PGSIZE -> Forall is_byte bs ->
  mem s' = write_bytes (mem s) (user_pa (mem s) root a + off) bs -> s' = s <| mem := mem s' |> ->
  uas pool s' root l /\ uwrites root (a + off) bs s s'.
Proof.
  intros Hu Ha Hnz Hoff Hlen Hbs Hm E.
  destruct (uwrite s root l a off bs s') as (Hu' & L & B); [done..|]. split; [done|]. split; [|done| |].
  - rewrite E. kext s.
  - intros i Hi. rewrite B, decide_True by lia. f_equal. lia.
  - intros x Hx. left. by rewrite B, decide_False.
Qed.

(** A byte the user may not write. *)
Definition unwritable (m : memory) (root va : Z) : Prop :=
  ubyte m root va = None \/ flag (leaf m root (va / PGSIZE * PGSIZE)) PTE_W = false.

Lemma running_uwrites s s' p l l' va bs :
  running s p l -> uwrites (Machine.pagetable p) va bs s s' -> uas pool s' (Machine.pagetable p) l' -> running s' p l'.
Proof.
  intros [He (i & Hi & Hp) Hsz Hu] W Hu'. split; [|exists i|done|done].
  - eapply env_upd; [done|]. by rewrite (uw_eq _ _ _ _ _ W).
  - split; [done|]. by rewrite (uw_eq _ _ _ _ _ W).
Qed.

Definition copied (p : proc) (va : Z) (src : list Z) (s : kernel) (o : outcome kernel Z) : Prop :=
  let root := Machine.pagetable p in
  exists r k s' l', o = Ret r s' /\ running s' p l' /\ uwrites root va (take k src) s s'
    /\ (r = 0 /\ k = length src
        \/ r = -1 /\ (k < length src)%nat /\ unwritable (mem s') root (u64 (va + Z.of_nat k))).

(** One turn that stores the first [n1] bytes, then the rest. *)
Lemma copied_chunk p va src s s1 n1 o :
  (n1 <= length src)%nat -> uwrites (Machine.pagetable p) va (take n1 src) s s1 ->
  copied p (va + Z.of_nat n1) (drop n1 src) s1 o -> copied p va src s o.
Proof.
  intros Hn W (r & k & s' & l' & -> & R' & W' & Hc). exists r, (n1 + k)%nat, s', l'.
  split_and!; [done|done| |].
  - rewrite <- take_take_drop.
    eapply uwrites_app; [done|]. by rewrite length_take_le.
  - rewrite length_drop in Hc. destruct Hc as [[-> ->]|(-> & Hk & Hu)]; [left|right]; split_and!; try done; try lia.
    by rewrite Nat2Z.inj_add, Z.add_assoc.
Qed.

Lemma copyout_loop_ok n p s l va src :
  running s p l -> 0 <= va < 2 ^ 64 -> (length src < n)%nat -> Forall is_byte src ->
  copied p va src s (copyout_loop n (Machine.pagetable p) va src s).
Proof.
  set (root := Machine.pagetable p). revert s l va src.
  induction n as [|n IH]; intros s l va src R Hva Hn Hbs; [lia|]. cbn [copyout_loop].
  destruct (Z.gtb_spec (Z.of_nat (length src)) 0) as [Hpos|Hz].
  2: { exists 0, 0%nat, s, l. split_and!; [done|done|apply uwrites_nil, uext_refl|]. left. split; [done|lia]. }
  assert (forall s1 l1, running s1 p l1 -> uext root s s1 -> unwritable (mem s1) root va ->
    copied p va src s (Ret (-1) s1)) as Hfail.
  { intros s1 l1 R1 X1 Hw. exists (-1), 0%nat, s1, l1. split_and!; [done|done|by apply uwrites_nil|].
    right. rewrite Z.add_0_r, u64_small by done. split_and!; [done|lia|done]. }
  destruct (Z.geb_spec (PGROUNDDOWN va) MAXVA) as [Hge|Hlt].
  { apply (Hfail s l); [done|apply uext_refl|]. left. apply ubyte_high.
    rewrite PGROUNDDOWN_eq in Hge by done. unfold PGSIZE in *. zlia. }
  destruct (user_page_running s p l va R Hva) as (pa & s1 & l1 & Hrun & R1 & X1 & E0 & Hoff & Hc & _).
  mstep Hrun. destruct Hc as [[-> Hnone]|(Hnz & Hok & Hpa)].
  { rewrite Z.eqb_refl. eapply Hfail; [done|done|by left]. }
  rewrite (proj2 (Z.eqb_neq pa 0)) by done. set (va0 := PGROUNDDOWN va) in *.
  pose proof (rn_as _ _ _ R1) as Hu1. pose proof (po_wf _ _ _ _ (ua_own _ _ _ _ Hu1)) as Hwf1.
  destruct (walk_found root va0 s1 Hlt Hwf1) as (pte & Hw & [(_ & _ & Hl)|(Hpz & _ & Hl)]).
  { exfalso. apply Hnz. rewrite Hpa. unfold user_pa. unfold root in Hl. by rewrite Hl, flag_0. }
  mstep Hw. rewrite Hpz. unfold pte_load. msimpl. rewrite Hl.
  destruct (flag (leaf (mem s1) root va0) PTE_W) eqn:HW; cbn [negb].
  2: { eapply Hfail; [done|done|]. right. by rewrite <- E0. }
  set (n1 := Z.min (PGSIZE - (va - va0)) (Z.of_nat (length src))).
  assert (0 < n1 <= Z.of_nat (length src) /\ n1 <= PGSIZE - (va - va0)) as [Hn1 Hn1'] by (unfold n1; lia).
  destruct (modify_mem (fun m => write_bytes m (pa + (va - va0)) (take (Z.to_nat n1) src)) s1)
    as (s2 & Hm & Hmem & E2). mstep Hm. rewrite Hpa in Hmem, Hnz.
  assert (length (take (Z.to_nat n1) src) = Z.to_nat n1) as Hlen by (rewrite length_take; lia).
  destruct (uwrites_chunk s1 root l1 va0 (va - va0) (take (Z.to_nat n1) src) s2) as [Hu2 W2];
    [done|done|done|lia|rewrite Hlen; lia|by apply Forall_take|done|done|].
  replace (va0 + (va - va0)) with va in W2 by lia.
  pose proof (running_uwrites _ _ _ _ _ _ _ R1 W2 Hu2) as R2.
  apply (copied_chunk p va src s s2 (Z.to_nat n1)); [lia| |].
  { apply (uwrites_app root va [] _ s s1); [by apply uwrites_nil|]. by rewrite Z.add_0_r. }
  destruct (decide (n1 = Z.of_nat (length src))) as [E|Hne].
  - rewrite drop_ge by lia. destruct n; [lia|].
    exists 0, 0%nat, s2, l1. split_and!; [done|done|apply uwrites_nil, uext_refl|by left].
  - assert (va0 + PGSIZE = va + n1) as E by (unfold n1 in *; lia).
    assert (0 <= va0 + PGSIZE < 2 ^ 64).
    { destruct Hok as [_ Hr]. change MAXVA with (2 ^ 38) in Hr. unfold PGSIZE. lia. }
    rewrite u64_small, Z2Nat.id by lia. rewrite <- E.
    apply (IH s2 l1); [done|done|rewrite length_drop; lia|by apply Forall_drop].
Qed.

(** ** Properties *)

(** C28: [copyin] of [len] bytes from any 64-bit address of the running process
    always returns: 0 with exactly the [len] bytes the user sees there, or -1
    after the bytes before the first address that is not accessible.  Pages of
    the process that were not yet allocated appear as zeros, nothing else of the
    user's view changes, and when all of the range is mapped the state does not
    change at all. *)
Theorem copyin_correct s p l va len :
  running s p l -> 0 <= va < 2 ^ 64 -> 0 <= len ->
  let root := Machine.pagetable p in
  exists r bs s' l', copyin root va len s = Ret (r, bs) s'
    /\ running s' p l' /\ uext root s s' /\ usees (mem s') root va bs
    /\ (r = 0 /\ Z.of_nat (length bs) = len
        \/ r = -1 /\ Z.of_nat (length bs) < len
           /\ ubyte (mem s') root (u64 (va + Z.of_nat (length bs))) = None)
    /\ ((forall i, 0 <= i < len -> is_Some (ubyte (mem s) root (va + i))) -> r = 0 /\ s' = s).
Proof. intros R Hva Hlen root. apply (copyin_loop_ok (S (Z.to_nat len)) p s l va len []); [done..|lia]. Qed.

(** C27: [copyout] always returns: 0 when the user then sees all of [src] at
    [va], or -1 when it stopped at an address that is not accessible or not
    writable.  Outside the bytes stored, the user's view is the old one, grown
    by pages of zeros; in particular no other user page and no page table is
    overwritten. *)
Theorem copyout_correct s p l va src :
  running s p l -> 0 <= va < 2 ^ 64 -> Forall is_byte src ->
  let root := Machine.pagetable p in
  exists r k s' l', copyout root va src s = Ret r s' /\ running s' p l'
    /\ uwrites root va (take k src) s s'
    /\ (r = 0 /\ k = length src
        \/ r = -1 /\ (k < length src)%nat /\ unwritable (mem s') root (u64 (va + Z.of_nat k))).
Proof. intros R Hva Hbs root. apply (copyout_loop_ok (S (length src)) p s l va src); [done..|lia|done]. Qed.

(** C8: What [copyout] stored, [copyin] reads back: after a successful copy of
    [src] to a user address, copying the same range in returns [src] and
    changes nothing. *)
Theorem copyout_copyin_roundtrip s p l va src :
  running s p l -> 0 <= va < 2 ^ 64 -> Forall is_byte src ->
  let root := Machine.pagetable p in
  exists r s', copyout root va src s = Ret r s'
    /\ (r = 0 -> copyin root va (Z.of_nat (length src)) s' = Ret (0, src) s').
Proof.
  intros R Hva Hbs root.
  destruct (copyout_loop_ok (S (length src)) p s l va src) as (r & k & s' & l' & Hr & R' & W & Hc); [done|done|lia|done|].
  exists r, s'. split; [exact Hr|]. intros ->. destruct Hc as [(_ & ->)|(? & _)]; [|done].
  rewrite take_ge in W by done. pose proof (uw_in _ _ _ _ _ W) as Hs.
  destruct (copyin_loop_ok (S (Z.to_nat (Z.of_nat (length src)))) p s' l' va (Z.of_nat (length src)) [])
    as (r & bs & s2 & l2 & Hr2 & _ & _ & Hs2 & Hc & Hall); [done|done|lia|lia|].
  destruct Hall as [-> ->].
  { intros i Hi. replace i with (Z.of_nat (Z.to_nat i)) by lia. rewrite Hs by lia.
    apply lookup_lt_is_Some. lia. }
  destruct Hc as [[_ Hlen]|(? & _)]; [|done].
  unfold copyin, root. rewrite Hr2. simpl. do 2 f_equal. apply list_eq_same_length with (length src); [lia|lia|].
  intros i x y Hi Hx Hy. rewrite <- Hs in Hy by lia. rewrite <- Hs2 in Hx by lia. congruence.
Qed.
End copy.

Section demo.
#[local] Existing Instance demo_link.
#[local] Existing Instance demo_link_ok.

Lemma demo_running : running kmem_inv (boot_hart (Some 0%nat)) ∅ demo_kernel demo_proc demo_pages.
Proof. split; [apply demo_env|by exists 0%nat|done|apply demo_uas]. Qed.

(** Eight bytes across the border of two pages of the heap that are not
    allocated yet. *)
Definition demo_bytes : list Z := [1; 2; 3; 4; 5; 6; 7; 8].
Lemma demo_is_byte : Forall is_byte demo_bytes.
Proof. unfold demo_bytes, is_byte. repeat (apply Forall_cons; split; [lia|]). apply Forall_nil_2. Qed.

Lemma copyin_correct_witness :
  exists s' l', copyin demo_root 4090 8 demo_kernel = Ret (0, replicate 8 0) s'
    /\ running kmem_inv (boot_hart (Some 0%nat)) ∅ s' demo_proc l' /\ usees (mem s') demo_root 4090 (replicate 8 0).
Proof.
  destruct (copyin_correct kmem_inv (boot_hart (Some 0%nat)) ∅ ltac:(set_solver) demo_kernel demo_proc demo_pages 4090 8)
    as (r & bs & s' & l' & Hr & R & _ & Hs & _); [apply demo_running|lia|lia|].
  assert (match copyin demo_root 4090 8 demo_kernel with Ret x _ => x | _ => (7, []) end = (0, replicate 8 0)) as E
    by (vm_compute; reflexivity).
  change (Machine.pagetable demo_proc) with demo_root in *. rewrite Hr in E. injection E as -> ->.
  exists s', l'. split; [exact Hr|]. split; [exact R|exact Hs].
Defined.

Lemma copyout_correct_witness :
  exists s' l', copyout demo_root 4090 demo_bytes demo_kernel = Ret 0 s'
    /\ running kmem_inv (boot_hart (Some 0%nat)) ∅ s' demo_proc l' /\ usees (mem s') demo_root 4090 demo_bytes.
Proof.
  destruct (copyout_correct kmem_inv (boot_hart (Some 0%nat)) ∅ ltac:(set_solver) demo_kernel demo_proc demo_pages 4090
    demo_bytes) as (r & k & s' & l' & Hr & R & W & Hc); [apply demo_running|lia|apply demo_is_byte|].
  assert (match copyout demo_root 4090 demo_bytes demo_kernel with Ret r _ => r | _ => 7 end = 0) as E by (vm_compute; reflexivity).
  change (Machine.pagetable demo_proc) with demo_root in *. rewrite Hr in E. subst r.
  destruct Hc as [(_ & ->)|(? & _)]; [|discriminate]. exists s', l'. split; [exact Hr|]. split; [exact R|apply W].
Defined.

Lemma copyout_copyin_roundtrip_witness :
  exists s', copyout demo_root 4090 demo_bytes demo_kernel = Ret 0 s' /\ copyin demo_root 4090 8 s' = Ret (0, demo_bytes) s'.
Proof.
  destruct (copyout_copyin_roundtrip kmem_inv (boot_hart (Some 0%nat)) ∅ ltac:(set_solver) demo_kernel demo_proc demo_pages
    4090 demo_bytes) as (r & s' & Hr & Hc); [apply demo_running|lia|apply demo_is_byte|].
  assert (match copyout demo_root 4090 demo_bytes demo_kernel with Ret r _ => r | _ => 7 end = 0) as E by (vm_compute; reflexivity).
  change (Machine.pagetable demo_proc) with demo_root in *. rewrite Hr in E. subst r.
  exists s'. split; [exact Hr|by apply Hc].
Defined.

(** The two pages that [copyout] took for the process go back to the pool. *)
Lemma uvmunmap_correct_witness :
  exists s s' F l, copyout demo_root 4090 demo_bytes demo_kernel = Ret 0 s
    /\ uvmunmap demo_root 0 2 true s = Ret tt s' /\ uas kmem_inv s' demo_root (F ++ l)
    /\ demo_page 0 ∈ F /\ demo_page 3 ∈ F /\ leaf (mem s') demo_root 0 = 0 /\ leaf (mem s') demo_root PGSIZE = 0.
Proof.
  pose proof (uvmunmap_correct kmem_inv (boot_hart (Some 0%nat)) ∅ ltac:(set_solver) 2 demo_root 0) as Hun.
  destruct (copyout_loop_ok kmem_inv (boot_hart (Some 0%nat)) ∅ ltac:(set_solver) 9 demo_proc demo_kernel demo_pages 4090
    demo_bytes) as (r & k & s & l & Hr & R & _ & _); [apply demo_running|lia|simpl; lia|apply demo_is_byte|].
  assert (match copyout demo_root 4090 demo_bytes demo_kernel with
          | Ret r s => (r, leaf (mem s) demo_root 0, leaf (mem s) demo_root PGSIZE) | _ => (7, 0, 0) end = (0, 0x20008417, 0x20009017)) as E
    by (vm_compute; reflexivity).
  assert (copyout demo_root 4090 demo_bytes demo_kernel = Ret r s) as Hr' by exact Hr. rewrite Hr' in E. injection E as -> E0 E1.
  destruct (Hun s l (rn_env _ _ _ _ _ _ R) (rn_as _ _ _ _ _ _ R) eq_refl) as (s' & F & Hu & U & L & HF & _); [discriminate|discriminate|].
  exists s, s', F, l. split; [exact Hr'|]. split; [exact Hu|]. split; [exact U|]. clear Hr Hr' Hu Hun.
  split_and!.
  - apply HF. exists 0. rewrite E0. split; [|by split]. apply pages_in_S; [by split|by left].
  - apply HF. exists PGSIZE. rewrite E1. split; [|by split]. apply pages_in_S; [by split|]. right. apply pages_in_S; [by split|by left].
  - rewrite L, E0 by (by split). done.
  - rewrite L, E1 by (by split). done.
Defined.
End demo.
