(* ===== verification/Proc.v ===== *)
(** * Processes and the scheduler

    [kernel/proc.c] without the functions that enter the file system
    ([userinit], [kfork], [kexit], [kwait], [forkret] are in [Lifecycle]).  A
    [struct proc *] is an index into [procs]; [swtch] suspends the kernel
    thread that calls it.  [scheduler_pass] is one turn of the scheduler's
    endless loop. *)

From stdpp Require Import base numbers gmap sets strings option list.
From S2P Require Import Prelude Machine Spinlock CString Printf Kalloc Vm.

(** ** The process table *)

Definition proc_get (i : nat) : K proc := ps ← gets procs; deref (ps !! i).
Definition proc_upd (i : nat) (f : proc -> proc) : K () := modify (fun s => s <| procs ::= alter f i |>).

(** The bytes of a C string up to its NUL. *)
Fixpoint cstr (l : list Z) : list Z :=
  match l with
  | [] => []
  | c :: l => if c =? 0 then [] else c :: cstr l
  end.

(** Offsets of [struct trapframe]. *)
Definition TF_kernel_satp : Z := 0.
Definition TF_kernel_sp : Z := 8.
Definition TF_kernel_trap : Z := 16.
Definition TF_epc : Z := 24.
Definition TF_kernel_hartid : Z := 32.
Definition TF_sp : Z := 48.
Definition TF_a0 : Z := 112.
Definition TF_a1 : Z := 120.
Definition TF_a7 : Z := 168.
Definition TF_size : Z := 288.

Definition tf_load (i : nat) (off : Z) : K Z :=
  p ← proc_get i;
  if trapframe p =? 0 then hangs HWild else gets (fun s => load64 (mem s) (trapframe p + off)).
Definition tf_store (i : nat) (off v : Z) : K () :=
  p ← proc_get i;
  if trapframe p =? 0 then hangs HWild
  else modify (fun s => s <| mem ::= fun m => store64 m (trapframe p + off) (u64 v) |>).

Definition procinit : K () :=
  initlock LkPid;;
  initlock LkWait;;
  forM (seq 0 NPROC) (fun i =>
    initlock (LkProc i);;
    proc_upd i (fun p => p <| state := UNUSED |>);;
    proc_upd i (fun p => p <| kstack := KSTACK (Z.of_nat i) |>)).

(** The name of a state for [kps] and for [procdump]. *)
Definition state_name (st : procstate) : string :=
  match st with
  | UNUSED => "unused" | USED => "used" | SLEEPING => "sleep"
  | RUNNABLE => "runble" | RUNNING => "run" | ZOMBIE => "zombie"
  end.
Definition dump_name (st : procstate) : string :=
  match st with
  | UNUSED => "unused" | USED => "used" | SLEEPING => "sleep "
  | RUNNABLE => "runble" | RUNNING => "run   " | ZOMBIE => "zombie"
  end.

Definition kps (arguments : option (list Z)) : K Z :=
  match arguments with
  | None => printf "Usage: ps [-o | -l]\n" [];; mret (-1)
  | Some a =>
      let is_opt o := (strncmp (chars a) (chars (str o)) 2 =? 0) && (chars a 2 =? 0) in
      if is_opt "-o" then
        forM (seq 0 NPROC) (fun i =>
          acquire (LkProc i);;
          p ← proc_get i;
          when (bool_decide (state p <> UNUSED)) (printf "%s\n" [VStr (Some (cstr (name p)))]);;
          release (LkProc i));;
        mret 0
      else if is_opt "-l" then
        printf "PID\tSTATE\tNAME\n" [];;
        forM (seq 0 NPROC) (fun i =>
          acquire (LkProc i);;
          p ← proc_get i;
          when (bool_decide (state p <> UNUSED))
            (printf "%d\t%s\t%s\n"
               [VInt (pid p); VStr (Some (str (state_name (state p)))); VStr (Some (cstr (name p)))]);;
          release (LkProc i));;
        mret 0
      else printf "Usage: ps [-o | -l]\n" [];; mret (-1)
  end.

(** ** Allocation *)

Definition allocpid : K Z :=
  acquire LkPid;;
  pid ← gets nextpid;
  modify (fun s => s <| nextpid ::= fun n => i32 (n + 1) |>);;
  release LkPid;;
  mret pid.

Section ops.
Context `{Link}.

Definition proc_pagetable (i : nat) : K Z :=
  pagetable ← uvmcreate;
  if pagetable =? 0 then mret 0
  else
    r ← mappages pagetable TRAMPOLINE PGSIZE trampoline (Z.lor PTE_R PTE_X);
    if r <? 0 then uvmfree pagetable 0;; mret 0
    else
      p ← proc_get i;
      r ← mappages pagetable TRAPFRAME PGSIZE (trapframe p) (Z.lor PTE_R PTE_W);
      if r <? 0 then uvmunmap pagetable TRAMPOLINE 1 false;; uvmfree pagetable 0;; mret 0
      else mret pagetable.

Definition proc_freepagetable (pagetable sz : Z) : K () :=
  uvmunmap pagetable TRAMPOLINE 1 false;;
  uvmunmap pagetable TRAPFRAME 1 false;;
  uvmfree pagetable sz.

Definition freeproc (i : nat) : K () :=
  p ← proc_get i;
  when (negb (trapframe p =? 0)) (kfree (trapframe p));;
  proc_upd i (fun p => p <| trapframe := 0 |>);;
  p ← proc_get i;
  when (negb (pagetable p =? 0)) (proc_freepagetable (pagetable p) (sz p));;
  proc_upd i (fun p => p <| pagetable := 0 |> <| sz := 0 |> <| pid := 0 |> <| parent := None |>
    <| name ::= <[0%nat := 0]> |> <| chan := None |> <| killed_flag := 0 |> <| xstate := 0 |>
    <| state := UNUSED |>).

(** The search for an [UNUSED] slot, left with its lock held. *)
Definition find_unused : K (option nat) :=
  forM_until (seq 0 NPROC) (fun i =>
    acquire (LkProc i);;
    p ← proc_get i;
    if decide (state p = UNUSED) then mret (Some i)
    else release (LkProc i);; mret None).

(** Returns with the lock of the new process held. *)
Definition allocproc : K (option nat) :=
  r ← find_unused;
  match r with
  | None => mret None
  | Some i =>
      n ← allocpid;
      proc_upd i (fun p => p <| pid := n |> <| state := USED |> <| waiting_tick := 0 |>
        <| cpu_quota := 20 |> <| cpu_used_in_window := 0 |> <| throttled := 0 |>
        <| quota_violations := 0 |>);;
      pa ← kalloc;
      proc_upd i (fun p => p <| trapframe := pa |>);;
      if pa =? 0 then freeproc i;; release (LkProc i);; mret None
      else
        pt ← proc_pagetable i;
        proc_upd i (fun p => p <| pagetable := pt |>);;
        if pt =? 0 then freeproc i;; release (LkProc i);; mret None
        else
          proc_upd i (fun p => p <| context_ra := forkret_addr |> <| context_sp := kstack p + PGSIZE |>);;
          mret (Some i)
  end.

(** [n] is a C [int]. *)
Definition growproc (n : Z) : K Z :=
  i ← myproc; i ← deref i; p ← proc_get i;
  let sz0 := sz p in
  if n >? 0 then
    if u64 (sz0 + n) >? TRAPFRAME then mret (-1)
    else
      sz1 ← uvmalloc (pagetable p) sz0 (u64 (sz0 + n)) PTE_W;
      if sz1 =? 0 then mret (-1)
      else proc_upd i (fun p => p <| sz := sz1 |>);; mret 0
  else if n <? 0 then
    sz1 ← uvmdealloc (pagetable p) sz0 (u64 (sz0 + n));
    proc_upd i (fun p => p <| sz := sz1 |>);; mret 0
  else proc_upd i (fun p => p <| sz := sz0 |>);; mret 0.

(** ** Copying to user or kernel memory

    The bytes for a kernel destination are returned to the caller, who owns
    the destination; a kernel source is given as its bytes. *)

Definition either_copyout (user_dst : option Z) (src : list Z) : K (Z * list Z) :=
  i ← myproc;
  match user_dst with
  | Some dst =>
      i ← deref i; p ← proc_get i;
      r ← copyout (pagetable p) dst src;
      mret (r, [])
  | None => mret (0, src)
  end.

Definition either_copyin (src : Z + list Z) (len : Z) : K (Z * list Z) :=
  i ← myproc;
  match src with
  | inl a => i ← deref i; p ← proc_get i; copyin (pagetable p) a len
  | inr l => mret (0, take (Z.to_nat len) l)
  end.
End ops.

(** ** Sleep and wakeup *)

Definition sched : K () :=
  i ← myproc; i ← deref i;
  h ← holding (LkProc i);
  if negb h then panic "sched p->lock"
  else
    c ← mycpu;
    if negb (noff c =? 1) then panic "sched locks"
    else
      p ← proc_get i;
      if decide (state p = RUNNING) then panic "sched RUNNING"
      else
        on ← intr_get;
        if on : bool then panic "sched interruptible"
        else
          swtch;;
          zoom hw (mycpu_upd (fun c' => c' <| intena := intena c |>)).

Definition yield : K () :=
  i ← myproc; i ← deref i;
  acquire (LkProc i);;
  proc_upd i (fun p => p <| state := RUNNABLE |>);;
  sched;;
  release (LkProc i).

Definition sleep (ch : channel) (lk : lockid) : K () :=
  i ← myproc; i ← deref i;
  acquire (LkProc i);;
  release lk;;
  proc_upd i (fun p => p <| chan := Some ch |> <| state := SLEEPING |>);;
  sched;;
  proc_upd i (fun p => p <| chan := None |>);;
  release (LkProc i);;
  acquire lk.

Definition wakeup (ch : channel) : K () :=
  forM (seq 0 NPROC) (fun i =>
    me ← myproc;
    if decide (me = Some i) then mret tt
    else
      acquire (LkProc i);;
      p ← proc_get i;
      when (bool_decide (state p = SLEEPING /\ chan p = Some ch))
        (proc_upd i (fun p => p <| state := RUNNABLE |>));;
      release (LkProc i)).

(** [pp->parent == p] moves to [initproc]; the caller holds [wait_lock]. *)
Definition reparent (i : nat) : K () :=
  forM (seq 0 NPROC) (fun j =>
    pp ← proc_get j;
    when (bool_decide (parent pp = Some i))
      (ip ← gets initproc;
       proc_upd j (fun p => p <| parent := ip |>);;
       ip ← deref ip;
       wakeup (ChProc ip))).

(** ** Killing *)

Definition kkill (n : Z) : K Z :=
  r ← forM_until (seq 0 NPROC) (fun i =>
    acquire (LkProc i);;
    p ← proc_get i;
    if pid p =? n then
      proc_upd i (fun p => p <| killed_flag := 1 |>);;
      when (bool_decide (state p = SLEEPING)) (proc_upd i (fun p => p <| state := RUNNABLE |>));;
      release (LkProc i);;
      mret (Some 0)
    else release (LkProc i);; mret None);
  mret (default (-1) r).

Definition setkilled (i : nat) : K () :=
  acquire (LkProc i);;
  proc_upd i (fun p => p <| killed_flag := 1 |>);;
  release (LkProc i).

Definition killed (i : nat) : K Z :=
  acquire (LkProc i);;
  p ← proc_get i;
  release (LkProc i);;
  mret (killed_flag p).

Definition procdump : K () :=
  printf "\n" [];;
  forM (seq 0 NPROC) (fun i =>
    p ← proc_get i;
    if decide (state p = UNUSED) then mret tt
    else
      printf "%d %s %s"
        [VInt (pid p); VStr (Some (str (dump_name (state p)))); VStr (Some (cstr (name p)))];;
      printf "\n" []).

(** ** CPU quotas and the scheduler *)

(** Line 498 of the source ends in a stray [q]; this is the function without it. *)
Definition reset_cpu_quotas : K () :=
  printf "Resetting quota window\n" [];;
  forM (seq 0 NPROC) (fun i =>
    acquire (LkProc i);;
    p ← proc_get i;
    when (bool_decide (state p <> UNUSED))
      (proc_upd i (fun p => p <| cpu_used_in_window := 0 |> <| throttled := 0 |>));;
    release (LkProc i)).

Definition check_and_reset_quota_window : K () :=
  acquire LkTicks;;
  current_ticks ← gets ticks;
  release LkTicks;;
  start ← gets quota_window_start;
  when (u32 (current_ticks - start) >=? WINDOW_SIZE)
    (modify (fun s => s <| quota_window_start := current_ticks |>);;
     reset_cpu_quotas).

(** [p->state == RUNNABLE && (eco_mode != ECO_QUOTA || p->throttled == 0)] *)
Definition eligible (eco : Z) (p : proc) : bool :=
  bool_decide (state p = RUNNABLE) && (negb (eco =? ECO_QUOTA) || (throttled p =? 0)).

Definition schedtest_name (n : list Z) : bool := strncmp (chars n) (chars (str "schedtest")) 9 =? 0.

(** The eligible child of a [schedtest] process with the least PID. *)
Fixpoint select_child (l : list nat) (chosen : option nat) : K (option nat) :=
  match l with
  | [] => mret chosen
  | i :: l =>
      acquire (LkProc i);;
      p ← proc_get i;
      eco ← gets eco_mode;
      chosen ←
        (if eligible eco p then
           match parent p with
           | None => mret chosen
           | Some j =>
               pp ← proc_get j;
               if schedtest_name (name pp) then
                 match chosen with
                 | None => mret (Some i)
                 | Some c => pc ← proc_get c; mret (if pid p <? pid pc then Some i else chosen)
                 end
               else mret chosen
           end
         else mret chosen);
      release (LkProc i);;
      select_child l chosen
  end.

(** The first eligible process. *)
Definition select_any : K (option nat) :=
  forM_until (seq 0 NPROC) (fun i =>
    acquire (LkProc i);;
    p ← proc_get i;
    eco ← gets eco_mode;
    release (LkProc i);;
    mret (if eligible eco p then Some i else None)).

Definition bump_waiting (chosen : nat) : K () :=
  forM (seq 0 NPROC) (fun i =>
    acquire (LkProc i);;
    p ← proc_get i;
    eco ← gets eco_mode;
    when (eligible eco p && negb (i =? chosen)%nat)
      (proc_upd i (fun p => p <| waiting_tick ::= fun n => i32 (n + 1) |>));;
    release (LkProc i)).

Definition run_chosen (i : nat) : K () :=
  acquire (LkProc i);;
  p ← proc_get i;
  eco ← gets eco_mode;
  when (eligible eco p)
    (proc_upd i (fun p => p <| state := RUNNING |>);;
     zoom hw (mycpu_upd (fun c => c <| c_proc := Some i |>));;
     swtch;;
     zoom hw (mycpu_upd (fun c => c <| c_proc := None |>)));;
  release (LkProc i).

(** The choice of one turn. *)
Definition select_proc : K (option nat) :=
  chosen ← select_child (seq 0 NPROC) None;
  match chosen with
  | Some i => mret (Some i)
  | None => select_any
  end.

(** One turn of the loop; [wfi] leaves nothing behind. *)
Definition scheduler_pass : K () :=
  zoom hw intr_on;;
  zoom hw intr_off;;
  check_and_reset_quota_window;;
  chosen ← select_proc;
  match chosen with
  | None => mret tt
  | Some i => bump_waiting i;; run_chosen i
  end.

(** [turns] turns of the endless loop. *)
Definition scheduler (turns : nat) : K () :=
  zoom hw (mycpu_upd (fun c => c <| c_proc := None |>));;
  forM (seq 0 turns) (fun _ => scheduler_pass);;
  hangs HFuel.
