(* ===== verification/ProcSpec.v ===== *)
(** * Sleeping, waking and killing

    What the functions of [Proc] do to the process table, for any hart and any
    set of held locks that contains no process lock. *)

From stdpp Require Import base numbers gmap sets strings option list.
From S2P Require Import Prelude Machine Spinlock CString Printf Kalloc Vm Proc.

(** The table has its [NPROC] slots. *)
Definition table_ok (s : kernel) : Prop := length (procs s) = NPROC.

(** No process lock is held. *)
Definition no_plock (X : gset lockid) : Prop := forall i, LkProc i ∉ X.

Lemma no_plock_empty : no_plock ∅.
Proof. intros i. set_solver. Qed.
Lemma no_plock_add X lk : (forall i, lk <> LkProc i) -> no_plock X -> no_plock ({[lk]} ∪ X).
Proof. intros Hlk HX i. specialize (HX i). specialize (Hlk i). set_solver. Qed.
#[export] Hint Resolve no_plock_empty : xv6.

Lemma proc_get_ok i p s : procs s !! i = Some p -> proc_get i s = Ret p s.
Proof. intros Hp. unfold proc_get. mrun. by rewrite Hp. Qed.

Lemma proc_upd_ok i f p s :
  procs s !! i = Some p -> proc_upd i f s = Ret tt (s <| procs := <[i := f p]> (procs s) |>).
Proof.
  intros Hp. unfold proc_upd, modify. f_equal. destruct s; ksimpl; simpl in *.
  f_equal. apply list_eq. intros j. destruct (decide (i = j)) as [<-|].
  - rewrite list_lookup_alter_eq, Hp. by rewrite list_lookup_insert_eq by (by eapply lookup_lt_Some).
  - by rewrite list_lookup_alter_ne, list_lookup_insert_ne.
Qed.

Lemma slot_set i p ps s : (i < length ps)%nat -> procs (s <| procs := <[i := p]> ps |>) !! i = Some p.
Proof. apply list_lookup_insert_eq. Qed.

Lemma imap_slot g i p p' s :
  procs s !! i = Some p -> g i p = p' -> procs (s <| procs := imap g (procs s) |>) !! i = Some p'.
Proof. intros Hp <-. simpl. by rewrite list_lookup_imap, Hp. Qed.

Lemma alter_insert f i p s :
  procs s !! i = Some p -> s <| procs ::= alter f i |> = s <| procs := <[i := f p]> (procs s) |>.
Proof.
  intros Hp. pose proof (proc_upd_ok i f p s Hp) as H. unfold proc_upd, modify in H. congruence.
Qed.

(** Updates without the looked-up process, for code that makes several. *)
Lemma bind_proc_upd {B} i f (k : () -> K B) s :
  (proc_upd i f ≫= k) s = k tt (s <| procs ::= alter f i |>).
Proof. done. Qed.
Lemma slot_alter i f p s : procs s !! i = Some p -> procs (s <| procs ::= alter f i |>) !! i = Some (f p).
Proof. intros Hp. simpl. by rewrite list_lookup_alter_eq, Hp. Qed.
Lemma alter_alter i f g s :
  s <| procs ::= alter f i |> <| procs ::= alter g i |> = s <| procs ::= alter (fun p => g (f p)) i |>.
Proof. destruct s; ksimpl. f_equal. rewrite list_alter_alter_eq. by apply list_alter_ext. Qed.
Lemma alter_hw i f s hv : s <| procs ::= alter f i |> <| hw := hv |> = s <| hw := hv |> <| procs ::= alter f i |>.
Proof. done. Qed.

(** ** Loops over the whole table *)

Lemma forM_procs_aux (body : nat -> K ()) (g : nat -> proc -> proc) s l1 l2 :
  (forall i ps p, ps !! i = Some p -> length ps = (length l1 + length l2)%nat ->
     body i (s <| procs := ps |>) = Ret tt (s <| procs := <[i := g i p]> ps |>)) ->
  forM (seq (length l1) (length l2)) body (s <| procs := l1 ++ l2 |>)
  = Ret tt (s <| procs := l1 ++ imap (fun j => g (length l1 + j)%nat) l2 |>).
Proof.
  revert l1. induction l2 as [|p l2 IH]; intros l1 Hb; simpl; [done|].
  mapply (Hb (length l1) _ p) by (rewrite ?list_lookup_middle, ?length_app; simpl; (done || lia)).
  replace (<[length l1:=g (length l1) p]> (l1 ++ p :: l2))
    with ((l1 ++ [g (length l1) p]) ++ l2)
    by (rewrite insert_app_r_alt, Nat.sub_diag by lia; simpl; by rewrite <- app_assoc).
  specialize (IH (l1 ++ [g (length l1) p])). rewrite length_app in IH. simpl in IH.
  replace (length l1 + 1)%nat with (S (length l1)) in IH by lia.
  etransitivity; [apply IH|].
  2: { rewrite <- app_assoc. simpl. rewrite Nat.add_0_r.
       erewrite imap_ext; [reflexivity|]. intros j q _. simpl. f_equal. lia. }
  - intros i ps q Hq Hl. apply Hb; [done|]. rewrite Hl. simpl. lia.
Qed.

Lemma procs_id s : s <| procs := procs s |> = s.
Proof. by destruct s. Qed.

(** A loop that updates every slot on its own. *)
Lemma forM_procs (body : nat -> K ()) (g : nat -> proc -> proc) s :
  table_ok s ->
  (forall i ps p, ps !! i = Some p -> (i < NPROC)%nat ->
     body i (s <| procs := ps |>) = Ret tt (s <| procs := <[i := g i p]> ps |>)) ->
  forM (seq 0 NPROC) body s = Ret tt (s <| procs := imap g (procs s) |>).
Proof.
  intros Ht Hb. pose proof (forM_procs_aux body g s [] (procs s)) as H.
  cbn [length app Nat.add] in H. rewrite Ht, procs_id in H. apply H. intros i ps p Hp Hl. apply Hb; [done|]. rewrite <- Hl. by eapply lookup_lt_Some.
Qed.

(** Side conditions of taking and dropping a process lock. *)
Ltac plocktac := first [solve_env | done | by apply Nat.ltb_lt].

Section locked.
Context (h : hart) (X : gset lockid) (HX : no_plock X).

(** The end of a critical section on one slot. *)
Lemma locked_tail (b : bool) (f : proc -> proc) i p s :
  env h ({[LkProc i]} ∪ X) s -> procs s !! i = Some p -> (i < NPROC)%nat ->
  (when b (proc_upd i f);; release (LkProc i)) s
  = Ret tt (s <| hw := acquired h X |> <| procs := <[i := if b then f p else p]> (procs s) |>).
Proof.
  intros He Hp Hi. pose proof (HX i) as HXi. destruct b; simpl when.
  - mapply (proc_upd_ok i f p) by done. by rewrite (env_release_last h X) by plocktac.
  - msimpl. rewrite (env_release_last h X) by plocktac.
    by rewrite list_insert_id by done.
Qed.

(** One slot, read and updated under its lock. *)
Lemma locked_slot (b : proc -> bool) (f : proc -> proc) i p ps s :
  env h X s -> ps !! i = Some p -> (i < NPROC)%nat ->
  (acquire (LkProc i);;
   p ← proc_get i;
   when (b p) (proc_upd i f);;
   release (LkProc i)) (s <| procs := ps |>)
  = Ret tt (s <| procs := <[i := if b p then f p else p]> ps |>).
Proof.
  intros He Hp Hi. pose proof (HX i) as HXi.
  mapply (env_acquire h X) by plocktac.
  mapply proc_get_ok by done. rewrite (locked_tail _ _ i p) by plocktac.
  f_equal. destruct He. kext s.
Qed.

(** ** [wakeup] *)

Definition wake (ch : channel) (p : proc) : proc :=
  if bool_decide (state p = SLEEPING /\ chan p = Some ch) then p <| state := RUNNABLE |> else p.

Lemma wakeup_ok ch s :
  env h X s -> table_ok s ->
  wakeup ch s = Ret tt (s <| procs := imap (fun i p =>
    if decide (curproc h = Some i) then p else wake ch p) (procs s) |>).
Proof.
  intros He Ht. unfold wakeup. apply forM_procs; [done|]. intros i ps p Hp Hi.
  cbv beta.
  mapply (env_myproc h X) by plocktac. case_decide.
  - by rewrite list_insert_id by done.
  - by apply (locked_slot (fun p => bool_decide (state p = SLEEPING /\ chan p = Some ch))
      (fun p => p <| state := RUNNABLE |>)).
Qed.

(** ** Reading and setting [killed] *)

Lemma killed_ok i p s :
  env h X s -> procs s !! i = Some p -> (i < NPROC)%nat ->
  killed i s = Ret (killed_flag p) s.
Proof.
  intros He Hp Hi. pose proof (HX i) as HXi. unfold killed.
  mapply (env_acquire h X) by plocktac.
  mapply proc_get_ok by done.
  mapply (env_release_last h X) by plocktac.
  unfold mret, M_ret. f_equal. destruct He. kext s.
Qed.

Lemma setkilled_ok i p s :
  env h X s -> procs s !! i = Some p -> (i < NPROC)%nat ->
  setkilled i s = Ret tt (s <| procs := <[i := p <| killed_flag := 1 |>]> (procs s) |>).
Proof.
  intros He Hp Hi. pose proof (HX i) as HXi. unfold setkilled.
  mapply (env_acquire h X) by plocktac.
  mapply (proc_upd_ok i _ p) by done.
  rewrite (env_release_last h X) by plocktac.
  f_equal. destruct He. kext s.
Qed.

(** ** [kkill] *)

Definition kill_proc (p : proc) : proc :=
  p <| killed_flag := 1 |> <| state ::= fun st => if decide (st = SLEEPING) then RUNNABLE else st |>.

Definition has_pid (n : Z) (ps : list proc) (i : nat) : bool :=
  match ps !! i with Some p => pid p =? n | None => false end.

Lemma kkill_ok n s :
  env h X s -> table_ok s ->
  kkill n s = match List.find (has_pid n (procs s)) (seq 0 NPROC) with
              | Some i => Ret 0 (s <| procs ::= alter kill_proc i |>)
              | None => Ret (-1) s
              end.
Proof.
  intros He Ht. unfold kkill, mbind at 1, M_bind at 1.
  rewrite (forM_until_find _ (has_pid n (procs s)) (fun _ => 0)
    (fun i => s <| procs ::= alter kill_proc i |>)).
  { by destruct (List.find _ _). }
  intros i Hi%elem_of_seq. destruct (lookup_lt_is_Some_2 (procs s) i) as [p Hp]; [rewrite Ht; lia|].
  assert (static_lock (LkProc i) = true) as Hst by (apply Nat.ltb_lt; lia).
  pose proof (HX i) as HXi. unfold has_pid. rewrite Hp.
  mapply (env_acquire h X) by plocktac.
  mapply proc_get_ok by done. destruct (pid p =? n).
  - mapply (proc_upd_ok i _ p) by done. unfold when.
    rewrite (alter_insert kill_proc i p) by done. unfold kill_proc at 1. case_bool_decide as Hsl.
    + mapply (proc_upd_ok i _ (p <| killed_flag := 1 |>))
        by (apply slot_set; simpl; rewrite Ht; lia).
      mapply (env_release_last h X) by plocktac.
      unfold mret, M_ret. f_equal. destruct He. destruct s; ksimpl; simpl in *; subst.
      rewrite list_insert_insert_eq, decide_True by done. done.
    + msimpl. mapply (env_release_last h X) by plocktac.
      unfold mret, M_ret. f_equal. destruct He. destruct s; ksimpl; simpl in *; subst.
      by rewrite decide_False by done.
  - mapply (env_release_last h X) by plocktac.
    unfold mret, M_ret. f_equal. destruct He. kext s.
Qed.
End locked.

(** ** Leaving the CPU and coming back *)

(** The hart on which a thread that runs with interrupt state [b] goes on. *)
Definition resumed (b : bool) (h : hart) : hart :=
  mkHart (tp h) b (alter (fun c => c <| intena := b |>) (tp h) (cpus h)) (locks h).

Lemma resumed_quiet b h : quiet h -> quiet (resumed b h).
Proof.
  intros (c & Hc & Hn & _). exists (c <| intena := b |>). simpl.
  by rewrite list_lookup_alter_eq, Hc.
Qed.

Lemma resumed_curproc b h : curproc (resumed b h) = curproc h.
Proof. unfold curproc. simpl. rewrite list_lookup_alter_eq. by destruct (cpus h !! tp h). Qed.

Lemma env_resumed b h X s :
  env h X s -> env (resumed b h) X (s <| hw := acquired (resumed b h) X |>).
Proof. intros [Hq Hs Hf]. split; [by apply resumed_quiet|done|done]. Qed.

(** [mycpu()->intena = intena] after [swtch]. *)
Lemma restore_intena b h X s :
  env h X s -> X <> ∅ ->
  zoom hw (mycpu_upd (fun c => c <| intena := b |>)) s = Ret tt (s <| hw := acquired (resumed b h) X |>).
Proof.
  intros [Hq Hs Hf] HX. apply zoom_Ret. rewrite Hs. unfold mycpu_upd, modify. f_equal.
  unfold acquired, resumed. hart_simpl.
  rewrite bool_decide_eq_false_2, !andb_false_r by done. f_equal.
  rewrite !list_alter_alter_eq. by apply list_alter_ext.
Qed.

Lemma mycpu_ok h X s :
  env h X s -> exists c, mycpu s = Ret c s /\ noff c = Z.of_nat (size X) /\ intena c = sie h.
Proof.
  intros [(c & Hc & Hn & Hi) Hs Hf]. exists (c <| noff := Z.of_nat (size X) |>). split; [|done].
  rewrite <- (upd_hw_id s (acquired h X)) at 2 by done. apply zoom_Ret. rewrite Hs.
  apply mycpu_h_Ret. by apply (acquired_cpu h X).
Qed.

Section switch.
Context (h : hart) (i : nat) (Hi : (i < NPROC)%nat) (Hcur : curproc h = Some i).

Lemma proc_static : static_lock (LkProc i) = true.
Proof. by apply Nat.ltb_lt. Qed.

Lemma sched_ok p s :
  env h {[LkProc i]} s -> procs s !! i = Some p -> state p <> RUNNING ->
  sched s = Switch s (zoom hw (mycpu_upd (fun c => c <| intena := sie h |>))).
Proof.
  intros He Hp Hst. unfold sched. mapply (env_myproc h {[LkProc i]}) by done. rewrite Hcur. msimpl.
  mapply (env_holding h {[LkProc i]}) by first [done | set_solver]. cbn [negb].
  destruct (mycpu_ok _ _ _ He) as (c & Hc & Hn & Hie). mstep Hc.
  rewrite Hn, size_singleton. change (Z.of_nat 1 =? 1) with true. cbn [negb].
  mapply proc_get_ok by done. rewrite decide_False by done.
  unfold intr_get. msimpl. rewrite (env_hw _ _ _ He). simpl.
  rewrite bool_decide_eq_false_2, andb_false_r by set_solver.
  erewrite bind_Switch by reflexivity. rewrite Hie. done.
Qed.

(** The process as [sleep] leaves it. *)
Definition asleep (ch : channel) (q : proc) : proc := q <| chan := Some ch |> <| state := SLEEPING |>.

Lemma sleep_ok ch lk p s :
  env h {[lk]} s -> static_lock lk = true -> lk <> LkProc i -> procs s !! i = Some p ->
  exists k,
    sleep ch lk s
    = Switch (s <| hw := acquired h {[LkProc i]} |> <| procs := <[i := asleep ch p]> (procs s) |>) k /\
    forall h' t q, env h' {[LkProc i]} t -> procs t !! i = Some q ->
      k t = Ret tt (t <| hw := acquired (resumed (sie h) h') {[lk]} |>
                      <| procs := <[i := q <| chan := None |>]> (procs t) |>).
Proof.
  intros He Hst Hlk Hp. pose proof proc_static as Hpi. unfold sleep.
  mapply (env_myproc h {[lk]}) by done. rewrite Hcur. msimpl.
  mapply (env_acquire h {[lk]}) by first [plocktac | set_solver].
  mapply (env_release h ({[LkProc i]} ∪ {[lk]})) by first [plocktac | set_solver].
  replace (({[LkProc i]} ∪ {[lk]}) ∖ {[lk]} : gset lockid) with ({[LkProc i]} : gset lockid)
    by set_solver.
  mapply (proc_upd_ok i _ p) by done. change (upd hw (fun _ => ?x) (upd hw _ s)) with (s <| hw := x |>).
  assert (forall s', s' = s <| hw := acquired h {[LkProc i]} |> <| procs := <[i := asleep ch p]> (procs s) |> ->
    sched s' = Switch s' (zoom hw (mycpu_upd (fun c => c <| intena := sie h |>)))) as Hsched.
  { intros s' ->. apply (sched_ok (asleep ch p)); [solve_env| |done].
    apply slot_set. by eapply lookup_lt_Some. }
  erewrite bind_Switch; [|by apply Hsched; destruct s]. eexists. split; [by destruct s|].
  intros h' t q Ht Hq. clear Hsched.
  cbv beta. rewrite obind_mbind.
  mapply (restore_intena _ h' {[LkProc i]}) by first [done | set_solver].
  mapply (proc_upd_ok i _ q) by done.
  pose proof (env_resumed (sie h) _ _ _ Ht) as He2.
  mapply (env_release (resumed (sie h) h') {[LkProc i]}) by first [plocktac | set_solver].
  rewrite difference_diag_L.
  rewrite (env_acquire (resumed (sie h) h') ∅) by first [plocktac | set_solver].
  rewrite union_empty_r_L. by destruct t.
Qed.

(** [yield] gives up the CPU as a runnable process and comes back with no lock
    held. *)
Lemma yield_ok p s :
  env h ∅ s -> procs s !! i = Some p ->
  exists k,
    yield s = Switch (s <| hw := acquired h {[LkProc i]} |>
                        <| procs := <[i := p <| state := RUNNABLE |>]> (procs s) |>) k /\
    forall h' t, env h' {[LkProc i]} t -> k t = Ret tt (t <| hw := resumed (sie h) h' |>).
Proof.
  intros He Hp. pose proof proc_static as Hpi. unfold yield.
  mapply (env_myproc h ∅) by done. rewrite Hcur. msimpl.
  mapply (env_acquire h ∅) by first [plocktac | set_solver]. rewrite union_empty_r_L.
  mapply (proc_upd_ok i _ p) by done.
  set (s' := upd procs _ _).
  assert (sched s' = Switch s' (zoom hw (mycpu_upd (fun c => c <| intena := sie h |>)))) as Hsched.
  { apply (sched_ok (p <| state := RUNNABLE |>)); [solve_env| |done].
    apply slot_set. by eapply lookup_lt_Some. }
  mstep Hsched. eexists. split; [by destruct s|].
  intros h' t Ht. cbv beta. rewrite obind_mbind.
  mapply (restore_intena _ h' {[LkProc i]}) by first [done | set_solver].
  pose proof (env_resumed (sie h) _ _ _ Ht) as He2.
  rewrite (env_release (resumed (sie h) h') {[LkProc i]}) by first [plocktac | set_solver].
  rewrite difference_diag_L, acquired_empty by apply He2. by destruct t.
Qed.
End switch.

(** ** Properties *)

(** C11: [sleep] gives up its condition lock and the CPU together: the thread
    leaves the CPU marked asleep on the channel, the condition lock free and
    only its own lock held, so no wakeup of that channel can come too early.
    Whoever then wakes the channel makes it runnable again, whatever else has
    happened to the rest of the table: [wakeup] changes the state of exactly the
    processes that sleep on the channel, the caller excepted, and nothing else.
    When the thread is switched to it returns with the condition lock held and
    its interrupt state restored. *)
Theorem sleep_wakeup h i ch lk p s :
  env h {[lk]} s -> static_lock lk = true -> lk <> LkProc i -> (i < NPROC)%nat ->
  curproc h = Some i -> procs s !! i = Some p ->
  exists s1 k, sleep ch lk s = Switch s1 k
    /\ env h {[LkProc i]} s1 /\ procs s1 = <[i := asleep ch p]> (procs s)
    /\ (forall h2 X t, env h2 X t -> no_plock X -> table_ok t -> curproc h2 <> Some i ->
          procs t !! i = Some (asleep ch p) ->
          exists t', wakeup ch t = Ret tt t' /\ env h2 X t'
            /\ procs t' !! i = Some (asleep ch p <| state := RUNNABLE |>) /\ t' = t <| procs := procs t' |>
            /\ length (procs t') = length (procs t)
            /\ forall j q, procs t !! j = Some q -> procs t' !! j = Some (
                 if bool_decide (state q = SLEEPING /\ chan q = Some ch /\ curproc h2 <> Some j)
                 then q <| state := RUNNABLE |> else q))
    /\ (forall h' t q, env h' {[LkProc i]} t -> procs t !! i = Some q ->
          exists t', k t = Ret tt t' /\ env (resumed (sie h) h') {[lk]} t'
            /\ procs t' = <[i := q <| chan := None |>]> (procs t)).
Proof.
  intros He Hst Hlk Hi Hcur Hp.
  destruct (sleep_ok h i Hi Hcur ch lk p s He Hst Hlk Hp) as (k & Hs & Hk).
  do 2 eexists. split; [exact Hs|]. split_and!; [solve_env|done| |].
  - intros h2 X t Ht HX Htab Hc2 Hti. eexists. split; [by apply (wakeup_ok h2 X)|].
    split; [solve_env|]. split.
    + apply imap_slot with (asleep ch p); [done|]. rewrite decide_False by done. unfold wake.
      by rewrite bool_decide_eq_true_2 by done.
    + split; [done|]. split; [apply length_imap|]. intros j q Hq. apply imap_slot with q; [done|]. unfold wake.
      case_decide; [by rewrite bool_decide_eq_false_2 by tauto|]. do 2 case_bool_decide; tauto.
  - intros h' t q Ht Hq. eexists. split; [by apply Hk|]. split; [|done].
    pose proof (env_resumed (sie h) _ _ _ Ht) as He2. solve_env.
Qed.

(** A slot of the zeroed table, and a kernel with process 0 running. *)
Definition zero_proc : proc :=
  mkProc UNUSED None 0 0 0 0 None 0 0 0 0 0 0 (replicate NOFILE None) None (replicate 16 0) 0 0 0 0.
Definition table_kernel (cur : option nat) (X : gset lockid) (ps : list proc) : kernel :=
  zero_kernel (acquired (boot_hart cur) X) <| procs := ps |>.

Lemma table_kernel_env cur X ps : env (boot_hart cur) X (table_kernel cur X ps).
Proof. split; [apply boot_hart_quiet|done|apply boot_hart_free]. Qed.

Lemma sleep_wakeup_witness :
  let q := zero_proc <| state := RUNNING |> in
  exists s k t, sleep ChTicks LkTicks (table_kernel (Some 0%nat) {[LkTicks]} (<[0%nat := q]> (replicate NPROC zero_proc))) = Switch s k
    /\ procs s !! 0%nat = Some (asleep ChTicks q)
    /\ wakeup ChTicks (table_kernel None ∅ (procs s)) = Ret tt t
    /\ procs t !! 0%nat = Some (asleep ChTicks q <| state := RUNNABLE |>).
Proof.
  intros q. destruct (sleep_wakeup (boot_hart (Some 0%nat)) 0 ChTicks LkTicks q
    (table_kernel (Some 0%nat) {[LkTicks]} (<[0%nat := q]> (replicate NPROC zero_proc)))) as (s1 & k & Hs & _ & Hp & Hwake & _).
  - apply table_kernel_env.
  - reflexivity.
  - discriminate.
  - unfold NPROC. lia.
  - reflexivity.
  - reflexivity.
  - destruct (Hwake (boot_hart None) ∅ (table_kernel None ∅ (procs s1))) as (t & Hw & _ & Ht & _).
    + apply table_kernel_env.
    + apply no_plock_empty.
    + unfold table_ok. rewrite Hp. reflexivity.
    + discriminate.
    + rewrite Hp. reflexivity.
    + exists s1, k, t. split; [exact Hs|]. split; [rewrite Hp; reflexivity|]. split; [exact Hw|exact Ht].
Defined.

(** C32: [kkill] marks the first process with the PID, makes it runnable if it was
    asleep and touches nothing else; it reports an error exactly when no slot
    has the PID, and then changes nothing. *)
Theorem kkill_correct h X n s :
  env h X s -> no_plock X -> table_ok s ->
  (exists i p, procs s !! i = Some p /\ pid p = n
     /\ (forall j q, (j < i)%nat -> procs s !! j = Some q -> pid q <> n)
     /\ kkill n s = Ret 0 (s <| procs := <[i := kill_proc p]> (procs s) |>))
  \/ ((forall i p, procs s !! i = Some p -> pid p <> n) /\ kkill n s = Ret (-1) s).
Proof.
  intros He HX Ht. rewrite (kkill_ok h X HX n s He Ht).
  destruct (List.find _ _) as [i|] eqn:Hf.
  - left. apply find_seq_Some in Hf as (Hi & Hpid & Hmin). unfold has_pid in *.
    destruct (procs s !! i) as [p|] eqn:Hp; [|done]. exists i, p. split_and!; [done|lia| |].
    + intros j q Hj Hq. specialize (Hmin j ltac:(lia)). rewrite Hq in Hmin. lia.
    + by rewrite (alter_insert _ i p).
  - right. split; [|done]. intros i p Hp ?.
    pose proof (lookup_lt_Some _ _ _ Hp) as Hi. unfold table_ok in Ht.
    pose proof (find_none _ _ Hf i) as Hn. unfold has_pid in Hn. rewrite Hp in Hn.
    rewrite (proj2 (Z.eqb_eq _ _)) in Hn by done. discriminate Hn. apply in_seq. lia.
Qed.

Lemma kkill_correct_witness :
  exists s, kkill 3 (table_kernel None ∅
    (<[5%nat := zero_proc <| state := SLEEPING |> <| pid := 3 |>]> (replicate NPROC zero_proc))) = Ret 0 s.
Proof.
  destruct (kkill_correct (boot_hart None) ∅ 3 (table_kernel None ∅
    (<[5%nat := zero_proc <| state := SLEEPING |> <| pid := 3 |>]> (replicate NPROC zero_proc))))
    as [(i & p & _ & _ & _ & Hk)|[Hnone _]].
  - apply table_kernel_env.
  - apply no_plock_empty.
  - reflexivity.
  - eexists. exact Hk.
  - exfalso. apply (Hnone 5%nat (zero_proc <| state := SLEEPING |> <| pid := 3 |>)); reflexivity.
Defined.
