(* ===== verification/Sched.v ===== *)
(** * CPU quotas and the choice of the scheduler

    What [check_and_reset_quota_window], the selection loops and one turn of
    [scheduler] do.  [choice] says which process a turn may run. *)

From stdpp Require Import base numbers gmap sets strings option list.
From S2P Require Import Prelude Machine Spinlock CString Printf Kalloc Vm Proc ProcSpec.

(** ** The quota window *)

Definition reset_quota (p : proc) : proc :=
  if bool_decide (state p <> UNUSED) then p <| cpu_used_in_window := 0 |> <| throttled := 0 |> else p.

Definition window_msg : list Z := Eval vm_compute in str "Resetting quota window\n".

Definition window_over (s : kernel) : bool := u32 (ticks s - quota_window_start s) >=? WINDOW_SIZE.

(** The state after [check_and_reset_quota_window]. *)
Definition after_window (s : kernel) : kernel :=
  if window_over s
  then s <| quota_window_start := ticks s |> <| out ::= fun o => o ++ window_msg |>
         <| procs ::= map reset_quota |>
  else s.

Section window.
Context (h : hart) (X : gset lockid) (HX : no_plock X) (Hpr : LkPr ∉ X).

Lemma reset_cpu_quotas_ok s :
  env h X s -> table_ok s ->
  reset_cpu_quotas s = Ret tt (s <| out ::= fun o => o ++ window_msg |> <| procs ::= map reset_quota |>).
Proof.
  intros He Ht. unfold reset_cpu_quotas.
  mapply (printf_ok h X) by first [apply He; reflexivity | apply He | done | reflexivity].
  change (concat (map cons_bytes _)) with window_msg.
  erewrite (forM_procs _ (fun _ => reset_quota)).
  - f_equal. destruct s; ksimpl. by rewrite imap_map.
  - done.
  - intros i ps p Hp Hi.
    by apply (locked_slot h X HX (fun p => bool_decide (state p <> UNUSED))
      (fun p => p <| cpu_used_in_window := 0 |> <| throttled := 0 |>));
      [solve_env|..].
Qed.

Lemma check_window_ok s :
  env h X s -> table_ok s -> LkTicks ∉ X ->
  check_and_reset_quota_window s = Ret tt (after_window s).
Proof.
  intros He Ht Hti. unfold check_and_reset_quota_window.
  mapply (env_acquire h X) by plocktac. msimpl.
  mapply (env_release_last h X) by plocktac. msimpl.
  change (upd hw (fun _ => acquired h X) _) with (s <| hw := acquired h X |>).
  rewrite (env_hw_id h X s He).
  unfold after_window, window_over. ksimpl. destruct (_ >=? _); simpl when; [|done].
  msimpl. by rewrite reset_cpu_quotas_ok by first [solve_env | done].
Qed.
End window.

(** ** The selection loops *)

(** Parent pointers point into the table. *)
Definition parents_ok (ps : list proc) : Prop :=
  forall i p j, ps !! i = Some p -> parent p = Some j -> (j < NPROC)%nat.

(** [p]'s parent has a name that starts with [schedtest]. *)
Definition schedtest_child (ps : list proc) (p : proc) : bool :=
  match parent p ≫= (ps !!.) with Some q => schedtest_name (name q) | None => false end.

(** An eligible process in slot [i], and one with a schedtest parent. *)
Definition runs (eco : Z) (ps : list proc) (i : nat) (p : proc) : Prop :=
  ps !! i = Some p /\ eligible eco p = true.
Definition cand (eco : Z) (ps : list proc) (i : nat) (p : proc) : Prop :=
  runs eco ps i p /\ schedtest_child ps p = true.

(** [r] is the candidate of least PID among the slots below [k], the first one
    of them. *)
Definition least (eco : Z) (ps : list proc) (k : nat) (r : option nat) : Prop :=
  match r with
  | None => forall j q, (j < k)%nat -> ~ cand eco ps j q
  | Some c => exists p, (c < k)%nat /\ cand eco ps c p /\
      forall j q, (j < k)%nat -> cand eco ps j q -> pid p < pid q \/ (pid p = pid q /\ (c <= j)%nat)
  end.

Lemma least_skip eco ps k r :
  least eco ps k r -> (forall p, ~ cand eco ps k p) -> least eco ps (S k) r.
Proof.
  intros Hr Hk. assert (forall j q, (j < S k)%nat -> cand eco ps j q -> (j < k)%nat) as Hlt.
  { intros j q Hj Hc. destruct (decide (j = k)) as [->|]; [by destruct (Hk q)|lia]. }
  destruct r as [c|]; simpl in *.
  - destruct Hr as (p & ? & ? & Hmin). exists p. split_and!; [lia|done|]. eauto.
  - intros j q Hj Hc. eapply Hr; eauto.
Qed.

(** What the comparison of the loop keeps. *)
Definition better (ps : list proc) (k : nat) (p : proc) (r : option nat) : option nat :=
  match r with
  | None => Some k
  | Some c => match ps !! c with Some pc => if pid p <? pid pc then Some k else r | None => r end
  end.

Lemma least_step eco ps k p r :
  cand eco ps k p -> least eco ps k r -> least eco ps (S k) (better ps k p r).
Proof.
  intros Hk Hr.
  assert (forall j q, (j < S k)%nat -> cand eco ps j q -> (j < k)%nat \/ j = k /\ q = p) as Hlt.
  { intros j q Hj Hc. destruct (decide (j = k)) as [->|]; [right|lia].
    split; [done|]. destruct Hk as [[] ], Hc as [[] ]. congruence. }
  destruct r as [c|]; simpl in *.
  - destruct Hr as (pc & ? & Hc & Hmin). pose proof Hc as [[Hl _] _]. rewrite Hl.
    destruct (Z.ltb_spec (pid p) (pid pc)).
    + exists p. split_and!; [lia|done|]. intros j q Hj Hq.
      destruct (Hlt j q Hj Hq) as [Hj'|[-> ->]]; [|right; lia].
      destruct (Hmin j q Hj' Hq); left; lia.
    + exists pc. split_and!; [lia|done|]. intros j q Hj Hq.
      destruct (Hlt j q Hj Hq) as [Hj'|[-> ->]]; [eauto|]. lia.
  - exists p. split_and!; [lia|done|]. intros j q Hj Hq.
    destruct (Hlt j q Hj Hq) as [Hj'|[-> ->]]; [by destruct (Hr j q)|]. right; lia.
Qed.

Section select.
Context (h : hart) (X : gset lockid) (HX : no_plock X).

Lemma select_child_ok s k n r :
  env h X s -> table_ok s -> parents_ok (procs s) -> (k + n <= NPROC)%nat ->
  least (eco_mode s) (procs s) k r ->
  exists r', select_child (seq k n) r s = Ret r' s /\ least (eco_mode s) (procs s) (k + n) r'.
Proof.
  intros He Ht Hpar. revert k r. induction n as [|n IH]; intros k r Hk Hr.
  { exists r. by rewrite Nat.add_0_r. }
  destruct (lookup_lt_is_Some_2 (procs s) k) as [p Hp]; [rewrite Ht; lia|].
  assert (static_lock (LkProc k) = true) as Hst by (apply Nat.ltb_lt; lia).
  pose proof (HX k) as HXk. cbn [seq select_child].
  mapply (env_acquire h X) by plocktac. mapply proc_get_ok by done. msimpl.
  set (s1 := s <| hw := acquired h ({[LkProc k]} ∪ X) |>).
  change (eco_mode s1) with (eco_mode s).
  assert (forall r', least (eco_mode s) (procs s) (S k) r' ->
    exists r'', (release (LkProc k);; select_child (seq (S k) n) r') s1 = Ret r'' s
      /\ least (eco_mode s) (procs s) (k + S n) r'') as Hend.
  { intros r' Hr'. destruct (IH (S k) r') as (r'' & Hsel & Hl); [lia|done|]. exists r''.
    replace (k + S n)%nat with (S k + n)%nat by lia. split; [|done].
    mapply (env_release_last h X) by plocktac. rewrite <- Hsel. f_equal.
    change (s <| hw := acquired h X |> = s). by apply env_hw_id. }
  destruct (eligible (eco_mode s) p) eqn:Hel.
  2: { msimpl. apply Hend, least_skip; [done|]. intros q [[Hq Hq2] _]. congruence. }
  assert (forall b, schedtest_child (procs s) p = b -> forall r'',
    (if b then r'' = better (procs s) k p r else r'' = r) -> least (eco_mode s) (procs s) (S k) r'') as Hcase.
  { intros [] Hb r'' ->; [by apply least_step|]. apply least_skip; [done|].
    intros q [[Hq _] Hq2]. congruence. }
  unfold schedtest_child in Hcase. destruct (parent p) as [j|] eqn:Hpa.
  2: { msimpl. apply Hend. by apply (Hcase false). }
  destruct (lookup_lt_is_Some_2 (procs s) j) as [pp Hpp]; [rewrite Ht; eauto|].
  simpl mbind in Hcase. mapply (proc_get_ok j pp) by done.
  specialize (Hcase (schedtest_name (name pp))). rewrite Hpp in Hcase.
  destruct (schedtest_name (name pp)).
  2: { msimpl. apply Hend. by apply Hcase. }
  unfold better in Hcase. destruct r as [c|]; [|msimpl; by apply Hend, Hcase].
  destruct Hr as (pc & ? & [[Hc _] _] & _). mapply (proc_get_ok c pc) by done. msimpl.
  apply Hend. apply Hcase; [done|]. by rewrite Hc.
Qed.

(** [i] is the first eligible slot. *)
Definition first_eligible (eco : Z) (ps : list proc) (i : nat) : Prop :=
  (exists p, runs eco ps i p) /\ forall j q, (j < i)%nat -> ~ runs eco ps j q.

Lemma select_any_ok s :
  env h X s -> table_ok s ->
  exists r, select_any s = Ret r s /\
    match r with
    | Some i => first_eligible (eco_mode s) (procs s) i
    | None => forall j q, ~ runs (eco_mode s) (procs s) j q
    end.
Proof.
  intros He Ht. unfold select_any.
  set (test i := match procs s !! i with Some p => eligible (eco_mode s) p | None => false end).
  rewrite (forM_until_find _ test (fun i => i) (fun _ => s)).
  - destruct (List.find test (seq 0 NPROC)) as [i|] eqn:Hf; eexists; (split; [done|]).
    + apply find_seq_Some in Hf as (Hi & Hte & Hmin). unfold test in *. split.
      * destruct (procs s !! i) as [p|] eqn:Hp; [|done]. by exists p.
      * intros j q Hj [Hq Hq2]. specialize (Hmin j ltac:(lia)). rewrite Hq in Hmin. congruence.
    + intros j q [Hq Hq2]. pose proof (lookup_lt_Some _ _ _ Hq) as Hj. unfold table_ok in Ht.
      pose proof (find_none _ _ Hf j) as Hn. unfold test in Hn. rewrite Hq, Hq2 in Hn.
      discriminate Hn. apply in_seq. lia.
  - intros i Hi%elem_of_seq. destruct (lookup_lt_is_Some_2 (procs s) i) as [p Hp]; [rewrite Ht; lia|].
    assert (static_lock (LkProc i) = true) as Hst by (apply Nat.ltb_lt; lia).
    pose proof (HX i) as HXi. unfold test. rewrite Hp.
    mapply (env_acquire h X) by plocktac. mapply proc_get_ok by done. msimpl.
    mapply (env_release_last h X) by plocktac.
    change (upd hw (fun _ => acquired h X) _) with (s <| hw := acquired h X |>).
    rewrite (env_hw_id h X s He). change (eco_mode (upd hw _ s)) with (eco_mode s).
    by destruct (eligible (eco_mode s) p).
Qed.

(** The process a turn may run: the schedtest child of least PID, or the first
    eligible process when no schedtest child is eligible. *)
Definition choice (eco : Z) (ps : list proc) (r : option nat) : Prop :=
  match r with
  | Some i => least eco ps NPROC (Some i) \/ (least eco ps NPROC None /\ first_eligible eco ps i)
  | None => forall j q, ~ runs eco ps j q
  end.

Lemma select_proc_ok s :
  env h X s -> table_ok s -> parents_ok (procs s) ->
  exists r, select_proc s = Ret r s /\ choice (eco_mode s) (procs s) r.
Proof.
  intros He Ht Hpar. unfold select_proc.
  destruct (select_child_ok s 0 NPROC None) as (r & Hr & Hl); [done..| |].
  { intros j q Hj. lia. }
  mstep Hr. destruct r as [i|]; [exists (Some i); split; [done|by left]|].
  destruct (select_any_ok s) as (r & Hr' & Hl'); [done..|]. exists r. split; [done|].
  destruct r as [i|]; [right|]; done.
Qed.

(** ** Running the choice *)

Definition bump (eco : Z) (chosen i : nat) (p : proc) : proc :=
  if eligible eco p && negb (i =? chosen)%nat
  then p <| waiting_tick ::= fun n => i32 (n + 1) |> else p.

Lemma bump_waiting_ok c s :
  env h X s -> table_ok s ->
  bump_waiting c s = Ret tt (s <| procs := imap (bump (eco_mode s) c) (procs s) |>).
Proof.
  intros He Ht. unfold bump_waiting. apply forM_procs; [done|]. intros i ps p Hp Hi. cbv beta.
  pose proof (HX i) as HXi.
  mapply (env_acquire h X) by plocktac. mapply proc_get_ok by done. msimpl.
  rewrite (locked_tail h X HX _ _ i p) by plocktac. f_equal. destruct He. kext s.
Qed.
End select.

(** The hart with [c->proc] set. *)
Definition running_on (v : option nat) (h : hart) : hart :=
  mkHart (tp h) (sie h) (alter (fun c => c <| c_proc := v |>) (tp h) (cpus h)) (locks h).

Lemma running_on_quiet v h : quiet h -> quiet (running_on v h).
Proof.
  intros (c & Hc & Hn & Hi). exists (c <| c_proc := v |>). simpl.
  by rewrite list_lookup_alter_eq, Hc.
Qed.

Lemma running_on_curproc v h : quiet h -> curproc (running_on v h) = v.
Proof. intros (c & Hc & _). unfold curproc. simpl. by rewrite list_lookup_alter_eq, Hc. Qed.

Lemma c_proc_ok v h X s :
  env h X s ->
  zoom hw (mycpu_upd (fun c => c <| c_proc := v |>)) s = Ret tt (s <| hw := acquired (running_on v h) X |>)
  /\ env (running_on v h) X (s <| hw := acquired (running_on v h) X |>).
Proof.
  intros [Hq Hs Hf]. split; [|split; [by apply running_on_quiet|done|done]].
  apply zoom_Ret. rewrite Hs. unfold mycpu_upd, modify. f_equal.
  unfold acquired, running_on. hart_simpl. f_equal.
  rewrite !list_alter_alter_eq. by apply list_alter_ext.
Qed.

(** The scheduler hands the CPU to process [c] with the lock of [c] held, and
    releases it when the CPU comes back. *)
Lemma run_chosen_ok h c p s :
  env h ∅ s -> procs s !! c = Some p -> (c < NPROC)%nat -> eligible (eco_mode s) p = true ->
  exists k,
    run_chosen c s
    = Switch (s <| hw := acquired (running_on (Some c) h) {[LkProc c]} |>
                <| procs := <[c := p <| state := RUNNING |>]> (procs s) |>) k /\
    forall h' t, env h' {[LkProc c]} t -> k t = Ret tt (t <| hw := running_on None h' |>).
Proof.
  intros He Hp Hc Hel. unfold run_chosen.
  mapply (env_acquire h ∅) by first [plocktac | set_solver].
  rewrite union_empty_r_L. mapply proc_get_ok by done. msimpl.
  change (eco_mode (upd hw _ s)) with (eco_mode s). rewrite Hel. unfold when. msimpl.
  mapply (proc_upd_ok c _ p) by done.
  set (s1 := upd procs _ _).
  assert (env h {[LkProc c]} s1) as He1 by solve_env.
  destruct (c_proc_ok (Some c) h _ _ He1) as [Hset He2]. mstep Hset.
  erewrite bind_Switch by reflexivity. eexists. split; [by destruct s|].
  intros h' t Ht. cbv beta. rewrite ?obind_mbind.
  destruct (c_proc_ok None h' _ _ Ht) as [Hset' He2']. mstep Hset'.
  rewrite (env_release _ {[LkProc c]}) by first [plocktac | set_solver].
  rewrite difference_diag_L, acquired_empty by apply He2'. by destruct t.
Qed.

(** The scheduler looks again under the lock of the process it chose, and lets
    it be when it is no longer eligible. *)
Lemma run_chosen_refused h c p s :
  env h ∅ s -> procs s !! c = Some p -> (c < NPROC)%nat -> eligible (eco_mode s) p = false -> run_chosen c s = Ret tt s.
Proof.
  intros He Hp Hc Hel. unfold run_chosen.
  mapply (env_acquire h ∅) by first [plocktac | set_solver]. mapply proc_get_ok by done. msimpl.
  change (eco_mode (upd hw _ s)) with (eco_mode s). rewrite Hel. unfold when. msimpl.
  rewrite (env_release_last h ∅) by first [plocktac | set_solver]. f_equal. destruct He. kext s.
Qed.

(** ** One turn *)

(** A hart whose saved interrupt state is stale: [push_off] overwrites it. *)
Definition stale (b v : bool) (h : hart) : hart :=
  mkHart (tp h) v (alter (fun c => c <| intena := b |>) (tp h) (cpus h)) (locks h).

Lemma acquire_h_stale lk b h :
  quiet h -> acquire_h lk (stale b (sie h) h) = acquire_h lk h.
Proof.
  intros (c & Hc & Hn & Hi).
  assert (push_off_h (stale b (sie h) h) = push_off_h h) as E.
  2: { unfold acquire_h. rewrite <- !obind_mbind. by rewrite E. }
  unfold push_off_h, intr_off, mycpu_h, mycpu_upd, stale. mrun. hart_simpl.
  rewrite list_lookup_alter_eq, Hc. simpl. rewrite Hn. simpl. hart_simpl. do 2 f_equal.
  rewrite !list_alter_alter_eq. by apply list_alter_ext.
Qed.

Lemma acquire_stale lk b h s :
  quiet h -> hw s = stale b (sie h) h -> lock_free h lk ->
  acquire lk s = Ret tt (s <| hw := acquired h {[lk]} |>).
Proof.
  intros Hq Hs Hf. apply zoom_Ret. rewrite Hs, acquire_h_stale by done.
  rewrite <- (acquired_empty h Hq) at 1. rewrite (acquire_h_ok h Hq ∅ lk Hf) by set_solver.
  by rewrite union_empty_r_L.
Qed.

(** The table of a turn after the window check, and after the waiting times
    were counted. *)
Definition turn_table (s : kernel) (c : nat) (p : proc) : list proc :=
  <[c := p <| state := RUNNING |>]> (imap (bump (eco_mode s) c) (procs (after_window s))).

Lemma after_window_frame s :
  hw (after_window s) = hw s /\ eco_mode (after_window s) = eco_mode s
  /\ length (procs (after_window s)) = length (procs s).
Proof.
  unfold after_window. destruct (window_over s); [|done]. split_and!; [done..|].
  simpl. by rewrite length_map.
Qed.

Lemma after_window_hw s h : after_window (s <| hw := h |>) = after_window s <| hw := h |>.
Proof. unfold after_window. change (window_over (s <| hw := h |>)) with (window_over s). by destruct (window_over s). Qed.

Lemma after_window_parents s : parents_ok (procs s) -> parents_ok (procs (after_window s)).
Proof.
  intros Hp. unfold after_window. destruct (window_over s); [|done].
  intros i p j Hi Hj. simpl in Hi. rewrite list_lookup_fmap in Hi.
  destruct (procs s !! i) as [q|] eqn:Hq; simplify_eq/=. apply (Hp i q); [done|].
  revert Hj. unfold reset_quota. by case_bool_decide.
Qed.

Lemma bump_self eco c p : bump eco c c p = p.
Proof. unfold bump. by rewrite Nat.eqb_refl, andb_false_r. Qed.

(** The choice is made from the table as it stands after the window check. *)
Lemma scheduler_pass_ok h b v s :
  quiet h -> sie h = false -> env h ∅ (s <| hw := h |>) -> hw s = stale b v h ->
  table_ok s -> parents_ok (procs s) ->
  exists r, choice (eco_mode s) (procs (after_window s)) r /\
    match r with
    | None => scheduler_pass s = Ret tt (after_window s <| hw := h |>)
    | Some c => exists p k, procs (after_window s) !! c = Some p /\
        scheduler_pass s = Switch (after_window s <| hw := acquired (running_on (Some c) h) {[LkProc c]} |>
                                     <| procs := turn_table s c p |>) k /\
        forall h' t, env h' {[LkProc c]} t -> k t = Ret tt (t <| hw := running_on None h' |>)
    end.
Proof.
  intros Hq Hsie He Hs Ht Hpar. unfold scheduler_pass.
  set (s0 := s <| hw := h |>).
  assert (hw s0 = acquired h ∅) as Hs0 by (by rewrite acquired_empty).
  do 2 (erewrite bind_Ret by (apply zoom_Ret; reflexivity); cbv beta).
  set (s1 := upd hw _ _).
  assert (check_and_reset_quota_window s1 = check_and_reset_quota_window s0) as E.
  { unfold check_and_reset_quota_window.
    assert (hw s1 = stale b (sie h) h) as H1 by (unfold s1; simpl; by rewrite Hs, Hsie).
    rewrite (bind_Ret _ _ _ _ _ (acquire_stale LkTicks b h s1 Hq H1 (env_free _ _ _ He LkTicks eq_refl))).
    erewrite (bind_Ret _ _ s0) by (eapply (env_acquire h ∅); [done|done|set_solver]).
    rewrite union_empty_r_L. by destruct s. }
  rewrite (bind_same _ _ _ _ E). clear E.
  pose proof (after_window_frame s0) as (Hw & Heco & Hlen).
  mapply (check_window_ok h ∅) by first [done | apply no_plock_empty | set_solver].
  assert (table_ok (after_window s0)) as Ht1 by (unfold table_ok; by rewrite Hlen).
  assert (env h ∅ (after_window s0)) as He1 by (apply (env_upd _ _ s0); done).
  destruct (select_proc_ok h ∅ no_plock_empty (after_window s0)) as (r & Hr & Hch);
    [done..|by apply after_window_parents|].
  mstep Hr. exists r. clear Hr.
  assert (after_window s0 = after_window s <| hw := h |>) as E by apply after_window_hw.
  rewrite E in *. change (procs (upd hw _ ?t)) with (procs t) in *.
  rewrite Heco in Hch. split; [done|].
  destruct r as [c|]; [|done].
  assert (exists p, runs (eco_mode s) (procs (after_window s)) c p) as [p [Hp Hel]].
  { destruct Hch as [(p & _ & [Hr _] & _)|[_ [[p Hr] _] ]]; by exists p. }
  pose proof (lookup_lt_Some _ _ _ Hp) as Hc.
  assert (c < NPROC)%nat as Hc' by (unfold table_ok in Ht1; simpl in Ht1; lia).
  mapply (bump_waiting_ok h ∅) by first [done | apply no_plock_empty].
  set (s2 := upd procs _ _).
  destruct (run_chosen_ok h c p s2) as (k & Hk & Hres).
  - solve_env.
  - unfold s2. apply imap_slot with p; [done|]. apply bump_self.
  - done.
  - change (eco_mode s2) with (eco_mode (after_window s <| hw := h |>)). by rewrite Heco.
  - exists p, k. split; [done|]. split; [|done]. rewrite Hk. f_equal.
    unfold turn_table, s2. change (eco_mode (after_window s)) with (eco_mode (after_window s <| hw := h |>)).
    rewrite Heco. by destruct (after_window s).
Qed.

(** ** Properties *)

Lemma choice_runs eco ps c : choice eco ps (Some c) -> exists p, runs eco ps c p.
Proof. intros [(p & _ & [Hr _] & _)|[_ [[p Hr] _] ]]; by exists p. Qed.

(** C12: One turn of the scheduler, started with interrupts in any state.  After
    the window check it runs the eligible child of a schedtest process with the
    least PID, or the first eligible process when there is no such child; in
    quota mode a throttled process is never chosen.  The chosen process gets
    the CPU as [RUNNING] with its lock held, every other eligible process has
    waited one tick more, nothing else of the table changes, and the turn ends
    with no lock held when the CPU comes back.  With nothing eligible the turn
    does nothing. *)
Theorem scheduler_pass_correct h b v s :
  quiet h -> sie h = false -> env h ∅ (s <| hw := h |>) -> hw s = stale b v h ->
  table_ok s -> parents_ok (procs s) ->
  exists r, choice (eco_mode s) (procs (after_window s)) r /\
    match r with
    | None => scheduler_pass s = Ret tt (after_window s <| hw := h |>)
    | Some c => exists p k s', procs (after_window s) !! c = Some p
        /\ state p = RUNNABLE /\ (eco_mode s = ECO_QUOTA -> throttled p = 0)
        /\ scheduler_pass s = Switch s' k
        /\ env (running_on (Some c) h) {[LkProc c]} s'
        /\ procs s' !! c = Some (p <| state := RUNNING |>)
        /\ (forall j q, j <> c -> procs (after_window s) !! j = Some q ->
              procs s' !! j = Some (bump (eco_mode s) c j q))
        /\ forall h' t, env h' {[LkProc c]} t -> k t = Ret tt (t <| hw := running_on None h' |>)
    end.
Proof.
  intros Hq Hsie He Hs Ht Hpar.
  destruct (scheduler_pass_ok h b v s Hq Hsie He Hs Ht Hpar) as (r & Hch & Hr).
  exists r. split; [done|]. destruct r as [c|]; [|done].
  destruct Hr as (p & k & Hp & Hr & Hk).
  destruct (choice_runs _ _ _ Hch) as (p' & Hp' & Hel). simplify_eq.
  unfold eligible in Hel. apply andb_prop in Hel as [Hst Heco].
  apply bool_decide_eq_true in Hst. do 3 eexists. split; [done|]. split; [done|]. split.
  { intros E. rewrite E in Heco. simpl in Heco. lia. }
  split; [exact Hr|]. split_and!; [| | |done].
  - split; [by apply running_on_quiet|done|apply He].
  - unfold turn_table. apply slot_set. rewrite length_imap. by eapply lookup_lt_Some.
  - intros j q Hj Hq'. unfold turn_table. simpl. rewrite list_lookup_insert_ne by done.
    by rewrite list_lookup_imap, Hq'.
Qed.

(** The boot CPU in the scheduler, with interrupts off. *)
Definition sched_hart : hart :=
  mkHart 0 false (replicate NCPU (mkCpu None 0 false)) (gset_to_gmap unlocked (list_to_set static_locks)).
(** Process 1 is a schedtest with two runnable children, one of them throttled. *)
Definition sched_table : list proc :=
  <[1%nat := zero_proc <| state := RUNNABLE |> <| pid := 1 |> <| name := str "schedtest" |>]>
  (<[2%nat := zero_proc <| state := RUNNABLE |> <| pid := 2 |> <| parent := Some 1%nat |> <| throttled := 1 |>]>
  (<[3%nat := zero_proc <| state := RUNNABLE |> <| pid := 3 |> <| parent := Some 1%nat |>]>
  (replicate NPROC zero_proc))).
Definition sched_kernel : kernel := zero_kernel sched_hart <| procs := sched_table |>.

Lemma scheduler_pass_correct_witness :
  exists k s', scheduler_pass sched_kernel = Switch s' k
    /\ procs s' !! 3%nat = Some (zero_proc <| state := RUNNING |> <| pid := 3 |> <| parent := Some 1%nat |>).
Proof.
  destruct (scheduler_pass_correct sched_hart false false sched_kernel) as (r & Hch & Hr).
  - by exists (mkCpu None 0 false).
  - reflexivity.
  - split; [by exists (mkCpu None 0 false)| |apply (boot_hart_free None)].
    rewrite acquired_empty; [done|by exists (mkCpu None 0 false)].
  - reflexivity.
  - reflexivity.
  - assert (forallb (fun p => bool_decide (default 0 (parent p) < NPROC)%nat) sched_table = true) as Hb
      by (vm_compute; reflexivity).
    intros i p j Hp Hj. rewrite forallb_forall in Hb.
    specialize (Hb p). rewrite Hj in Hb. apply bool_decide_eq_true in Hb; [done|].
    apply list_elem_of_In. by eapply list_elem_of_lookup_2.
  - change (procs (after_window sched_kernel)) with sched_table in *.
    change (eco_mode sched_kernel) with ECO_QUOTA in *.
    assert (cand ECO_QUOTA sched_table 3
      (zero_proc <| state := RUNNABLE |> <| pid := 3 |> <| parent := Some 1%nat |>)) as H3
      by (split; [split|]; vm_compute; reflexivity).
    assert (r = Some 3%nat) as ->.
    { assert (forall j q, cand ECO_QUOTA sched_table j q -> j = 3%nat) as Honly.
      { intros j q [[Hj He] Hs].
        pose proof (lookup_lt_Some _ _ _ Hj) as Hlt. vm_compute in Hlt.
        do 64 (destruct j as [|j]; [vm_compute in Hj; injection Hj as <-; vm_compute in He, Hs; congruence|]).
        lia. }
      destruct r as [c|].
      - destruct Hch as [(p & _ & Hc & _)|[Hno _]]; [f_equal; by eapply Honly|].
        exfalso. eapply (Hno 3%nat); [unfold NPROC; lia|exact H3].
      - exfalso. eapply Hch. apply H3. }
    destruct Hr as (p & k & s' & Hp & _ & _ & Hsw & _ & Hrun & _).
    exists k, s'. split; [done|]. rewrite Hrun. vm_compute in Hp. injection Hp as <-. reflexivity.
Defined.

(** C33: The quota window is a window of [WINDOW_SIZE] ticks even when the 32-bit
    tick counter wraps around inside it: [d] ticks after the window began,
    the check does nothing for [d] below the size, and from then on it starts a
    new window at the current tick, clears the usage and the throttling of
    every process in use, and changes no other field of any process. *)
Theorem quota_window_correct h X s t0 d :
  env h X s -> no_plock X -> LkPr ∉ X -> LkTicks ∉ X -> table_ok s ->
  quota_window_start s = u32 t0 -> ticks s = u32 (t0 + d) -> 0 <= d < 2 ^ 32 ->
  (d < WINDOW_SIZE /\ check_and_reset_quota_window s = Ret tt s)
  \/ (WINDOW_SIZE <= d /\ exists s', check_and_reset_quota_window s = Ret tt s'
        /\ quota_window_start s' = ticks s /\ ticks s' = ticks s
        /\ forall i p, procs s !! i = Some p ->
             procs s' !! i = Some (if decide (state p = UNUSED) then p
                                   else p <| cpu_used_in_window := 0 |> <| throttled := 0 |>)).
Proof.
  intros He HX Hpr Hti Ht Hst Htk Hd.
  rewrite (check_window_ok h X HX Hpr s He Ht Hti). unfold after_window, window_over.
  rewrite Hst, Htk, u32_sub_wrap by done. destruct (Z.geb_spec d WINDOW_SIZE); [right|left].
  - split; [done|]. eexists. split; [done|]. split_and!; [done..|].
    intros i p Hp. simpl. rewrite list_lookup_fmap, Hp. simpl. unfold reset_quota.
    by case_bool_decide; case_decide.
  - by split; [lia|].
Qed.

Lemma quota_window_correct_witness :
  exists s', check_and_reset_quota_window
    (table_kernel None ∅ (replicate NPROC (zero_proc <| state := RUNNABLE |> <| throttled := 1 |>))
       <| quota_window_start := 2 ^ 32 - 40 |> <| ticks := 60 |>) = Ret tt s'
    /\ quota_window_start s' = 60
    /\ procs s' !! 0%nat = Some (zero_proc <| state := RUNNABLE |>).
Proof.
  destruct (quota_window_correct (boot_hart None) ∅
    (table_kernel None ∅ (replicate NPROC (zero_proc <| state := RUNNABLE |> <| throttled := 1 |>))
       <| quota_window_start := 2 ^ 32 - 40 |> <| ticks := 60 |>) (2 ^ 32 - 40) 100)
    as [[Hd _]|(_ & s' & Hs & Hw & _ & Hp)].
  - split; [apply boot_hart_quiet|done|apply boot_hart_free].
  - apply no_plock_empty.
  - set_solver.
  - set_solver.
  - reflexivity.
  - reflexivity.
  - reflexivity.
  - lia.
  - unfold WINDOW_SIZE in Hd. lia.
  - exists s'. split; [exact Hs|]. split; [exact Hw|].
    rewrite (Hp 0%nat (zero_proc <| state := RUNNABLE |> <| throttled := 1 |>)); reflexivity.
Defined.
