(* ===== verification/Sleeplock.v ===== *)
(** * Sleep locks

    [kernel/sleeplock.c].  The waiting loop of [acquiresleep] goes round
    [patience] times. *)

From stdpp Require Import base numbers gmap sets strings option list.
From S2P Require Import Prelude Machine Spinlock Proc.

Definition no_sleeplock : sleeplock := mkSleeplock 0 0.
Definition sl_get (l : slid) : K sleeplock := gets (fun s => default no_sleeplock (sleeplocks s !! l)).
Definition sl_put (l : slid) (v : sleeplock) : K () := modify (fun s => s <| sleeplocks ::= <[l := v]> |>).

Definition initsleeplock (l : slid) : K () :=
  initlock (LkSleep l);;
  sl_put l (mkSleeplock 0 0).

Section ops.
Context `{Patience}.

Definition acquiresleep (l : slid) : K () :=
  acquire (LkSleep l);;
  whileM patience (lk ← sl_get l; mret (negb (sl_locked lk =? 0))) (sleep (ChSleep l) (LkSleep l));;
  i ← myproc; i ← deref i; p ← proc_get i;
  sl_put l (mkSleeplock 1 (pid p));;
  release (LkSleep l).
End ops.

Definition releasesleep (l : slid) : K () :=
  acquire (LkSleep l);;
  sl_put l (mkSleeplock 0 0);;
  wakeup (ChSleep l);;
  release (LkSleep l).

(** [&&] reads the current process only when the lock is taken. *)
Definition holdingsleep (l : slid) : K bool :=
  acquire (LkSleep l);;
  lk ← sl_get l;
  r ← (if sl_locked lk =? 0 then mret false
       else i ← myproc; i ← deref i; p ← proc_get i; mret (sl_pid lk =? pid p));
  release (LkSleep l);;
  mret r.
