(* ===== verification/SleeplockSpec.v ===== *)
(** * Sleep locks at work

    What the operations of [Sleeplock] do to the lock table and the process
    table, for any hart and any set of held locks without process locks. *)

From stdpp Require Import base numbers gmap sets strings option list.
From S2P Require Import Prelude Machine Spinlock CString Printf Kalloc Vm Proc ProcSpec Sleeplock.

Definition sl_of (l : slid) (s : kernel) : sleeplock := default no_sleeplock (sleeplocks s !! l).

Lemma sl_get_ok l s : sl_get l s = Ret (sl_of l s) s.
Proof. done. Qed.

(** The table after [wakeup], seen from the process that runs on [h]. *)
Definition woken (h : hart) (ch : channel) (ps : list proc) : list proc :=
  imap (fun i p => if decide (curproc h = Some i) then p else wake ch p) ps.

Lemma woken_length h ch ps : length (woken h ch ps) = length ps.
Proof. apply length_imap. Qed.
Lemma woken_current h ch ps i : curproc h = Some i -> woken h ch ps !! i = ps !! i.
Proof.
  intros Hi. unfold woken. rewrite list_lookup_imap. destruct (ps !! i); simpl; [|done].
  by rewrite decide_True.
Qed.

Lemma taken_ok l s :
  (lk ← sl_get l; mret (negb (sl_locked lk =? 0)) : K bool) s = Ret (negb (sl_locked (sl_of l s) =? 0)) s.
Proof. done. Qed.

Section ops.
Context (h : hart) (X : gset lockid) (HX : no_plock X).
Context (l : slid) (Hl : static_lock (LkSleep l) = true) (HlX : LkSleep l ∉ X).
Context (i : nat) (Hi : curproc h = Some i).

Lemma acquiresleep_free `{Patience} p s :
  env h X s -> procs s !! i = Some p -> sl_locked (sl_of l s) = 0 ->
  acquiresleep l s = Ret tt (s <| sleeplocks ::= <[l := mkSleeplock 1 (pid p)]> |>).
Proof.
  intros He Hp Hfree. unfold acquiresleep.
  mapply (env_acquire h X) by plocktac.
  erewrite bind_Ret; [|apply whileM_done; rewrite taken_ok; change (sl_of l _) with (sl_of l s);
    by rewrite Hfree].
  mapply (env_myproc h ({[LkSleep l]} ∪ X)) by plocktac. rewrite Hi. msimpl.
  mapply proc_get_ok by done. unfold sl_put. msimpl.
  rewrite (env_release_last h X) by plocktac. f_equal. destruct He. kext s.
Qed.

Lemma releasesleep_ok s :
  env h X s -> table_ok s ->
  releasesleep l s = Ret tt (s <| sleeplocks ::= <[l := mkSleeplock 0 0]> |>
                               <| procs ::= woken h (ChSleep l) |>).
Proof.
  intros He Ht. unfold releasesleep.
  mapply (env_acquire h X) by plocktac. unfold sl_put. msimpl.
  mapply (wakeup_ok h ({[LkSleep l]} ∪ X)) by first [by apply no_plock_add | solve_env | done].
  rewrite (env_release_last h X) by plocktac. f_equal. destruct He. kext s.
Qed.

Lemma holdingsleep_ok p s :
  env h X s -> procs s !! i = Some p ->
  holdingsleep l s = Ret (negb (sl_locked (sl_of l s) =? 0) && (sl_pid (sl_of l s) =? pid p)) s.
Proof.
  intros He Hp. unfold holdingsleep.
  mapply (env_acquire h X) by plocktac.
  mapply sl_get_ok by idtac.
  assert (forall r s', s' = s <| hw := acquired h ({[LkSleep l]} ∪ X) |> ->
    (release (LkSleep l);; mret r : K bool) s' = Ret r s) as Hrel.
  { intros r s' ->. mapply (env_release_last h X) by plocktac. unfold mret, M_ret. f_equal. destruct He. kext s. }
  change (sl_of l (upd hw _ s)) with (sl_of l s).
  destruct (sl_locked (sl_of l s) =? 0); simpl.
  - msimpl. by apply Hrel.
  - mapply (env_myproc h ({[LkSleep l]} ∪ X)) by plocktac. rewrite Hi. msimpl.
    mapply proc_get_ok by done. msimpl. by apply Hrel.
Qed.
End ops.

(** ** Waiting for a lock *)

Section wait.
Context (l : slid) (Hl : static_lock (LkSleep l) = true).
Context (i : nat) (Hlt : (i < NPROC)%nat).

(** The part of [acquiresleep] after its first lock operation. *)
Definition wait_loop (n : nat) : K () :=
  whileM n (lk ← sl_get l; mret (negb (sl_locked lk =? 0))) (sleep (ChSleep l) (LkSleep l));;
  i ← myproc; i ← deref i; p ← proc_get i;
  sl_put l (mkSleeplock 1 (pid p));;
  release (LkSleep l).

Lemma wait_loop_free n h p s :
  env h {[LkSleep l]} s -> curproc h = Some i -> procs s !! i = Some p -> sl_locked (sl_of l s) = 0 ->
  wait_loop n s = Ret tt (s <| sleeplocks ::= <[l := mkSleeplock 1 (pid p)]> |> <| hw := h |>).
Proof.
  intros He Hi Hp Hfree. unfold wait_loop.
  erewrite bind_Ret; [|apply whileM_done; rewrite taken_ok; change (sl_of l _) with (sl_of l s);
    by rewrite Hfree].
  mapply (env_myproc h {[LkSleep l]}) by done. rewrite Hi. msimpl.
  mapply proc_get_ok by done. unfold sl_put. msimpl.
  rewrite (env_release h {[LkSleep l]}) by first [plocktac | set_solver].
  rewrite difference_diag_L, acquired_empty by apply He. done.
Qed.

Lemma wait_loop_taken n h p s :
  env h {[LkSleep l]} s -> curproc h = Some i -> procs s !! i = Some p -> sl_locked (sl_of l s) <> 0 ->
  exists k,
    wait_loop (S n) s
    = Switch (s <| hw := acquired h {[LkProc i]} |> <| procs := <[i := asleep (ChSleep l) p]> (procs s) |>) k /\
    forall h' t q, env h' {[LkProc i]} t -> procs t !! i = Some q ->
      k t = wait_loop n (t <| hw := acquired (resumed (sie h) h') {[LkSleep l]} |>
                           <| procs := <[i := q <| chan := None |>]> (procs t) |>).
Proof.
  intros He Hi Hp Htk. unfold wait_loop at 1. simpl whileM. rewrite bind_assoc.
  erewrite bind_Ret; [|apply taken_ok]. cbv beta. rewrite (proj2 (Z.eqb_neq _ _)) by done. cbn [negb].
  destruct (sleep_ok h i Hlt Hi (ChSleep l) (LkSleep l) p s He Hl ltac:(done) Hp) as (k & Hs & Hk).
  mstep Hs. eexists. split; [reflexivity|]. intros h' t q Ht Hq. cbv beta.
  rewrite (Hk h' t q) by done. simpl obind. unfold wait_loop. reflexivity.
Qed.

Lemma acquiresleep_wait `{Patience} h s :
  env h ∅ s -> acquiresleep l s = wait_loop patience (s <| hw := acquired h {[LkSleep l]} |>).
Proof.
  intros He. unfold acquiresleep.
  mapply (env_acquire h ∅) by first [plocktac | set_solver]. by rewrite union_empty_r_L.
Qed.
End wait.

(** ** Property *)

(** C37: A taken sleep lock is handed over without a lost wakeup.  A process that
    asks for it gives up the CPU asleep on the lock, leaving the lock as it
    was and holding only its own process lock.  The owner's [releasesleep]
    frees the lock and makes the waiter runnable, whatever else has happened
    in between.  Switched to, the waiter either finds the lock free and returns
    as its owner with no spin lock held, or finds that somebody else was faster
    and sleeps again. *)
Theorem sleeplock_handoff `{Patience} l h i p s :
  static_lock (LkSleep l) = true -> (i < NPROC)%nat -> (0 < patience)%nat ->
  env h ∅ s -> curproc h = Some i -> procs s !! i = Some p -> sl_locked (sl_of l s) <> 0 ->
  exists s1 k, acquiresleep l s = Switch s1 k
    /\ env h {[LkProc i]} s1 /\ procs s1 = <[i := asleep (ChSleep l) p]> (procs s) /\ sl_of l s1 = sl_of l s
    /\ (forall h2 X t j, env h2 X t -> no_plock X -> LkSleep l ∉ X -> table_ok t ->
          curproc h2 = Some j -> j <> i -> procs t !! i = Some (asleep (ChSleep l) p) ->
          exists t', releasesleep l t = Ret tt t' /\ env h2 X t' /\ sl_locked (sl_of l t') = 0
            /\ procs t' !! i = Some (asleep (ChSleep l) p <| state := RUNNABLE |>))
    /\ (forall h' t q, env h' {[LkProc i]} t -> curproc h' = Some i -> procs t !! i = Some q ->
          if sl_locked (sl_of l t) =? 0
          then exists t', k t = Ret tt t' /\ env (resumed (sie h) h') ∅ t'
            /\ sl_of l t' = mkSleeplock 1 (pid q) /\ procs t' = <[i := q <| chan := None |>]> (procs t)
          else (1 < patience)%nat ->
            exists t' k', k t = Switch t' k' /\ sl_of l t' = sl_of l t
              /\ procs t' !! i = Some (asleep (ChSleep l) q)).
Proof.
  intros Hl Hlt Hpat He Hi Hp Htk. rewrite (acquiresleep_wait l Hl h) by done.
  destruct patience as [|n]; [lia|].
  destruct (wait_loop_taken l Hl i Hlt n h p (s <| hw := acquired h {[LkSleep l]} |>))
    as (k & Hs & Hk); [by apply (env_add h ∅)|done..|].
  do 2 eexists. split; [exact Hs|]. split_and!; [solve_env|done|done| |].
  - intros h2 X t j Ht HX HlX Htab Hj Hji Hti. eexists. split; [by apply (releasesleep_ok h2 X)|].
    split; [solve_env|]. split.
    + unfold sl_of. simpl. by rewrite lookup_insert_eq.
    + change (woken h2 (ChSleep l) (procs t) !! i = Some (asleep (ChSleep l) p <| state := RUNNABLE |>)).
      unfold woken. rewrite list_lookup_imap, Hti. simpl. rewrite decide_False by congruence.
      unfold wake. by rewrite bool_decide_eq_true_2.
  - intros h' t q Ht Hi' Hq. rewrite (Hk h' t q) by done.
    set (t1 := t <| hw := _ |> <| procs := _ |>).
    assert (env (resumed (sie h) h') {[LkSleep l]} t1) as He1
      by (pose proof (env_resumed (sie h) _ _ _ Ht); solve_env).
    assert (procs t1 !! i = Some (q <| chan := None |>)) as Hq1
      by (apply slot_set; by eapply lookup_lt_Some).
    assert (curproc (resumed (sie h) h') = Some i) as Hi1 by (by rewrite resumed_curproc).
    destruct (Z.eqb_spec (sl_locked (sl_of l t)) 0) as [Hf|Hf].
    + eexists. split; [by apply (wait_loop_free l Hl i Hlt n (resumed (sie h) h') (q <| chan := None |>))|].
      split; [split; [apply He1| |apply He1]; simpl; by rewrite acquired_empty by apply He1|]. split; [|done].
      unfold sl_of. simpl. by rewrite lookup_insert_eq.
    + intros Hn. destruct n as [|n]; [lia|].
      destruct (wait_loop_taken l Hl i Hlt n _ _ t1 He1 Hi1 Hq1 Hf) as (k' & Hs' & _).
      do 2 eexists. split; [exact Hs'|]. split; [done|].
      apply slot_set. by eapply lookup_lt_Some.
Qed.

(** Process 0 waits for the lock of buffer 3, which the process with PID 9 has. *)
Definition waiting_kernel : kernel :=
  table_kernel (Some 0%nat) ∅ (<[0%nat := zero_proc <| state := RUNNING |>]> (replicate NPROC zero_proc))
    <| sleeplocks := {[SlBuf 3 := mkSleeplock 1 9]} |>.

Lemma sleeplock_handoff_witness :
  exists s k, @acquiresleep 1%nat (SlBuf 3) waiting_kernel = Switch s k /\ sl_of (SlBuf 3) s = mkSleeplock 1 9.
Proof.
  destruct (@sleeplock_handoff 1%nat (SlBuf 3) (boot_hart (Some 0%nat)) 0 (zero_proc <| state := RUNNING |>)
    waiting_kernel) as (s1 & k & Hs & _ & _ & Hl & _).
  - reflexivity.
  - unfold NPROC. lia.
  - unfold patience. lia.
  - split; [apply boot_hart_quiet|done|apply boot_hart_free].
  - reflexivity.
  - reflexivity.
  - discriminate.
  - exists s1, k. split; [exact Hs|]. exact Hl.
Defined.
