(* ===== verification/Console.v ===== *)
(** * The UART and the console

    [kernel/uart.c] and [kernel/console.c].  The bytes that wait in the UART's
    receive register are the field [uart_rx]; bytes written to its transmit
    register are appended to [out]. *)

From stdpp Require Import base numbers gmap sets strings option list.
From Stdlib Require Import Ascii.
From S2P Require Import Prelude Machine Spinlock CString Printf Kalloc Vm Proc.

(** A write to a device register. *)
Definition mmio_write (a v : Z) : K () := modify (fun s => s <| mmio ::= fun l => l ++ [(a, v)] |>).

Definition INPUT_BUF_SIZE : Z := 128.
Definition CONSOLE : nat := 1.
(** Control-x *)
Definition ctrl (x : Z) : Z := x - ch "@".

Definition uartinit : K () :=
  forM [(1, 0x00); (3, 0x80); (0, 0x03); (1, 0x00); (3, 0x03); (2, Z.lor 1 6); (1, Z.lor 2 1)]
    (fun '(reg, v) => mmio_write (UART0 + reg) v);;
  initlock LkTx.

Definition cons_upd (f : console -> console) : K () := modify (fun s => s <| kcons ::= f |>).

Section ops.
Context `{Link, Patience}.

Definition uartwrite (buf : list Z) : K () :=
  acquire LkTx;;
  forM buf (fun c =>
    whileM patience (b ← gets tx_busy; mret (negb (b =? 0))) (sleep ChTx LkTx);;
    modify (fun s => s <| out ::= fun o => o ++ [c] |>);;
    modify (fun s => s <| tx_busy := 1 |>));;
  release LkTx.

(** The 32-byte batches; each goes round with at least one byte less. *)
Fixpoint consolewrite_loop (fuel : nat) (src : Z + list Z) (n i : Z) : K Z :=
  match fuel with
  | O => mret i
  | S fuel =>
      if i <? n then
        let nn := Z.min 32 (n - i) in
        let at_i := match src with inl a => inl (u64 (a + i)) | inr l => inr (drop (Z.to_nat i) l) end in
        '(r, buf) ← either_copyin at_i nn;
        if r =? -1 then mret i
        else uartwrite buf;; consolewrite_loop fuel src n (i + nn)
      else mret i
  end.
Definition consolewrite (src : Z + list Z) (n : Z) : K Z := consolewrite_loop (Z.to_nat n) src n 0.

(** Wait for input; [false] when the process was killed meanwhile. *)
Definition cons_wait : K bool :=
  iterM (S patience) (fun _ : () =>
    c ← gets kcons;
    if c_r c =? c_w c then
      i ← myproc; i ← deref i;
      k ← killed i;
      if negb (k =? 0) then mret (inr false)
      else sleep ChCons LkCons;; mret (inl tt)
    else mret (inr true)) tt.

(** [fuel] is the number of bytes still wanted; [acc] is what a kernel
    destination has received. *)
Fixpoint consoleread_loop (fuel : nat) (dst : option Z) (target n : Z) (acc : list Z) : K (Z * list Z) :=
  match fuel with
  | O => release LkCons;; mret (target - n, acc)
  | S fuel =>
      ok ← cons_wait;
      if negb ok then release LkCons;; mret (-1, acc)
      else
        co ← gets kcons;
        c ← deref (c_buf co !! Z.to_nat (c_r co mod INPUT_BUF_SIZE));
        cons_upd (fun co => co <| c_r ::= fun r => u32 (r + 1) |>);;
        if c =? ctrl (ch "D") then
          when (n <? target) (cons_upd (fun co => co <| c_r ::= fun r => u32 (r - 1) |>));;
          release LkCons;; mret (target - n, acc)
        else
          '(r, bs) ← either_copyout dst [c];
          if r =? -1 then release LkCons;; mret (target - n, acc)
          else
            let dst := (fun a => u64 (a + 1)) <$> dst in
            let n := n - 1 in
            if c =? 10 then release LkCons;; mret (target - n, acc ++ bs)
            else consoleread_loop fuel dst target n (acc ++ bs)
  end.
Definition consoleread (dst : option Z) (n : Z) : K (Z * list Z) :=
  acquire LkCons;;
  consoleread_loop (Z.to_nat n) dst n n [].
End ops.

(** Control-U: the edit index moves back to the end of the last line. *)
Definition kill_line : K () :=
  co ← gets kcons;
  whileM (Z.to_nat (u32 (c_e co - c_w co)))
    (co ← gets kcons;
     if c_e co =? c_w co then mret false
     else
       c ← deref (c_buf co !! Z.to_nat (u32 (c_e co - 1) mod INPUT_BUF_SIZE));
       mret (negb (c =? 10)))
    (cons_upd (fun co => co <| c_e ::= fun e => u32 (e - 1) |>);; consputc BACKSPACE).

Definition consoleintr (c : Z) : K () :=
  acquire LkCons;;
  (if c =? ctrl (ch "P") then procdump
   else if c =? ctrl (ch "U") then kill_line
   else if (c =? ctrl (ch "H")) || (c =? 0x7f) then
     co ← gets kcons;
     when (negb (c_e co =? c_w co))
       (cons_upd (fun co => co <| c_e ::= fun e => u32 (e - 1) |>);; consputc BACKSPACE)
   else
     co ← gets kcons;
     when (negb (c =? 0) && (u32 (c_e co - c_r co) <? INPUT_BUF_SIZE))
       (let c := if c =? 13 then 10 else c in
        consputc c;;
        cons_upd (fun co => co <| c_buf ::= <[Z.to_nat (c_e co mod INPUT_BUF_SIZE) := u8 c]> |>
                               <| c_e ::= fun e => u32 (e + 1) |>);;
        co ← gets kcons;
        when ((c =? 10) || (c =? ctrl (ch "D")) || (u32 (c_e co - c_r co) =? INPUT_BUF_SIZE))
          (cons_upd (fun co => co <| c_w := c_e co |>);; wakeup ChCons)));;
  release LkCons.

Definition uartgetc : K Z :=
  l ← gets uart_rx;
  match l with
  | [] => mret (-1)
  | c :: l => modify (fun s => s <| uart_rx := l |>);; mret c
  end.

Definition uartintr : K () :=
  acquire LkTx;;
  idle ← gets uart_tx_idle;
  when idle (modify (fun s => s <| tx_busy := 0 |>);; wakeup ChTx);;
  release LkTx;;
  l ← gets uart_rx;
  iterM (S (length l)) (fun _ : () =>
    c ← uartgetc;
    if c =? -1 then mret (inr tt) else consoleintr c;; mret (inl tt)) tt.

Definition consoleinit : K () :=
  initlock LkCons;;
  uartinit;;
  modify (fun s => s <| devsw ::= <[CONSOLE := true]> |>).
