(* ===== verification/Pipe.v ===== *)
(** * Pipes

    [kernel/pipe.c] ([pipealloc], which allocates files, is in [File]).  The
    [struct pipe] in the page at address [pi] is [pipes !! pi].  The writer is
    participant 0 of Peterson's protocol, the reader participant 1; waiting is
    by [yield], at most [patience] times. *)

From stdpp Require Import base numbers gmap sets strings option list.
From S2P Require Import Prelude Machine Spinlock CString Kalloc Vm Proc.

Definition pipe_get (pi : Z) : K pipe := ps ← gets pipes; deref (ps !! pi).
Definition pipe_upd (pi : Z) (f : pipe -> pipe) : K () := modify (fun s => s <| pipes ::= alter f pi |>).

Section ops.
Context `{Link, Patience}.

Definition peterson_enter (pi : Z) (me : nat) : K () :=
  let other := (1 - me)%nat in
  pipe_upd pi (fun p => p <| want ::= <[me := 1]> |>);;
  pipe_upd pi (fun p => p <| turn := Z.of_nat other |>);;
  whileM patience
    (p ← pipe_get pi;
     w ← deref (want p !! other);
     mret (negb (w =? 0) && (turn p =? Z.of_nat other)))
    yield.

Definition peterson_exit (pi : Z) (me : nat) : K () :=
  pipe_upd pi (fun p => p <| want ::= <[me := 0]> |>).

Definition pipeclose (pi : Z) (writable : bool) : K () :=
  let lk := LkPipe (Z.to_nat pi) in
  acquire lk;;
  (if writable then
     pipe_upd pi (fun p => p <| writeopen := 0 |>);;
     wakeup (ChPipeRead (Z.to_nat pi))
   else
     pipe_upd pi (fun p => p <| readopen := 0 |>);;
     wakeup (ChPipeWrite (Z.to_nat pi)));;
  p ← pipe_get pi;
  if (readopen p =? 0) && (writeopen p =? 0) then
    release lk;;
    modify (fun s => s <| pipes ::= delete pi |>);;
    kfree pi
  else release lk.

(** One turn of the loop of [pipewrite]: [inl] the next [i], or the result. *)
Definition pipewrite_turn (pi : Z) (pr : nat) (addr n : Z) (i : Z) : K (Z + Z) :=
  if i <? n then
    p ← pipe_get pi;
    stop ← (if readopen p =? 0 then mret true else k ← killed pr; mret (negb (k =? 0)));
    if stop : bool then mret (inr (-1))
    else
      q ← proc_get pr;
      '(r, c) ← copyin (pagetable q) (u64 (addr + i)) 1;
      if r =? -1 then mret (inr i)
      else
        c ← deref (c !! 0%nat);
        peterson_enter pi 0;;
        p ← pipe_get pi;
        if readopen p =? 0 then peterson_exit pi 0;; mret (inr (-1))
        else if nwrite p =? u32 (nread p + PIPESIZE) then
          peterson_exit pi 0;; yield;; mret (inl i)
        else
          pipe_upd pi (fun p => p <| p_data ::= <[Z.to_nat (nwrite p mod PIPESIZE) := c]> |>
                                  <| nwrite ::= fun w => u32 (w + 1) |>);;
          peterson_exit pi 0;;
          mret (inl (i + 1))
  else mret (inr i).
Definition pipewrite (pi addr n : Z) : K Z :=
  pr ← myproc; pr ← deref pr;
  iterM (S (Z.to_nat n + patience)) (pipewrite_turn pi pr addr n) 0.

Definition piperead_turn (pi : Z) (pr : nat) (addr n : Z) (i : Z) : K (Z + Z) :=
  if i <? n then
    k ← killed pr;
    if negb (k =? 0) then mret (inr (-1))
    else
      peterson_enter pi 1;;
      p ← pipe_get pi;
      if nread p =? nwrite p then
        if writeopen p =? 0 then peterson_exit pi 1;; mret (inr i)
        else peterson_exit pi 1;; yield;; mret (inl i)
      else
        c ← deref (p_data p !! Z.to_nat (nread p mod PIPESIZE));
        pipe_upd pi (fun p => p <| nread ::= fun r => u32 (r + 1) |>);;
        peterson_exit pi 1;;
        q ← proc_get pr;
        r ← copyout (pagetable q) (u64 (addr + i)) [c];
        if r =? -1 then mret (inr (if i =? 0 then -1 else i))
        else mret (inl (i + 1))
  else mret (inr i).
Definition piperead (pi addr n : Z) : K Z :=
  pr ← myproc; pr ← deref pr;
  iterM (S (Z.to_nat n + patience)) (piperead_turn pi pr addr n) 0.
End ops.
