(* ===== verification/PipeSpec.v ===== *)
(** * Pipes: mutual exclusion and order of the bytes

    The accesses that [pipewrite] and [piperead] make to a shared [struct
    pipe], one step per access on sequentially consistent memory, for any
    number of threads.  A thread has a
    role, 0 for a writer and 1 for a reader, which is its participant number in
    Peterson's protocol. *)

From stdpp Require Import base numbers gmap sets strings option functions relations list.
From S2P Require Import Prelude Machine Spinlock CString Kalloc Vm Proc ProcSpec Pipe.

(** ** The threads of one pipe *)

(** Where a thread is: outside, after [want[me] = 1], before the test of
    [want[other]], before the test of [turn], or inside with the byte it carries:
    before the test for a full or empty ring, before the load of its counter,
    with the counter [n] in a register, before the store of the new counter,
    before the store to [data], and before [want[me] = 0]. *)
Inductive ppc :=
| Outside | Wanting | TestWant | TestTurn
| Check (c : Z) | Access (c : Z) | Loaded (c n : Z) | Bump (c n : Z) | Fill (c n : Z) | Leave.

#[export] Instance ppc_eq_dec : EqDecision ppc.
Proof. solve_decision. Defined.

Definition inside (pc : ppc) : bool :=
  match pc with Outside | Wanting | TestWant | TestTurn => false | _ => true end.
(** Past [turn = other]. *)
Definition entering (pc : ppc) : bool :=
  match pc with Outside | Wanting => false | _ => true end.

(** The pipe, where each thread is, and the bytes written and read so far. *)
Record psys := mkPsys { ps_pipe : pipe; ps_pc : nat -> ppc; written : list Z; got : list Z }.

Definition pgoto (t : nat) (pc : ppc) (p : pipe) (y : psys) : psys :=
  mkPsys p (<[t := pc]> (ps_pc y)) (written y) (got y).

Section steps.
Context (threads : list nat) (role : nat -> nat).
Definition other (t : nat) : nat := (1 - role t)%nat.

Inductive pstep : psys -> psys -> Prop :=
(* peterson_enter *)
| p_want t y :
    t ∈ threads -> ps_pc y t = Outside ->
    pstep y (pgoto t Wanting (ps_pipe y <| want ::= <[role t := 1]> |>) y)
| p_turn t y :
    t ∈ threads -> ps_pc y t = Wanting ->
    pstep y (pgoto t TestWant (ps_pipe y <| turn := Z.of_nat (other t) |>) y)
| p_test_want t y w c :
    t ∈ threads -> ps_pc y t = TestWant -> want (ps_pipe y) !! other t = Some w ->
    pstep y (pgoto t (if w =? 0 then Check c else TestTurn) (ps_pipe y) y)
| p_test_turn t y c :
    t ∈ threads -> ps_pc y t = TestTurn ->
    pstep y (pgoto t (if turn (ps_pipe y) =? Z.of_nat (other t) then TestWant else Check c) (ps_pipe y) y)
(* the writer's critical section, with the byte [c] it copied in before *)
| p_full t y c :
    t ∈ threads -> ps_pc y t = Check c -> role t = 0%nat ->
    pstep y (pgoto t (if readopen (ps_pipe y) =? 0 then Leave
                      else if nwrite (ps_pipe y) =? u32 (nread (ps_pipe y) + PIPESIZE) then Leave
                      else Access c) (ps_pipe y) y)
(* [data[nwrite++ % PIPESIZE] = c]: one load, and two stores in either order *)
| p_nload t y c :
    t ∈ threads -> ps_pc y t = Access c -> role t = 0%nat ->
    pstep y (pgoto t (Loaded c (nwrite (ps_pipe y))) (ps_pipe y) y)
| p_store t y c n :
    t ∈ threads -> ps_pc y t = Loaded c n -> role t = 0%nat ->
    pstep y (pgoto t (Bump c n) (ps_pipe y <| p_data ::= <[Z.to_nat (n mod PIPESIZE) := c]> |>) y)
| p_nwrite t y c n :
    t ∈ threads -> ps_pc y t = Bump c n -> role t = 0%nat ->
    pstep y (mkPsys (ps_pipe y <| nwrite := u32 (n + 1) |>) (<[t := Leave]> (ps_pc y)) (written y ++ [c]) (got y))
| p_nwrite_first t y c n :
    t ∈ threads -> ps_pc y t = Loaded c n -> role t = 0%nat ->
    pstep y (mkPsys (ps_pipe y <| nwrite := u32 (n + 1) |>) (<[t := Fill c n]> (ps_pc y)) (written y ++ [c]) (got y))
| p_store_last t y c n :
    t ∈ threads -> ps_pc y t = Fill c n -> role t = 0%nat ->
    pstep y (pgoto t Leave (ps_pipe y <| p_data ::= <[Z.to_nat (n mod PIPESIZE) := c]> |>) y)
(* the reader's critical section *)
| p_empty t y c :
    t ∈ threads -> ps_pc y t = Check c -> role t = 1%nat ->
    pstep y (pgoto t (if nread (ps_pipe y) =? nwrite (ps_pipe y) then Leave else Access c) (ps_pipe y) y)
(* [ch = data[nread % PIPESIZE]; nread++]: the counter may be loaded again *)
| p_rload t y c :
    t ∈ threads -> ps_pc y t = Access c -> role t = 1%nat ->
    pstep y (pgoto t (Loaded c (nread (ps_pipe y))) (ps_pipe y) y)
| p_load t y c n b :
    t ∈ threads -> ps_pc y t = Loaded c n -> role t = 1%nat ->
    p_data (ps_pipe y) !! Z.to_nat (n mod PIPESIZE) = Some b ->
    pstep y (pgoto t (Bump b n) (ps_pipe y) y)
| p_reload t y b n :
    t ∈ threads -> ps_pc y t = Bump b n -> role t = 1%nat ->
    pstep y (pgoto t (Bump b (nread (ps_pipe y))) (ps_pipe y) y)
| p_nread t y b n :
    t ∈ threads -> ps_pc y t = Bump b n -> role t = 1%nat ->
    pstep y (mkPsys (ps_pipe y <| nread := u32 (n + 1) |>) (<[t := Leave]> (ps_pc y)) (written y) (got y ++ [b]))
(* peterson_exit *)
| p_leave t y :
    t ∈ threads -> ps_pc y t = Leave ->
    pstep y (pgoto t Outside (ps_pipe y <| want ::= <[role t := 0]> |>) y)
(* pipeclose, under the spin lock *)
| p_close y ro wo :
    pstep y (mkPsys (ps_pipe y <| readopen := ro |> <| writeopen := wo |>) (ps_pc y) (written y) (got y)).

(** ** Mutual exclusion *)

(** A writer and a reader at most. *)
Definition two_party : Prop :=
  (forall t, t ∈ threads -> role t < 2)%nat
  /\ forall t t', t ∈ threads -> t' ∈ threads -> role t = role t' -> t = t'.

(** [want] announces every thread that is not outside, and when two threads
    compete [turn] belongs to the one that is inside. *)
Record pinv (y : psys) : Prop := {
  pi_len : length (want (ps_pipe y)) = 2%nat;
  pi_thr : forall t, ps_pc y t <> Outside -> t ∈ threads;
  pi_turn : turn (ps_pipe y) = 0 \/ turn (ps_pipe y) = 1;
  pi_want : forall t, ps_pc y t <> Outside -> want (ps_pipe y) !! role t = Some 1;
  pi_excl : forall t t', t <> t' -> inside (ps_pc y t) = true -> entering (ps_pc y t') = true ->
    turn (ps_pipe y) = Z.of_nat (role t)
}.

Lemma inside_entering pc : inside pc = true -> entering pc = true.
Proof. by destruct pc. Qed.

Context (H2 : two_party).

Lemma role_ne t t' : t ∈ threads -> t' ∈ threads -> t <> t' -> role t' = other t.
Proof.
  destruct H2 as [Hr Hinj]. intros Ht Ht' Hne. pose proof (Hr t Ht). pose proof (Hr t' Ht'). unfold other.
  destruct (decide (role t = role t')) as [E|]; [by apply Hinj in E|lia].
Qed.

(** A thread that moves is a thread afterwards too. *)
Lemma thr_move (pcs : nat -> ppc) t pc :
  t ∈ threads -> (forall u, pcs u <> Outside -> u ∈ threads) ->
  forall u, <[t := pc]> pcs u <> Outside -> u ∈ threads.
Proof.
  intros Ht Hp u. destruct (decide (t = u)) as [<-|]; [done|]. rewrite fn_lookup_insert_ne by done. apply Hp.
Qed.

Lemma not_outside pc : entering pc = true -> pc <> Outside.
Proof. by destruct pc. Qed.

Lemma pinv_exclusive y t t' :
  pinv y -> t <> t' -> inside (ps_pc y t) = true -> inside (ps_pc y t') = true -> False.
Proof.
  intros [_ Hth _ _ He] Hne Ht Ht'. apply inside_entering in Ht as Et, Ht' as Et'.
  pose proof (He t t' Hne Ht Et') as E1. pose proof (He t' t (not_eq_sym Hne) Ht' Et) as E2.
  apply not_outside, Hth in Et, Et'.
  pose proof (role_ne t t' Et Et' Hne) as E3. unfold other in E3. pose proof (proj1 H2 t Et). lia.
Qed.

(** A step that moves thread [t] to [pc] and leaves [want] and [turn] alone. *)
Lemma pinv_move y t pc p W R :
  pinv y -> want p = want (ps_pipe y) -> turn p = turn (ps_pipe y) ->
  ps_pc y t <> Outside ->
  (entering pc = true -> entering (ps_pc y t) = true) ->
  (inside pc = true -> inside (ps_pc y t) = true) ->
  pinv (mkPsys p (<[t := pc]> (ps_pc y)) W R).
Proof.
  intros [Hl Hth Ht Hw He] Ep Et Hout Hent Hin.
  split; simpl; rewrite ?Ep, ?Et; try done; [apply thr_move; auto| |].
  - intros u Hu. destruct (decide (t = u)) as [<-|]; [by apply Hw|].
    rewrite fn_lookup_insert_ne in Hu by done. by apply Hw.
  - intros u v Huv. destruct (decide (t = u)) as [<-|]; destruct (decide (t = v)) as [<-|];
      rewrite ?fn_lookup_insert, ?fn_lookup_insert_ne by done; intros Hu Hv; try done; eapply He; eauto.
Qed.

(** Thread [t] enters when nobody else can be inside. *)
Lemma pinv_enter y t c :
  pinv y -> entering (ps_pc y t) = true ->
  (forall u, u ∈ threads -> t <> u -> entering (ps_pc y u) = true ->
     inside (ps_pc y u) = false /\ turn (ps_pipe y) = Z.of_nat (role t)) ->
  pinv (pgoto t (Check c) (ps_pipe y) y).
Proof.
  intros [Hl Hth Ht Hw He] Hent Hone. apply not_outside in Hent as Hout.
  assert (forall u, entering (ps_pc y u) = true -> u ∈ threads) as Hthe by auto using not_outside.
  split; simpl; try done; [apply thr_move; auto| |].
  - intros u Hu. destruct (decide (t = u)) as [<-|]; [by apply Hw|].
    rewrite fn_lookup_insert_ne in Hu by done. by apply Hw.
  - intros u v Huv. destruct (decide (t = u)) as [<-|]; destruct (decide (t = v)) as [<-|];
      rewrite ?fn_lookup_insert, ?fn_lookup_insert_ne by done; intros Hu Hv; try done.
    + apply (Hone v); auto.
    + apply inside_entering in Hu as Hu'. destruct (Hone u) as [E _]; [auto..|]. congruence.
    + by apply (He u v).
Qed.

Lemma pinv_step y y' : pstep y y' -> pinv y -> pinv y'.
Proof.
  intros Hs Hi. pose proof Hi as [Hl Hth Ht Hw He].
  destruct Hs as [t y Hin Hp|t y Hin Hp|t y w c Hin Hp Hwo|t y c Hin Hp|t y c Hin Hp Hr|t y c Hin Hp Hr|t y c n Hin Hp Hr
    |t y c n Hin Hp Hr|t y c n Hin Hp Hr|t y c n Hin Hp Hr|t y c Hin Hp Hr|t y c Hin Hp Hr|t y c n b Hin Hp Hr Hb
    |t y b n Hin Hp Hr|t y b n Hin Hp Hr|t y Hin Hp|y ro wo]; try (apply pinv_move; rewrite ?Hp; done).
  - (* want[me] = 1 *)
    split; simpl; try done; [by rewrite length_insert|by apply thr_move| |].
    + intros u Hu. destruct (decide (t = u)) as [<-|Hne].
      * apply list_lookup_insert_eq. rewrite Hl. by apply H2.
      * rewrite fn_lookup_insert_ne in Hu by done.
        rewrite list_lookup_insert_ne; [by apply Hw|]. intros E. apply H2 in E; auto.
    + intros u v Huv. destruct (decide (t = u)) as [<-|]; destruct (decide (t = v)) as [<-|];
        rewrite ?fn_lookup_insert, ?fn_lookup_insert_ne by done; intros Hu Hv; try done. by apply (He u v).
  - (* turn = other *)
    split; simpl; try done; [by apply thr_move| | |].
    + unfold other. destruct (role t) as [|[|]]; simpl; auto.
    + intros u Hu. destruct (decide (t = u)) as [<-|Hne]; [apply Hw; by rewrite Hp|].
      rewrite fn_lookup_insert_ne in Hu by done. by apply Hw.
    + intros u v Huv. destruct (decide (t = u)) as [<-|]; destruct (decide (t = v)) as [<-|];
        rewrite ?fn_lookup_insert, ?fn_lookup_insert_ne by done; intros Hu Hv; try done;
        apply inside_entering, not_outside, Hth in Hu.
      * by rewrite (role_ne t u) by done.
      * exfalso. apply not_outside, Hth in Hv.
        assert (role u = role v) as E; [|by apply H2 in E]. by rewrite !(role_ne t) by done.
  - (* test of want[other] *)
    destruct (Z.eqb_spec w 0) as [->|Hw0].
    + apply pinv_enter; [done|by rewrite Hp|]. intros u Hu Hne Hue. exfalso.
      rewrite <- (role_ne t u Hin Hu Hne), Hw in Hwo by (by apply not_outside). done.
    + apply pinv_move; rewrite ?Hp; done.
  - (* test of turn *)
    destruct (Z.eqb_spec (turn (ps_pipe y)) (Z.of_nat (other t))) as [E|E].
    + apply pinv_move; rewrite ?Hp; done.
    + assert (turn (ps_pipe y) = Z.of_nat (role t)) as Et.
      { unfold other in E. pose proof (proj1 H2 t Hin). lia. }
      apply pinv_enter; [done|by rewrite Hp|]. intros u Hu Hne Hue. split; [|done].
      destruct (inside (ps_pc y u)) eqn:Hui; [|done]. exfalso. apply E.
      rewrite <- (role_ne t u Hin Hu Hne). apply (He u t); [done|done|by rewrite Hp].
  - (* want[me] = 0 *)
    split; simpl; try done; [by rewrite length_insert|by apply thr_move| |].
    + intros u. destruct (decide (t = u)) as [<-|Hne]; [by rewrite fn_lookup_insert|].
      rewrite fn_lookup_insert_ne by done. intros Hu.
      rewrite list_lookup_insert_ne; [by apply Hw|]. intros E. apply H2 in E; auto.
    + intros u v Huv. destruct (decide (t = u)) as [<-|]; destruct (decide (t = v)) as [<-|];
        rewrite ?fn_lookup_insert, ?fn_lookup_insert_ne by done; intros Hu Hv; try done. by apply (He u v).
  - split; simpl; done.
Qed.

(** ** Order of the bytes *)

Definition PS : nat := 512.
#[local] Arguments Nat.modulo : simpl never.

(** What a thread inside has established. *)
Definition local_ok (y : psys) (t : nat) : Prop :=
  let W := written y in let R := got y in
  match ps_pc y t with
  | Access _ => if (role t =? 0)%nat then (length W < length R + PS)%nat else (length R < length W)%nat
  | Loaded _ n =>
      if (role t =? 0)%nat then (length W < length R + PS)%nat /\ n = u32 (Z.of_nat (length W))
      else (length R < length W)%nat /\ n = u32 (Z.of_nat (length R))
  | Bump c n =>
      if (role t =? 0)%nat
      then (length W < length R + PS)%nat /\ n = u32 (Z.of_nat (length W)) /\ p_data (ps_pipe y) !! (length W mod PS)%nat = Some c
      else W !! length R = Some c /\ n = u32 (Z.of_nat (length R))
  | Fill c n => (role t = 0)%nat /\ exists W0, W = W0 ++ [c] /\ n = u32 (Z.of_nat (length W0)) /\ (length R <= length W0)%nat
  | _ => True
  end.

(** A writer has counted its byte and not stored it yet. *)
Definition is_fill (pc : ppc) : bool := match pc with Fill _ _ => true | _ => false end.
Definition filling (y : psys) : Prop := exists t, is_fill (ps_pc y t) = true.

(** The bytes read are a prefix of the bytes written, and the rest of them is
    in the ring, but for the byte a writer is about to fill in. *)
Record ring_ok (y : psys) : Prop := {
  ro_data : length (p_data (ps_pipe y)) = PS;
  ro_nread : nread (ps_pipe y) = u32 (Z.of_nat (length (got y)));
  ro_nwrite : nwrite (ps_pipe y) = u32 (Z.of_nat (length (written y)));
  ro_prefix : got y `prefix_of` written y;
  ro_room : (length (written y) <= length (got y) + PS)%nat;
  ro_ring : forall k, (length (got y) <= k < length (written y))%nat -> (S k = length (written y) -> ~ filling y) ->
    p_data (ps_pipe y) !! (k mod PS)%nat = written y !! k;
  ro_thr : forall t, ps_pc y t <> Outside -> t ∈ threads;
  ro_local : forall t, local_ok y t
}.

Lemma filling_move t pc y p W R : is_fill (ps_pc y t) = false -> filling y -> filling (mkPsys p (<[t := pc]> (ps_pc y)) W R).
Proof.
  intros Ht [u Hu]. exists u. simpl. rewrite fn_lookup_insert_ne; [done|]. intros <-. congruence.
Qed.
(** While the only writer is elsewhere, nobody fills. *)
Lemma not_filling y t : ring_ok y -> t ∈ threads -> role t = 0%nat -> is_fill (ps_pc y t) = false -> ~ filling y.
Proof.
  intros Hr Hin Hro Ht [u Hu]. pose proof (ro_local _ Hr u) as Hl. unfold local_ok in Hl.
  destruct (ps_pc y u) eqn:E; try done. destruct Hl as [Hu0 _]. assert (u = t) as ->; [|by rewrite E in Ht].
  apply H2; [apply (ro_thr _ Hr); by rewrite E|done|congruence].
Qed.

Lemma u32_mod_ring k : Z.to_nat (u32 (Z.of_nat k) mod PIPESIZE) = (k mod PS)%nat.
Proof.
  unfold u32, PIPESIZE, PS.
  replace (2 ^ 32) with (512 * 8388608) by done.
  rewrite <- Znumtheory.Zmod_div_mod; [|done|done|by exists 8388608].
  change 512 with (Z.of_nat 512). rewrite <- Nat2Z.inj_mod. apply Nat2Z.id.
Qed.

Lemma u32_add_1 k : u32 (u32 (Z.of_nat k) + 1) = u32 (Z.of_nat (S k)).
Proof. unfold u32. rewrite Zplus_mod_idemp_l. f_equal. lia. Qed.

(** The wrapped counters are equal exactly when the true counts are. *)
Lemma u32_count_eq a b : (a <= b <= a + PS)%nat ->
  (u32 (Z.of_nat a) =? u32 (Z.of_nat b)) = bool_decide (a = b).
Proof.
  intros Hab. case_bool_decide as E; [subst; apply Z.eqb_refl|]. apply Z.eqb_neq. intros Eu.
  pose proof (u32_sub_wrap (Z.of_nat a) (Z.of_nat (b - a)) ltac:(unfold PS in *; lia)) as Hs.
  replace (Z.of_nat a + Z.of_nat (b - a)) with (Z.of_nat b) in Hs by lia.
  rewrite Eu, Z.sub_diag in Hs. change (u32 0) with 0 in Hs. lia.
Qed.

Lemma u32_full a b : (a <= b <= a + PS)%nat ->
  (u32 (Z.of_nat b) =? u32 (u32 (Z.of_nat a) + PIPESIZE)) = bool_decide (b = a + PS)%nat.
Proof.
  intros Hab. replace (u32 (u32 (Z.of_nat a) + PIPESIZE)) with (u32 (Z.of_nat (a + PS))).
  2: { unfold u32. rewrite Zplus_mod_idemp_l. f_equal. unfold PIPESIZE, PS. lia. }
  apply u32_count_eq. lia.
Qed.

(** A step that leaves the ring alone. *)
Lemma ring_move y t pc p :
  ring_ok y -> t ∈ threads -> is_fill (ps_pc y t) = false ->
  p_data p = p_data (ps_pipe y) -> nread p = nread (ps_pipe y) -> nwrite p = nwrite (ps_pipe y) ->
  local_ok (pgoto t pc p y) t -> ring_ok (pgoto t pc p y).
Proof.
  intros [] Ht Hnf Ed Er Ew Hl. split; simpl; rewrite ?Ed, ?Er, ?Ew; try done; [|by apply thr_move|].
  - intros k Hk Hf. apply ro_ring0; [done|]. intros E Hfl. by apply (Hf E), filling_move.
  - intros u. destruct (decide (t = u)) as [<-|Hne]; [done|].
    unfold local_ok. simpl. rewrite fn_lookup_insert_ne by done. rewrite Ed. apply ro_local0.
Qed.

Lemma mod_ne a b k : (a <= k < b)%nat -> (b < a + PS)%nat -> (b mod PS <> k mod PS)%nat.
Proof.
  intros Hk Hb E. unfold PS in *.
  pose proof (Nat.div_mod_eq b 512). pose proof (Nat.div_mod_eq k 512).
  rewrite E in *. assert (b / 512 = k / 512 \/ b / 512 >= k / 512 + 1 \/ k / 512 >= b / 512 + 1)%nat by lia. lia.
Qed.

(** The other participant of a writer is a reader. *)
Lemma other_reads y t u : ring_ok y -> t ∈ threads -> role t = 0%nat -> t <> u -> ps_pc y u <> Outside -> (role u =? 0)%nat = false.
Proof. intros Hr Hin Hro Hne Hu. apply Nat.eqb_neq. rewrite <- Hro. intros E. apply H2 in E; auto. by apply (ro_thr _ Hr). Qed.
Lemma other_writes y t u : ring_ok y -> t ∈ threads -> role t = 1%nat -> t <> u -> ps_pc y u <> Outside -> (role u =? 0)%nat = true.
Proof.
  intros Hr Hin Hro Hne Hu. apply Nat.eqb_eq. pose proof (ro_thr _ Hr u Hu) as Hut. pose proof (proj1 H2 u Hut).
  assert (role u <> role t); [|lia]. intros E. apply H2 in E; auto.
Qed.

(** The cell of the next byte holds no unread byte. *)
Lemma ring_store y t c n :
  ring_ok y -> t ∈ threads -> ps_pc y t = Loaded c n -> role t = 0%nat ->
  ring_ok (pgoto t (Bump c n) (ps_pipe y <| p_data ::= <[Z.to_nat (n mod PIPESIZE) := c]> |>) y).
Proof.
  intros Hro Hin Hp Hr. pose proof Hro as []. pose proof (ro_local0 t) as Hl. unfold local_ok in Hl. rewrite Hp, Hr in Hl. simpl in Hl.
  destruct Hl as [Hroom ->]. split; simpl; rewrite ?length_insert, ?u32_mod_ring; try done.
  - intros k Hk _. rewrite list_lookup_insert_ne by (by apply (mod_ne (length (got y)))). apply ro_ring0; [done|].
    intros _. apply (not_filling y t Hro Hin Hr). by rewrite Hp.
  - by apply thr_move.
  - intros u. unfold local_ok. simpl. destruct (decide (t = u)) as [<-|Hne].
    + rewrite fn_lookup_insert, Hr. simpl. split; [done|]. split; [done|]. apply list_lookup_insert_eq.
      rewrite ro_data0. by apply Nat.mod_upper_bound.
    + rewrite fn_lookup_insert_ne by done. pose proof (ro_local0 u) as Hu. unfold local_ok in Hu.
      destruct (ps_pc y u) eqn:Epc; try done. by rewrite (other_reads y t u) in * by first [done | by rewrite Epc].
Qed.

(** The byte is counted, in its cell or about to be. *)
Lemma ring_count y t c n pc :
  ring_ok y -> t ∈ threads -> role t = 0%nat -> is_fill (ps_pc y t) = false -> n = u32 (Z.of_nat (length (written y))) ->
  (length (written y) < length (got y) + PS)%nat ->
  pc = Leave /\ p_data (ps_pipe y) !! (length (written y) mod PS)%nat = Some c \/ pc = Fill c n ->
  ring_ok (mkPsys (ps_pipe y <| nwrite := u32 (n + 1) |>) (<[t := pc]> (ps_pc y)) (written y ++ [c]) (got y)).
Proof.
  intros Hro Hin Hr Hnf -> Hroom Hpc. pose proof Hro as [].
  split; simpl; rewrite ?length_app; simpl; try done.
  - rewrite u32_add_1. do 2 f_equal. lia.
  - by apply prefix_app_r.
  - lia.
  - intros k Hk Hf. destruct (decide (k = length (written y))) as [->|].
    + destruct Hpc as [[-> Hc]| ->]; [by rewrite Hc, list_lookup_middle|]. destruct Hf; [lia|]. exists t. simpl. by rewrite fn_lookup_insert.
    + rewrite lookup_app_l by lia. apply ro_ring0; [lia|]. intros _. by apply (not_filling y t Hro Hin Hr).
  - by apply thr_move.
  - intros u. unfold local_ok. simpl. destruct (decide (t = u)) as [<-|Hne].
    + rewrite fn_lookup_insert. destruct Hpc as [[-> _]| ->]; [done|]. split; [done|]. exists (written y).
      apply prefix_length in ro_prefix0. by split_and!.
    + rewrite fn_lookup_insert_ne by done. pose proof (ro_local0 u) as Hu. unfold local_ok in Hu.
      destruct (decide (ps_pc y u = Outside)) as [->|Hout]; [done|]. pose proof (other_reads y t u Hro Hin Hr Hne Hout) as E. rewrite E in *.
      destruct (ps_pc y u); try done; rewrite ?length_app; simpl; [lia|split; [lia|tauto]| |apply Nat.eqb_neq in E; tauto].
      destruct Hu. split; [|done]. rewrite lookup_app_l; [done|]. by eapply lookup_lt_Some.
Qed.

Lemma ring_fill y t c n :
  ring_ok y -> t ∈ threads -> ps_pc y t = Fill c n ->
  ring_ok (pgoto t Leave (ps_pipe y <| p_data ::= <[Z.to_nat (n mod PIPESIZE) := c]> |>) y).
Proof.
  intros Hro Hin Hp. pose proof Hro as []. pose proof (ro_local0 t) as Hl. unfold local_ok in Hl. rewrite Hp in Hl.
  destruct Hl as (Hr & W0 & EW & -> & HR). assert (length (written y) = S (length W0)) as El by (rewrite EW, length_app; simpl; lia).
  split; simpl; rewrite ?length_insert, ?u32_mod_ring; try done; [|by apply thr_move|].
  - intros k Hk _. destruct (decide (k = length W0)) as [->|Hne].
    + rewrite list_lookup_insert_eq by (rewrite ro_data0; by apply Nat.mod_upper_bound). by rewrite EW, list_lookup_middle.
    + rewrite list_lookup_insert_ne by (apply (mod_ne (length (got y))); lia). apply ro_ring0; [done|lia].
  - intros u. unfold local_ok. simpl. destruct (decide (t = u)) as [<-|Hne]; [by rewrite fn_lookup_insert|].
    rewrite fn_lookup_insert_ne by done. pose proof (ro_local0 u) as Hu. unfold local_ok in Hu.
    destruct (ps_pc y u) eqn:Epc; try done. by rewrite (other_reads y t u) in * by first [done | by rewrite Epc].
Qed.

Lemma ring_nread y t b n :
  ring_ok y -> t ∈ threads -> ps_pc y t = Bump b n -> role t = 1%nat -> ~ filling y ->
  ring_ok (mkPsys (ps_pipe y <| nread := u32 (n + 1) |>) (<[t := Leave]> (ps_pc y)) (written y) (got y ++ [b])).
Proof.
  intros Hro Hin Hp Hr Hnf. pose proof Hro as []. pose proof (ro_local0 t) as Hl. unfold local_ok in Hl. rewrite Hp, Hr in Hl. simpl in Hl.
  destruct Hl as [Hl ->]. pose proof (lookup_lt_Some _ _ _ Hl) as Hlt.
  split; simpl; rewrite ?length_app; simpl; try done.
  - rewrite u32_add_1. do 2 f_equal. lia.
  - destruct ro_prefix0 as [l El]. rewrite El in *. rewrite lookup_app_r, Nat.sub_diag in Hl by lia.
    destruct l as [|x l]; [done|]. simplify_eq/=. exists l. by rewrite <- app_assoc.
  - lia.
  - intros k Hk _. apply ro_ring0; [lia|done].
  - by apply thr_move.
  - intros u. unfold local_ok. simpl. destruct (decide (t = u)) as [<-|Hne]; [by rewrite fn_lookup_insert|].
    rewrite fn_lookup_insert_ne by done. pose proof (ro_local0 u) as Hu. unfold local_ok in Hu.
    destruct (decide (ps_pc y u = Outside)) as [->|Hout]; [done|]. rewrite (other_writes y t u) in * by done.
    destruct (ps_pc y u) eqn:Epc; try done; rewrite ?length_app; simpl; [lia|split; [lia|tauto]|destruct Hu; split; [lia|done]|].
    destruct Hnf. exists u. by rewrite Epc.
Qed.

(** The reader and a writer that fills are not both inside. *)
Lemma reader_alone y t : pinv y -> t ∈ threads -> inside (ps_pc y t) = true -> is_fill (ps_pc y t) = false -> ~ filling y.
Proof.
  intros Hi Hin Ht Hnf [u Hu]. apply (pinv_exclusive y t u Hi); [intros <-; congruence|done|]. by destruct (ps_pc y u).
Qed.

Lemma ring_step y y' : pstep y y' -> pinv y -> ring_ok y -> ring_ok y'.
Proof.
  intros Hs Hpi Hi. pose proof Hi as [Hd Hnr Hnw Hpre Hroom Hring Hth Hloc]. apply prefix_length in Hpre as Hlen.
  destruct Hs as [t y Hin Hp|t y Hin Hp|t y w c Hin Hp Hwo|t y c Hin Hp|t y c Hin Hp Hr|t y c Hin Hp Hr|t y c n Hin Hp Hr
    |t y c n Hin Hp Hr|t y c n Hin Hp Hr|t y c n Hin Hp Hr|t y c Hin Hp Hr|t y c Hin Hp Hr|t y c n b Hin Hp Hr Hb
    |t y b n Hin Hp Hr|t y b n Hin Hp Hr|t y Hin Hp|y ro wo].
  1-4,16: apply ring_move; rewrite ?Hp; try done; unfold local_ok; simpl; rewrite fn_lookup_insert; try done;
    by destruct (_ =? _).
  all: try (specialize (Hloc t); unfold local_ok in Hloc; rewrite Hp in Hloc; rewrite ?Hr in Hloc; simpl in Hloc).
  - apply ring_move; rewrite ?Hp; try done. unfold local_ok. simpl. rewrite fn_lookup_insert, Hr.
    destruct (_ =? 0); [done|]. rewrite Hnr, Hnw, u32_full by lia. case_bool_decide; simpl; [done|lia].
  - apply ring_move; rewrite ?Hp; try done. unfold local_ok. simpl. rewrite fn_lookup_insert, Hr. done.
  - by apply ring_store.
  - destruct Hloc as (Hro & -> & Hc). apply ring_count; rewrite ?Hp; try done. by left.
  - destruct Hloc as [Hro ->]. apply ring_count; rewrite ?Hp; try done. by right.
  - by apply ring_fill.
  - apply ring_move; rewrite ?Hp; try done. unfold local_ok. simpl. rewrite fn_lookup_insert, Hr.
    rewrite Hnr, Hnw, u32_count_eq by lia. case_bool_decide; simpl; [done|lia].
  - apply ring_move; rewrite ?Hp; try done. unfold local_ok. simpl. rewrite fn_lookup_insert, Hr. done.
  - apply ring_move; rewrite ?Hp; try done. unfold local_ok. simpl. rewrite fn_lookup_insert, Hr. simpl. destruct Hloc as [Hlt ->].
    rewrite u32_mod_ring in Hb. split; [|done]. rewrite <- Hring; [done|lia|]. intros _. by apply (reader_alone y t); rewrite ?Hp.
  - apply ring_move; rewrite ?Hp; try done. unfold local_ok. simpl. rewrite fn_lookup_insert, Hr. simpl. by destruct Hloc.
  - apply ring_nread; try done. by apply (reader_alone y t); rewrite ?Hp.
  - split; simpl; done.
Qed.
End steps.

(** ** The steps as a function *)

(** The step of thread [t]; [c] is the byte it carries inside. *)
Definition pmove (threads : list nat) (role : nat -> nat) (t : nat) (c : Z) (y : psys) : option psys :=
  let p := ps_pipe y in
  guard (t ∈ threads);;
  match ps_pc y t with
  | Outside => Some (pgoto t Wanting (p <| want ::= <[role t := 1]> |>) y)
  | Wanting => Some (pgoto t TestWant (p <| turn := Z.of_nat (other role t) |>) y)
  | TestWant => w ← want p !! other role t; Some (pgoto t (if w =? 0 then Check c else TestTurn) p y)
  | TestTurn => Some (pgoto t (if turn p =? Z.of_nat (other role t) then TestWant else Check c) p y)
  | Check c =>
      match role t with
      | O => Some (pgoto t (if readopen p =? 0 then Leave
                            else if nwrite p =? u32 (nread p + PIPESIZE) then Leave else Access c) p y)
      | 1%nat => Some (pgoto t (if nread p =? nwrite p then Leave else Access c) p y)
      | _ => None
      end
  | Access c =>
      match role t with
      | O => Some (pgoto t (Loaded c (nwrite p)) p y)
      | 1%nat => Some (pgoto t (Loaded c (nread p)) p y)
      | _ => None
      end
  | Loaded c n =>
      match role t with
      | O => Some (pgoto t (Bump c n) (p <| p_data ::= <[Z.to_nat (n mod PIPESIZE) := c]> |>) y)
      | 1%nat => b ← p_data p !! Z.to_nat (n mod PIPESIZE); Some (pgoto t (Bump b n) p y)
      | _ => None
      end
  | Bump c n =>
      match role t with
      | O => Some (mkPsys (p <| nwrite := u32 (n + 1) |>) (<[t := Leave]> (ps_pc y)) (written y ++ [c]) (got y))
      | 1%nat => Some (mkPsys (p <| nread := u32 (n + 1) |>) (<[t := Leave]> (ps_pc y)) (written y) (got y ++ [c]))
      | _ => None
      end
  | Fill c n =>
      match role t with
      | O => Some (pgoto t Leave (p <| p_data ::= <[Z.to_nat (n mod PIPESIZE) := c]> |>) y)
      | _ => None
      end
  | Leave => Some (pgoto t Outside (p <| want ::= <[role t := 0]> |>) y)
  end.

Lemma pmove_step threads role t c y y' : pmove threads role t c y = Some y' -> pstep threads role y y'.
Proof.
  unfold pmove. case_guard as Hin; [|done]. intros E.
  destruct (ps_pc y t) as [| | | |c'|c'|c' n|c' n|c' n|] eqn:Hpc; simpl in E.
  5-9: destruct (role t) as [|[|]] eqn:Hr; try done.
  all: try (apply bind_Some in E as (w & Hw & E)); injection E as <-; by econstructor.
Qed.

(** A schedule: which thread steps, and the byte it brings. *)
Fixpoint prun (threads : list nat) (role : nat -> nat) (l : list (nat * Z)) (y : psys) : option psys :=
  match l with
  | [] => Some y
  | (t, c) :: l => y ← pmove threads role t c y; prun threads role l y
  end.

Lemma prun_rtc threads role l y y' : prun threads role l y = Some y' -> rtc (pstep threads role) y y'.
Proof.
  revert y. induction l as [|[t c] l IH]; intros y; simpl; [intros [= ->]; apply rtc_refl|].
  intros (z & Hz & Hr)%bind_Some. eapply rtc_l; [by eapply pmove_step|by apply IH].
Qed.

(** ** The code makes these steps *)

Section code.
Context `{Link, Patience}.
Context (threads : list nat) (role : nat -> nat).

Lemma pipe_get_ok pi p s : pipes s !! pi = Some p -> pipe_get pi s = Ret p s.
Proof. intros Hp. unfold pipe_get. mrun. by rewrite Hp. Qed.

Lemma bind_pipe_upd {B} pi f (k : () -> K B) s :
  (pipe_upd pi f ≫= k) s = k tt (s <| pipes ::= alter f pi |>).
Proof. done. Qed.

Lemma pipe_alter pi f p s : pipes s !! pi = Some p -> pipes (s <| pipes ::= alter f pi |>) !! pi = Some (f p).
Proof. intros Hp. simpl. by rewrite lookup_alter_eq, Hp. Qed.

(** The pipe after [peterson_enter]. *)
Definition entered (me : nat) (p : pipe) : pipe :=
  p <| want ::= <[me := 1]> |> <| turn := Z.of_nat (1 - me) |>.

(** Entering when the other side does not want in. *)
Lemma peterson_enter_free pi me p s :
  pipes s !! pi = Some p -> (me < 2)%nat -> want p !! (1 - me)%nat = Some 0 ->
  peterson_enter pi me s = Ret tt (s <| pipes ::= alter (entered me) pi |>).
Proof.
  intros Hp Hme Hw. unfold peterson_enter. rewrite !bind_pipe_upd.
  assert (pipes (s <| pipes ::= alter (fun p => p <| want ::= <[me := 1]> |>) pi |>
                   <| pipes ::= alter (fun p => p <| turn := Z.of_nat (1 - me) |>) pi |>) !! pi
          = Some (entered me p)) as Hp'.
  { apply (pipe_alter pi _ (p <| want ::= <[me := 1]> |>)). by apply pipe_alter. }
  erewrite whileM_done; cycle 1.
  - mapply pipe_get_ok by exact Hp'.
    change (want (entered me p)) with (<[me := 1]> (want p)).
    rewrite list_lookup_insert_ne by lia. rewrite Hw. msimpl. reflexivity.
  - f_equal. destruct s; ksimpl. f_equal. rewrite alter_alter_eq. by apply alter_ext.
Qed.

Lemma pipes_alter pi f g s :
  s <| pipes ::= alter f pi |> <| pipes ::= alter g pi |> = s <| pipes ::= alter (fun p => g (f p)) pi |>.
Proof. destruct s; ksimpl. f_equal. by rewrite alter_alter_eq. Qed.

(** The pipe after a turn that wrote [c], and after one that found it full. *)
Definition put_byte (c : Z) (p : pipe) : pipe :=
  p <| p_data ::= <[Z.to_nat (nwrite p mod PIPESIZE) := c]> |> <| nwrite ::= fun w => u32 (w + 1) |>.
Definition left_by (me : nat) (p : pipe) : pipe := p <| want ::= <[me := 0]> |>.

Section turn.
Context (h : hart) (pi : Z) (pr : nat) (addr n i : Z) (p : pipe) (q : proc) (s : kernel).
Context (He : env h ∅ s) (Hcur : curproc h = Some pr) (Hpr : (pr < NPROC)%nat).
Context (Hq : procs s !! pr = Some q) (Hk : killed_flag q = 0) (Hi : i < n).
Context (Hp : pipes s !! pi = Some p).

(** A turn of [pipewrite] that finds the reader outside. *)
Lemma pipewrite_turn_ok c s1 :
  readopen p <> 0 -> want p !! 1%nat = Some 0 ->
  copyin (pagetable q) (u64 (addr + i)) 1 s = Ret (0, [c]) s1 -> env h ∅ s1 ->
  pipes s1 !! pi = Some p -> procs s1 !! pr = Some q ->
  if nwrite p =? u32 (nread p + PIPESIZE)
  then exists k s2, pipewrite_turn pi pr addr n i s = Switch s2 k
    /\ pipes s2 = pipes (s1 <| pipes ::= alter (fun p => left_by 0 (entered 0 p)) pi |>)
    /\ forall h' t, env h' {[LkProc pr]} t -> k t = Ret (inl i) (t <| hw := resumed (sie h) h' |>)
  else pipewrite_turn pi pr addr n i s
    = Ret (inl (i + 1)) (s1 <| pipes ::= alter (fun p => left_by 0 (put_byte c (entered 0 p))) pi |>).
Proof.
  intros Hro Hw Hci He1 Hp1 Hq1.
  assert (pipewrite_turn pi pr addr n i s
    = (if nwrite p =? u32 (nread p + PIPESIZE)
       then (peterson_exit pi 0;; yield;; mret (inl i))
       else (pipe_upd pi (put_byte c);; peterson_exit pi 0;; mret (inl (i + 1))))
      (s1 <| pipes ::= alter (entered 0) pi |>)) as ->.
  { unfold pipewrite_turn. rewrite (proj2 (Z.ltb_lt _ _) Hi). mapply pipe_get_ok by done.
    rewrite (proj2 (Z.eqb_neq _ _) Hro). mapply (killed_ok h ∅ no_plock_empty pr q) by done.
    rewrite Hk. msimpl. cbn [negb Z.eqb]. mapply proc_get_ok by done. mstep Hci.
    cbv iota. change (0 =? -1) with false. cbv iota. msimpl. cbn [list_lookup lookup]. msimpl.
    mapply peterson_enter_free by first [done | lia].
    mapply pipe_get_ok by (by apply pipe_alter).
    change (readopen (entered 0 p)) with (readopen p).
    change (nwrite (entered 0 p)) with (nwrite p). change (nread (entered 0 p)) with (nread p).
    rewrite (proj2 (Z.eqb_neq _ _) Hro). done. }
  destruct (_ =? _).
  - unfold peterson_exit. rewrite bind_pipe_upd, pipes_alter.
    set (s2 := upd pipes _ s1).
    destruct (yield_ok h pr Hpr Hcur q s2) as (k & Hy & Hres); [solve_env|done|].
    mstep Hy. do 2 eexists. split; [done|]. split; [done|].
    intros h' t Ht. cbv beta. rewrite obind_mbind. by mapply Hres by done.
  - unfold peterson_exit. by rewrite !bind_pipe_upd, !pipes_alter.
Qed.
End turn.

(** Thread [t] of role 0 goes in while the reader is outside. *)
Lemma writer_enters t c y :
  t ∈ threads -> role t = 0%nat -> ps_pc y t = Outside -> want (ps_pipe y) !! 1%nat = Some 0 ->
  exists pcs, rtc (pstep threads role) y (mkPsys (entered 0 (ps_pipe y)) pcs (written y) (got y))
    /\ pcs t = Check c /\ forall u, u <> t -> pcs u = ps_pc y u.
Proof.
  intros Hin Hr Hpc Hw. assert (other role t = 1%nat) as Ho by (unfold other; by rewrite Hr).
  eexists. split; [|split].
  - eapply rtc_l; [by apply (p_want _ _ t)|].
    eapply rtc_l; [apply (p_turn _ _ t); [done|apply fn_lookup_insert]|].
    eapply rtc_l; [apply (p_test_want _ _ t _ 0 c); [done|apply fn_lookup_insert|] |].
    { rewrite Ho. simpl. by rewrite list_lookup_insert_ne by (by rewrite Hr). }
    unfold pgoto. simpl. rewrite Ho, Hr. apply rtc_refl.
  - apply fn_lookup_insert.
  - intros u Hu. by rewrite !fn_lookup_insert_ne by done.
Qed.

(** It finds room and loads the counter. *)
Lemma writer_loads t c y :
  t ∈ threads -> role t = 0%nat -> ps_pc y t = Outside -> want (ps_pipe y) !! 1%nat = Some 0 -> readopen (ps_pipe y) <> 0 ->
  nwrite (ps_pipe y) <> u32 (nread (ps_pipe y) + PIPESIZE) ->
  exists pcs, rtc (pstep threads role) y (mkPsys (entered 0 (ps_pipe y)) pcs (written y) (got y))
    /\ pcs t = Loaded c (nwrite (ps_pipe y)) /\ forall u, u <> t -> pcs u = ps_pc y u.
Proof.
  intros Hin Hr Hpc Hw Hro Hroom. destruct (writer_enters t c y Hin Hr Hpc Hw) as (pcs & Hrt & Ht & Ho).
  pose proof (p_full threads role t (mkPsys (entered 0 (ps_pipe y)) pcs (written y) (got y)) c Hin Ht Hr) as Hf. cbn [ps_pipe] in Hf.
  change (readopen (entered 0 ?p)) with (readopen p) in Hf. change (nwrite (entered 0 ?p)) with (nwrite p) in Hf.
  change (nread (entered 0 ?p)) with (nread p) in Hf. rewrite (proj2 (Z.eqb_neq _ _) Hro), (proj2 (Z.eqb_neq _ _) Hroom) in Hf.
  exists (<[t := Loaded c (nwrite (ps_pipe y))]> (<[t := Access c]> pcs)). split; [|split].
  - eapply transitivity; [exact Hrt|]. eapply rtc_l; [exact Hf|]. apply rtc_once.
    refine (p_nload threads role t (pgoto t (Access c) _ _) c Hin _ Hr). apply fn_lookup_insert.
  - apply fn_lookup_insert.
  - intros u Hu. rewrite !fn_lookup_insert_ne by done. by apply Ho.
Qed.

(** It goes in and out and finds the ring full, or stores [c]. *)
Lemma writer_steps t c y :
  t ∈ threads -> role t = 0%nat -> ps_pc y t = Outside -> want (ps_pipe y) !! 1%nat = Some 0 ->
  readopen (ps_pipe y) <> 0 ->
  exists y', rtc (pstep threads role) y y' /\ (forall u, ps_pc y' u = ps_pc y u) /\ got y' = got y /\
    if nwrite (ps_pipe y) =? u32 (nread (ps_pipe y) + PIPESIZE)
    then ps_pipe y' = left_by 0 (entered 0 (ps_pipe y)) /\ written y' = written y
    else ps_pipe y' = left_by 0 (put_byte c (entered 0 (ps_pipe y))) /\ written y' = written y ++ [c].
Proof.
  intros Hin Hr Hpc Hw Hro. destruct (Z.eqb_spec (nwrite (ps_pipe y)) (u32 (nread (ps_pipe y) + PIPESIZE))) as [Hfull|Hroom].
  - destruct (writer_enters t c y Hin Hr Hpc Hw) as (pcs & Hrt & Ht & Ho).
    pose proof (p_full threads role t (mkPsys (entered 0 (ps_pipe y)) pcs (written y) (got y)) c Hin Ht Hr) as Hf. cbn [ps_pipe] in Hf.
    change (readopen (entered 0 ?p)) with (readopen p) in Hf. change (nwrite (entered 0 ?p)) with (nwrite p) in Hf.
    change (nread (entered 0 ?p)) with (nread p) in Hf. rewrite (proj2 (Z.eqb_neq _ _) Hro), (proj2 (Z.eqb_eq _ _) Hfull) in Hf.
    eexists. split; [|split_and!]; cycle 1.
    5: { eapply transitivity; [exact Hrt|]. eapply rtc_l; [exact Hf|].
         eapply rtc_once. apply (p_leave _ _ t); [done|apply fn_lookup_insert]. }
    all: simpl; rewrite ?Hr; try done.
    intros u. destruct (decide (t = u)) as [<-|Hne]; [by rewrite fn_lookup_insert|].
    rewrite !fn_lookup_insert_ne by done. by apply Ho.
  - destruct (writer_loads t c y Hin Hr Hpc Hw Hro Hroom) as (pcs & Hrt & Ht & Ho).
    eexists. split; [|split_and!]; cycle 1.
    5: { eapply transitivity; [exact Hrt|].
         eapply rtc_l; [by apply (p_store _ _ t _ c (nwrite (ps_pipe y))) |].
         eapply rtc_l; [apply (p_nwrite _ _ t _ c (nwrite (ps_pipe y))); [done|apply fn_lookup_insert|done] |].
         eapply rtc_once. apply (p_leave _ _ t); [done|apply fn_lookup_insert]. }
    all: simpl; rewrite ?Hr; try done.
    intros u. destruct (decide (t = u)) as [<-|Hne]; [by rewrite fn_lookup_insert|].
    rewrite !fn_lookup_insert_ne by done. by apply Ho.
Qed.
End code.

(** ** Properties *)

(** A pipe as [pipealloc] leaves it, with every thread outside. *)
Definition fresh_pipe (p : pipe) : Prop :=
  length (p_data p) = PS /\ nread p = 0 /\ nwrite p = 0 /\ want p = [0; 0] /\ turn p = 0.
Definition psys_init (p : pipe) : psys := mkPsys p (fun _ => Outside) [] [].

Lemma reach_inv threads role p y :
  two_party threads role -> fresh_pipe p -> rtc (pstep threads role) (psys_init p) y -> pinv threads role y /\ ring_ok threads role y.
Proof.
  intros H2 (Hd & Hnr & Hnw & Hw & Ht) Hr.
  eapply (rtc_ind_r (fun y => pinv threads role y /\ ring_ok threads role y) (psys_init p)); [| |exact Hr].
  - split; split; simpl; try done; [by rewrite Hw|auto|unfold PS; lia|intros k; lia].
  - intros a b _ Hab [Hp Hi]. split; [by apply (pinv_step threads role H2 a)|by apply (ring_step threads role H2 a)].
Qed.

(** C21: On sequentially consistent memory, where the accesses of the threads to
    the pipe take effect one after the other in program order, one writer and
    one reader are never both between [peterson_enter] and [peterson_exit] of
    the same pipe, however their accesses interleave. *)
Theorem peterson_mutual_exclusion_sc threads role p y t t' :
  two_party threads role -> fresh_pipe p -> rtc (pstep threads role) (psys_init p) y -> t <> t' ->
  inside (ps_pc y t) && inside (ps_pc y t') = false.
Proof.
  intros H2 Hf Hr Hne. destruct (reach_inv threads role p y H2 Hf Hr) as [Hi _].
  destruct (inside (ps_pc y t)) eqn:E1, (inside (ps_pc y t')) eqn:E2; try done.
  by destruct (pinv_exclusive threads role H2 y t t').
Qed.

(** C14: With one writer and one reader on sequentially consistent memory, the
    bytes read are at every moment a prefix of the bytes written: none is lost,
    repeated or reordered, also after the 32-bit counters have wrapped around
    and in whatever order the writer stores its byte and its counter, and no
    more than [PIPESIZE] bytes are in flight. *)
Theorem pipe_fifo threads role p y :
  two_party threads role -> fresh_pipe p -> rtc (pstep threads role) (psys_init p) y ->
  got y `prefix_of` written y /\ (length (written y) <= length (got y) + Z.to_nat PIPESIZE)%nat
  /\ nread (ps_pipe y) = u32 (Z.of_nat (length (got y)))
  /\ nwrite (ps_pipe y) = u32 (Z.of_nat (length (written y))).
Proof. intros H2 Hf Hr. destruct (reach_inv threads role p y H2 Hf Hr) as [_ []]. by split_and!. Qed.

(** Thread 0 writes and thread 1 reads. *)
Definition demo_pipe : pipe := mkPipe (replicate PS 5) 0 0 1 1 [0; 0] 0.
Lemma demo_two_party : two_party [0%nat; 1%nat] (fun t => t).
Proof. split; [|done]. intros t Ht. apply elem_of_cons in Ht as [->|Ht%list_elem_of_singleton]; lia. Qed.

(** What a schedule of the threads 0 and 1 reaches. *)
Lemma demo_run role l (f : psys -> bool) :
  match prun [0%nat; 1%nat] role l (psys_init demo_pipe) with Some y => f y | None => false end = true ->
  exists y, rtc (pstep [0%nat; 1%nat] role) (psys_init demo_pipe) y /\ f y = true.
Proof.
  destruct (prun _ _ _ _) as [y|] eqn:E; [|done]. intros Hf. exists y. split; [by eapply prun_rtc|done].
Qed.

Lemma peterson_mutual_exclusion_sc_witness :
  exists y, rtc (pstep [0%nat; 1%nat] (fun t => t)) (psys_init demo_pipe) y /\
    inside (ps_pc y 0%nat) = true /\ inside (ps_pc y 1%nat) = false.
Proof.
  destruct (demo_run (fun t => t) [(0%nat, 65); (1%nat, 0); (0%nat, 65); (1%nat, 0); (0%nat, 65); (0%nat, 65)]
    (fun y => inside (ps_pc y 0%nat))) as (y & Hr & Hi); [vm_compute; reflexivity|].
  exists y. split; [exact Hr|]. split; [exact Hi|].
  pose proof (peterson_mutual_exclusion_sc _ _ demo_pipe _ 0%nat 1%nat demo_two_party
    ltac:(by repeat split) Hr ltac:(done)) as E.
  rewrite Hi in E. exact E.
Defined.

Lemma pipe_fifo_witness :
  exists y, rtc (pstep [0%nat; 1%nat] (fun t => t)) (psys_init demo_pipe) y /\
    written y = [65] /\ got y `prefix_of` [65].
Proof.
  destruct (demo_run (fun t => t) (replicate 8 (0%nat, 65) ++ replicate 8 (1%nat, 0))
    (fun y => bool_decide (written y = [65]))) as (y & Hr & Hi); [vm_compute; reflexivity|].
  exists y. split; [exact Hr|]. apply bool_decide_eq_true in Hi. split; [exact Hi|].
  destruct (pipe_fifo _ _ demo_pipe _ demo_two_party ltac:(by repeat split) Hr) as [Hpre _].
  rewrite Hi in Hpre. exact Hpre.
Defined.

(** C35: Two writers of one pipe, as after a [fork], are both participant 0 and
    exclude only the reader.  Whenever both are about to write, the reader is
    outside and the ring has room, the code lets them lose a byte: both go
    through a whole turn of [pipewrite], and the pipe is as if only the second
    had written. *)
Theorem two_writers_lose_a_byte threads role t t' c c' y :
  t ∈ threads -> t' ∈ threads -> t <> t' -> role t = 0%nat -> role t' = 0%nat -> ps_pc y t = Outside -> ps_pc y t' = Outside ->
  want (ps_pipe y) !! 1%nat = Some 0 -> readopen (ps_pipe y) <> 0 -> nwrite (ps_pipe y) <> u32 (nread (ps_pipe y) + PIPESIZE) ->
  exists y', rtc (pstep threads role) y y' /\ (forall u, ps_pc y' u = ps_pc y u) /\ got y' = got y
    /\ written y' = written y ++ [c; c'] /\ nread (ps_pipe y') = nread (ps_pipe y)
    /\ nwrite (ps_pipe y') = u32 (nwrite (ps_pipe y) + 1)
    /\ p_data (ps_pipe y') = <[Z.to_nat (nwrite (ps_pipe y) mod PIPESIZE) := c']> (p_data (ps_pipe y)).
Proof.
  intros Hin Hin' Hne Hr Hr' Hp Hp' Hw Hro Hroom.
  destruct (writer_loads threads role t c y) as (pcs1 & Hrt1 & Ht1 & Ho1); [done..|].
  destruct (writer_loads threads role t' c' (mkPsys (entered 0 (ps_pipe y)) pcs1 (written y) (got y))) as (pcs2 & Hrt2 & Ht2 & Ho2);
    [done|done|by simpl; rewrite Ho1|by simpl; rewrite list_lookup_insert_ne|done|done|].
  simpl in Hrt2, Ht2, Ho2. set (n := nwrite (ps_pipe y)) in *.
  assert (pcs2 t = Loaded c n) as Ht2' by (by rewrite Ho2).
  eexists. split.
  { eapply transitivity; [exact Hrt1|]. eapply transitivity; [exact Hrt2|].
    eapply rtc_l; [apply (p_store _ _ t _ c n); done|].
    eapply rtc_l; [apply (p_store _ _ t' _ c' n); [done|by simpl; rewrite fn_lookup_insert_ne|done] |].
    eapply rtc_l; [apply (p_nwrite _ _ t _ c n); [done|by simpl; rewrite fn_lookup_insert_ne, fn_lookup_insert|done] |].
    eapply rtc_l; [apply (p_nwrite _ _ t' _ c' n); [done|by simpl; rewrite fn_lookup_insert_ne, fn_lookup_insert|done] |].
    eapply rtc_l; [apply (p_leave _ _ t); [done|by simpl; rewrite fn_lookup_insert_ne, fn_lookup_insert] |].
    apply rtc_once. apply (p_leave _ _ t'); [done|by simpl; rewrite fn_lookup_insert_ne, fn_lookup_insert]. }
  simpl. split_and!; try done; [|by rewrite <- app_assoc|by rewrite list_insert_insert_eq].
  intros u. destruct (decide (u = t')) as [->|]; [by rewrite fn_lookup_insert|]. rewrite fn_lookup_insert_ne by done.
  destruct (decide (u = t)) as [->|]; [by rewrite fn_lookup_insert|]. rewrite !fn_lookup_insert_ne by done. by rewrite Ho2, Ho1.
Qed.

Lemma two_writers_lose_a_byte_witness :
  exists y, rtc (pstep [0%nat; 1%nat] (fun _ => 0%nat)) (psys_init demo_pipe) y
    /\ written y = [65; 66] /\ nwrite (ps_pipe y) = 1 /\ take 2 (p_data (ps_pipe y)) = [66; 5].
Proof.
  destruct (two_writers_lose_a_byte [0%nat; 1%nat] (fun _ => 0%nat) 0 1 65 66 (psys_init demo_pipe)) as (y & Hr & _ & _ & Hw & _ & Hn & Hd).
  - set_solver.
  - set_solver.
  - done.
  - reflexivity.
  - reflexivity.
  - reflexivity.
  - reflexivity.
  - reflexivity.
  - discriminate.
  - vm_compute. discriminate.
  - exists y. split; [exact Hr|]. split; [exact Hw|]. split; [exact Hn|]. rewrite Hd. reflexivity.
Defined.

(** C31: One turn of the loop of [pipewrite], when the reader is outside, is a path
    of the steps above for a thread of role 0: it stores the byte it fetched
    from user memory, or finds the ring full and yields without having changed
    it, and leaves the protocol either way. *)
Theorem pipewrite_turn_correct `{Link, Patience} threads role t pcs W R h pi pr addr n i c p q s s1 :
  t ∈ threads -> role t = 0%nat -> pcs t = Outside ->
  env h ∅ s -> curproc h = Some pr -> (pr < NPROC)%nat -> procs s !! pr = Some q -> killed_flag q = 0 ->
  i < n -> pipes s !! pi = Some p -> readopen p <> 0 -> want p !! 1%nat = Some 0 ->
  copyin (pagetable q) (u64 (addr + i)) 1 s = Ret (0, [c]) s1 -> env h ∅ s1 ->
  pipes s1 !! pi = Some p -> procs s1 !! pr = Some q ->
  exists y, rtc (pstep threads role) (mkPsys p pcs W R) y
    /\ (forall u, ps_pc y u = pcs u) /\ got y = R /\
    ((exists s', pipewrite_turn pi pr addr n i s = Ret (inl (i + 1)) s'
        /\ written y = W ++ [c] /\ pipes s' !! pi = Some (ps_pipe y))
     \/ (exists s' k, pipewrite_turn pi pr addr n i s = Switch s' k
        /\ nwrite p = u32 (nread p + PIPESIZE)
        /\ written y = W /\ pipes s' !! pi = Some (ps_pipe y)
        /\ forall h' t', env h' {[LkProc pr]} t' -> k t' = Ret (inl i) (t' <| hw := resumed (sie h) h' |>))).
Proof.
  intros Hin Hr Hpc He Hcur Hpr Hq Hk Hi Hp Hro Hw Hci He1 Hp1 Hq1.
  destruct (writer_steps threads role t c (mkPsys p pcs W R)) as (y & Hy & Hu & Hg & Hy'); [done..|].
  exists y. split; [done|]. split; [done|]. split; [done|].
  pose proof (pipewrite_turn_ok h pi pr addr n i p q s He Hcur Hpr Hq Hk Hi Hp c s1 Hro Hw Hci He1 Hp1 Hq1) as Ht.
  simpl in Hy'. destruct (Z.eqb_spec (nwrite p) (u32 (nread p + PIPESIZE))) as [Hf|Hf]; destruct Hy' as [Hyp Hyw].
  - right. destruct Ht as (k & s2 & Ht & Hps & Hres). exists s2, k. rewrite Hyp.
    split_and!; [done..| |done]. rewrite Hps. by apply (pipe_alter pi (fun p => left_by 0 (entered 0 p))).
  - left. eexists. split; [exact Ht|]. rewrite Hyp. split; [done|].
    by apply (pipe_alter pi (fun p => left_by 0 (put_byte c (entered 0 p)))).
Qed.

(** A process with one user page that holds the byte 65, about to write to the
    pipe in the page [pipe_page]. *)
Definition pipe_page : Z := KERNBASE + 0x8000.
Definition one_page_mem : memory :=
  let root := KERNBASE + 0x1000 in
  let m := store64 (fun _ => 0) root (Z.lor (PA2PTE (root + 0x1000)) PTE_V) in
  let m := store64 m (root + 0x1000) (Z.lor (PA2PTE (root + 0x2000)) PTE_V) in
  let m := store64 m (root + 0x2000) (Z.lor (PA2PTE (root + 0x3000)) (PTE_V + PTE_R + PTE_W + PTE_U)) in
  store8 m (root + 0x3000) 65.
Definition pipe_proc : proc :=
  zero_proc <| state := RUNNING |> <| pagetable := KERNBASE + 0x1000 |> <| sz := PGSIZE |>.
Definition pipe_kernel : kernel :=
  table_kernel (Some 0%nat) ∅ (<[0%nat := pipe_proc]> (replicate NPROC zero_proc))
    <| mem := one_page_mem |> <| pipes := {[pipe_page := demo_pipe]} |>.

Lemma one_page_copyin `{Link} s : mem s = one_page_mem -> copyin (KERNBASE + 0x1000) 0 1 s = Ret (0, [65]) s.
Proof.
  intros Hm.
  assert (forall a v, load64 one_page_mem a = v -> pte_load a s = Ret v s) as Hl
    by (intros a v <-; unfold pte_load, gets; by rewrite Hm).
  assert (forall pt level nx, let v := load64 one_page_mem (pt + 8 * PX level 0) in
    flag v PTE_V && (PTE2PA v =? nx) = true -> walk_level pt 0 level false s = Ret (Some nx) s) as Hlev.
  { intros pt level nx v [Hf <-%Z.eqb_eq]%andb_true_iff.
    unfold walk_level. rewrite (bind_Ret _ _ _ _ _ (Hl _ v eq_refl)). by rewrite Hf. }
  assert (walk (KERNBASE + 0x1000) 0 false s = Ret (KERNBASE + 0x3000) s) as Hw.
  { unfold walk. change (0 >=? MAXVA) with false. cbv iota. cbn [walk_loop]. rewrite !bind_assoc.
    rewrite (bind_Ret _ _ _ _ _ (Hlev (KERNBASE + 0x1000) 2 (KERNBASE + 0x2000) ltac:(vm_compute; reflexivity))).
    cbv iota. rewrite !bind_assoc.
    by rewrite (bind_Ret _ _ _ _ _ (Hlev (KERNBASE + 0x2000) 1 (KERNBASE + 0x3000) ltac:(vm_compute; reflexivity))). }
  assert (walkaddr (KERNBASE + 0x1000) 0 s = Ret (KERNBASE + 0x4000) s) as Hwa.
  { unfold walkaddr. change (0 >=? MAXVA) with false. cbv iota. mstep Hw.
    replace (KERNBASE + 0x3000 =? 0) with false by reflexivity.
    mapply Hl by (vm_compute; reflexivity).
    match goal with |- context [flag ?v PTE_V] => replace (flag v PTE_V) with true by (vm_compute; reflexivity);
      replace (flag v PTE_U) with true by (vm_compute; reflexivity) end.
    cbn [negb]. unfold mret, M_ret. f_equal. }
  assert (user_page (KERNBASE + 0x1000) 0 s = Ret (KERNBASE + 0x4000) s) as Hu
    by (unfold user_page; by rewrite (bind_Ret _ _ _ _ _ Hwa)).
  unfold copyin. change (S (Z.to_nat 1)) with 2%nat. cbn [copyin_loop].
  change (1 >? 0) with true. cbv iota zeta. change (PGROUNDDOWN 0) with 0.
  rewrite (bind_Ret _ _ _ _ _ Hu).
  replace (KERNBASE + 0x4000 =? 0) with false by reflexivity.
  erewrite bind_Ret; [|unfold gets; rewrite Hm; reflexivity].
  replace (1 - _ >? 0) with false by reflexivity.
  replace (read_bytes _ _ _) with [65] by (vm_compute; reflexivity). reflexivity.
Qed.

Lemma pipe_kernel_env : env (boot_hart (Some 0%nat)) ∅ pipe_kernel.
Proof. split; [apply boot_hart_quiet|done|apply boot_hart_free]. Qed.

Lemma pipewrite_turn_correct_witness :
  exists s', @pipewrite_turn demo_link 0%nat pipe_page 0 0 1 0 pipe_kernel = Ret (inl 1) s'.
Proof.
  destruct (@pipewrite_turn_correct demo_link 0%nat [0%nat; 1%nat] (fun t => t) 0 (fun _ => Outside) [] []
    (boot_hart (Some 0%nat)) pipe_page 0 0 1 0 65 demo_pipe pipe_proc pipe_kernel pipe_kernel)
    as (y & _ & _ & _ & [(s' & Hs & _)|(s' & k & _ & Hfull & _)]).
  - apply elem_of_cons. by left.
  - reflexivity.
  - reflexivity.
  - apply pipe_kernel_env.
  - reflexivity.
  - unfold NPROC. lia.
  - reflexivity.
  - reflexivity.
  - lia.
  - reflexivity.
  - discriminate.
  - reflexivity.
  - by apply one_page_copyin.
  - apply pipe_kernel_env.
  - reflexivity.
  - reflexivity.
  - exists s'. exact Hs.
  - discriminate Hfull.
Defined.
