(* ===== verification/PipeWeak.v ===== *)
(** * Peterson's protocol on a memory with store buffers

    The harts of a RISC-V machine do not agree on one order of their accesses:
    a store may still be on its way to memory when a later load of the same
    hart is answered.  Here each participant has a queue of the stores it has
    issued, which reach memory one after the other at any time; a load is
    answered from the queue of its participant, else from memory.  The weak
    order of RISC-V allows every run of this machine.  [peterson_enter] has no
    fence between its stores and its loads; the machine takes a flag that says
    whether there is one.  The [yield] in the loop takes a lock, which fences
    too; that is left out, and the run that breaks the exclusion tests [want]
    once on each side, before any [yield]. *)

From stdpp Require Import base numbers gmap sets strings option functions relations list.
From S2P Require Import Prelude Machine Spinlock CString Kalloc Vm Proc ProcSpec Pipe PipeSpec.

(** The shared words of the protocol. *)
Inductive cell := WantOf (me : nat) | TurnOf.
#[export] Instance cell_eq_dec : EqDecision cell.
Proof. solve_decision. Defined.

Record wsys := mkW { w_mem : cell -> Z; w_buf : nat -> list (cell * Z); w_pc : nat -> ppc }.

(** The newest store to the cell in the queue, else memory. *)
Definition wload (y : wsys) (me : nat) (x : cell) : Z :=
  match List.find (fun cv => bool_decide (cv.1 = x)) (rev (w_buf y me)) with
  | Some (_, v) => v
  | None => w_mem y x
  end.
Definition wgoto (me : nat) (pc : ppc) (y : wsys) : wsys := mkW (w_mem y) (w_buf y) (<[me := pc]> (w_pc y)).
Definition wissue (me : nat) (x : cell) (v : Z) (pc : ppc) (y : wsys) : wsys :=
  mkW (w_mem y) (<[me := w_buf y me ++ [(x, v)]]> (w_buf y)) (<[me := pc]> (w_pc y)).

(** [peterson_enter] and [peterson_exit] of the participants 0 and 1, with
    whatever is done inside left out, and the way of a store to memory. *)
Inductive wstep (fence : bool) : wsys -> wsys -> Prop :=
| w_want me y :
    (me < 2)%nat -> w_pc y me = Outside -> wstep fence y (wissue me (WantOf me) 1 Wanting y)
| w_turn me y :
    (me < 2)%nat -> w_pc y me = Wanting -> wstep fence y (wissue me TurnOf (Z.of_nat (1 - me)) TestWant y)
| w_test_want me y c :
    (me < 2)%nat -> w_pc y me = TestWant -> (fence = true -> w_buf y me = []) ->
    wstep fence y (wgoto me (if wload y me (WantOf (1 - me)) =? 0 then Check c else TestTurn) y)
| w_test_turn me y c :
    (me < 2)%nat -> w_pc y me = TestTurn ->
    wstep fence y (wgoto me (if wload y me TurnOf =? Z.of_nat (1 - me) then TestWant else Check c) y)
| w_leave me y c :
    (me < 2)%nat -> w_pc y me = Check c -> wstep fence y (wissue me (WantOf me) 0 Outside y)
| w_reach me y x v l :
    w_buf y me = (x, v) :: l -> wstep fence y (mkW (<[x := v]> (w_mem y)) (<[me := l]> (w_buf y)) (w_pc y)).

(** A pipe as [pipealloc] leaves it. *)
Definition winit (t0 : Z) : wsys :=
  mkW (fun x => match x with WantOf _ => 0 | TurnOf => t0 end) (fun _ => []) (fun _ => Outside).

(** ** With a fence *)

(** What is in the queue of a participant, and its [want] in memory. *)
Definition queue_ok (y : wsys) (me : nat) : Prop :=
  let b := w_buf y me in let w := w_mem y (WantOf me) in let o := (TurnOf, Z.of_nat (1 - me)) in
  match w_pc y me with
  | Outside => b = [] \/ b = [(WantOf me, 0)]
  | Wanting => (b = [] /\ w = 1) \/ b = [(WantOf me, 1)] \/ b = [(WantOf me, 0); (WantOf me, 1)]
  | TestWant => ((b = [] \/ b = [o]) /\ w = 1) \/ b = [(WantOf me, 1); o] \/ b = [(WantOf me, 0); (WantOf me, 1); o]
  | _ => b = [] /\ w = 1
  end.

(** Its announcement and its [turn] have reached memory. *)
Definition announced (y : wsys) (me : nat) : Prop := entering (w_pc y me) = true /\ w_buf y me = [].

Record winv (y : wsys) : Prop := {
  wi_out me : (2 <= me)%nat -> w_pc y me = Outside /\ w_buf y me = [];
  wi_turn : w_mem y TurnOf = 0 \/ w_mem y TurnOf = 1;
  wi_queue me : (me < 2)%nat -> queue_ok y me;
  wi_excl me : (me < 2)%nat -> inside (w_pc y me) = true -> announced y (1 - me) -> w_mem y TurnOf = Z.of_nat me
}.

Lemma winv_exclusive y : winv y -> inside (w_pc y 0%nat) && inside (w_pc y 1%nat) = false.
Proof.
  intros [_ _ Hq He]. destruct (inside (w_pc y 0%nat)) eqn:E0, (inside (w_pc y 1%nat)) eqn:E1; try done. exfalso.
  assert (forall me, (me < 2)%nat -> inside (w_pc y me) = true -> announced y me) as Han.
  { intros me Hme Hin. pose proof (Hq me Hme) as H. unfold queue_ok in H. split; [by destruct (w_pc y me)|].
    destruct (w_pc y me); try done; apply H. }
  pose proof (He 0%nat ltac:(lia) E0 (Han 1%nat ltac:(lia) E1)). pose proof (He 1%nat ltac:(lia) E1 (Han 0%nat ltac:(lia) E0)). lia.
Qed.

Lemma wload_empty y me x : w_buf y me = [] -> wload y me x = w_mem y x.
Proof. intros E. unfold wload. by rewrite E. Qed.

(** A step of participant [me] that leaves memory alone. *)
Lemma winv_local y me y' :
  winv y -> (me < 2)%nat -> w_mem y' = w_mem y -> (forall u, u <> me -> w_pc y' u = w_pc y u /\ w_buf y' u = w_buf y u) ->
  queue_ok y' me -> (announced y' me -> announced y me) ->
  (inside (w_pc y' me) = true -> announced y (1 - me) -> w_mem y TurnOf = Z.of_nat me) -> winv y'.
Proof.
  intros [Ho Ht Hq He] Hme Em Hoth Hq' Han Hin. split; rewrite ?Em; [|done|..].
  - intros u Hu. destruct (Hoth u ltac:(lia)) as [-> ->]. by apply Ho.
  - intros u Hu. destruct (decide (u = me)) as [->|Hne]; [done|]. pose proof (Hq u Hu) as H. unfold queue_ok in *.
    destruct (Hoth u Hne) as [-> ->]. by rewrite Em.
  - intros u Hu Hui Ha. destruct (decide (u = me)) as [->|Hne].
    + apply Hin; [done|]. unfold announced in *. by destruct (Hoth (1 - me)%nat ltac:(lia)) as [<- <-].
    + destruct (Hoth u Hne) as [Ep _]. rewrite Ep in Hui. apply (He u Hu Hui). replace (1 - u)%nat with me in * by lia. by apply Han.
Qed.

(** A store of participant [me] reaches memory. *)
Lemma winv_reach y me x v l :
  winv y -> w_buf y me = (x, v) :: l -> winv (mkW (<[x := v]> (w_mem y)) (<[me := l]> (w_buf y)) (w_pc y)).
Proof.
  intros [Ho Ht Hq He] Hb. destruct (decide (2 <= me)%nat) as [Hge|Hlt]; [by destruct (Ho me Hge) as [_ E]; rewrite E in Hb|].
  set (y' := mkW _ _ _).
  assert (queue_ok y' me /\ ((x = WantOf me /\ (announced y' me -> announced y me)) \/ (x = TurnOf /\ v = Z.of_nat (1 - me) /\ inside (w_pc y me) = false)))
    as [Hq' Hx].
  { pose proof (Hq me ltac:(lia)) as H. unfold queue_ok, announced in *. rewrite Hb in H. simpl. rewrite fn_lookup_insert.
    destruct (w_pc y me); destruct_or?; destruct_and?; destruct_or?; simplify_eq; rewrite ?fn_lookup_insert;
      (split; [tauto|first [left; split; [done|naive_solver] | by right] ]). }
  assert (forall u, u <> me -> w_mem y' (WantOf u) = w_mem y (WantOf u) /\ w_buf y' u = w_buf y u) as Hoth.
  { intros u Hu. simpl. rewrite (fn_lookup_insert_ne (w_buf y)) by done. split; [|done]. rewrite fn_lookup_insert_ne; [done|].
    destruct Hx as [[-> _]|[-> _]]; congruence. }
  split.
  - intros u Hu. destruct (Hoth u ltac:(lia)) as [_ E]. rewrite E. by apply Ho.
  - simpl. destruct Hx as [[-> _]|(-> & -> & _)]; [by rewrite fn_lookup_insert_ne|rewrite fn_lookup_insert]. destruct me as [|[|]]; simpl; lia.
  - intros u Hu. destruct (decide (u = me)) as [->|Hne]; [done|]. pose proof (Hq u Hu) as H. unfold queue_ok in *. by destruct (Hoth u Hne) as [-> ->].
  - intros u Hu Hui Ha. change (w_pc y' u) with (w_pc y u) in Hui. destruct Hx as [[-> Hx]|(-> & -> & Hx)].
    + simpl. rewrite fn_lookup_insert_ne by done. apply (He u Hu Hui). destruct (decide (u = me)) as [->|Hne].
      * unfold announced in *. by destruct (Hoth (1 - me)%nat ltac:(lia)) as [_ <-].
      * replace (1 - u)%nat with me in * by lia. by apply Hx.
    + simpl. rewrite fn_lookup_insert. destruct (decide (u = me)) as [->|Hne]; [congruence|]. f_equal. lia.
Qed.

Lemma winv_step y y' : wstep true y y' -> winv y -> winv y'.
Proof.
  intros Hs Hi. pose proof Hi as [Ho Ht Hq He].
  destruct Hs as [me y Hme Hp|me y Hme Hp|me y c Hme Hp Hf|me y c Hme Hp|me y c Hme Hp|me y x v l Hb]; [..|by apply winv_reach].
  all: pose proof (Hq me Hme) as H; unfold queue_ok in H; rewrite Hp in H.
  all: apply (winv_local y me); try done; try (intros u Hu; simpl; by rewrite ?fn_lookup_insert_ne).
  all: unfold queue_ok, announced; simpl; rewrite ?fn_lookup_insert.
  - destruct H as [-> | ->]; auto.
  - by intros [? _].
  - done.
  - destruct H as [[-> ?]|[-> | ->]]; auto.
  - intros [_ E]. by apply app_eq_nil in E as [_ ?].
  - done.
  - specialize (Hf eq_refl). rewrite Hf in *. assert (w_mem y (WantOf me) = 1) by naive_solver. destruct (_ =? 0); auto.
  - rewrite Hp, (Hf eq_refl). by intros _.
  - rewrite wload_empty by auto. destruct (Z.eqb_spec (w_mem y (WantOf (1 - me))) 0) as [E0|]; [|done]. intros _ [Ha Hb]. exfalso.
    pose proof (Hq (1 - me)%nat ltac:(lia)) as H'. unfold queue_ok in H'. rewrite Hb, E0 in H'.
    destruct (w_pc y (1 - me)%nat); naive_solver.
  - destruct H as [-> ?]. destruct (_ =? _); auto.
  - rewrite Hp. destruct H as [-> _]. by intros _.
  - destruct H as [Hb _]. rewrite wload_empty by done. destruct (Z.eqb_spec (w_mem y TurnOf) (Z.of_nat (1 - me))); [done|]. intros _ _. lia.
  - destruct H as [-> _]. auto.
  - by intros [? _].
  - done.
Qed.

(** ** The property *)

(** C22: On a memory with store buffers the protocol as it is coded does not exclude:
    from a fresh pipe both participants can get between [peterson_enter] and
    [peterson_exit], because each tests [want] of the other while the other's
    store is still on its way.  With a fence between the stores and the test of
    [want] the two are never both inside on this memory. *)
Theorem peterson_needs_fence t0 :
  t0 = 0 \/ t0 = 1 ->
  (exists y, rtc (wstep false) (winit t0) y /\ inside (w_pc y 0%nat) = true /\ inside (w_pc y 1%nat) = true)
  /\ (forall y, rtc (wstep true) (winit t0) y -> inside (w_pc y 0%nat) && inside (w_pc y 1%nat) = false).
Proof.
  intros Ht0. split.
  - eexists. split; [|split].
    + eapply rtc_l; [apply (w_want _ 0); [lia|reflexivity]|]. eapply rtc_l; [apply (w_turn _ 0); [lia|reflexivity]|].
      eapply rtc_l; [apply (w_want _ 1); [lia|reflexivity]|]. eapply rtc_l; [apply (w_turn _ 1); [lia|reflexivity]|].
      eapply rtc_l; [apply (w_test_want _ 0 _ 0); [lia|reflexivity|done]|]. apply rtc_once. apply (w_test_want _ 1 _ 0); [lia|reflexivity|done].
    + reflexivity.
    + reflexivity.
  - intros y Hr. apply winv_exclusive. eapply (rtc_ind_r winv (winit t0)); [| |exact Hr].
    + split; try done. by left.
    + intros a b _ Hab. by apply winv_step.
Qed.

Lemma peterson_needs_fence_witness :
  exists y, rtc (wstep false) (winit 0) y /\ inside (w_pc y 0%nat) && inside (w_pc y 1%nat) = true.
Proof.
  destruct (peterson_needs_fence 0 (or_introl eq_refl)) as [(y & Hr & E0 & E1) _]. exists y. split; [exact Hr|]. rewrite E0, E1. reflexivity.
Defined.
