(* ===== verification/Bio.v ===== *)
(** * The buffer cache

    [kernel/bio.c].  A [struct buf *] is an index into [bufs], the index
    [NBUF] being [bcache.head]; the links are indices as well.  The disk driver
    is used through the interface [Disk]. *)

From stdpp Require Import base numbers gmap sets strings option list.
From S2P Require Import Prelude Machine Spinlock Proc Sleeplock.

(** What the cache asks of the driver: move the block of buffer [b] from the
    disk, or to the disk when [write] is true. *)
Class Disk := virtio_disk_rw : forall (b : nat) (write : bool), K ().

Definition buf_get (b : nat) : K buf := bs ← gets bufs; deref (bs !! b).
Definition buf_upd (b : nat) (f : buf -> buf) : K () := modify (fun s => s <| bufs ::= alter f b |>).

(** [b->next = head.next; b->prev = &head; head.next->prev = b; head.next = b] *)
Definition link_first (b : nat) : K () :=
  hd ← buf_get NBUF;
  buf_upd b (fun x => x <| b_next := b_next hd |>);;
  buf_upd b (fun x => x <| b_prev := NBUF |>);;
  hd ← buf_get NBUF;
  buf_upd (b_next hd) (fun x => x <| b_prev := b |>);;
  buf_upd NBUF (fun x => x <| b_next := b |>).

Definition binit : K () :=
  initlock LkBcache;;
  buf_upd NBUF (fun x => x <| b_prev := NBUF |>);;
  buf_upd NBUF (fun x => x <| b_next := NBUF |>);;
  forM (seq 0 NBUF) (fun b =>
    hd ← buf_get NBUF;
    buf_upd b (fun x => x <| b_next := b_next hd |>);;
    buf_upd b (fun x => x <| b_prev := NBUF |>);;
    initsleeplock (SlBuf b);;
    hd ← buf_get NBUF;
    buf_upd (b_next hd) (fun x => x <| b_prev := b |>);;
    buf_upd NBUF (fun x => x <| b_next := b |>)).

(** Walk the list from [b] along [dir] to the first buffer that passes [test],
    or to the head. *)
Fixpoint bscan (fuel : nat) (dir : buf -> nat) (test : buf -> bool) (b : nat) : K (option nat) :=
  match fuel with
  | O => hangs HFuel
  | S fuel =>
      if (b =? NBUF)%nat then mret None
      else
        x ← buf_get b;
        if test x then mret (Some b) else bscan fuel dir test (dir x)
  end.

Section ops.
Context `{Patience, Disk}.

Definition bget (dev blockno : Z) : K nat :=
  acquire LkBcache;;
  hd ← buf_get NBUF;
  r ← bscan (S NBUF) b_next (fun x => (b_dev x =? dev) && (b_blockno x =? blockno)) (b_next hd);
  match r with
  | Some b =>
      buf_upd b (fun x => x <| b_refcnt ::= fun n => u32 (n + 1) |>);;
      release LkBcache;;
      acquiresleep (SlBuf b);;
      mret b
  | None =>
      hd ← buf_get NBUF;
      r ← bscan (S NBUF) b_prev (fun x => b_refcnt x =? 0) (b_prev hd);
      match r with
      | Some b =>
          buf_upd b (fun x => x <| b_dev := dev |> <| b_blockno := blockno |> <| b_valid := 0 |>
                                <| b_refcnt := 1 |>);;
          release LkBcache;;
          acquiresleep (SlBuf b);;
          mret b
      | None => panic "bget: no buffers"
      end
  end.

Definition bread (dev blockno : Z) : K nat :=
  b ← bget dev blockno;
  x ← buf_get b;
  when (b_valid x =? 0)
    (virtio_disk_rw b false;;
     buf_upd b (fun x => x <| b_valid := 1 |>));;
  mret b.

Definition bwrite (b : nat) : K () :=
  h ← holdingsleep (SlBuf b);
  if negb h then panic "bwrite" else virtio_disk_rw b true.

Definition brelse (b : nat) : K () :=
  h ← holdingsleep (SlBuf b);
  if negb h then panic "brelse"
  else
    releasesleep (SlBuf b);;
    acquire LkBcache;;
    buf_upd b (fun x => x <| b_refcnt ::= fun n => u32 (n - 1) |>);;
    x ← buf_get b;
    when (b_refcnt x =? 0)
      (buf_upd (b_next x) (fun y => y <| b_prev := b_prev x |>);;
       x ← buf_get b;
       buf_upd (b_prev x) (fun y => y <| b_next := b_next x |>);;
       link_first b);;
    release LkBcache.

Definition bpin (b : nat) : K () :=
  acquire LkBcache;;
  buf_upd b (fun x => x <| b_refcnt ::= fun n => u32 (n + 1) |>);;
  release LkBcache.

Definition bunpin (b : nat) : K () :=
  acquire LkBcache;;
  buf_upd b (fun x => x <| b_refcnt ::= fun n => u32 (n - 1) |>);;
  release LkBcache.
End ops.

(** ** The block of a buffer *)

Definition data_of (b : nat) : K (list Z) := x ← buf_get b; mret (b_data x).
Definition set_data (b : nat) (d : list Z) : K () := buf_upd b (fun x => x <| b_data := d |>).

(** Little-endian fields inside a block. *)
Fixpoint le_bytes (n : nat) (v : Z) : list Z :=
  match n with O => [] | S n => u8 v :: le_bytes n (v / 256) end.
Fixpoint le_val (l : list Z) : Z :=
  match l with [] => 0 | b :: l => b + 256 * le_val l end.
Definition get_le (n : nat) (d : list Z) (off : nat) : Z := le_val (take n (drop off d)).
Definition put_le (n : nat) (d : list Z) (off : nat) (v : Z) : list Z := list_inserts off (le_bytes n v) d.
Notation get16 := (get_le 2).
Notation get32 := (get_le 4).
Notation put16 := (put_le 2).
Notation put32 := (put_le 4).
