(* ===== verification/BlockData.v ===== *)
(** * Little-endian fields of a block

    The laws of [get_le] and [put_le]: what was stored in a field is read back,
    and disjoint fields do not see each other. *)

From stdpp Require Import base numbers gmap sets strings option list.
From S2P Require Import Prelude Machine Spinlock Proc Sleeplock Bio.

Lemma length_le_bytes n v : length (le_bytes n v) = n.
Proof. revert v. induction n as [|n IH]; intros v; simpl; [done|]. by rewrite IH. Qed.

Lemma le_val_bytes n v : le_val (le_bytes n v) = v mod 256 ^ Z.of_nat n.
Proof.
  revert v. induction n as [|n IH]; intros v; [simpl; by rewrite Z.mod_1_r|].
  change (u8 v + 256 * le_val (le_bytes n (v / 256)) = v mod 256 ^ Z.of_nat (S n)). rewrite IH.
  rewrite Nat2Z.inj_succ, Z.pow_succ_r by lia. rewrite Z.rem_mul_r by lia. done.
Qed.

Lemma length_put_le n d off v : length (put_le n d off v) = length d.
Proof. apply length_inserts. Qed.

(** Reading where a list of bytes was stored, and beside it. *)
Lemma get_inserts_in n d off l k :
  (k + n <= length l)%nat -> (off + length l <= length d)%nat ->
  get_le n (list_inserts off l d) (off + k) = le_val (take n (drop k l)).
Proof.
  intros Hk Hlen. unfold get_le. f_equal. apply list_eq. intros j. destruct (decide (j < n)%nat) as [Hj|Hj].
  - rewrite !lookup_take_lt, !lookup_drop by lia. rewrite list_lookup_inserts by lia. f_equal. lia.
  - by rewrite !lookup_take_ge by lia.
Qed.

Lemma get_inserts_out n d off l o :
  (o + n <= off \/ off + length l <= o)%nat -> get_le n (list_inserts off l d) o = get_le n d o.
Proof.
  intros Hdis. unfold get_le. f_equal. apply list_eq. intros k.
  destruct (decide (k < n)%nat) as [Hk|Hk]; [|by rewrite !lookup_take_ge by lia].
  rewrite !lookup_take_lt, !lookup_drop by lia.
  destruct Hdis; [by rewrite list_lookup_inserts_lt by lia|by rewrite list_lookup_inserts_ge by lia].
Qed.

Lemma get_put_same n d off v :
  (off + n <= length d)%nat -> get_le n (put_le n d off v) off = v mod 256 ^ Z.of_nat n.
Proof.
  intros Hlen. pose proof (get_inserts_in n d off (le_bytes n v) 0) as Hg. rewrite length_le_bytes, Nat.add_0_r in Hg.
  unfold put_le. rewrite Hg, drop_0, take_ge by (rewrite ?length_le_bytes; lia). apply le_val_bytes.
Qed.

Lemma get_put_other n m d off off' v :
  (off + n <= off' \/ off' + m <= off)%nat -> get_le n (put_le m d off' v) off = get_le n d off.
Proof. intros Hdis. apply get_inserts_out. by rewrite length_le_bytes. Qed.

(** An array of 32-bit words as bytes. *)
Lemma length_words l : length (flat_map (le_bytes 4) l) = (4 * length l)%nat.
Proof. induction l as [|w l IH]; [done|]. cbn [flat_map]. rewrite length_app, IH, length_le_bytes. simpl. lia. Qed.
Lemma words_at l k w : l !! k = Some w -> take 4 (drop (4 * k) (flat_map (le_bytes 4) l)) = le_bytes 4 w.
Proof.
  revert k. induction l as [|v l IH]; intros k Hk; [done|]. cbn [flat_map]. destruct k as [|k]; simpl in Hk.
  - injection Hk as ->. rewrite Nat.mul_0_r, drop_0. apply take_app_length'. symmetry; apply length_le_bytes.
  - rewrite drop_app_ge by (rewrite length_le_bytes; lia). rewrite length_le_bytes. replace (4 * S k - 4)%nat with (4 * k)%nat by lia.
    by apply IH.
Qed.

(** A stored [int] or [uint] is read back as it was. *)
Lemma get32_i32 d off v :
  (off + 4 <= length d)%nat -> - 2 ^ 31 <= v < 2 ^ 31 -> i32 (get32 (put32 d off v) off) = v.
Proof.
  intros Hlen Hv. rewrite get_put_same by done. change (256 ^ Z.of_nat 4) with (2 ^ 32).
  unfold i32. rewrite Zplus_mod_idemp_l, Z.mod_small by lia. lia.
Qed.
Lemma get32_u32 d off v :
  (off + 4 <= length d)%nat -> 0 <= v < 2 ^ 32 -> get32 (put32 d off v) off = v.
Proof.
  intros Hlen Hv. rewrite get_put_same by done. change (256 ^ Z.of_nat 4) with (2 ^ 32). by apply Z.mod_small.
Qed.

(** ** Arrays of words *)

Fixpoint put_words (d : list Z) (off : nat) (ws : list Z) : list Z :=
  match ws with [] => d | w :: ws => put_words (put32 d off w) (off + 4) ws end.
Definition get_words (d : list Z) (off n : nat) : list Z := map (fun j => i32 (get32 d (off + 4 * j))) (seq 0 n).

Lemma length_put_words ws : forall d off, length (put_words d off ws) = length d.
Proof. induction ws as [|w ws IH]; intros d off; simpl; [done|]. rewrite IH. apply length_put_le. Qed.

Lemma put_words_snoc ws w : forall d off,
  put_words d off (ws ++ [w]) = put32 (put_words d off ws) (off + 4 * length ws) w.
Proof.
  induction ws as [|v ws IH]; intros d off; simpl; [f_equal; lia|]. rewrite IH. f_equal. lia.
Qed.

Lemma get_put_words_before ws : forall d off o,
  (o + 4 <= off)%nat -> get32 (put_words d off ws) o = get32 d o.
Proof.
  induction ws as [|w ws IH]; intros d off o Ho; simpl; [done|]. rewrite IH by lia.
  apply get_put_other. lia.
Qed.

Lemma get_put_words ws : forall d off j w,
  (off + 4 * length ws <= length d)%nat -> ws !! j = Some w -> - 2 ^ 31 <= w < 2 ^ 31 ->
  i32 (get32 (put_words d off ws) (off + 4 * j)) = w.
Proof.
  induction ws as [|v ws IH]; intros d off j w Hlen Hj Hw; [done|].
  cbn [length put_words] in *. destruct j as [|j]; simpl in Hj.
  - injection Hj as ->. rewrite get_put_words_before by lia. rewrite Nat.mul_0_r, Nat.add_0_r. apply get32_i32; [lia|done].
  - replace (off + 4 * S j)%nat with (off + 4 + 4 * j)%nat by lia. apply IH; [rewrite length_put_le; lia|done|done].
Qed.

Lemma get_words_put d off ws :
  (off + 4 * length ws <= length d)%nat -> Forall (fun w => - 2 ^ 31 <= w < 2 ^ 31) ws ->
  get_words (put_words d off ws) off (length ws) = ws.
Proof.
  intros Hlen Hws. apply list_eq. intros j. unfold get_words.
  change (map ?f ?l) with (f <$> l). rewrite list_lookup_fmap. destruct (decide (j < length ws)%nat) as [Hj|Hj].
  - rewrite lookup_seq_lt by done. simpl. destruct (lookup_lt_is_Some_2 ws j Hj) as [w Hw]. rewrite Hw. f_equal.
    apply get_put_words; [done|done|]. rewrite Forall_forall in Hws. apply Hws. by eapply list_elem_of_lookup_2.
  - rewrite lookup_seq_ge by lia. simpl. symmetry. apply lookup_ge_None_2. lia.
Qed.
