(* ===== verification/Cache.v ===== *)
(** * The buffer cache as a map of blocks

    Above the linked list of [Bio] stands an abstract cache: what every block
    holds ([cv_view]), how many references each block has ([cv_refs]) and which
    buffer the running process has locked for which block ([cv_held]).
    [cache_rep] relates it to the buffers, the sleep locks and the disk, and
    the lemmas of this file say what [bread], [bwrite], [brelse], [bpin] and
    [bunpin] do to it.  The disk driver is used through the laws of
    [DiskOk]. *)

From stdpp Require Import base numbers gmap sets strings option functions list.
From S2P Require Import Prelude Machine Spinlock CString Printf Kalloc Vm Proc ProcSpec.
From S2P Require Import Sleeplock SleeplockSpec Bio.

Lemma size_list_to_set_le (l : list Z) : (size (list_to_set l : gset Z) <= length l)%nat.
Proof.
  induction l as [|x l IH]; [done|]. simpl. rewrite size_union_alt, size_singleton.
  pose proof (subseteq_size (list_to_set l ∖ {[x]} : gset Z) (list_to_set l) ltac:(set_solver)). lia.
Qed.

(** ** The running process and what storage code leaves alone *)

(** [q] is [p], woken or not. *)
Definition woke (p q : proc) : Prop :=
  q = p \/ (state p = SLEEPING /\ q = p <| state := RUNNABLE |>).

#[export] Instance woke_refl : Reflexive woke.
Proof. by left. Qed.
#[export] Instance woke_trans : Transitive woke.
Proof. intros p q r [->|[Hp ->]] [->|[Hq ->]]; [by left|by right|by right|done]. Qed.

Lemma woken_woke h ch ps : Forall2 woke ps (woken h ch ps).
Proof.
  apply Forall2_same_length_lookup_2; [by rewrite woken_length|].
  intros j p q Hp. unfold woken. rewrite list_lookup_imap, Hp. simpl. intros [= <-].
  case_decide; [by left|]. unfold wake. case_bool_decide as Hw; [|by left]. right. tauto.
Qed.

(** Process [i] runs on the hart [h] with the spin locks [X] held. *)
Record running (h : hart) (X : gset lockid) (i : nat) (p : proc) (s : kernel) : Prop := {
  ru_env : env h X s;
  ru_cur : curproc h = Some i;
  ru_lt : (i < NPROC)%nat;
  ru_proc : procs s !! i = Some p;
  ru_state : state p = RUNNING;
  ru_chan : chan p = None;
  ru_table : table_ok s
}.

(** [s] with the storage part of [t]. *)
Definition storage (s t : kernel) : kernel :=
  s <| procs := procs t |> <| bufs := bufs t |> <| sleeplocks := sleeplocks t |> <| disk := disk t |>
    <| dwrites := dwrites t |> <| vdisk := vdisk t |> <| mmio := mmio t |>.

(** [s'] differs from [s] in the storage part only, and other processes have at
    most been woken. *)
Record sframe (s s' : kernel) : Prop := {
  sf_eq : s' = storage s s';
  sf_procs : Forall2 woke (procs s) (procs s')
}.

#[export] Instance sframe_refl : Reflexive sframe.
Proof. intros s. split; [by destruct s|reflexivity]. Qed.
#[export] Instance sframe_trans : Transitive sframe.
Proof.
  intros s s' s'' [E Hp] [E' Hp']. split; [|by etrans].
  rewrite E' at 1. rewrite E at 1. by destruct s, s', s''.
Qed.

Lemma running_frame h X i p s s' : running h X i p s -> sframe s s' -> running h X i p s'.
Proof.
  intros [He Hc Hlt Hp Hst Hch Ht] [E Hw]. split; try done.
  - apply (env_upd _ _ s); [done|]. rewrite E. by destruct s, s'.
  - destruct (Forall2_lookup_l _ _ _ _ _ Hw Hp) as (q & Hq & [->|[Hs _] ]); [done|congruence].
  - unfold table_ok in *. by rewrite <- (Forall2_length _ _ _ Hw).
Qed.

Lemma running_locks h X Y i p s :
  running h X i p s -> running h Y i p (s <| hw := acquired h Y |>).
Proof. intros [He Hc Hlt Hp Hst Hch Ht]. split; try done. by apply (env_add h X). Qed.

(** ** The linked list *)

(** Following [f] from [a] visits [l] and then [z]. *)
Fixpoint chain (f : nat -> option nat) (a : nat) (l : list nat) (z : nat) : Prop :=
  match l with
  | [] => f a = Some z
  | b :: l => f a = Some b /\ chain f b l z
  end.

Definition link_of (dir : buf -> nat) (bs : list buf) (a : nat) : option nat := dir <$> bs !! a.

(** The list in both directions, with its head at [NBUF]. *)
Definition dll (bs : list buf) (l : list nat) : Prop :=
  chain (link_of b_next bs) NBUF l NBUF /\ chain (link_of b_prev bs) NBUF (reverse l) NBUF.

Section chain.
Implicit Types (f g : nat -> option nat) (a b z : nat) (l : list nat).

Lemma chain_ext f g a l z :
  (forall x, x ∈ a :: l -> g x = f x) -> chain f a l z -> chain g a l z.
Proof.
  revert a. induction l as [|b l IH]; simpl; intros a Hfg.
  - intros <-. apply Hfg. set_solver.
  - intros [Ha Hb]. split; [rewrite Hfg by set_solver; done|]. apply IH; [|done]. set_solver.
Qed.

Lemma chain_app f a l1 b l2 z : chain f a (l1 ++ b :: l2) z <-> chain f a l1 b /\ chain f b l2 z.
Proof. revert a. induction l1 as [|c l1 IH]; intros a; simpl; [done|]. rewrite IH. tauto. Qed.

(** The cell before the end. *)
Fixpoint lst a l : nat := match l with [] => a | b :: l => lst b l end.

Lemma lst_elem a l : lst a l ∈ a :: l.
Proof. revert a. induction l as [|b l IH]; intros a; simpl; [set_solver|]. specialize (IH b). set_solver. Qed.

Lemma chain_end f a l z : chain f a l z -> f (lst a l) = Some z.
Proof.
  revert a. induction l as [|b l IH]; simpl; intros a; [done|].
  intros [_ H]. by apply IH.
Qed.

(** Redirecting the last cell. *)
Lemma chain_redirect f a l z z' :
  NoDup (a :: l) -> chain f a l z -> chain (<[lst a l := Some z']> f) a l z'.
Proof.
  revert a. induction l as [|b l IH]; simpl; intros a.
  - intros _ _. apply fn_lookup_insert.
  - intros [Ha Hnd]%NoDup_cons [Hfa Hc]. split.
    + rewrite fn_lookup_insert_ne; [done|]. intros E. apply Ha. rewrite <- E. apply lst_elem.
    + by apply IH.
Qed.

(** The first cell after [b], read off the chain. *)
Lemma chain_head f b l z : chain f b l z -> f b = Some (default z (head l)).
Proof. destruct l; simpl; [done|]. by intros [-> _]. Qed.

(** Unlinking [b]. *)
Lemma chain_remove f a l1 b l2 z y :
  NoDup (a :: l1 ++ b :: l2) -> chain f a (l1 ++ b :: l2) z -> f b = Some y ->
  chain (<[lst a l1 := Some y]> f) a (l1 ++ l2) z.
Proof.
  intros Hnd [H1 H2]%chain_app Hy. pose proof (chain_head _ _ _ _ H2) as Hb. rewrite Hy in Hb.
  injection Hb as ->.
  assert (NoDup (a :: l1)) as Hnd1 by (revert Hnd; rewrite app_comm_cons; by intros [? _]%NoDup_app).
  destruct l2 as [|c l2]; simpl.
  - rewrite app_nil_r. by eapply chain_redirect.
  - apply chain_app. split; [by eapply chain_redirect|]. destruct H2 as [_ H2].
    eapply chain_ext; [|exact H2]. intros x Hx. rewrite fn_lookup_insert_ne; [done|].
    revert Hnd. rewrite app_comm_cons. intros (_ & Hdis & _)%NoDup_app E.
    apply (Hdis x); [rewrite <- E; apply lst_elem|set_solver].
Qed.

(** Linking [b] in as the first cell. *)
Lemma chain_cons f a l b z y :
  NoDup (a :: b :: l) -> chain f a l z -> f a = Some y ->
  chain (<[a := Some b]> (<[b := Some y]> f)) a (b :: l) z.
Proof.
  intros [Ha [Hb Hnd]%NoDup_cons]%NoDup_cons H Hy. pose proof (chain_head _ _ _ _ H) as Hh.
  rewrite Hy in Hh. injection Hh as ->.
  assert (forall x, x ∈ l -> (<[a:=Some b]> (<[b:=Some (default z (head l))]> f)) x = f x) as Hext.
  { intros x Hx. rewrite !fn_lookup_insert_ne; set_solver. }
  simpl. split; [apply fn_lookup_insert|].
  assert ((<[a:=Some b]> (<[b:=Some (default z (head l))]> f)) b = Some (default z (head l))) as Hbb.
  { rewrite fn_lookup_insert_ne by set_solver. apply fn_lookup_insert. }
  destruct l as [|c l]; simpl; [done|]. split; [done|]. destruct H as [_ H].
  eapply chain_ext; [|exact H]. done.
Qed.
End chain.

Lemma chain_defined f a l z x : chain f a l z -> x ∈ a :: l -> is_Some (f x).
Proof.
  revert a. induction l as [|b l IH]; simpl; intros a.
  - intros Ha ->%list_elem_of_singleton. by exists z.
  - intros [Ha Hc] [->|Hx]%elem_of_cons; [by exists b|]. by apply (IH b).
Qed.

(** Updates that leave the links alone keep the list. *)
Lemma link_of_alter dir f b bs a :
  (forall x, dir (f x) = dir x) -> link_of dir (alter f b bs) a = link_of dir bs a.
Proof.
  intros Hf. unfold link_of. destruct (decide (b = a)) as [<-|].
  - rewrite list_lookup_alter_eq. destruct (bs !! b); simpl; by rewrite ?Hf.
  - by rewrite list_lookup_alter_ne.
Qed.
Lemma link_of_set dir f b bs v a :
  (forall x, dir (f x) = v) -> (b < length bs)%nat ->
  link_of dir (alter f b bs) a = (<[b := Some v]> (link_of dir bs)) a.
Proof.
  intros Hf Hb. unfold link_of. destruct (decide (b = a)) as [<-|].
  - rewrite list_lookup_alter_eq, fn_lookup_insert. destruct (lookup_lt_is_Some_2 bs b Hb) as [x ->].
    simpl. by rewrite Hf.
  - by rewrite list_lookup_alter_ne, fn_lookup_insert_ne.
Qed.
Lemma dll_alter f b bs l :
  (forall x, b_next (f x) = b_next x) -> (forall x, b_prev (f x) = b_prev x) -> dll bs l -> dll (alter f b bs) l.
Proof.
  intros Hn Hp [H1 H2]. split; eapply chain_ext; try eassumption; intros x _; by apply link_of_alter.
Qed.

Definition test_at (bs : list buf) (test : buf -> bool) (b : nat) : bool :=
  match bs !! b with Some x => test x | None => false end.

Lemma bscan_ok dir test s a l fuel start :
  chain (link_of dir (bufs s)) a l NBUF -> Forall (fun b => (b < NBUF)%nat) l ->
  link_of dir (bufs s) a = Some start -> (length l < fuel)%nat ->
  bscan fuel dir test start s = Ret (List.find (test_at (bufs s) test) l) s.
Proof.
  revert a fuel start. induction l as [|b l IH]; simpl; intros a [|fuel] start Hc Hl Ha Hlen; try lia; simpl.
  - rewrite Ha in Hc. injection Hc as ->. by rewrite Nat.eqb_refl.
  - destruct Hc as [Ha' Hc]. rewrite Ha in Ha'. injection Ha' as ->.
    apply Forall_cons in Hl as [Hb Hl]. rewrite (proj2 (Nat.eqb_neq _ _)) by lia.
    destruct (chain_defined _ _ _ _ b Hc) as [y Hy]; [set_solver|]. pose proof Hy as Hy'. unfold link_of in Hy.
    apply fmap_Some in Hy as (x & Hx & ->). unfold buf_get. msimpl. rewrite Hx. msimpl.
    unfold test_at at 1. rewrite Hx. destruct (test x); [done|].
    apply (IH b); [done|done|done|lia].
Qed.

(** ** The abstract cache *)

Record cache := mkCache {
  cv_view : gmap Z (list Z);
  cv_refs : gmap Z Z;
  cv_held : gmap Z nat
}.
#[export] Instance set_cv_view : Setter cv_view := fun f r => mkCache (f (cv_view r)) (cv_refs r) (cv_held r).
#[export] Instance set_cv_refs : Setter cv_refs := fun f r => mkCache (cv_view r) (f (cv_refs r)) (cv_held r).
#[export] Instance set_cv_held : Setter cv_held := fun f r => mkCache (cv_view r) (cv_refs r) (f (cv_held r)).

(** The buffer [x] is for block [n]. *)
Definition of_block (n : Z) (x : buf) : Prop := b_dev x = ROOTDEV /\ b_blockno x = n.

(** An unreferenced buffer is clean; a referenced one has its block's contents. *)
Definition buf_ok (D : gmap Z (list Z)) (c : cache) (x : buf) : Prop :=
  (b_refcnt x = 0 /\ (b_valid x <> 0 -> b_dev x = ROOTDEV /\ D !! b_blockno x = Some (b_data x)))
  \/ (0 < b_refcnt x < 2 ^ 32 /\ b_valid x <> 0 /\ b_dev x = ROOTDEV
      /\ cv_refs c !! b_blockno x = Some (b_refcnt x) /\ cv_view c !! b_blockno x = Some (b_data x)).

(** The cache of the process with PID [me]. *)
Record cache_rep (me : Z) (s : kernel) (c : cache) : Prop := {
  cr_len : length (bufs s) = S NBUF;
  cr_list : exists l, l ≡ₚ seq 0 NBUF /\ dll (bufs s) l;
  cr_uniq : forall n b b' x x', (b < NBUF)%nat -> (b' < NBUF)%nat -> bufs s !! b = Some x -> bufs s !! b' = Some x' ->
    of_block n x -> of_block n x' -> b = b';
  cr_buf : forall b x, (b < NBUF)%nat -> bufs s !! b = Some x -> buf_ok (disk s) c x;
  cr_refs : forall n, is_Some (cv_refs c !! n) ->
    exists b x, (b < NBUF)%nat /\ bufs s !! b = Some x /\ of_block n x /\ b_refcnt x <> 0;
  cr_view : forall n, cv_refs c !! n = None -> cv_view c !! n = disk s !! n;
  cr_size : forall n d, cv_view c !! n = Some d -> length d = Z.to_nat BSIZE;
  cr_range : forall n, is_Some (cv_view c !! n) -> 0 <= n < 2 ^ 31;
  cr_held : forall n b, cv_held c !! n = Some b ->
    (b < NBUF)%nat /\ exists x, bufs s !! b = Some x /\ of_block n x /\ b_refcnt x <> 0;
  cr_lock : forall b, (b < NBUF)%nat ->
    (sl_of (SlBuf b) s = mkSleeplock 1 me /\ exists n, cv_held c !! n = Some b)
    \/ (sl_locked (sl_of (SlBuf b) s) = 0 /\ forall n, cv_held c !! n <> Some b)
}.

(** A buffer without its links. *)
Definition core (x : buf) : buf := x <| b_next := 0%nat |> <| b_prev := 0%nat |>.

Lemma core_block n x y : core x = core y -> of_block n x -> of_block n y.
Proof. destruct x, y; unfold core, of_block; ksimpl. intros [= ]. subst. tauto. Qed.
Lemma core_ok D c x y : core x = core y -> buf_ok D c x -> buf_ok D c y.
Proof. destruct x, y; unfold core, buf_ok; ksimpl. intros [= ]. by subst. Qed.
Lemma core_refcnt x y : core x = core y -> b_refcnt x = b_refcnt y.
Proof. destruct x, y; unfold core; ksimpl. congruence. Qed.

(** [buf_ok] looks at the block of the buffer only. *)
Lemma buf_ok_ext D D' c c' x :
  (b_dev x = ROOTDEV -> D' !! b_blockno x = D !! b_blockno x /\ cv_refs c' !! b_blockno x = cv_refs c !! b_blockno x
     /\ cv_view c' !! b_blockno x = cv_view c !! b_blockno x) ->
  buf_ok D c x -> buf_ok D' c' x.
Proof.
  intros He [[Hr Hv]|(Hr & Hv & Hd & H1 & H2)].
  - left. split; [done|]. intros Hv'. destruct (Hv Hv') as [Hd H]. split; [done|].
    by destruct (He Hd) as [-> _].
  - right. destruct (He Hd) as (_ & -> & ->). done.
Qed.

(** ** One buffer changes

    Everything the cache operations do: the buffer [b] goes from [x] to [x'],
    which is of block [n]; what the cache says about other blocks, and the
    other buffers apart from their links, stay. *)
Record change (me : Z) (s s' : kernel) (c c' : cache) (b : nat) (x x' : buf) (n : Z) : Prop := {
  ch_lt : (b < NBUF)%nat;
  ch_old : bufs s !! b = Some x;
  ch_from : b_refcnt x = 0 \/ of_block n x;
  ch_only : forall b' y, (b' < NBUF)%nat -> b' <> b -> bufs s !! b' = Some y -> ~ of_block n y;
  ch_len : length (bufs s') = S NBUF;
  ch_new : bufs s' !! b = Some x';
  ch_block : of_block n x';
  ch_rest : forall b', (b' < NBUF)%nat -> b' <> b -> core <$> bufs s' !! b' = core <$> bufs s !! b';
  ch_list : exists l, l ≡ₚ seq 0 NBUF /\ dll (bufs s') l;
  ch_other : forall m, m <> n -> disk s' !! m = disk s !! m /\ cv_refs c' !! m = cv_refs c !! m
     /\ cv_view c' !! m = cv_view c !! m /\ cv_held c' !! m = cv_held c !! m;
  ch_ok : buf_ok (disk s') c' x';
  ch_refs : is_Some (cv_refs c' !! n) -> b_refcnt x' <> 0;
  ch_view : cv_refs c' !! n = None -> cv_view c' !! n = disk s' !! n;
  ch_size : forall d, cv_view c' !! n = Some d -> length d = Z.to_nat BSIZE;
  ch_range : is_Some (cv_view c' !! n) -> 0 <= n < 2 ^ 31;
  ch_sl : forall b', b' <> b -> sl_of (SlBuf b') s' = sl_of (SlBuf b') s;
  ch_lock : (sl_of (SlBuf b) s' = mkSleeplock 1 me /\ cv_held c' !! n = Some b /\ b_refcnt x' <> 0)
    \/ (sl_locked (sl_of (SlBuf b) s') = 0 /\ cv_held c' !! n = None)
}.

Section change.
Context {me s s' c c' b x x' n} (Hc : change me s s' c c' b x x' n) (Hrep : cache_rep me s c).

(** The other buffers, after and before. *)
Lemma ch_back b' y : (b' < NBUF)%nat -> b' <> b -> bufs s' !! b' = Some y ->
  exists z, bufs s !! b' = Some z /\ core z = core y.
Proof.
  intros Hb' Hne Hy. pose proof (ch_rest _ _ _ _ _ _ _ _ _ Hc b' Hb' Hne) as E. rewrite Hy in E.
  destruct (bufs s !! b') as [z|]; [|done]. apply (inj Some) in E. by exists z.
Qed.
Lemma ch_forth b' z : (b' < NBUF)%nat -> b' <> b -> bufs s !! b' = Some z ->
  exists y, bufs s' !! b' = Some y /\ core z = core y.
Proof.
  intros Hb' Hne Hy. pose proof (ch_rest _ _ _ _ _ _ _ _ _ Hc b' Hb' Hne) as E. rewrite Hy in E.
  destruct (bufs s' !! b') as [y|]; [|done]. apply (inj Some) in E. by exists y.
Qed.

(** A referenced block other than [n] is in another buffer and stays there. *)
Lemma ch_stays m b' z : m <> n -> (b' < NBUF)%nat -> bufs s !! b' = Some z -> of_block m z -> b_refcnt z <> 0 ->
  b' <> b /\ exists y, bufs s' !! b' = Some y /\ of_block m y /\ b_refcnt y <> 0.
Proof.
  intros Hm Hb' Hz Hzm Hr. assert (b' <> b) as Hne.
  { intros ->. pose proof (ch_old _ _ _ _ _ _ _ _ _ Hc) as Hx. rewrite Hx in Hz. injection Hz as <-.
    destruct (ch_from _ _ _ _ _ _ _ _ _ Hc) as [?|[_ ?] ]; [done|]. destruct Hzm. congruence. }
  split; [done|]. destruct (ch_forth b' z) as (y & Hy & Hcz); [done..|].
  exists y. split_and!; [done|by apply (core_block _ z)|]. by rewrite <- (core_refcnt _ _ Hcz).
Qed.

Lemma ch_uniq m b1 b2 y1 y2 : (b1 < NBUF)%nat -> (b2 < NBUF)%nat ->
  bufs s' !! b1 = Some y1 -> bufs s' !! b2 = Some y2 -> of_block m y1 -> of_block m y2 -> b1 = b2.
Proof.
  intros H1 H2 Hy1 Hy2 Hm1 Hm2. pose proof (ch_new _ _ _ _ _ _ _ _ _ Hc) as Hx'.
  assert (forall b' y, (b' < NBUF)%nat -> b' <> b -> bufs s' !! b' = Some y -> ~ of_block n y) as Honly.
  { intros b' y Hb' Hne Hy Hn. destruct (ch_back b' y) as (z & Hz & Hcz); [done..|].
    apply (ch_only _ _ _ _ _ _ _ _ _ Hc b' z); [done..|]. by apply (core_block _ y). }
  assert (of_block m x' -> m = n) as Hmn by (destruct (ch_block _ _ _ _ _ _ _ _ _ Hc); intros []; congruence).
  destruct (decide (b1 = b)) as [->|N1]; destruct (decide (b2 = b)) as [->|N2]; [done| | |].
  - exfalso. simplify_eq. rewrite (Hmn Hm1) in Hm2. by apply (Honly b2 y2).
  - exfalso. simplify_eq. rewrite (Hmn Hm2) in Hm1. by apply (Honly b1 y1).
  - destruct (ch_back b1 y1) as (z1 & Hz1 & Hc1); [done..|]. destruct (ch_back b2 y2) as (z2 & Hz2 & Hc2); [done..|].
    apply (cr_uniq _ _ _ Hrep m b1 b2 z1 z2); try done; eapply core_block; (done || by symmetry).
Qed.

Lemma ch_buf b' y : (b' < NBUF)%nat -> bufs s' !! b' = Some y -> buf_ok (disk s') c' y.
Proof.
  intros Hb' Hy. destruct (decide (b' = b)) as [->|N].
  { pose proof (ch_new _ _ _ _ _ _ _ _ _ Hc). simplify_eq. apply Hc. }
  destruct (ch_back b' y) as (z & Hz & Hcz); [done..|]. apply (core_ok _ _ z); [done|].
  apply (buf_ok_ext (disk s) _ c); [|by apply (cr_buf _ _ _ Hrep b')]. intros Hd.
  assert (b_blockno z <> n) as Hzn by (intros E; by apply (ch_only _ _ _ _ _ _ _ _ _ Hc b' z)).
  by destruct (ch_other _ _ _ _ _ _ _ _ _ Hc _ Hzn) as (? & ? & ? & ?).
Qed.

Lemma ch_locks b' : (b' < NBUF)%nat ->
  (sl_of (SlBuf b') s' = mkSleeplock 1 me /\ exists m, cv_held c' !! m = Some b')
  \/ (sl_locked (sl_of (SlBuf b') s') = 0 /\ forall m, cv_held c' !! m <> Some b').
Proof.
  intros Hb'. pose proof (ch_other _ _ _ _ _ _ _ _ _ Hc) as Hoth.
  destruct (decide (b' = b)) as [->|N].
  - destruct (ch_lock _ _ _ _ _ _ _ _ _ Hc) as [(? & ? & _)|[? Hn] ]; [left; eauto|]. right. split; [done|].
    intros m Hm. destruct (decide (m = n)) as [->|Nm]; [congruence|].
    destruct (Hoth m Nm) as (_ & _ & _ & E). rewrite E in Hm.
    destruct (cr_held _ _ _ Hrep m b Hm) as (_ & z & Hz & Hzm & Hr). by destruct (ch_stays m b z).
  - rewrite (ch_sl _ _ _ _ _ _ _ _ _ Hc b' N). destruct (cr_lock _ _ _ Hrep b' Hb') as [[? [m Hm] ]|[? Hf] ].
    + left. split; [done|]. exists m. destruct (decide (m = n)) as [->|Nm].
      * destruct (cr_held _ _ _ Hrep n b' Hm) as (_ & z & Hz & Hzm & Hr). by destruct (ch_only _ _ _ _ _ _ _ _ _ Hc b' z).
      * by destruct (Hoth m Nm) as (_ & _ & _ & ->).
    + right. split; [done|]. intros m. destruct (decide (m = n)) as [->|Nm].
      * destruct (ch_lock _ _ _ _ _ _ _ _ _ Hc) as [(_ & ? & _)|[_ ?] ]; congruence.
      * by destruct (Hoth m Nm) as (_ & _ & _ & ->).
Qed.

Lemma rep_step : cache_rep me s' c'.
Proof.
  pose proof (ch_other _ _ _ _ _ _ _ _ _ Hc) as Hoth. split; try apply Hc.
  - apply ch_uniq.
  - apply ch_buf.
  - intros m Hm. destruct (decide (m = n)) as [->|N].
    + exists b, x'. split; [apply Hc|]. split; [apply Hc|]. split; [apply Hc|]. by apply Hc.
    + destruct (Hoth m N) as (_ & E & _). rewrite E in Hm.
      destruct (cr_refs _ _ _ Hrep m Hm) as (b' & z & Hb' & Hz & Hzm & Hr).
      destruct (ch_stays m b' z) as (_ & y & ? & ? & ?); [done..|]. by exists b', y.
  - intros m Hm. destruct (decide (m = n)) as [->|N]; [by apply Hc|].
    destruct (Hoth m N) as (-> & E & -> & _). apply Hrep. by rewrite <- E.
  - intros m d. destruct (decide (m = n)) as [->|N]; [apply Hc|].
    destruct (Hoth m N) as (_ & _ & -> & _). apply Hrep.
  - intros m. destruct (decide (m = n)) as [->|N]; [apply Hc|].
    destruct (Hoth m N) as (_ & _ & -> & _). apply Hrep.
  - intros m b'. destruct (decide (m = n)) as [->|N].
    + intros Hm. destruct (ch_lock _ _ _ _ _ _ _ _ _ Hc) as [(_ & Hh & Hr)|[_ Hh] ]; [|congruence].
      assert (b' = b) as -> by congruence. split; [apply Hc|]. exists x'. split; [apply Hc|]. split; [apply Hc|done].
    + destruct (Hoth m N) as (_ & _ & _ & ->). intros Hm.
      destruct (cr_held _ _ _ Hrep m b' Hm) as (Hb' & z & Hz & Hzm & Hr).
      split; [done|]. destruct (ch_stays m b' z) as (_ & y & ? & ? & ?); [done..|]. by exists y.
  - apply ch_locks.
Qed.
End change.

(** ** What the cache needs of the driver

    [disk_idle] is the driver's own invariant between requests; it does not
    look at anything the cache changes.  A request moves the block and returns
    to a process that nothing else has disturbed. *)
Class DiskOk `{Disk} (disk_idle : kernel -> Prop) : Prop := {
  disk_idle_ext s s' : vdisk s' = vdisk s -> disk_idle s -> disk_idle s';
  disk_read h i p b x d s :
    running h ∅ i p s -> disk_idle s -> (b < NBUF)%nat -> bufs s !! b = Some x -> disk s !! b_blockno x = Some d ->
    0 <= b_blockno x < 2 ^ 31 ->
    exists s', virtio_disk_rw b false s = Ret tt s' /\ sframe s s' /\ disk_idle s' /\ sleeplocks s' = sleeplocks s
      /\ disk s' = disk s /\ dwrites s' = dwrites s
      /\ bufs s' = alter (fun x => x <| b_data := d |> <| b_disk := 0 |>) b (bufs s);
  disk_write h i p b x s :
    running h ∅ i p s -> disk_idle s -> (b < NBUF)%nat -> bufs s !! b = Some x ->
    length (b_data x) = Z.to_nat BSIZE -> 0 <= b_blockno x < 2 ^ 31 ->
    exists s', virtio_disk_rw b true s = Ret tt s' /\ sframe s s' /\ disk_idle s' /\ sleeplocks s' = sleeplocks s
      /\ disk s' = <[b_blockno x := b_data x]> (disk s) /\ dwrites s' = dwrites s ++ [(b_blockno x, b_data x)]
      /\ bufs s' = alter (fun x => x <| b_disk := 0 |>) b (bufs s)
}.

(** ** The operations on the buffers *)

Lemma buf_get_ok b x s : bufs s !! b = Some x -> buf_get b s = Ret x s.
Proof. intros Hx. unfold buf_get. mrun. by rewrite Hx. Qed.

Lemma bind_buf_upd {B} b f (k : () -> K B) s :
  (buf_upd b f ≫= k) s = k tt (s <| bufs ::= alter f b |>).
Proof. done. Qed.

Lemma bcache_upd_ok h X b f s :
  env h X s -> LkBcache ∉ X ->
  (acquire LkBcache;; buf_upd b f;; release LkBcache) s = Ret tt (s <| bufs ::= alter f b |>).
Proof.
  intros He HX. mapply (env_acquire h X) by plocktac. rewrite bind_buf_upd.
  rewrite (env_release_last h X) by plocktac. f_equal. destruct He. kext s.
Qed.

(** *** Moving a buffer to the front *)

Lemma lst_head a l : lst a l = default a (head (reverse l)).
Proof.
  revert a. induction l as [|b l IH]; intros a; simpl; [done|]. rewrite IH, reverse_cons.
  by destruct (reverse l).
Qed.

Lemma core_alter f b (bs : list buf) b' :
  (forall x, core (f x) = core x) -> core <$> alter f b bs !! b' = core <$> bs !! b'.
Proof.
  intros Hf. destruct (decide (b = b')) as [<-|]; [|by rewrite list_lookup_alter_ne].
  rewrite list_lookup_alter_eq. destruct (bs !! b); simpl; by rewrite ?Hf.
Qed.

(** [bs'] is [bs] with the list [l] and otherwise the same. *)
Definition relinked (bs bs' : list buf) (l : list nat) : Prop :=
  dll bs' l /\ length bs' = length bs /\ forall b, core <$> bs' !! b = core <$> bs !! b.

Lemma link_of_some dir bs b y : link_of dir bs b = Some y -> exists x, bs !! b = Some x /\ dir x = y.
Proof. intros (x & ? & ->)%fmap_Some. by exists x. Qed.

Lemma link_first_ok b l s :
  dll (bufs s) l -> NoDup (NBUF :: b :: l) -> Forall (fun a => (a < length (bufs s))%nat) (NBUF :: b :: l) ->
  exists bs', link_first b s = Ret tt (s <| bufs := bs' |>) /\ relinked (bufs s) bs' (b :: l).
Proof.
  intros [Hn Hp] Hnd Hlt. pose proof (chain_head _ _ _ _ Hn) as Hh.
  destruct (link_of_some _ _ _ _ Hh) as (hd & Hhd & Hnx). set (y := default NBUF (head l)) in *.
  pose proof Hnd as [Hnb [Hbl Hnl]%NoDup_cons]%NoDup_cons.
  assert (NBUF <> b) as Hb by set_solver. assert (y <> b) as Hy.
  { unfold y. destruct l; simpl; [done|]. set_solver. }
  assert ((b < length (bufs s))%nat /\ (y < length (bufs s))%nat /\ (NBUF < length (bufs s))%nat) as (Lb & Ly & Ln).
  { unfold y. rewrite !Forall_cons in Hlt. destruct l as [|a l]; simpl; [tauto|].
    destruct Hlt as (? & ? & [? _]%Forall_cons). tauto. }
  unfold link_first. mapply (buf_get_ok NBUF hd) by done. rewrite !bind_buf_upd.
  mapply (buf_get_ok NBUF hd) by (simpl; by rewrite !list_lookup_alter_ne).
  rewrite bind_buf_upd, Hnx. eexists. split; [by destruct s|]. simpl.
  set (bs1 := alter _ b (alter _ b (bufs s))). set (bs2 := alter _ y bs1).
  assert (forall a, link_of b_next bs1 a = (<[b := Some y]> (link_of b_next (bufs s))) a) as N1.
  { intros a. unfold bs1. rewrite link_of_alter by done. by rewrite (link_of_set _ _ _ _ y). }
  assert (forall a, link_of b_prev bs2 a = (<[y := Some b]> (<[b := Some NBUF]> (link_of b_prev (bufs s)))) a) as P2.
  { intros a. unfold bs2. rewrite (link_of_set _ _ _ _ b) by (unfold bs1; rewrite ?length_alter; done).
    destruct (decide (y = a)) as [<-|]; [by rewrite !fn_lookup_insert|]. rewrite !fn_lookup_insert_ne by done.
    unfold bs1. rewrite (link_of_set _ _ _ _ NBUF) by (by rewrite ?length_alter).
    destruct (decide (b = a)) as [<-|]; [by rewrite !fn_lookup_insert|]. rewrite !fn_lookup_insert_ne by done.
    by rewrite link_of_alter. }
  split; [split|split].
  - eapply chain_ext; [|apply (chain_cons (link_of b_next (bufs s)) NBUF l b NBUF y); done]. intros a _.
    rewrite (link_of_set _ _ _ _ b) by (unfold bs2, bs1; rewrite ?length_alter; done).
    destruct (decide (NBUF = a)) as [<-|]; [by rewrite !fn_lookup_insert|]. rewrite !(fn_lookup_insert_ne _ NBUF) by done.
    unfold bs2. rewrite link_of_alter by done. apply N1.
  - rewrite reverse_cons. apply chain_app. split.
    + eapply chain_ext; [intros a _; rewrite link_of_alter by done; apply P2|].
      assert (y = lst NBUF (reverse l)) as -> by (rewrite lst_head, reverse_involutive; done).
      eapply chain_redirect.
      * apply NoDup_cons. rewrite elem_of_reverse. split; [set_solver|]. by rewrite reverse_Permutation.
      * eapply chain_ext; [|exact Hp]. intros a Ha. rewrite fn_lookup_insert_ne; [done|].
        intros <-. apply elem_of_cons in Ha as [?|Ha%elem_of_reverse]; [done|]. set_solver.
    + simpl. rewrite link_of_alter by done. rewrite P2, fn_lookup_insert_ne by done. apply fn_lookup_insert.
  - unfold bs2, bs1. by rewrite !length_alter.
  - intros a. unfold bs2, bs1. by rewrite !core_alter.
Qed.

Lemma unlink_ok {B} b x l1 l2 (k : K B) s :
  dll (bufs s) (l1 ++ b :: l2) -> NoDup (NBUF :: l1 ++ b :: l2) -> bufs s !! b = Some x ->
  Forall (fun a => (a < length (bufs s))%nat) (NBUF :: l1 ++ b :: l2) ->
  exists bs',
    (buf_upd (b_next x) (fun y => y <| b_prev := b_prev x |>);;
     x ← buf_get b;
     buf_upd (b_prev x) (fun y => y <| b_next := b_next x |>);; k) s = k (s <| bufs := bs' |>)
    /\ relinked (bufs s) bs' (l1 ++ l2).
Proof.
  intros [Hn Hp] Hnd Hx Hlt.
  assert (b_next x = lst NBUF (reverse l2)) as Ens.
  { rewrite lst_head, reverse_involutive. apply chain_app in Hn as [_ Hn]. apply chain_head in Hn.
    unfold link_of in Hn. rewrite Hx in Hn. by injection Hn. }
  rewrite reverse_app, reverse_cons, <- app_assoc in Hp. simpl in Hp.
  assert (b_prev x = lst NBUF l1) as Epr.
  { rewrite lst_head. apply chain_app in Hp as [_ Hp]. apply chain_head in Hp.
    unfold link_of in Hp. rewrite Hx in Hp. by injection Hp. }
  rewrite Forall_forall in Hlt. pose proof (lst_elem NBUF l1) as E1. pose proof (lst_elem NBUF (reverse l2)) as E2.
  assert (b_next x <> b) as Hnb.
  { rewrite Ens. intros E. rewrite E in E2.
    apply NoDup_cons in Hnd as [Hn0 (_ & _ & [Hb2 _]%NoDup_cons)%NoDup_app]. set_solver. }
  rewrite bind_buf_upd. mapply (buf_get_ok b x) by (simpl; by rewrite list_lookup_alter_ne).
  rewrite bind_buf_upd. eexists. split; [by destruct s|]. simpl.
  set (bs1 := alter _ (b_next x) (bufs s)). split; [split|split].
  - eapply chain_ext; [|eapply (chain_remove _ NBUF l1 b l2 NBUF (b_next x)); [done|exact Hn|unfold link_of; by rewrite Hx] ].
    intros a _. rewrite <- Epr. rewrite (link_of_set _ _ _ _ (b_next x)); [|done|].
    + destruct (decide (b_prev x = a)) as [<-|]; [by rewrite !fn_lookup_insert|]. rewrite !fn_lookup_insert_ne by done.
      by unfold bs1; rewrite link_of_alter.
    + unfold bs1. rewrite length_alter, Epr. apply Hlt. set_solver.
  - rewrite reverse_app.
    eapply chain_ext; [|eapply (chain_remove _ NBUF (reverse l2) b (reverse l1) NBUF (b_prev x)); [|exact Hp|unfold link_of; by rewrite Hx] ].
    + intros a _. rewrite link_of_alter by done. rewrite <- Ens. unfold bs1.
      apply link_of_set; [done|]. rewrite Ens. apply Hlt. set_solver.
    + rewrite !reverse_Permutation. by rewrite (Permutation_app_comm l2 (b :: l1)), <- (Permutation_middle l1 l2 b) in *.
  - unfold bs1. by rewrite !length_alter.
  - intros a. unfold bs1. by rewrite !core_alter.
Qed.

(** The end of [brelse]: the buffer becomes the most recently used one. *)
Lemma to_front_ok b x l s :
  dll (bufs s) l -> l ≡ₚ seq 0 NBUF -> length (bufs s) = S NBUF -> (b < NBUF)%nat -> bufs s !! b = Some x ->
  exists bs' l',
    (buf_upd (b_next x) (fun y => y <| b_prev := b_prev x |>);;
     x ← buf_get b;
     buf_upd (b_prev x) (fun y => y <| b_next := b_next x |>);;
     link_first b) s = Ret tt (s <| bufs := bs' |>)
    /\ relinked (bufs s) bs' (b :: l') /\ b :: l' ≡ₚ seq 0 NBUF.
Proof.
  intros Hdll Hl Hlen Hb Hx. assert (b ∈ l) as Hin by (rewrite Hl; apply elem_of_seq; lia).
  apply list_elem_of_split in Hin as (l1 & l2 & ->).
  assert (forall a, a ∈ l1 ++ b :: l2 -> (a < NBUF)%nat) as Hlt by (intros a; rewrite Hl, elem_of_seq; lia).
  assert (NoDup (NBUF :: l1 ++ b :: l2)) as Hnd.
  { apply NoDup_cons. split; [intros Hn; apply Hlt in Hn; lia|]. rewrite Hl. apply NoDup_seq. }
  assert (NBUF :: l1 ++ b :: l2 ≡ₚ NBUF :: b :: l1 ++ l2) as Hp by (by rewrite <- Permutation_middle).
  destruct (unlink_ok b x l1 l2 (link_first b) s) as (bs1 & Hs1 & Hd1 & Hl1 & Hc1); [done..| |].
  { apply Forall_forall. intros a. rewrite Hlen, elem_of_cons. intros [->|Ha%Hlt]; lia. }
  destruct (link_first_ok b (l1 ++ l2) (s <| bufs := bs1 |>)) as (bs2 & Hs2 & Hd2 & Hl2 & Hc2); [done| | |].
  { by rewrite <- Hp. }
  { apply Forall_forall. intros a Ha. simpl. rewrite Hl1, Hlen. rewrite <- Hp in Ha.
    apply elem_of_cons in Ha as [->|Ha%Hlt]; lia. }
  exists bs2, (l1 ++ l2). rewrite Hs1, Hs2. split; [by destruct s|]. split; [|etransitivity; [apply Permutation_middle|exact Hl] ].
  split; [done|]. split; [simpl in Hl2; lia|]. intros a. rewrite Hc2. apply Hc1.
Qed.

Lemma when_front_ok (front : bool) b x s :
  (exists l, l ≡ₚ seq 0 NBUF /\ dll (bufs s) l) -> length (bufs s) = S NBUF -> (b < NBUF)%nat -> bufs s !! b = Some x ->
  exists bs',
    when front
      (buf_upd (b_next x) (fun y => y <| b_prev := b_prev x |>);;
       x ← buf_get b;
       buf_upd (b_prev x) (fun y => y <| b_next := b_next x |>);;
       link_first b) s = Ret tt (s <| bufs := bs' |>)
    /\ length bs' = S NBUF /\ (exists l, l ≡ₚ seq 0 NBUF /\ dll bs' l)
    /\ forall a, core <$> bs' !! a = core <$> bufs s !! a.
Proof.
  intros (l & Hl & Hdll) Hlen Hb Hx. destruct front; simpl when.
  - destruct (to_front_ok b x l s) as (bs' & l' & Hs & (Hd & Hln & Hco) & Hp'); [done..|].
    exists bs'. split; [exact Hs|]. split; [lia|]. split; [by exists (b :: l')|done].
  - exists (bufs s). split; [unfold mret, M_ret; f_equal; by destruct s|]. split; [done|]. split; [by exists l|done].
Qed.

(** Looking for a buffer in one direction of the list. *)
Lemma scan_list dir test (Hdir : dir = b_next \/ dir = b_prev) hd s l :
  l ≡ₚ seq 0 NBUF -> dll (bufs s) l -> bufs s !! NBUF = Some hd ->
  (bscan (S NBUF) dir test (dir hd) s = Ret None s
     /\ forall b x, (b < NBUF)%nat -> bufs s !! b = Some x -> test x = false)
  \/ exists b x, bscan (S NBUF) dir test (dir hd) s = Ret (Some b) s
     /\ (b < NBUF)%nat /\ bufs s !! b = Some x /\ test x = true.
Proof.
  intros Hperm [Hn Hp] Hhd.
  assert (exists l', l' ≡ₚ seq 0 NBUF /\ chain (link_of dir (bufs s)) NBUF l' NBUF) as (l' & Hl' & Hc).
  { destruct Hdir as [->| ->]; [by exists l|]. exists (reverse l). split; [|done]. by rewrite reverse_Permutation. }
  assert (forall b, b ∈ l' <-> (b < NBUF)%nat) as Hin.
  { intros b. rewrite Hl', elem_of_seq. lia. }
  rewrite (bscan_ok dir test s NBUF l'); [|done| | |].
  - destruct (List.find _ l') as [b|] eqn:Hf; [right|left].
    + apply find_some in Hf as [Hb Ht]. apply list_elem_of_In, Hin in Hb. unfold test_at in Ht.
      destruct (bufs s !! b) as [x|] eqn:Hx; [|done]. by exists b, x.
    + split; [done|]. intros b x Hb Hx. pose proof (find_none _ _ Hf b) as Ht. unfold test_at in Ht.
      rewrite Hx in Ht. apply Ht. by apply list_elem_of_In, Hin.
  - apply Forall_forall. apply Hin.
  - unfold link_of. by rewrite Hhd.
  - rewrite Hl', length_seq. lia.
Qed.

(** The buffer [b], updated by [f] and locked by [me]. *)
Definition grab (b : nat) (me : Z) (f : buf -> buf) (s : kernel) : kernel :=
  s <| bufs ::= alter f b |> <| sleeplocks ::= <[SlBuf b := mkSleeplock 1 me]> |>.

Definition recycle (n : Z) (x : buf) : buf :=
  x <| b_dev := ROOTDEV |> <| b_blockno := n |> <| b_valid := 0 |> <| b_refcnt := 1 |>.
Definition one_more (x : buf) : buf := x <| b_refcnt ::= fun n => u32 (n + 1) |>.
Definition one_less (x : buf) : buf := x <| b_refcnt ::= fun n => u32 (n - 1) |>.

Lemma of_block_test n x : (b_dev x =? ROOTDEV) && (b_blockno x =? n) = true <-> of_block n x.
Proof. unfold of_block. rewrite andb_true_iff, !Z.eqb_eq. done. Qed.

(** *** The abstract counterparts *)

Definition refs_of (c : cache) (n : Z) : Z := default 0 (cv_refs c !! n).

(** One more reference to block [n], held in buffer [b]. *)
Definition took (n : Z) (b : nat) (c : cache) : cache :=
  c <| cv_refs ::= <[n := refs_of c n + 1]> |> <| cv_held ::= <[n := b]> |>.
(** One reference less, and the lock given back. *)
Definition put_refs (n k : Z) (m : gmap Z Z) : gmap Z Z := if k =? 0 then delete n m else <[n := k]> m.
Definition dropped (n : Z) (c : cache) : cache :=
  c <| cv_refs ::= put_refs n (refs_of c n - 1) |> <| cv_held ::= delete n |>.

Lemma rep_grab me s s' c n b x f :
  cache_rep me s c -> (b < NBUF)%nat -> bufs s !! b = Some x -> b_refcnt x = 0 \/ of_block n x ->
  (forall b' y, (b' < NBUF)%nat -> b' <> b -> bufs s !! b' = Some y -> ~ of_block n y) ->
  bufs s' = alter f b (bufs s) -> sleeplocks s' = <[SlBuf b := mkSleeplock 1 me]> (sleeplocks s) ->
  disk s' = disk s -> (forall y, b_next (f y) = b_next y) -> (forall y, b_prev (f y) = b_prev y) ->
  of_block n (f x) -> b_valid (f x) <> 0 -> cv_view c !! n = Some (b_data (f x)) ->
  b_refcnt (f x) = refs_of c n + 1 -> 0 < refs_of c n + 1 < 2 ^ 32 ->
  cache_rep me s' (took n b c).
Proof.
  intros Hrep Hb Hx Hfrom Honly Hbufs Hsl Hdisk Hnx Hpv Hblk Hval Hview Hcnt Hrng.
  refine (rep_step (c := c) (b := b) (x := x) (x' := f x) (n := n) _ Hrep). split; try done.
  - rewrite Hbufs, length_alter. apply Hrep.
  - by rewrite Hbufs, list_lookup_alter_eq, Hx.
  - intros b' _ Hne. by rewrite Hbufs, list_lookup_alter_ne.
  - destruct (cr_list _ _ _ Hrep) as (l & Hl & Hdll). exists l. split; [done|]. rewrite Hbufs. by apply dll_alter.
  - intros m Hm. simpl. rewrite Hdisk, !lookup_insert_ne by done. done.
  - right. destruct Hblk as [Hd Hbn]. simpl. rewrite Hcnt, Hbn, lookup_insert_eq. split_and!; done || lia.
  - rewrite Hcnt. lia.
  - simpl. by rewrite lookup_insert_eq.
  - simpl. intros d. apply Hrep.
  - simpl. apply Hrep.
  - intros b' Hne. unfold sl_of. rewrite Hsl, lookup_insert_ne by congruence. done.
  - left. unfold sl_of. rewrite Hsl, lookup_insert_eq. simpl. rewrite lookup_insert_eq. split_and!; [done..|].
    rewrite Hcnt. lia.
Qed.

Section rep_facts.
Context {me : Z} {s : kernel} {c : cache} (Hrep : cache_rep me s c).

(** The reference count of a block is the one of its buffer. *)
Lemma rep_refs_of n b x : (b < NBUF)%nat -> bufs s !! b = Some x -> of_block n x -> refs_of c n = b_refcnt x.
Proof.
  intros Hb Hx [Hd Hn]. unfold refs_of. destruct (cr_buf _ _ _ Hrep b x Hb Hx) as [[Hr _]|(_ & _ & _ & Hrf & _)].
  - destruct (cv_refs c !! n) as [k|] eqn:Hk; [exfalso|done].
    destruct (cr_refs _ _ _ Hrep n) as (b' & y & Hb' & Hy & Hyn & Hry); [by exists k|].
    assert (b' = b) as -> by (by apply (cr_uniq _ _ _ Hrep n b' b y x)). congruence.
  - by rewrite <- Hn, Hrf.
Qed.

Lemma rep_no_refs n :
  (forall b x, (b < NBUF)%nat -> bufs s !! b = Some x -> ~ of_block n x) -> cv_refs c !! n = None.
Proof.
  intros Hno. apply eq_None_not_Some. intros Hs. destruct (cr_refs _ _ _ Hrep n Hs) as (b & x & ? & ? & ? & _).
  by apply (Hno b x).
Qed.

Lemma rep_refs_nonneg n : 0 <= refs_of c n.
Proof.
  destruct (cv_refs c !! n) as [k|] eqn:Hk; [|unfold refs_of; by rewrite Hk].
  destruct (cr_refs _ _ _ Hrep n) as (b & x & Hb & Hx & Hn & Hr); [by exists k|].
  rewrite (rep_refs_of n b x) by done.
  destruct (cr_buf _ _ _ Hrep b x Hb Hx) as [[? _]|[? _] ]; lia.
Qed.

(** A valid buffer has the contents of its block. *)
Lemma rep_valid n b x d : (b < NBUF)%nat -> bufs s !! b = Some x -> of_block n x -> b_valid x <> 0 ->
  cv_view c !! n = Some d -> d = b_data x.
Proof.
  intros Hb Hx Hn Hv Hd. pose proof (rep_refs_of n b x Hb Hx Hn) as Hrf. destruct Hn as [Hdev Hn]. subst n.
  destruct (cr_buf _ _ _ Hrep b x Hb Hx) as [[Hr Hc]|(_ & _ & _ & _ & E)]; [|congruence].
  destruct (Hc Hv) as [_ E]. rewrite (cr_view _ _ _ Hrep) in Hd; [congruence|].
  destruct (cv_refs c !! b_blockno x) as [k|] eqn:Hk; [|done]. exfalso.
  destruct (cr_refs _ _ _ Hrep (b_blockno x)) as (b' & y & Hb' & Hy & Hyn & Hry); [by exists k|].
  assert (b' = b) as -> by (by apply (cr_uniq _ _ _ Hrep (b_blockno x) b' b y x)). congruence.
Qed.

(** When every buffer is in use there are [NBUF] referenced blocks. *)
Lemma rep_full :
  (forall b x, (b < NBUF)%nat -> bufs s !! b = Some x -> b_refcnt x <> 0) -> (NBUF <= size (cv_refs c))%nat.
Proof.
  intros Hall. set (f := fun b => default 0 (b_blockno <$> bufs s !! b)).
  assert (forall b, (b < NBUF)%nat -> exists x, bufs s !! b = Some x /\ of_block (f b) x /\ is_Some (cv_refs c !! f b)) as Hf.
  { intros b Hb. destruct (lookup_lt_is_Some_2 (bufs s) b) as [x Hx]; [rewrite (cr_len _ _ _ Hrep); lia|].
    exists x. unfold f. rewrite Hx. simpl. destruct (cr_buf _ _ _ Hrep b x Hb Hx) as [[Hr _]|(_ & _ & ? & ? & _)].
    - by destruct (Hall b x Hb Hx).
    - by split_and!. }
  assert (NoDup (f <$> seq 0 NBUF)) as Hnd.
  { apply NoDup_fmap_2_strong; [|apply NoDup_seq]. intros b b' Hb%elem_of_seq Hb'%elem_of_seq E.
    destruct (Hf b) as (x & Hx & Hxb & _); [lia|]. destruct (Hf b') as (x' & Hx' & Hxb' & _); [lia|].
    rewrite E in Hxb. apply (cr_uniq _ _ _ Hrep (f b') b b' x x'); try done; lia. }
  replace NBUF with (size (list_to_set (f <$> seq 0 NBUF) : gset Z)) by (rewrite size_list_to_set by done; by rewrite length_fmap, length_seq).
  rewrite <- size_dom. apply subseteq_size. intros n Hn%elem_of_list_to_set.
  apply list_elem_of_fmap in Hn as (b & -> & Hb%elem_of_seq). apply elem_of_dom. destruct (Hf b) as (? & _ & _ & ?); [lia|done].
Qed.

(** When [NBUF] blocks are referenced, no buffer is free. *)
Lemma rep_all_used b x : (NBUF <= size (cv_refs c))%nat -> (b < NBUF)%nat -> bufs s !! b = Some x -> b_refcnt x <> 0.
Proof.
  intros Hsz Hb Hx Hr. set (f := fun b => default 0 (b_blockno <$> bufs s !! b)).
  assert (dom (cv_refs c) ⊆ (list_to_set (f <$> filter (fun a => a <> b) (seq 0 NBUF)) : gset Z)) as Hsub.
  { intros n Hn%elem_of_dom. destruct (cr_refs _ _ _ Hrep n Hn) as (b' & y & Hb' & Hy & [_ Hyn] & Hry).
    apply elem_of_list_to_set, list_elem_of_fmap. exists b'. unfold f. rewrite Hy. simpl. split; [done|].
    apply list_elem_of_filter. split; [congruence|]. apply (proj2 (elem_of_seq 0 NBUF b')). lia. }
  apply subseteq_size in Hsub. rewrite size_dom in Hsub.
  pose proof (size_list_to_set_le (f <$> filter (fun a => a <> b) (seq 0 NBUF))) as Hle. rewrite length_fmap in Hle.
  assert (length (filter (fun a => a <> b) (seq 0 NBUF)) < length (seq 0 NBUF))%nat as Hlt; [|rewrite length_seq in Hlt; lia].
  apply (length_filter_lt _ _ b); [|intros Hn; by apply Hn]. apply (proj2 (elem_of_seq 0 NBUF b)). lia.
Qed.

(** The buffer of a held block. *)
Lemma rep_held n b : cv_held c !! n = Some b -> exists x, (b < NBUF)%nat /\ bufs s !! b = Some x /\ of_block n x
  /\ 0 < b_refcnt x < 2 ^ 32 /\ b_valid x <> 0 /\ cv_refs c !! n = Some (b_refcnt x)
  /\ cv_view c !! n = Some (b_data x) /\ sl_of (SlBuf b) s = mkSleeplock 1 me.
Proof.
  intros Hn. destruct (cr_held _ _ _ Hrep n b Hn) as (Hb & x & Hx & Hxn & Hr). exists x.
  destruct (cr_lock _ _ _ Hrep b Hb) as [[Hl _]|[_ Hl] ]; [|by destruct (Hl n)].
  destruct Hxn as [Hd <-]. destruct (cr_buf _ _ _ Hrep b x Hb Hx) as [[? _]|(? & ? & _ & ? & ?)]; [done|].
  split_and!; done || lia.
Qed.

(** Updates of a held buffer. *)
Lemma rep_held_upd n b x f k d s' :
  cv_held c !! n = Some b -> bufs s !! b = Some x ->
  bufs s' = alter f b (bufs s) -> sleeplocks s' = sleeplocks s ->
  (forall m, m <> n -> disk s' !! m = disk s !! m) ->
  (forall y, b_next (f y) = b_next y) -> (forall y, b_prev (f y) = b_prev y) -> of_block n (f x) ->
  b_valid (f x) <> 0 -> b_refcnt (f x) = k -> 0 < k < 2 ^ 32 -> b_data (f x) = d -> length d = Z.to_nat BSIZE ->
  cache_rep me s' (c <| cv_refs ::= <[n := k]> |> <| cv_view ::= <[n := d]> |>).
Proof.
  intros Hn Hx' Hbufs Hsl Hdisk Hnx Hpv Hblk Hval <- Hcnt <- Hsz.
  destruct (rep_held n b Hn) as (y & Hb & Hx & Hxn & Hr & Hv & Hrefs & Hview & Hlk). simplify_eq.
  refine (rep_step (c := c) (b := b) (x := x) (x' := f x) (n := n) _ Hrep). split; try done.
  - by right.
  - intros b' y Hb' Hne Hy Hyn. apply Hne. by apply (cr_uniq _ _ _ Hrep n b' b y x).
  - rewrite Hbufs, length_alter. apply Hrep.
  - by rewrite Hbufs, list_lookup_alter_eq, Hx'.
  - intros b' _ Hne. by rewrite Hbufs, list_lookup_alter_ne.
  - destruct (cr_list _ _ _ Hrep) as (l & Hl & Hdll). exists l. split; [done|]. rewrite Hbufs. by apply dll_alter.
  - intros m Hm. simpl. rewrite Hdisk, !lookup_insert_ne by done. done.
  - right. destruct Hblk as [Hd Hbn]. simpl. rewrite Hbn, !lookup_insert_eq. split_and!; done || lia.
  - simpl. intros _. lia.
  - simpl. by rewrite lookup_insert_eq.
  - simpl. rewrite lookup_insert_eq. congruence.
  - intros _. apply (cr_range _ _ _ Hrep). by eexists.
  - intros b' _. unfold sl_of. by rewrite Hsl.
  - left. unfold sl_of in *. rewrite Hsl. split_and!; [done..|lia].
Qed.
End rep_facts.

Section ops.
Context `{Patience, Disk}.
Context (h : hart) (i : nat) (p : proc).

(** A buffer that is not the held buffer of any block is not locked. *)
Lemma rep_unlocked me s c n b x :
  cache_rep me s c -> (b < NBUF)%nat -> bufs s !! b = Some x -> cv_held c !! n = None ->
  b_refcnt x = 0 \/ of_block n x -> sl_locked (sl_of (SlBuf b) s) = 0.
Proof.
  intros Hrep Hb Hx Hn Hor. destruct (cr_lock _ _ _ Hrep b Hb) as [[_ [m Hm] ]|[? _] ]; [|done].
  destruct (cr_held _ _ _ Hrep m b Hm) as (_ & y & Hy & [_ Hym] & Hr). simplify_eq.
  destruct Hor as [?|[_ Hxn] ]; [done|]. congruence.
Qed.

(** Leaving the list lock and taking the lock of the buffer. *)
Lemma grab_ok b f s :
  running h ∅ i p s -> (b < NBUF)%nat -> sl_locked (sl_of (SlBuf b) s) = 0 ->
  (buf_upd b f;; release LkBcache;; acquiresleep (SlBuf b);; mret b)
    (s <| hw := acquired h {[LkBcache]} |>) = Ret b (grab b (pid p) f s).
Proof.
  intros [He Hcur Hlt Hp Hst Hch Ht] Hb Hl. rewrite bind_buf_upd.
  mapply (env_release h {[LkBcache]}) by first [plocktac | set_solver]. rewrite difference_diag_L.
  mapply (acquiresleep_free h ∅ (SlBuf b) (proj2 (Nat.ltb_lt b NBUF) Hb) ltac:(set_solver) i Hcur p)
    by first [solve_env | done].
  unfold mret, M_ret. f_equal. pose proof (env_hw _ _ _ He) as Eh. clear -Eh. unfold grab.
  destruct s. simpl in Eh. subst. reflexivity.
Qed.

Lemma bget_ok s c n :
  running h ∅ i p s -> cache_rep (pid p) s c -> cv_held c !! n = None ->
  (exists b x, (b < NBUF)%nat /\ bufs s !! b = Some x /\ of_block n x
     /\ bget ROOTDEV n s = Ret b (grab b (pid p) one_more s))
  \/ ((forall b x, (b < NBUF)%nat -> bufs s !! b = Some x -> ~ of_block n x)
     /\ ((exists b x, (b < NBUF)%nat /\ bufs s !! b = Some x /\ b_refcnt x = 0
            /\ bget ROOTDEV n s = Ret b (grab b (pid p) (recycle n) s))
         \/ ((forall b x, (b < NBUF)%nat -> bufs s !! b = Some x -> b_refcnt x <> 0)
             /\ bget ROOTDEV n s = Panic "bget: no buffers"))).
Proof.
  intros Hrun Hrep Hn. destruct (cr_list _ _ _ Hrep) as (l & Hl & Hdll).
  pose proof (ru_env _ _ _ _ _ Hrun) as He.
  destruct (lookup_lt_is_Some_2 (bufs s) NBUF) as [hd Hhd]; [rewrite (cr_len _ _ _ Hrep); lia|].
  unfold bget. mapply (env_acquire h ∅) by first [plocktac | set_solver]. rewrite union_empty_r_L.
  set (s1 := s <| hw := acquired h {[LkBcache]} |>).
  mapply (buf_get_ok NBUF hd) by done.
  destruct (scan_list b_next (fun x => (b_dev x =? ROOTDEV) && (b_blockno x =? n)) (or_introl eq_refl) hd s1 l)
    as [[Hs Hnone]|(b & x & Hs & Hb & Hx & Ht)]; [done..| |]; mstep Hs.
  - right. split. { intros b x Hb Hx Hbn%of_block_test. by rewrite (Hnone b x Hb Hx) in Hbn. }
    mapply (buf_get_ok NBUF hd) by done.
    destruct (scan_list b_prev (fun x => b_refcnt x =? 0) (or_intror eq_refl) hd s1 l)
      as [[Hs' Hfull]|(b & x & Hs' & Hb & Hx & Ht)]; [done..| |]; mstep Hs'.
    + right. split; [|done]. intros b x Hb Hx. apply Z.eqb_neq. by apply (Hfull b x).
    + left. apply Z.eqb_eq in Ht. exists b, x. split_and!; [done..|]. apply grab_ok; [done..|].
      eapply rep_unlocked; eauto.
  - left. apply of_block_test in Ht. exists b, x. split_and!; [done..|].
    apply grab_ok; [done..|]. eapply rep_unlocked; eauto.
Qed.

Lemma sframe_grab b me f s : sframe s (grab b me f s).
Proof. split; [by destruct s|reflexivity]. Qed.

Context {disk_idle : kernel -> Prop} `{!DiskOk disk_idle}.

(** The second half of [bread]: fill the grabbed buffer if it is not valid. *)
Lemma bread_fill s c n d b x f :
  running h ∅ i p s -> disk_idle s -> cache_rep (pid p) s c -> cv_view c !! n = Some d ->
  (b < NBUF)%nat -> bufs s !! b = Some x -> b_refcnt x = 0 \/ of_block n x ->
  (forall b' y, (b' < NBUF)%nat -> b' <> b -> bufs s !! b' = Some y -> ~ of_block n y) ->
  (forall y, b_next (f y) = b_next y) -> (forall y, b_prev (f y) = b_prev y) -> of_block n (f x) ->
  b_refcnt (f x) = refs_of c n + 1 -> 0 < refs_of c n + 1 < 2 ^ 32 ->
  (b_valid (f x) <> 0 -> b_data (f x) = d) -> (b_valid (f x) = 0 -> disk s !! n = Some d) ->
  exists s',
    (x ← buf_get b;
     when (b_valid x =? 0) (virtio_disk_rw b false;; buf_upd b (fun x => x <| b_valid := 1 |>));;
     mret b) (grab b (pid p) f s) = Ret b s'
    /\ sframe s s' /\ disk_idle s' /\ cache_rep (pid p) s' (took n b c) /\ disk s' = disk s /\ dwrites s' = dwrites s.
Proof.
  intros Hrun Hidle Hrep Hview Hb Hx Hfrom Honly Hnx Hpv Hblk Hcnt Hrng Hval Hinv.
  assert (bufs (grab b (pid p) f s) !! b = Some (f x)) as Hx1
    by (unfold grab; simpl; by rewrite list_lookup_alter_eq, Hx).
  pose proof (running_frame _ _ _ _ _ _ Hrun (sframe_grab b (pid p) f s)) as Hrun1.
  mapply (buf_get_ok b (f x)) by done.
  destruct (Z.eqb_spec (b_valid (f x)) 0) as [Ev|Ev]; simpl when; msimpl.
  - destruct (disk_read h i p b (f x) d (grab b (pid p) f s)) as (s2 & Hs2 & Hf2 & Hi2 & Hsl & Hd & Hw & Hbf).
    { done. } { by apply (disk_idle_ext s). } { done. } { done. } { destruct Hblk as [_ ->]. by apply Hinv. }
    { destruct Hblk as [_ ->]. apply (cr_range _ _ _ Hrep). by exists d. }
    mstep Hs2. rewrite bind_buf_upd. eexists. split; [reflexivity|]. split_and!.
    + transitivity (grab b (pid p) f s); [apply sframe_grab|]. transitivity s2; [done|].
      split; [by destruct s2|reflexivity].
    + by apply (disk_idle_ext s2).
    + apply (rep_grab _ s _ c n b x (fun y => f y <| b_data := d |> <| b_disk := 0 |> <| b_valid := 1 |>)); try done.
      * simpl. rewrite Hbf. unfold grab. simpl. rewrite !list_alter_alter_eq. by apply list_alter_ext.
    + simpl. by rewrite Hd.
    + simpl. by rewrite Hw.
  - eexists. split; [reflexivity|]. split_and!; [apply sframe_grab|by apply (disk_idle_ext s)| |done|done].
    apply (rep_grab _ s _ c n b x f); try done. by rewrite Hval.
Qed.

Lemma bread_ok s c n d :
  running h ∅ i p s -> disk_idle s -> cache_rep (pid p) s c -> cv_held c !! n = None -> cv_view c !! n = Some d ->
  refs_of c n + 1 < 2 ^ 32 -> is_Some (cv_refs c !! n) \/ (size (cv_refs c) < NBUF)%nat ->
  exists b s', bread ROOTDEV n s = Ret b s' /\ sframe s s' /\ disk_idle s' /\ cache_rep (pid p) s' (took n b c)
    /\ disk s' = disk s /\ dwrites s' = dwrites s.
Proof.
  intros Hrun Hidle Hrep Hheld Hview Hov Hroom. unfold bread. pose proof (rep_refs_nonneg Hrep n) as Hnn.
  destruct (bget_ok s c n Hrun Hrep Hheld) as [(b & x & Hb & Hx & Hn & Hg)|[Hno [(b & x & Hb & Hx & Hr & Hg)|[Hall Hg] ] ]].
  - pose proof (rep_refs_of Hrep n b x Hb Hx Hn) as Hrf.
    mstep Hg. destruct (bread_fill s c n d b x one_more) as (s' & Hs' & Hrest); try done.
    + by right.
    + intros b' y Hb' Hne Hy Hyn. apply Hne. by apply (cr_uniq _ _ _ Hrep n b' b y x).
    + unfold one_more. simpl. rewrite Hrf. apply u32_small. lia.
    + lia.
    + intros Hv. symmetry. by apply (rep_valid Hrep n b x).
    + unfold one_more. simpl. intros Hv. rewrite <- (cr_view _ _ _ Hrep); [done|].
      destruct (cr_buf _ _ _ Hrep b x Hb Hx) as [[Hr _]|(_ & ? & _)]; [|done].
      unfold refs_of in Hrf. destruct (cv_refs c !! n) eqn:E; [|done]. simpl in Hrf.
      destruct (cr_refs _ _ _ Hrep n) as (b' & y & Hb' & Hy & Hyn & Hry); [by eexists|].
      assert (b' = b) as -> by (by apply (cr_uniq _ _ _ Hrep n b' b y x)). congruence.
    + by exists b, s'.
  - pose proof (rep_no_refs Hrep n Hno) as Hnr. assert (refs_of c n = 0) as Hr0 by (unfold refs_of; by rewrite Hnr).
    mstep Hg. destruct (bread_fill s c n d b x (recycle n)) as (s' & Hs' & Hrest); try done.
    + by left.
    + intros b' y Hb' _ Hy. by apply (Hno b').
    + unfold recycle. simpl. lia.
    + lia.
    + intros _. by rewrite <- (cr_view _ _ _ Hrep).
    + by exists b, s'.
  - exfalso. pose proof (rep_full Hrep Hall). pose proof (rep_no_refs Hrep n Hno) as Hnr.
    destruct Hroom as [[? ?]|?]; [congruence|lia].
Qed.

(** With every buffer in use, an uncached block cannot be read. *)
Lemma bread_full s c n :
  running h ∅ i p s -> cache_rep (pid p) s c -> cv_held c !! n = None -> cv_refs c !! n = None ->
  (NBUF <= size (cv_refs c))%nat -> bread ROOTDEV n s = Panic "bget: no buffers".
Proof.
  intros Hrun Hrep Hheld Hrefs Hfull. unfold bread.
  destruct (bget_ok s c n Hrun Hrep Hheld) as [(b & x & Hb & Hx & Hn & _)|[_ [(b & x & Hb & Hx & Hr & _)|[_ Hg] ] ]].
  - pose proof (rep_refs_of Hrep n b x Hb Hx Hn) as E. unfold refs_of in E. rewrite Hrefs in E. simpl in E.
    by destruct (rep_all_used Hrep b x Hfull Hb Hx).
  - by destruct (rep_all_used Hrep b x Hfull Hb Hx).
  - by mstep Hg.
Qed.

Lemma data_of_ok me s c n b d :
  cache_rep me s c -> cv_held c !! n = Some b -> cv_view c !! n = Some d -> data_of b s = Ret d s.
Proof.
  intros Hrep Hn Hd. destruct (rep_held Hrep n b Hn) as (x & _ & Hx & _ & _ & _ & _ & Hv & _).
  unfold data_of. mapply (buf_get_ok b x) by done. unfold mret, M_ret. congruence.
Qed.

Lemma set_data_ok me s c n b d :
  cache_rep me s c -> cv_held c !! n = Some b -> length d = Z.to_nat BSIZE ->
  exists s', set_data b d s = Ret tt s' /\ sframe s s' /\ vdisk s' = vdisk s /\ disk s' = disk s /\ dwrites s' = dwrites s
    /\ cache_rep me s' (c <| cv_view ::= <[n := d]> |>).
Proof.
  intros Hrep Hn Hd. destruct (rep_held Hrep n b Hn) as (x & Hb & Hx & Hxn & Hr & Hv & Hrefs & _ & _).
  eexists. split; [reflexivity|]. split_and!; [split; [by destruct s|reflexivity]|done..|].
  replace (c <| cv_view ::= <[n := d]> |>) with (c <| cv_refs ::= <[n := b_refcnt x]> |> <| cv_view ::= <[n := d]> |>)
    by (destruct c; unfold upd, set_cv_refs, set_cv_view; simpl in *; by rewrite (insert_id _ _ _ Hrefs)).
  by apply (rep_held_upd Hrep n b x (fun x => x <| b_data := d |>)).
Qed.

Lemma holding_mine b s :
  running h ∅ i p s -> (b < NBUF)%nat -> sl_of (SlBuf b) s = mkSleeplock 1 (pid p) ->
  holdingsleep (SlBuf b) s = Ret true s.
Proof.
  intros [He Hcur _ Hp _ _ _] Hb Hlk.
  rewrite (holdingsleep_ok h ∅ (SlBuf b) (proj2 (Nat.ltb_lt b NBUF) Hb) ltac:(set_solver) i Hcur p) by done.
  rewrite Hlk. simpl. by rewrite Z.eqb_refl.
Qed.

Lemma bwrite_ok s c n b d :
  running h ∅ i p s -> disk_idle s -> cache_rep (pid p) s c -> cv_held c !! n = Some b -> cv_view c !! n = Some d ->
  exists s', bwrite b s = Ret tt s' /\ sframe s s' /\ disk_idle s' /\ disk s' = <[n := d]> (disk s)
    /\ dwrites s' = dwrites s ++ [(n, d)] /\ cache_rep (pid p) s' c.
Proof.
  intros Hrun Hidle Hrep Hn Hd. destruct (rep_held Hrep n b Hn) as (x & Hb & Hx & Hxn & Hr & Hv & Hrefs & Hview & Hlk).
  unfold bwrite. pose proof Hrun as [He Hcur _ Hp _ _ _].
  mapply holding_mine by done. cbn [negb].
  pose proof (cr_size _ _ _ Hrep n d Hd) as Hsz. assert (b_data x = d) as Hdx by congruence.
  destruct (disk_write h i p b x s) as (s' & Hs' & Hf & Hi' & Hsl & Hdk & Hw & Hbf); [done..|by rewrite Hdx| |].
  { destruct Hxn as [_ ->]. apply (cr_range _ _ _ Hrep). by exists d. }
  destruct Hxn as [Hdev Hbn]. rewrite Hdx, Hbn in *. exists s'. split_and!; [done..|].
  replace c with (c <| cv_refs ::= <[n := b_refcnt x]> |> <| cv_view ::= <[n := d]> |>)
    by (destruct c; unfold upd, set_cv_refs, set_cv_view; simpl in *; rewrite (insert_id _ _ _ Hrefs); by rewrite (insert_id _ _ _ Hd)).
  apply (rep_held_upd Hrep n b x (fun x => x <| b_disk := 0 |>)); try done. intros m Hm. by rewrite Hdk, lookup_insert_ne.
Qed.

(** A holder of the block changes its reference count. *)
Lemma recount_ok X s c n b g k :
  env h X s -> LkBcache ∉ X -> cache_rep (pid p) s c -> cv_held c !! n = Some b -> g (refs_of c n) = k ->
  0 < k < 2 ^ 32 ->
  exists s', (acquire LkBcache;; buf_upd b (fun x => x <| b_refcnt ::= g |>);; release LkBcache) s = Ret tt s'
    /\ sframe s s' /\ vdisk s' = vdisk s /\ disk s' = disk s /\ dwrites s' = dwrites s
    /\ cache_rep (pid p) s' (c <| cv_refs ::= <[n := k]> |>).
Proof.
  intros He HX Hrep Hn Hg Hk. destruct (rep_held Hrep n b Hn) as (x & Hb & Hx & Hxn & Hr & Hv & Hrefs & Hview & _).
  rewrite (bcache_upd_ok h X) by done. eexists. split; [reflexivity|].
  split_and!; [split; [by destruct s|reflexivity]|done..|].
  unfold refs_of in Hg. rewrite Hrefs in Hg. simpl in Hg.
  replace (c <| cv_refs ::= <[n := k]> |>)
    with (c <| cv_refs ::= <[n := k]> |> <| cv_view ::= <[n := b_data x]> |>)
    by (destruct c; unfold upd, set_cv_refs, set_cv_view; simpl in *; by rewrite (insert_id _ _ _ Hview)).
  apply (rep_held_upd Hrep n b x (fun x => x <| b_refcnt ::= g |>)); try done. by apply (cr_size _ _ _ Hrep n).
Qed.

Lemma refs_of_held me s c n b : cache_rep me s c -> cv_held c !! n = Some b -> 0 < refs_of c n < 2 ^ 32.
Proof.
  intros Hrep Hn. destruct (rep_held Hrep n b Hn) as (x & Hb & Hx & Hxn & Hr & Hv & Hrefs & Hview & _).
  unfold refs_of. by rewrite Hrefs.
Qed.

Lemma bpin_ok X s c n b :
  env h X s -> LkBcache ∉ X -> cache_rep (pid p) s c -> cv_held c !! n = Some b -> refs_of c n + 1 < 2 ^ 32 ->
  exists s', bpin b s = Ret tt s' /\ sframe s s' /\ vdisk s' = vdisk s /\ disk s' = disk s /\ dwrites s' = dwrites s
    /\ cache_rep (pid p) s' (c <| cv_refs ::= <[n := refs_of c n + 1]> |>).
Proof.
  intros He HX Hrep Hn Hov. pose proof (refs_of_held _ _ _ _ _ Hrep Hn).
  apply (recount_ok X); [done..| |lia]. apply u32_small. lia.
Qed.

Lemma bunpin_ok X s c n b :
  env h X s -> LkBcache ∉ X -> cache_rep (pid p) s c -> cv_held c !! n = Some b -> 1 < refs_of c n ->
  exists s', bunpin b s = Ret tt s' /\ sframe s s' /\ vdisk s' = vdisk s /\ disk s' = disk s /\ dwrites s' = dwrites s
    /\ cache_rep (pid p) s' (c <| cv_refs ::= <[n := refs_of c n - 1]> |>).
Proof.
  intros He HX Hrep Hn Hov. pose proof (refs_of_held _ _ _ _ _ Hrep Hn).
  apply (recount_ok X); [done..| |lia]. apply u32_small. lia.
Qed.

(** [x] after the last step of [brelse]. *)
Lemma rep_drop s s' c n b x x' :
  cache_rep (pid p) s c -> cv_held c !! n = Some b -> bufs s !! b = Some x ->
  length (bufs s') = S NBUF -> bufs s' !! b = Some x' -> core x' = core (one_less x) ->
  (forall b', (b' < NBUF)%nat -> b' <> b -> core <$> bufs s' !! b' = core <$> bufs s !! b') ->
  (exists l, l ≡ₚ seq 0 NBUF /\ dll (bufs s') l) -> disk s' = disk s ->
  sleeplocks s' = <[SlBuf b := mkSleeplock 0 0]> (sleeplocks s) ->
  (refs_of c n = 1 -> cv_view c !! n = disk s !! n) ->
  cache_rep (pid p) s' (dropped n c).
Proof.
  intros Hrep Hn Hx0 Hlen Hx' Hcore Hrest Hlist Hdisk Hsl Hclean.
  destruct (rep_held Hrep n b Hn) as (x0 & Hb & Hx & Hxn & Hr & Hv & Hrefs & Hview & _). assert (x0 = x) as -> by congruence.
  assert (refs_of c n = b_refcnt x) as Hrf by (unfold refs_of; by rewrite Hrefs). rewrite Hrf in Hclean.
  assert (b_refcnt x' = b_refcnt x - 1) as Hcnt.
  { rewrite (core_refcnt _ _ Hcore). unfold one_less. simpl. apply u32_small. lia. }
  assert (b_data x' = b_data x /\ b_valid x' = b_valid x /\ b_dev x' = b_dev x /\ b_blockno x' = b_blockno x) as (Hda & Hva & Hde & Hbl).
  { destruct x', x. unfold core, one_less in Hcore. revert Hcore. ksimpl. intros [= ]. by subst. }
  unfold dropped, put_refs. rewrite Hrf. destruct Hxn as [Hxd Hxb].
  refine (rep_step (c := c) (b := b) (x := x) (x' := x') (n := n) _ Hrep). split; try done.
  - by right.
  - intros b' z Hb' Hne Hz Hzn. apply Hne. by apply (cr_uniq _ _ _ Hrep n b' b z x).
  - split; congruence.
  - intros m Hm. simpl. rewrite Hdisk, lookup_delete_ne by done. split_and!; [done| |done..].
    destruct (_ =? 0); [by rewrite lookup_delete_ne|by rewrite lookup_insert_ne].
  - rewrite Hdisk. unfold buf_ok. simpl. rewrite Hcnt, Hbl, Hda, Hxb, Hde. destruct (Z.eqb_spec (b_refcnt x - 1) 0) as [E|E].
    + left. split; [done|]. intros _. split; [done|]. rewrite <- Hclean by lia. done.
    + right. rewrite lookup_insert_eq. split_and!; try done; try lia.
  - simpl. rewrite Hcnt. destruct (Z.eqb_spec (b_refcnt x - 1) 0); [|done]. rewrite lookup_delete_eq. by intros [].
  - simpl. rewrite Hdisk. destruct (Z.eqb_spec (b_refcnt x - 1) 0); [|by rewrite lookup_insert_eq]. intros _. apply Hclean. lia.
  - simpl. intros d. apply Hrep.
  - simpl. apply Hrep.
  - intros b' Hne. unfold sl_of. rewrite Hsl, lookup_insert_ne by congruence. done.
  - right. unfold sl_of. rewrite Hsl, lookup_insert_eq. simpl. by rewrite lookup_delete_eq.
Qed.

Lemma brelse_ok s c n b :
  running h ∅ i p s -> cache_rep (pid p) s c -> cv_held c !! n = Some b ->
  (refs_of c n = 1 -> cv_view c !! n = disk s !! n) ->
  exists s', brelse b s = Ret tt s' /\ sframe s s' /\ vdisk s' = vdisk s /\ disk s' = disk s /\ dwrites s' = dwrites s
    /\ cache_rep (pid p) s' (dropped n c).
Proof.
  intros Hrun Hrep Hn Hclean. destruct (rep_held Hrep n b Hn) as (x & Hb & Hx & Hxn & Hr & Hv & Hrefs & Hview & Hlk).
  unfold brelse. pose proof Hrun as [He Hcur _ Hp _ _ Htab].
  mapply holding_mine by done. cbn [negb].
  mapply (releasesleep_ok h ∅ no_plock_empty (SlBuf b) (proj2 (Nat.ltb_lt b NBUF) Hb) ltac:(set_solver)) by done.
  set (s1 := s <| sleeplocks ::= _ |> <| procs ::= _ |>).
  mapply (env_acquire h ∅) by first [plocktac | set_solver]. rewrite union_empty_r_L, bind_buf_upd.
  set (s3 := s1 <| hw := _ |> <| bufs ::= _ |>).
  assert (bufs s3 = alter one_less b (bufs s)) as Hb3 by done.
  assert (bufs s3 !! b = Some (one_less x)) as Hx3 by (by rewrite Hb3, list_lookup_alter_eq, Hx).
  assert (env h {[LkBcache]} s3) as He3 by solve_env.
  mapply (buf_get_ok b (one_less x)) by done.
  destruct (when_front_ok (b_refcnt (one_less x) =? 0) b (one_less x) s3) as (bs' & Hbody & Hlen' & Hl' & Hc').
  { destruct (cr_list _ _ _ Hrep) as (l & Hl & Hdll). exists l. split; [done|]. by apply dll_alter. }
  { rewrite Hb3, length_alter. apply Hrep. } { done. } { done. }
  mstep Hbody.
  rewrite (env_release h {[LkBcache]}) by first [plocktac | set_solver]. rewrite difference_diag_L.
  assert (exists x', bs' !! b = Some x' /\ core x' = core (one_less x)) as (x' & Hx' & Hcx).
  { specialize (Hc' b). rewrite Hx3 in Hc'. destruct (bs' !! b) as [x'|]; [|done]. apply (inj Some) in Hc'. by exists x'. }
  eexists. split; [reflexivity|]. split_and!; try done.
  - split; [|apply woken_woke]. pose proof (env_hw _ _ _ He) as Eh. clear -Eh. unfold s3, s1.
    destruct s. simpl in Eh. subst. reflexivity.
  - apply (rep_drop s _ c n b x x'); try done.
    intros b' _ Hne. simpl. rewrite Hc', Hb3. by rewrite list_lookup_alter_ne.
Qed.
End ops.
