(* ===== verification/CacheSpec.v ===== *)
(** * The buffer cache refines a map of blocks

    [binit] builds an empty cache, and from then on every sequence of cache
    operations behaves like an abstract machine that knows nothing of buffers,
    lists or locks. *)

From stdpp Require Import base numbers gmap sets strings option functions list.
From S2P Require Import Prelude Machine Spinlock CString Printf Kalloc Vm Proc ProcSpec.
From S2P Require Import Sleeplock SleeplockSpec Bio Cache.

(** ** [binit] *)

Lemma initsleeplock_ok h X b s :
  env h X s -> (b < NBUF)%nat -> LkSleep (SlBuf b) ∉ X ->
  initsleeplock (SlBuf b) s = Ret tt (s <| sleeplocks ::= <[SlBuf b := mkSleeplock 0 0]> |>).
Proof.
  intros He Hb HX. unfold initsleeplock.
  mapply (initlock_id h X) by first [done | by apply Nat.ltb_lt]. done.
Qed.

(** The loop body is [link_first] with the lock initialised on the way. *)
Lemma binit_body h X b l s :
  env h X s -> (forall b, LkSleep (SlBuf b) ∉ X) -> (b < NBUF)%nat ->
  dll (bufs s) l -> NoDup (NBUF :: b :: l) -> Forall (fun a => (a < length (bufs s))%nat) (NBUF :: b :: l) ->
  exists bs',
    (hd ← buf_get NBUF;
     buf_upd b (fun x => x <| b_next := b_next hd |>);;
     buf_upd b (fun x => x <| b_prev := NBUF |>);;
     initsleeplock (SlBuf b);;
     hd ← buf_get NBUF;
     buf_upd (b_next hd) (fun x => x <| b_prev := b |>);;
     buf_upd NBUF (fun x => x <| b_next := b |>)) s
    = Ret tt (s <| bufs := bs' |> <| sleeplocks ::= <[SlBuf b := mkSleeplock 0 0]> |>)
    /\ relinked (bufs s) bs' (b :: l).
Proof.
  intros He HX Hb Hdll Hnd Hlt. destruct (link_first_ok b l s Hdll Hnd Hlt) as (bs' & Hs & Hr).
  exists bs'. split; [|done]. unfold link_first in Hs.
  destruct (lookup_lt_is_Some_2 (bufs s) NBUF) as [hd Hhd]; [by apply Forall_cons in Hlt as [? _]|].
  assert (NBUF <> b) as Hne by lia. revert Hs.
  mapply (buf_get_ok NBUF hd) by done. rewrite !bind_buf_upd.
  mapply (buf_get_ok NBUF hd) by (simpl; by rewrite !list_lookup_alter_ne).
  rewrite bind_buf_upd. intros Hs.
  mapply (buf_get_ok NBUF hd) by done. rewrite !bind_buf_upd.
  mapply (initsleeplock_ok h X) by first [solve_env | done].
  mapply (buf_get_ok NBUF hd) by (simpl; by rewrite !list_lookup_alter_ne).
  rewrite bind_buf_upd. unfold buf_upd, modify in *. injection Hs as Hs. f_equal. rewrite <- Hs. by destruct s.
Qed.

Lemma relinked_trans bs bs' bs'' l l' : relinked bs bs' l -> relinked bs' bs'' l' -> relinked bs bs'' l'.
Proof. intros (_ & L1 & C1) (D & L2 & C2). split; [done|]. split; [congruence|]. intros b. by rewrite C2. Qed.

Lemma binit_loop h X m : forall k l s,
  env h X s -> (forall b, LkSleep (SlBuf b) ∉ X) -> (k + m = NBUF)%nat -> length (bufs s) = S NBUF ->
  dll (bufs s) l -> l ≡ₚ seq 0 k ->
  exists bs' L l',
    forM (seq k m) (fun b =>
      hd ← buf_get NBUF;
      buf_upd b (fun x => x <| b_next := b_next hd |>);;
      buf_upd b (fun x => x <| b_prev := NBUF |>);;
      initsleeplock (SlBuf b);;
      hd ← buf_get NBUF;
      buf_upd (b_next hd) (fun x => x <| b_prev := b |>);;
      buf_upd NBUF (fun x => x <| b_next := b |>)) s = Ret tt (s <| bufs := bs' |> <| sleeplocks := L |>)
    /\ relinked (bufs s) bs' l' /\ l' ≡ₚ seq 0 NBUF
    /\ (forall b, (k <= b < NBUF)%nat -> L !! SlBuf b = Some (mkSleeplock 0 0))
    /\ (forall b, (b < k)%nat -> L !! SlBuf b = sleeplocks s !! SlBuf b).
Proof.
  induction m as [|m IH]; intros k l s He HX Hk Hlen Hdll Hl.
  - exists (bufs s), (sleeplocks s), l. rewrite Nat.add_0_r in Hk. subst k.
    split; [by destruct s|]. split_and!; [by split|done|lia|done].
  - assert (forall a, a ∈ l -> (a < k)%nat) as Hlt by (intros a; rewrite Hl, elem_of_seq; lia).
    destruct (binit_body h X k l s) as (bs1 & Hs1 & Hr1 & Hln1 & Hc1); [done|done|lia|done| | |].
    { apply NoDup_cons. split; [|apply NoDup_cons; split].
      - intros [?|Hn%Hlt]%elem_of_cons; lia.
      - intros Hn%Hlt. lia.
      - rewrite Hl. apply NoDup_seq. }
    { rewrite Hlen. repeat apply Forall_cons_2; [lia..|]. apply Forall_forall. intros a Ha%Hlt. lia. }
    cbn [seq forM]. rewrite (bind_Ret _ _ _ _ _ Hs1).
    set (s1 := s <| bufs := bs1 |> <| sleeplocks ::= _ |>).
    destruct (IH (S k) (k :: l) s1) as (bs' & L & l' & Hf & Hr & Hp & HL1 & HL2); [solve_env|done|lia| |done| |].
    { change (length bs1 = S NBUF). by rewrite Hln1. }
    { rewrite Hl. change (k :: seq 0 k) with ([k] ++ seq 0 k). rewrite Permutation_app_comm.
      rewrite seq_S. done. }
    exists bs', L, l'. split_and!; [|by eapply relinked_trans|done| |].
    + rewrite Hf. by destruct s.
    + intros b Hb. destruct (decide (b = k)) as [->|]; [|apply HL1; lia].
      rewrite HL2 by lia. apply lookup_insert_eq.
    + intros b Hb. rewrite HL2 by lia. apply lookup_insert_ne. intros [= ->]. lia.
Qed.

(** A buffer as the boot loader left it. *)
Definition blank (x : buf) : Prop := b_refcnt x = 0 /\ b_valid x = 0 /\ b_dev x <> ROOTDEV.

Lemma blank_core x y : core x = core y -> blank x -> blank y.
Proof. destruct x, y; unfold core, blank; ksimpl. intros [= ]. by subst. Qed.

Lemma binit_ok me h X s :
  env h X s -> LkBcache ∉ X -> (forall b, LkSleep (SlBuf b) ∉ X) ->
  length (bufs s) = S NBUF -> Forall blank (bufs s) ->
  (forall n d, disk s !! n = Some d -> 0 <= n < 2 ^ 31 /\ length d = Z.to_nat BSIZE) ->
  exists s', binit s = Ret tt s' /\ s' = s <| bufs := bufs s' |> <| sleeplocks := sleeplocks s' |>
    /\ cache_rep me s' (mkCache (disk s) ∅ ∅).
Proof.
  intros He HX HXs Hlen Hblank Hsz. unfold binit.
  mapply (initlock_id h X) by done. rewrite !bind_buf_upd.
  set (s0 := s <| bufs ::= _ |> <| bufs ::= _ |>).
  assert (forall a, core <$> bufs s0 !! a = core <$> bufs s !! a) as Hc0 by (intros a; simpl; by rewrite !core_alter).
  assert (dll (bufs s0) []) as Hd0.
  { assert (NBUF < length (bufs s))%nat as Hlt by lia. split; simpl.
    - by rewrite (link_of_set _ _ _ _ NBUF), fn_lookup_insert by (rewrite ?length_alter; done).
    - by rewrite link_of_alter, (link_of_set _ _ _ _ NBUF), fn_lookup_insert by done. }
  destruct (binit_loop h X NBUF 0 [] s0) as (bs' & L & l' & Hs & (Hd & Hln & Hc) & Hp & HL & _); [solve_env|done..| |done|done|].
  { simpl. by rewrite !length_alter. }
  rewrite Hs. eexists. split; [reflexivity|]. split; [by destruct s|].
  assert (forall b x, bs' !! b = Some x -> blank x) as Hbl.
  { intros b x Hx. assert (core <$> bufs s !! b = Some (core x)) as E by (rewrite <- Hc0, <- Hc, Hx; done).
    apply fmap_Some in E as (y & Hy & E). apply (blank_core y); [done|].
    rewrite Forall_forall in Hblank. apply Hblank. by eapply list_elem_of_lookup_2. }
  split; simpl.
  - rewrite Hln. simpl. by rewrite !length_alter.
  - by exists l'.
  - intros n b b' x x' _ _ Hx _ [Hdev _] _. by destruct (Hbl b x Hx) as (_ & _ & ?).
  - intros b x _ Hx. destruct (Hbl b x Hx) as (? & ? & _). by left.
  - intros n [k Hk]. by rewrite lookup_empty in Hk.
  - done.
  - intros n d Hn. by apply (Hsz n).
  - intros n [d Hn]. by apply (Hsz n d).
  - intros n b Hn. by rewrite lookup_empty in Hn.
  - intros b Hb. right. unfold sl_of. simpl. rewrite HL by lia. split; [done|]. intros n. by rewrite lookup_empty.
Qed.

Lemma binit_frame s s' : s' = s <| bufs := bufs s' |> <| sleeplocks := sleeplocks s' |> -> sframe s s'.
Proof. intros E. split; [rewrite E at 1; rewrite E; clear; by destruct s|]. rewrite E. reflexivity. Qed.

(** ** The abstract machine *)

Inductive bcmd :=
| BRead (n : Z) | BGet (n : Z) | BSet (n : Z) (d : list Z) | BWrite (n : Z) | BRelse (n : Z) | BPin (n : Z) | BUnpin (n : Z).

(** Blocks, references, held blocks, the disk and the writes to it. *)
Record blocks := mkBlocks {
  bl_view : gmap Z (list Z);
  bl_refs : gmap Z Z;
  bl_held : gset Z;
  bl_disk : gmap Z (list Z);
  bl_writes : list (Z * list Z)
}.

Definition bl_count (a : blocks) (n : Z) : Z := default 0 (bl_refs a !! n).

(** What a command does, and the data it returns; [None] when the caller breaks
    the rules of the interface. *)
Definition babs (cmd : bcmd) (a : blocks) : option (blocks * list (list Z)) :=
  let '(mkBlocks v r h D w) := a in
  match cmd with
  | BRead n =>
      if decide (n ∉ h /\ is_Some (v !! n) /\ bl_count a n + 1 < 2 ^ 32 /\ (is_Some (r !! n) \/ (size r < NBUF)%nat))
      then Some (mkBlocks v (<[n := bl_count a n + 1]> r) ({[n]} ∪ h) D w, []) else None
  | BGet n => if decide (n ∈ h) then d ← v !! n; Some (a, [d]) else None
  | BSet n d => if decide (n ∈ h /\ length d = Z.to_nat BSIZE) then Some (mkBlocks (<[n := d]> v) r h D w, []) else None
  | BWrite n =>
      if decide (n ∈ h) then d ← v !! n; Some (mkBlocks v r h (<[n := d]> D) (w ++ [(n, d)]), []) else None
  | BRelse n =>
      if decide (n ∈ h /\ (bl_count a n = 1 -> v !! n = D !! n))
      then Some (mkBlocks v (put_refs n (bl_count a n - 1) r) (h ∖ {[n]}) D w, []) else None
  | BPin n =>
      if decide (n ∈ h /\ bl_count a n + 1 < 2 ^ 32) then Some (mkBlocks v (<[n := bl_count a n + 1]> r) h D w, []) else None
  | BUnpin n =>
      if decide (n ∈ h /\ 1 < bl_count a n) then Some (mkBlocks v (<[n := bl_count a n - 1]> r) h D w, []) else None
  end.

Fixpoint babs_run (l : list bcmd) (a : blocks) : option (blocks * list (list Z)) :=
  match l with
  | [] => Some (a, [])
  | cmd :: l => '(a, o) ← babs cmd a; '(a, o') ← babs_run l a; Some (a, o ++ o')
  end.

(** The same commands on the kernel; [vars] are the buffers the client holds. *)
Section machine.
Context `{Patience, Disk}.

Definition bexec (vars : gmap Z nat) (cmd : bcmd) : K (gmap Z nat * list (list Z)) :=
  match cmd with
  | BRead n => b ← bread ROOTDEV n; mret (<[n := b]> vars, [])
  | BGet n => b ← deref (vars !! n); d ← data_of b; mret (vars, [d])
  | BSet n d => b ← deref (vars !! n); set_data b d;; mret (vars, [])
  | BWrite n => b ← deref (vars !! n); bwrite b;; mret (vars, [])
  | BRelse n => b ← deref (vars !! n); brelse b;; mret (delete n vars, [])
  | BPin n => b ← deref (vars !! n); bpin b;; mret (vars, [])
  | BUnpin n => b ← deref (vars !! n); bunpin b;; mret (vars, [])
  end.

Fixpoint brun (l : list bcmd) (vars : gmap Z nat) : K (gmap Z nat * list (list Z)) :=
  match l with
  | [] => mret (vars, [])
  | cmd :: l =>
      r ← bexec vars cmd;
      r' ← brun l (fst r);
      mret (fst r', snd r ++ snd r')
  end.

Context {disk_idle : kernel -> Prop} `{!DiskOk disk_idle}.
Context (h : hart) (i : nat) (p : proc).

(** A kernel state, the buffers of the client and the abstract state agree. *)
Definition brel (vars : gmap Z nat) (s : kernel) (a : blocks) : Prop :=
  running h ∅ i p s /\ disk_idle s /\ cache_rep (pid p) s (mkCache (bl_view a) (bl_refs a) vars)
  /\ bl_held a = dom vars /\ bl_disk a = disk s /\ bl_writes a = dwrites s.

Lemma brel_intro vars s s' a :
  running h ∅ i p s -> sframe s s' -> disk_idle s' ->
  cache_rep (pid p) s' (mkCache (bl_view a) (bl_refs a) vars) ->
  bl_held a = dom vars -> bl_disk a = disk s' -> bl_writes a = dwrites s' -> brel vars s' a.
Proof. intros Hr Hf ?????. unfold brel. split_and!; try done. by apply (running_frame _ _ _ _ s). Qed.

Lemma held_var (vars : gmap Z nat) a n : bl_held a = dom vars -> n ∈ bl_held a -> exists b, vars !! n = Some b.
Proof. intros -> Hn. by apply elem_of_dom. Qed.

Lemma bexec_ok cmd vars s a a' o :
  brel vars s a -> babs cmd a = Some (a', o) ->
  exists vars' s', bexec vars cmd s = Ret (vars', o) s' /\ brel vars' s' a' /\ sframe s s'.
Proof.
  intros (Hrun & Hidle & Hrep & Hh & HD & HW) Ha. pose proof (ru_env _ _ _ _ _ Hrun) as He.
  destruct a as [v r hd D w]; simpl in *. destruct cmd as [n|n|n d|n|n|n|n]; case_decide as Hd; try done; simpl.
  - destruct Hd as (Hn & [d Hv] & Hov & Hroom). injection Ha as <- <-. subst hd.
    destruct (bread_ok h i p s _ n d Hrun Hidle Hrep) as (b & s' & Hs & Hf & Hi & Hr & HDs & HWs); simpl; try done.
    { by apply not_elem_of_dom. }
    mstep Hs. do 2 eexists. split; [reflexivity|]. split; [|done].
    eapply brel_intro; simpl; (done || congruence || idtac). by rewrite dom_insert_L.
  - destruct (held_var _ (mkBlocks v r hd D w) n Hh Hd) as [b Hb]. rewrite Hb. msimpl.
    destruct (v !! n) as [d|] eqn:Hv; simplify_eq/=.
    mapply data_of_ok by done. do 2 eexists. split; [reflexivity|]. by split.
  - destruct Hd as [Hn Hlen]. injection Ha as <- <-. destruct (held_var _ (mkBlocks v r hd D w) n Hh Hn) as [b Hb].
    rewrite Hb. msimpl.
    destruct (set_data_ok _ s _ n b d Hrep Hb Hlen) as (s' & Hs & Hf & Hvd & HDs & HWs & Hr).
    mstep Hs. do 2 eexists. split; [reflexivity|]. split; [|done].
    eapply brel_intro; simpl; (done || congruence || idtac). by apply (disk_idle_ext s).
  - destruct (held_var _ (mkBlocks v r hd D w) n Hh Hd) as [b Hb]. rewrite Hb. msimpl.
    destruct (v !! n) as [d|] eqn:Hv; simplify_eq/=.
    destruct (bwrite_ok h i p s _ n b d Hrun Hidle Hrep Hb Hv) as (s' & Hs & Hf & Hi & HDs & HWs & Hr).
    mstep Hs. do 2 eexists. split; [reflexivity|]. split; [|done]. by eapply brel_intro.
  - destruct Hd as [Hn Hcl]. injection Ha as <- <-. destruct (held_var _ (mkBlocks v r hd D w) n Hh Hn) as [b Hb].
    rewrite Hb. msimpl. subst D.
    destruct (brelse_ok h i p s _ n b Hrun Hrep Hb Hcl) as (s' & Hs & Hf & Hvd & HDs & HWs & Hr).
    mstep Hs. do 2 eexists. split; [reflexivity|]. split; [|done].
    eapply brel_intro; simpl; (done || congruence || idtac); [by apply (disk_idle_ext s)|].
    by rewrite Hh, dom_delete_L.
  - destruct Hd as [Hn Hov]. injection Ha as <- <-. destruct (held_var _ (mkBlocks v r hd D w) n Hh Hn) as [b Hb].
    rewrite Hb. msimpl.
    destruct (bpin_ok h p ∅ s _ n b He ltac:(set_solver) Hrep Hb Hov) as (s' & Hs & Hf & Hvd & HDs & HWs & Hr).
    mstep Hs. do 2 eexists. split; [reflexivity|]. split; [|done].
    eapply brel_intro; simpl; (done || congruence || idtac). by apply (disk_idle_ext s).
  - destruct Hd as [Hn Hov]. injection Ha as <- <-. destruct (held_var _ (mkBlocks v r hd D w) n Hh Hn) as [b Hb].
    rewrite Hb. msimpl.
    destruct (bunpin_ok h p ∅ s _ n b He ltac:(set_solver) Hrep Hb Hov) as (s' & Hs & Hf & Hvd & HDs & HWs & Hr).
    mstep Hs. do 2 eexists. split; [reflexivity|]. split; [|done].
    eapply brel_intro; simpl; (done || congruence || idtac). by apply (disk_idle_ext s).
Qed.

Lemma brun_ok l : forall vars s a a' o,
  brel vars s a -> babs_run l a = Some (a', o) ->
  exists vars' s', brun l vars s = Ret (vars', o) s' /\ brel vars' s' a' /\ sframe s s'.
Proof.
  induction l as [|cmd l IH]; intros vars s a a' o Hr Ha; simpl in Ha |- *.
  - injection Ha as <- <-. by exists vars, s.
  - destruct (babs cmd a) as [[a1 o1]|] eqn:H1; simpl in Ha; [|done].
    destruct (babs_run l a1) as [[a2 o2]|] eqn:H2; simpl in Ha; [|done]. injection Ha as <- <-.
    destruct (bexec_ok cmd vars s a a1 o1 Hr H1) as (vars1 & s1 & Hs1 & Hr1 & Hf1).
    destruct (IH vars1 s1 a1 a2 o2 Hr1 H2) as (vars2 & s2 & Hs2 & Hr2 & Hf2).
    mstep Hs1. simpl. mstep Hs2. do 2 eexists. split; [reflexivity|]. split; [done|]. by transitivity s1.
Qed.
End machine.

(** ** A disk that answers at once *)

Definition sync_disk : Disk := fun b write s =>
  match bufs s !! b with
  | None => Hang HWild
  | Some x =>
      if write then
        Ret tt (s <| disk ::= <[b_blockno x := b_data x]> |> <| dwrites ::= fun w => w ++ [(b_blockno x, b_data x)] |>
                  <| bufs ::= alter (fun x => x <| b_disk := 0 |>) b |>)
      else
        match disk s !! b_blockno x with
        | None => Hang HWild
        | Some d => Ret tt (s <| bufs ::= alter (fun x => x <| b_data := d |> <| b_disk := 0 |>) b |>)
        end
  end.

Lemma sync_disk_ok : @DiskOk sync_disk (fun _ => True).
Proof.
  split; [done| |].
  - intros h i p b x d s _ _ _ Hx Hd. unfold virtio_disk_rw, sync_disk. rewrite Hx, Hd.
    eexists. split; [reflexivity|]. split_and!; try done.
  - intros h i p b x s _ _ _ Hx _. unfold virtio_disk_rw, sync_disk. rewrite Hx.
    eexists. split; [reflexivity|]. split_and!; try done.
Qed.

(** ** Property *)

(** C3: The buffer cache is a map of blocks.  After [binit], every sequence of
    reads, changes, writes, pins, unpins and releases that keeps to the rules
    of the abstract machine [babs_run] (a block is locked at most once by its
    reader, at most [NBUF] blocks are referenced, a block whose last reference
    goes away agrees with the disk) runs to its end without panicking, returns
    the data and leaves the disk and the history of disk writes that the
    abstract machine predicts, and disturbs nothing outside the storage part of
    the kernel except that it may wake sleeping processes. *)
Theorem bcache_refines_blocks `{Patience, Disk} disk_idle `{!DiskOk disk_idle} h i p s l a' o :
  running h ∅ i p s -> disk_idle s -> length (bufs s) = S NBUF -> Forall blank (bufs s) ->
  (forall n d, disk s !! n = Some d -> 0 <= n < 2 ^ 31 /\ length d = Z.to_nat BSIZE) ->
  babs_run l (mkBlocks (disk s) ∅ ∅ (disk s) (dwrites s)) = Some (a', o) ->
  exists s1 vars s', binit s = Ret tt s1 /\ brun l ∅ s1 = Ret (vars, o) s'
    /\ disk s' = bl_disk a' /\ dwrites s' = bl_writes a' /\ dom vars = bl_held a' /\ sframe s s'.
Proof.
  intros Hrun Hidle Hlen Hbl Hsz Ha.
  destruct (binit_ok (pid p) h ∅ s) as (s1 & Hs1 & E1 & Hrep); [apply Hrun|set_solver..|done|done|done|].
  pose proof (binit_frame s s1 E1) as Hf1.
  assert (brel (disk_idle := disk_idle) h i p ∅ s1 (mkBlocks (disk s) ∅ ∅ (disk s) (dwrites s))) as Hr1.
  { apply (brel_intro h i p ∅ s); try done; simpl; rewrite ?dom_empty_L; try done.
    - apply (disk_idle_ext s); [|done]. rewrite E1. by destruct s.
    - rewrite E1. by destruct s.
    - rewrite E1. by destruct s. }
  destruct (brun_ok h i p l ∅ s1 _ a' o Hr1 Ha) as (vars & s' & Hs' & (_ & _ & _ & Hh & HD & HW) & Hf).
  exists s1, vars, s'. split_and!; try done. by transitivity s1.
Qed.

(** A kernel before [binit], with a disk of one block. *)
Definition blank_buf : buf := mkBuf 0 0 0 0 0 0 0 [].
Definition disk_proc : proc := zero_proc <| state := RUNNING |> <| pid := 1 |>.
Definition disk_kernel (D : gmap Z (list Z)) : kernel :=
  table_kernel (Some 0%nat) ∅ (<[0%nat := disk_proc]> (replicate NPROC zero_proc))
    <| bufs := replicate (S NBUF) blank_buf |> <| disk := D |>.
Definition block_of (c : Z) : list Z := replicate (Z.to_nat BSIZE) c.

Lemma disk_kernel_running D : running (boot_hart (Some 0%nat)) ∅ 0 disk_proc (disk_kernel D).
Proof.
  split; try done; [|unfold NPROC; lia]. split; [apply boot_hart_quiet|done|apply boot_hart_free].
Qed.

(** Block 5 is read, changed, written, released and read again. *)
Definition demo_cmds : list bcmd :=
  [BRead 5; BGet 5; BSet 5 (block_of 7); BWrite 5; BRelse 5; BRead 5; BGet 5; BRelse 5].

Lemma bcache_refines_blocks_witness :
  exists s1 vars s', binit (disk_kernel {[5 := block_of 3]}) = Ret tt s1
    /\ @brun 0%nat sync_disk demo_cmds ∅ s1 = Ret (vars, [block_of 3; block_of 7]) s'
    /\ dwrites s' = [(5, block_of 7)].
Proof.
  destruct (babs_run demo_cmds (mkBlocks {[5 := block_of 3]} ∅ ∅ {[5 := block_of 3]} [])) as [[a' o]|] eqn:Ha;
    [|by vm_compute in Ha].
  assert (o = [block_of 3; block_of 7] /\ bl_writes a' = [(5, block_of 7)]) as [-> Hw].
  { vm_compute in Ha. injection Ha as <- <-. split; reflexivity. }
  destruct (@bcache_refines_blocks 0%nat sync_disk (fun _ => True) sync_disk_ok (boot_hart (Some 0%nat)) 0 disk_proc
    (disk_kernel {[5 := block_of 3]}) demo_cmds a' [block_of 3; block_of 7])
    as (s1 & vars & s' & H1 & H2 & _ & H4 & _).
  - apply disk_kernel_running.
  - exact I.
  - reflexivity.
  - apply Forall_replicate. split_and!; [reflexivity|reflexivity|discriminate].
  - intros n d Hd. change (({[5 := block_of 3]} : gmap Z (list Z)) !! n = Some d) in Hd.
    apply lookup_singleton_Some in Hd as [<- <-]. split; [lia|reflexivity].
  - exact Ha.
  - exists s1, vars, s'. split; [exact H1|]. split; [exact H2|]. rewrite H4. exact Hw.
Defined.
