(* ===== verification/Virtio.v ===== *)
(** * The virtio disk driver

    [kernel/virtio_disk.c].  The descriptor table and the rings, which live in
    pages shared with the device, are the record [vdisk]; a register write is
    appended to [mmio].  [rd ws r] is what the device answers to a read of
    register [r] after the register writes [ws]. *)

From stdpp Require Import base numbers gmap sets strings option list.
From S2P Require Import Prelude Machine Spinlock CString Kalloc Vm Proc Console Sleeplock Bio.

Definition NUM : nat := 8.
Definition VRING_DESC_F_NEXT : Z := 1.
Definition VRING_DESC_F_WRITE : Z := 2.
Definition VIRTIO_BLK_T_IN : Z := 0.
Definition VIRTIO_BLK_T_OUT : Z := 1.

Definition MMIO_MAGIC_VALUE : Z := 0x000.
Definition MMIO_VERSION : Z := 0x004.
Definition MMIO_DEVICE_ID : Z := 0x008.
Definition MMIO_VENDOR_ID : Z := 0x00c.
Definition MMIO_DEVICE_FEATURES : Z := 0x010.
Definition MMIO_DRIVER_FEATURES : Z := 0x020.
Definition MMIO_QUEUE_SEL : Z := 0x030.
Definition MMIO_QUEUE_NUM_MAX : Z := 0x034.
Definition MMIO_QUEUE_NUM : Z := 0x038.
Definition MMIO_QUEUE_READY : Z := 0x044.
Definition MMIO_QUEUE_NOTIFY : Z := 0x050.
Definition MMIO_INTERRUPT_STATUS : Z := 0x060.
Definition MMIO_INTERRUPT_ACK : Z := 0x064.
Definition MMIO_STATUS : Z := 0x070.
Definition MMIO_QUEUE_DESC : Z := 0x080.
Definition MMIO_DRIVER_DESC : Z := 0x090.
Definition MMIO_DEVICE_DESC : Z := 0x0a0.
Definition S_ACKNOWLEDGE : Z := 1.
Definition S_DRIVER : Z := 2.
Definition S_DRIVER_OK : Z := 4.
Definition S_FEATURES_OK : Z := 8.

Definition vd_upd (f : vdiskst -> vdiskst) : K () := modify (fun s => s <| vdisk ::= f |>).
Definition desc_upd (i : Z) (f : vdesc -> vdesc) : K () :=
  vd_upd (fun d => d <| vd_desc ::= alter f (Z.to_nat i) |>).

Definition zero_desc : vdesc := mkVdesc DNull 0 0 0.

(** [a] is split over two 32-bit registers. *)
Definition write_addr (r a : Z) : K () :=
  mmio_write (VIRTIO0 + r) (u32 a);;
  mmio_write (VIRTIO0 + r + 4) (Z.shiftr a 32).

Section init.
Context `{Link} (rd : list (Z * Z) -> Z -> Z).

Definition vread (r : Z) : K Z := w ← gets mmio; mret (rd w (VIRTIO0 + r)).
Definition vwrite (r v : Z) : K () := mmio_write (VIRTIO0 + r) v.

(** The features this driver does not want. *)
Definition unwanted : list Z := [5; 7; 11; 12; 27; 29; 28].
Definition negotiate (features : Z) : Z :=
  foldl (fun f b => Z.land f (Z.lnot (Z.shiftl 1 b))) features unwanted.

Definition virtio_disk_init : K () :=
  initlock LkDisk;;
  magic ← vread MMIO_MAGIC_VALUE;
  version ← vread MMIO_VERSION;
  device ← vread MMIO_DEVICE_ID;
  vendor ← vread MMIO_VENDOR_ID;
  if negb (magic =? 0x74726976) || negb (version =? 2) || negb (device =? 2) || negb (vendor =? 0x554d4551)
  then panic "could not find virtio disk"
  else
    vwrite MMIO_STATUS 0;;
    let status := S_ACKNOWLEDGE in
    vwrite MMIO_STATUS status;;
    let status := Z.lor status S_DRIVER in
    vwrite MMIO_STATUS status;;
    features ← vread MMIO_DEVICE_FEATURES;
    vwrite MMIO_DRIVER_FEATURES (u32 (negotiate features));;
    let status := Z.lor status S_FEATURES_OK in
    vwrite MMIO_STATUS status;;
    status ← vread MMIO_STATUS;
    if Z.land status S_FEATURES_OK =? 0 then panic "virtio disk FEATURES_OK unset"
    else
      vwrite MMIO_QUEUE_SEL 0;;
      ready ← vread MMIO_QUEUE_READY;
      if negb (ready =? 0) then panic "virtio disk should not be ready"
      else
        max ← vread MMIO_QUEUE_NUM_MAX;
        if max =? 0 then panic "virtio disk has no queue 0"
        else if max <? Z.of_nat NUM then panic "virtio disk max queue too short"
        else
          desc ← kalloc;
          avail ← kalloc;
          used ← kalloc;
          if (desc =? 0) || (avail =? 0) || (used =? 0) then panic "virtio disk kalloc"
          else
            kmemset desc 0 PGSIZE;;
            kmemset avail 0 PGSIZE;;
            kmemset used 0 PGSIZE;;
            vd_upd (fun d => d <| vd_desc := replicate NUM zero_desc |>
              <| vd_avail_ring := replicate NUM 0 |> <| vd_avail_idx := 0 |>
              <| vd_used_ring := replicate NUM 0 |> <| vd_used_dev_idx := 0 |>);;
            vwrite MMIO_QUEUE_NUM (Z.of_nat NUM);;
            write_addr MMIO_QUEUE_DESC desc;;
            write_addr MMIO_DRIVER_DESC avail;;
            write_addr MMIO_DEVICE_DESC used;;
            vwrite MMIO_QUEUE_READY 1;;
            forM (seq 0 NUM) (fun i => vd_upd (fun d => d <| vd_free ::= <[i := 1]> |>));;
            vwrite MMIO_STATUS (Z.lor status S_DRIVER_OK).

Definition virtio_disk_intr : K () :=
  acquire LkDisk;;
  st ← vread MMIO_INTERRUPT_STATUS;
  vwrite MMIO_INTERRUPT_ACK (Z.land st 3);;
  d ← gets vdisk;
  whileM (Z.to_nat (u16 (vd_used_dev_idx d - vd_used_idx d)))
    (d ← gets vdisk; mret (negb (vd_used_idx d =? vd_used_dev_idx d)))
    (d ← gets vdisk;
     id ← deref (vd_used_ring d !! Z.to_nat (vd_used_idx d mod Z.of_nat NUM));
     st ← deref (vd_info_status d !! Z.to_nat id);
     if negb (st =? 0) then panic "virtio_disk_intr status"
     else
       b ← deref (vd_info_b d !! Z.to_nat id);
       b ← deref b;
       buf_upd b (fun x => x <| b_disk := 0 |>);;
       wakeup (ChBuf b);;
       vd_upd (fun d => d <| vd_used_idx ::= fun i => u16 (i + 1) |>));;
  release LkDisk.
End init.

Definition alloc_desc : K Z :=
  r ← forM_until (seq 0 NUM) (fun i =>
    d ← gets vdisk;
    f ← deref (vd_free d !! i);
    if negb (f =? 0) then vd_upd (fun d => d <| vd_free ::= <[i := 0]> |>);; mret (Some (Z.of_nat i))
    else mret None);
  mret (default (-1) r).

Definition free_desc (i : Z) : K () :=
  if i >=? Z.of_nat NUM then panic "free_desc 1"
  else
    d ← gets vdisk;
    f ← deref (vd_free d !! Z.to_nat i);
    if negb (f =? 0) then panic "free_desc 2"
    else
      desc_upd i (fun _ => zero_desc);;
      vd_upd (fun d => d <| vd_free ::= <[Z.to_nat i := 1]> |>);;
      wakeup ChDiskFree.

(** A chain has no more than [NUM] links: a second visit is a panic. *)
Definition free_chain (i : Z) : K () :=
  iterM (S NUM) (fun i =>
    d ← gets vdisk;
    x ← deref (vd_desc d !! Z.to_nat i);
    free_desc i;;
    mret (if negb (Z.land (d_flags x) VRING_DESC_F_NEXT =? 0) then inl (d_next x) else inr tt)) i.

(** The three indices, or none and nothing allocated. *)
Fixpoint alloc_descs (n : nat) (idx : list Z) : K (option (list Z)) :=
  match n with
  | O => mret (Some idx)
  | S n =>
      i ← alloc_desc;
      if i <? 0 then forM idx free_desc;; mret None
      else alloc_descs n (idx ++ [i])
  end.
Definition alloc3_desc : K (option (list Z)) := alloc_descs 3 [].

(** The request for buffer [b], ready for the device, in the descriptors [i0], [i1], [i2]. *)
Definition format_request (b : nat) (sector : Z) (write : bool) (i0 i1 i2 : Z) : K () :=
  let o := Z.to_nat i0 in
  vd_upd (fun d => d <| vd_ops_type ::= <[o := if write then VIRTIO_BLK_T_OUT else VIRTIO_BLK_T_IN]> |>);;
  vd_upd (fun d => d <| vd_ops_sector ::= <[o := sector]> |>);;
  desc_upd i0 (fun _ => mkVdesc (DOp i0) 16 VRING_DESC_F_NEXT i1);;
  desc_upd i1 (fun _ =>
    mkVdesc (DData b) BSIZE (Z.lor (if write then 0 else VRING_DESC_F_WRITE) VRING_DESC_F_NEXT) i2);;
  vd_upd (fun d => d <| vd_info_status ::= <[o := 0xff]> |>);;
  desc_upd i2 (fun _ => mkVdesc (DStatus i0) 1 VRING_DESC_F_WRITE 0);;
  buf_upd b (fun x => x <| b_disk := 1 |>);;
  vd_upd (fun d => d <| vd_info_b ::= <[o := Some b]> |>);;
  vd_upd (fun d => d <| vd_avail_ring ::= <[Z.to_nat (vd_avail_idx d mod Z.of_nat NUM) := i0]> |>);;
  vd_upd (fun d => d <| vd_avail_idx ::= fun i => u16 (i + 1) |>);;
  mmio_write (VIRTIO0 + MMIO_QUEUE_NOTIFY) 0.

Section rw.
Context `{Patience}.

Definition driver_rw (b : nat) (write : bool) : K () :=
  x ← buf_get b;
  let sector := u32 (b_blockno x * (BSIZE / 512)) in
  acquire LkDisk;;
  idx ← iterM (S patience) (fun _ : () =>
    r ← alloc3_desc;
    match r with
    | Some idx => mret (inr idx)
    | None => sleep ChDiskFree LkDisk;; mret (inl tt)
    end) tt;
  i0 ← deref (idx !! 0%nat); i1 ← deref (idx !! 1%nat); i2 ← deref (idx !! 2%nat);
  format_request b sector write i0 i1 i2;;
  whileM patience (x ← buf_get b; mret (b_disk x =? 1)) (sleep (ChBuf b) LkDisk);;
  vd_upd (fun d => d <| vd_info_b ::= <[Z.to_nat i0 := None]> |>);;
  free_chain i0;;
  release LkDisk.
End rw.
