(* ===== verification/VirtioSpec.v ===== *)
(** * The disk driver and the device

    [virtio_disk_rw] posts a request, sleeps, and goes on when the interrupt
    handler has found it done.  The device is a parameter; [DeviceOk] is what
    the virtio specification says of a block device that finds one new request
    in the available ring.  With such a device the driver meets the contract
    [DiskOk] that the buffer cache is verified against. *)

From stdpp Require Import base numbers gmap sets strings option list.
From S2P Require Import Prelude Machine Spinlock CString Printf Kalloc Vm Proc ProcSpec Sched.
From S2P Require Import Sleeplock SleeplockSpec Console Bio Cache CacheSpec Virtio.

(** ** The device *)

(** What the device makes of the memory it shares with the driver. *)
Class Device := device : kernel -> kernel.

(** The available ring offers one request that the device has not seen: the
    chain from descriptor [i0] moves the sectors from [sector] on from or to the
    data of buffer [b]. *)
Record request (d : vdiskst) (i0 : Z) (b : nat) (write : bool) (sector : Z) : Prop := {
  rq_new : vd_avail_idx d = u16 (vd_used_dev_idx d + 1);
  rq_ring : vd_avail_ring d !! Z.to_nat (vd_used_dev_idx d mod Z.of_nat NUM) = Some i0;
  rq_chain : exists i1 i2, vd_desc d !! Z.to_nat i0 = Some (mkVdesc (DOp i0) 16 VRING_DESC_F_NEXT i1)
    /\ vd_desc d !! Z.to_nat i1
       = Some (mkVdesc (DData b) BSIZE (Z.lor (if write then 0 else VRING_DESC_F_WRITE) VRING_DESC_F_NEXT) i2)
    /\ vd_desc d !! Z.to_nat i2 = Some (mkVdesc (DStatus i0) 1 VRING_DESC_F_WRITE 0);
  rq_type : vd_ops_type d !! Z.to_nat i0 = Some (if write then VIRTIO_BLK_T_OUT else VIRTIO_BLK_T_IN);
  rq_sector : vd_ops_sector d !! Z.to_nat i0 = Some sector
}.

(** Success is reported in the status byte, the chain in the used ring. *)
Definition completed (i0 : Z) (d : vdiskst) : vdiskst :=
  d <| vd_info_status ::= <[Z.to_nat i0 := 0]> |>
    <| vd_used_ring ::= <[Z.to_nat (vd_used_dev_idx d mod Z.of_nat NUM) := i0]> |>
    <| vd_used_dev_idx ::= fun n => u16 (n + 1) |>.

(** Two sectors of 512 bytes are a block of the file system. *)
Class DeviceOk `{Device} : Prop := {
  device_read s i0 b n data :
    request (vdisk s) i0 b false (2 * n) -> disk s !! n = Some data ->
    device s = s <| bufs ::= alter (fun x => x <| b_data := data |>) b |> <| vdisk ::= completed i0 |>;
  device_write s i0 b n x :
    request (vdisk s) i0 b true (2 * n) -> bufs s !! b = Some x -> length (b_data x) = Z.to_nat BSIZE ->
    device s = s <| disk ::= <[n := b_data x]> |> <| dwrites ::= fun w => w ++ [(n, b_data x)] |> <| vdisk ::= completed i0 |>
}.

(** ** The driver with the device *)

Section machine.
Context `{Patience, Device} (rd : list (Z * Z) -> Z -> Z).

(** What goes on while a process waits for the disk on this hart: the scheduler
    lets go of it ([run_chosen] after its [swtch]), the device works and raises
    its interrupt, and the scheduler comes back to the process. *)
Definition away : K () :=
  me ← gets (fun s => curproc (hw s)); i ← deref me;
  zoom hw (mycpu_upd (fun c => c <| c_proc := None |>));;
  release (LkProc i);;
  modify device;;
  virtio_disk_intr rd;;
  acquire (LkProc i);;
  proc_upd i (fun p => p <| state := RUNNING |>);;
  zoom hw (mycpu_upd (fun c => c <| c_proc := Some i |>)).

Fixpoint oserve (o : outcome kernel ()) : outcome kernel () :=
  match o with
  | Switch s k =>
      match away s with
      | Ret _ t => oserve (k t)
      | Panic msg => Panic msg
      | Switch _ _ => Hang HSpin
      | Hang hg => Hang hg
      end
  | o => o
  end.
Definition machine_rw : Disk := fun b write s => oserve (driver_rw b write s).
End machine.

(** ** The driver between requests *)

Record vd_ok (d : vdiskst) : Prop := {
  vo_desc : length (vd_desc d) = NUM;
  vo_avail : length (vd_avail_ring d) = NUM;
  vo_used : length (vd_used_ring d) = NUM;
  vo_info : length (vd_info_b d) = NUM;
  vo_status : length (vd_info_status d) = NUM;
  vo_type : length (vd_ops_type d) = NUM;
  vo_sector : length (vd_ops_sector d) = NUM;
  vo_free : vd_free d = replicate NUM 1;
  vo_idx : vd_avail_idx d = vd_used_dev_idx d /\ vd_used_idx d = vd_used_dev_idx d /\ 0 <= vd_used_dev_idx d < 2 ^ 16
}.
Definition virtio_idle (s : kernel) : Prop := vd_ok (vdisk s).

Definition taken3 : list Z := [0; 0; 0; 1; 1; 1; 1; 1].

Lemma alloc3_ok s :
  vd_free (vdisk s) = replicate NUM 1 ->
  alloc3_desc s = Ret (Some [0; 1; 2]) (s <| vdisk ::= fun d => d <| vd_free := taken3 |> |>).
Proof. intros Hf. destruct s as [? ? ? ? ? ? ? ? ? ? ? ? ? ? ? ? ? ? ? ? ? ? ? ? ? ? ? [] ? ? ?]. simpl in Hf. subst. reflexivity. Qed.

(** The request as [format_request] posts it in the descriptors 0, 1 and 2. *)
Definition posted (b : nat) (write : bool) (sector : Z) (d : vdiskst) : vdiskst :=
  let d := d <| vd_free := taken3 |>
    <| vd_ops_type ::= <[0%nat := if write then VIRTIO_BLK_T_OUT else VIRTIO_BLK_T_IN]> |>
    <| vd_ops_sector ::= <[0%nat := sector]> |>
    <| vd_desc ::= alter (fun _ => mkVdesc (DOp 0) 16 VRING_DESC_F_NEXT 1) 0%nat |>
    <| vd_desc ::= alter (fun _ =>
         mkVdesc (DData b) BSIZE (Z.lor (if write then 0 else VRING_DESC_F_WRITE) VRING_DESC_F_NEXT) 2) 1%nat |>
    <| vd_info_status ::= <[0%nat := 0xff]> |>
    <| vd_desc ::= alter (fun _ => mkVdesc (DStatus 0) 1 VRING_DESC_F_WRITE 0) 2%nat |>
    <| vd_info_b ::= <[0%nat := Some b]> |> in
  let d := d <| vd_avail_ring ::= <[Z.to_nat (vd_avail_idx d mod Z.of_nat NUM) := 0]> |> in
  d <| vd_avail_idx ::= fun i => u16 (i + 1) |>.

Definition notified (b : nat) (write : bool) (sector : Z) (s : kernel) : kernel :=
  s <| vdisk ::= posted b write sector |> <| bufs ::= alter (fun x => x <| b_disk := 1 |>) b |>
    <| mmio ::= fun l => l ++ [(VIRTIO0 + MMIO_QUEUE_NOTIFY, 0)] |>.

Lemma bind_vd_upd {B} f (k : () -> K B) s v : (vd_upd f ≫= k) (s <| vdisk := v |>) = k tt (s <| vdisk := f v |>).
Proof. done. Qed.
Lemma bind_desc_upd {B} i f (k : () -> K B) s v :
  (desc_upd i f ≫= k) (s <| vdisk := v |>) = k tt (s <| vdisk := v <| vd_desc ::= alter f (Z.to_nat i) |> |>).
Proof. done. Qed.
Lemma bind_buf_upd_vd {B} b f (k : () -> K B) s v :
  (buf_upd b f ≫= k) (s <| vdisk := v |>) = k tt (s <| bufs ::= alter f b |> <| vdisk := v |>).
Proof. done. Qed.

Lemma format_ok b write sector s :
  format_request b sector write 0 1 2 (s <| vdisk ::= fun d => d <| vd_free := taken3 |> |>) = Ret tt (notified b write sector s).
Proof.
  change (s <| vdisk ::= fun d => d <| vd_free := taken3 |> |>) with (s <| vdisk := vdisk s <| vd_free := taken3 |> |>).
  unfold format_request. rewrite !bind_vd_upd, !bind_desc_upd, bind_vd_upd, bind_desc_upd, bind_buf_upd_vd, !bind_vd_upd.
  reflexivity.
Qed.

Lemma posted_request b write sector d : vd_ok d -> request (posted b write sector d) 0 b write sector.
Proof.
  intros [Hd Ha Hu Hi Hst Ht Hs Hf (E1 & E2 & Hr)].
  assert (0 <= vd_used_dev_idx d mod Z.of_nat NUM < 8) as Hm by (apply Z.mod_pos_bound; unfold NUM; lia).
  split.
  - change (u16 (vd_avail_idx d + 1) = u16 (vd_used_dev_idx d + 1)). by rewrite E1.
  - change (<[Z.to_nat (vd_avail_idx d mod Z.of_nat NUM) := 0]> (vd_avail_ring d) !! Z.to_nat (vd_used_dev_idx d mod Z.of_nat NUM) = Some 0).
    rewrite E1, list_lookup_insert_eq by (rewrite Ha; unfold NUM in *; lia). done.
  - exists 1, 2. change (Z.to_nat 0) with 0%nat. change (Z.to_nat 1) with 1%nat. change (Z.to_nat 2) with 2%nat.
    assert (exists d0 d1 d2 l, vd_desc d = d0 :: d1 :: d2 :: l) as (d0 & d1 & d2 & l & El).
    { destruct (vd_desc d) as [|d0 [|d1 [|d2 l]]]; [done..|]. by exists d0, d1, d2, l. }
    split_and!; unfold posted; cbn -[alter lookup]; rewrite El; done.
  - change (<[0%nat := if write then VIRTIO_BLK_T_OUT else VIRTIO_BLK_T_IN]> (vd_ops_type d) !! 0%nat
      = Some (if write then VIRTIO_BLK_T_OUT else VIRTIO_BLK_T_IN)). by rewrite list_lookup_insert_eq by (rewrite Ht; unfold NUM; lia).
  - change (<[0%nat := sector]> (vd_ops_sector d) !! 0%nat = Some sector). by rewrite list_lookup_insert_eq by (rewrite Hs; unfold NUM; lia).
Qed.

(** ** The interrupt *)

Definition counted (d : vdiskst) : vdiskst := d <| vd_used_idx ::= fun i => u16 (i + 1) |>.

Lemma intr_ok rd h t b :
  env h ∅ t -> table_ok t ->
  vd_used_dev_idx (vdisk t) = u16 (vd_used_idx (vdisk t) + 1) -> 0 <= vd_used_idx (vdisk t) < 2 ^ 16 ->
  vd_used_ring (vdisk t) !! Z.to_nat (vd_used_idx (vdisk t) mod Z.of_nat NUM) = Some 0 ->
  vd_info_status (vdisk t) !! 0%nat = Some 0 -> vd_info_b (vdisk t) !! 0%nat = Some (Some b) ->
  exists mm, virtio_disk_intr rd t
    = Ret tt (t <| mmio := mm |> <| bufs ::= alter (fun x => x <| b_disk := 0 |>) b |>
                <| procs ::= woken h (ChBuf b) |> <| vdisk ::= counted |>).
Proof.
  intros He Ht Hdev Hr Hring Hst Hb. unfold virtio_disk_intr.
  mapply (env_acquire h ∅) by first [plocktac | set_solver]. rewrite union_empty_r_L.
  unfold vread, vwrite, mmio_write. msimpl.
  set (t1 := upd mmio _ _). assert (env h {[LkDisk]} t1) as He1 by solve_env.
  assert (vdisk t1 = vdisk t) as Ev by done. rewrite Ev.
  assert (u16 (vd_used_dev_idx (vdisk t) - vd_used_idx (vdisk t)) = 1) as ->.
  { rewrite Hdev. unfold u16. rewrite Zminus_mod_idemp_l. replace (_ + 1 - _) with 1 by lia. done. }
  assert (vd_used_idx (vdisk t) =? vd_used_dev_idx (vdisk t) = false) as Hne.
  { rewrite Hdev. apply Z.eqb_neq. unfold u16. destruct (decide (vd_used_idx (vdisk t) = 2 ^ 16 - 1)) as [->|]; [done|].
    rewrite Z.mod_small by lia. lia. }
  change (Z.to_nat 1) with 1%nat. set (cond := _ ≫= _ : K bool). set (body := gets vdisk ≫= _ : K ()).
  set (t2 := t1 <| bufs ::= alter (fun x => x <| b_disk := 0 |>) b |> <| procs ::= woken h (ChBuf b) |> <| vdisk ::= counted |>).
  assert (cond t1 = Ret true t1) as Hc1 by (unfold cond; msimpl; by rewrite Ev, Hne).
  assert (body t1 = Ret tt t2) as Hbody.
  { unfold body. msimpl. rewrite Ev, Hring. cbn [deref]. msimpl. change (Z.to_nat 0) with 0%nat. rewrite Hst. cbn [deref]. msimpl.
    change (negb (0 =? 0)) with false. cbv iota. rewrite Hb. cbn [deref]. msimpl. rewrite bind_buf_upd.
    mapply (wakeup_ok h {[LkDisk]}) by first [solve_env | done | (intros j; set_solver)]. done. }
  assert (cond t2 = Ret false t2) as Hc2.
  { unfold cond. msimpl. change (vdisk t2) with (counted (vdisk t)). change (vd_used_dev_idx (counted (vdisk t))) with (vd_used_dev_idx (vdisk t)).
    rewrite Hdev. change (vd_used_idx (counted (vdisk t))) with (u16 (vd_used_idx (vdisk t) + 1)). by rewrite Z.eqb_refl. }
  assert (whileM 1 cond body t1 = Ret tt t2) as Hloop.
  { cbn [whileM]. mstep Hc1. mstep Hbody. by mstep Hc2. }
  exists (mmio t1). mstep Hloop. rewrite (env_release h {[LkDisk]}) by first [solve_env | done | set_solver].
  rewrite difference_diag_L, acquired_empty by apply He. f_equal. pose proof (env_hw _ _ _ He) as Eh.
  rewrite acquired_empty in Eh by apply He. unfold t2, t1. clear -Eh. destruct t. simpl in Eh. subst. reflexivity.
Qed.

(** ** Freeing the descriptors *)

Definition freed (i : nat) (d : vdiskst) : vdiskst :=
  d <| vd_desc ::= alter (fun _ => zero_desc) i |> <| vd_free ::= <[i := 1]> |>.

Lemma freed_desc i j d : i <> j -> vd_desc (freed i d) !! j = vd_desc d !! j.
Proof. intros Hne. exact (list_lookup_alter_ne _ _ _ _ Hne). Qed.
Lemma freed_free i j d : i <> j -> vd_free (freed i d) !! j = vd_free d !! j.
Proof. intros Hne. exact (list_lookup_insert_ne _ _ _ _ Hne). Qed.

Definition free_turn (i : Z) : K (Z + ()) :=
  d ← gets vdisk;
  x ← deref (vd_desc d !! Z.to_nat i);
  free_desc i;;
  mret (if negb (Z.land (d_flags x) VRING_DESC_F_NEXT =? 0) then inl (d_next x) else inr tt).

Section freeing.
Context (h : hart) (X : gset lockid) (HX : no_plock X).

(** A state whose rings and process table have moved on. *)
Definition moved (s : kernel) (v : vdiskst) (ps : list proc) : kernel := s <| vdisk := v |> <| procs := ps |>.

Lemma moved_env s v ps : env h X s -> env h X (moved s v ps).
Proof. intros He. solve_env. Qed.

Lemma free_desc_ok s v ps (i : nat) :
  env h X s -> length ps = NPROC -> (i < NUM)%nat -> vd_free v !! i = Some 0 ->
  free_desc (Z.of_nat i) (moved s v ps) = Ret tt (moved s (freed i v) (woken h ChDiskFree ps)).
Proof.
  intros He Hl Hi Hf. unfold free_desc. rewrite Z.geb_leb, (proj2 (Z.leb_gt _ _)) by lia. msimpl. cbn [vdisk].
  change (vdisk (moved s v ps)) with v. rewrite Nat2Z.id, Hf. cbn [deref]. msimpl. change (negb (0 =? 0)) with false. cbv iota.
  unfold desc_upd, vd_upd. msimpl. rewrite Nat2Z.id.
  rewrite (wakeup_ok h X) by first [done | solve_env]. reflexivity.
Qed.

(** One turn of the loop of [free_chain], and the three turns for a request. *)
Lemma free_turn_ok s v ps (i : nat) x :
  env h X s -> length ps = NPROC -> (i < NUM)%nat -> vd_free v !! i = Some 0 -> vd_desc v !! i = Some x ->
  free_turn (Z.of_nat i) (moved s v ps)
  = Ret (if negb (Z.land (d_flags x) VRING_DESC_F_NEXT =? 0) then inl (d_next x) else inr tt) (moved s (freed i v) (woken h ChDiskFree ps)).
Proof.
  intros He Hl Hi Hf Hd. unfold free_turn. msimpl. change (vdisk (moved s v ps)) with v. rewrite Nat2Z.id, Hd. cbn [deref]. msimpl.
  by mapply free_desc_ok by done.
Qed.

Lemma free_chain_ok s v ps x0 x1 x2 :
  env h X s -> length ps = NPROC -> vd_free v = taken3 ->
  vd_desc v !! 0%nat = Some x0 -> vd_desc v !! 1%nat = Some x1 -> vd_desc v !! 2%nat = Some x2 ->
  Z.land (d_flags x0) VRING_DESC_F_NEXT <> 0 -> d_next x0 = 1 ->
  Z.land (d_flags x1) VRING_DESC_F_NEXT <> 0 -> d_next x1 = 2 -> Z.land (d_flags x2) VRING_DESC_F_NEXT = 0 ->
  free_chain 0 (moved s v ps) = Ret tt (moved s (freed 2 (freed 1 (freed 0 v)))
    (woken h ChDiskFree (woken h ChDiskFree (woken h ChDiskFree ps)))).
Proof.
  intros He Hl Hf H0 H1 H2 F0 N0 F1 N1 F2. 
  pose proof (free_turn_ok s v ps 0 x0 He Hl ltac:(unfold NUM; lia) ltac:(by rewrite Hf) H0) as T0.
  rewrite (proj2 (Z.eqb_neq _ 0) F0), N0 in T0.
  pose proof (free_turn_ok s (freed 0 v) (woken h ChDiskFree ps) 1 x1 He ltac:(by rewrite woken_length) ltac:(unfold NUM; lia)
    ltac:(rewrite freed_free, Hf by done; done) ltac:(by rewrite freed_desc)) as T1.
  rewrite (proj2 (Z.eqb_neq _ 0) F1), N1 in T1.
  pose proof (free_turn_ok s (freed 1 (freed 0 v)) (woken h ChDiskFree (woken h ChDiskFree ps)) 2 x2 He ltac:(by rewrite !woken_length)
    ltac:(unfold NUM; lia) ltac:(rewrite !freed_free, Hf by done; done) ltac:(by rewrite !freed_desc)) as T2.
  rewrite F2 in T2. change (0 =? 0) with true in T2. cbv iota in T0, T1, T2.
  change (iterM 9 free_turn 0 (moved s v ps) = Ret tt (moved s (freed 2 (freed 1 (freed 0 v)))
    (woken h ChDiskFree (woken h ChDiskFree (woken h ChDiskFree ps))))).
  rewrite (iterM_again _ _ _ _ _ _ T0), (iterM_again _ _ _ _ _ _ T1). exact (iterM_ends _ _ _ _ _ _ T2).
Qed.
End freeing.

(** ** One request *)

(** The end of [driver_rw], from the waiting loop on. *)
Definition finish (n b : nat) : K () :=
  whileM n (x ← buf_get b; mret (b_disk x =? 1)) (sleep (ChBuf b) LkDisk);;
  vd_upd (fun d => d <| vd_info_b ::= <[0%nat := None]> |>);;
  free_chain 0;;
  release LkDisk.

Lemma pending_ok b x s : bufs s !! b = Some x -> (x ← buf_get b; mret (b_disk x =? 1)) s = Ret (b_disk x =? 1) s.
Proof. intros Hx. by mapply (buf_get_ok b x) by done. Qed.

Definition cleared (v : vdiskst) : vdiskst := freed 2 (freed 1 (freed 0 (v <| vd_info_b ::= <[0%nat := None]> |>))).
Definition woken3 (h : hart) (ps : list proc) : list proc := woken h ChDiskFree (woken h ChDiskFree (woken h ChDiskFree ps)).

Lemma finish_done n h s v ps b y w sector d :
  env h {[LkDisk]} s -> length ps = NPROC -> bufs s !! b = Some y -> b_disk y = 0 ->
  vd_free v = taken3 -> vd_desc v = vd_desc (posted b w sector d) -> length (vd_desc d) = NUM ->
  finish n b (moved s v ps) = Ret tt (moved (s <| hw := h |>) (cleared v) (woken3 h ps)).
Proof.
  intros He Hl Hy Hd Hf Hds Hlen. unfold finish.
  erewrite bind_Ret; [|apply whileM_done; rewrite (pending_ok b y) by done; by rewrite Hd].
  unfold vd_upd. msimpl. change (moved s v ps <| vdisk ::= ?f |>) with (moved s (f v) ps). cbv beta.
  assert (exists d0 d1 d2 l, vd_desc d = d0 :: d1 :: d2 :: l) as (d0 & d1 & d2 & l & El).
  { destruct (vd_desc d) as [|d0 [|d1 [|d2 l]]]; [done..|]. by exists d0, d1, d2, l. }
  assert (vd_desc v = mkVdesc (DOp 0) 16 VRING_DESC_F_NEXT 1
    :: mkVdesc (DData b) BSIZE (Z.lor (if w then 0 else VRING_DESC_F_WRITE) VRING_DESC_F_NEXT) 2
    :: mkVdesc (DStatus 0) 1 VRING_DESC_F_WRITE 0 :: l) as Ev.
  { rewrite Hds. unfold posted. cbn -[alter]. by rewrite El. }
  erewrite bind_Ret; [|eapply (free_chain_ok h {[LkDisk]}); first [done | (intros j; set_solver) | idtac]].
  2-4: cbn -[lookup]; rewrite Ev; reflexivity.
  2-6: by destruct w.
  cbv beta. rewrite (env_release h {[LkDisk]}) by first [apply moved_env; done | done | set_solver].
  rewrite difference_diag_L, acquired_empty by apply He. reflexivity.
Qed.

Lemma finish_waits n h i s b y p :
  env h {[LkDisk]} s -> (i < NPROC)%nat -> curproc h = Some i -> procs s !! i = Some p ->
  bufs s !! b = Some y -> b_disk y = 1 ->
  exists k, finish (S n) b s
    = Switch (s <| hw := acquired h {[LkProc i]} |> <| procs := <[i := asleep (ChBuf b) p]> (procs s) |>) k /\
    forall h' t q, env h' {[LkProc i]} t -> procs t !! i = Some q ->
      k t = finish n b (t <| hw := acquired (resumed (sie h) h') {[LkDisk]} |>
                          <| procs := <[i := q <| chan := None |>]> (procs t) |>).
Proof.
  intros He Hi Hcur Hp Hy Hd. unfold finish at 1. cbn [whileM]. rewrite bind_assoc.
  erewrite bind_Ret; [|by apply (pending_ok b y)]. cbv beta. rewrite Hd. change (1 =? 1) with true. cbv iota.
  destruct (sleep_ok h i Hi Hcur (ChBuf b) LkDisk p s He ltac:(done) ltac:(done) Hp) as (k & Hs & Hk).
  mstep Hs. eexists. split; [reflexivity|]. intros h' t q Ht Hq. cbv beta.
  rewrite (Hk h' t q) by done. cbn [obind]. unfold finish. reflexivity.
Qed.

(** [driver_rw] up to its waiting loop. *)
Lemma driver_starts `{Patience} h b w x s :
  env h ∅ s -> virtio_idle s -> bufs s !! b = Some x -> 0 <= b_blockno x < 2 ^ 31 ->
  driver_rw b w s = finish patience b (notified b w (2 * b_blockno x) (s <| hw := acquired h {[LkDisk]} |>)).
Proof.
  intros He Hid Hx Hr. unfold driver_rw. mapply (buf_get_ok b x) by done.
  assert (u32 (b_blockno x * (BSIZE / 512)) = 2 * b_blockno x) as ->.
  { change (BSIZE / 512) with 2. rewrite u32_small by lia. lia. }
  mapply (env_acquire h ∅) by first [plocktac | set_solver]. rewrite union_empty_r_L.
  set (s1 := s <| hw := acquired h {[LkDisk]} |>).
  assert (vd_free (vdisk s1) = replicate NUM 1) as Hf by apply Hid.
  erewrite bind_Ret; [|apply iterM_ends; by mapply alloc3_ok by exact Hf].
  cbn [lookup list_lookup deref]. msimpl. mapply format_ok by done. reflexivity.
Qed.

(** ** While the process is away *)

Lemma list_alter_same {A} (f : A -> A) (l : list A) (i : nat) x : l !! i = Some x -> f x = x -> alter f i l = l.
Proof.
  intros Hx Hf. apply list_eq. intros j. destruct (decide (i = j)) as [<-|]; [|by rewrite list_lookup_alter_ne].
  rewrite list_lookup_alter_eq, Hx. simpl. by rewrite Hf.
Qed.

Lemma running_on_back h i : curproc h = Some i -> running_on (Some i) (running_on None h) = h.
Proof.
  intros Hc. destruct h as [t b cs ls]. unfold running_on, curproc in *. cbn in *. f_equal.
  rewrite list_alter_alter_eq. destruct (cs !! t) as [c|] eqn:Ec; [|done]. simpl in Hc.
  apply (list_alter_same _ _ _ c Ec). destruct c. simpl in *. by subst.
Qed.

Lemma resumed_back h : quiet h -> resumed (sie h) h = h.
Proof.
  intros (c & Hc & Hn & Hi). destruct h as [t b cs ls]. unfold resumed. cbn in *. f_equal.
  apply (list_alter_same _ _ _ c Hc). destruct c. simpl in *. by subst.
Qed.

(** What the device has made of a request. *)
Definition worked (B : list buf) (D : gmap Z (list Z)) (W : list (Z * list Z)) (s : kernel) : kernel :=
  s <| bufs := B |> <| disk := D |> <| dwrites := W |> <| vdisk ::= completed 0 |>.

(** The rings when the device is about to work on chain 0 for buffer [b]. *)
Record pending (b : nat) (d : vdiskst) : Prop := {
  pe_idx : vd_used_idx d = vd_used_dev_idx d /\ 0 <= vd_used_dev_idx d < 2 ^ 16;
  pe_used : length (vd_used_ring d) = NUM;
  pe_status : length (vd_info_status d) = NUM;
  pe_info : vd_info_b d !! 0%nat = Some (Some b)
}.

Definition back (i b : nat) (h : hart) (ps : list proc) : list proc :=
  alter (fun p => p <| state := RUNNING |>) i (woken (running_on None h) (ChBuf b) ps).

Lemma away_ok `{Device} rd h i t b B D W :
  env h {[LkProc i]} t -> curproc h = Some i -> (i < NPROC)%nat -> table_ok t -> pending b (vdisk t) ->
  (forall g, device (t <| hw := g |>) = worked B D W (t <| hw := g |>)) ->
  exists mm, away rd t
    = Ret tt (worked (alter (fun x => x <| b_disk := 0 |>) b B) D W t
                <| mmio := mm |> <| procs := back i b h (procs t) |> <| vdisk ::= counted |>).
Proof.
  intros He Hc Hi Ht [[Hidx Hr] Hu Hst Hinfo] Hdev. unfold away.
  assert (curproc (hw t) = Some i) as Hcur.
  { rewrite (env_hw _ _ _ He). destruct He as [(c & Hcp & _) _ _]. unfold curproc, acquired in *. cbn in *.
    rewrite list_lookup_alter_eq, Hcp in *. done. }
  msimpl. rewrite Hcur. cbn [deref]. msimpl.
  destruct (c_proc_ok None h _ _ He) as [E1 He1]. mstep E1.
  mapply (env_release (running_on None h) {[LkProc i]}) by first [plocktac | set_solver]. rewrite difference_diag_L.
  set (h0 := running_on None h) in *. assert (quiet h0) as Hq by apply He1. rewrite acquired_empty by done.
  msimpl. change (t <| hw := ?a |> <| hw := ?g |>) with (t <| hw := g |>). rewrite Hdev.
  set (t2 := worked B D W (t <| hw := h0 |>)).
  assert (env h0 ∅ t2) as He2 by (split; [done|by rewrite acquired_empty|apply He1]).
  destruct (intr_ok rd h0 t2 b) as [mm E2]; [done|done|..].
  - change (u16 (vd_used_dev_idx (vdisk t) + 1) = u16 (vd_used_idx (vdisk t) + 1)). by rewrite Hidx.
  - change (0 <= vd_used_idx (vdisk t) < 2 ^ 16). by rewrite Hidx.
  - change (<[Z.to_nat (vd_used_dev_idx (vdisk t) mod Z.of_nat NUM) := 0]> (vd_used_ring (vdisk t))
      !! Z.to_nat (vd_used_idx (vdisk t) mod Z.of_nat NUM) = Some 0).
    rewrite Hidx. apply list_lookup_insert_eq. rewrite Hu.
    pose proof (Z.mod_pos_bound (vd_used_dev_idx (vdisk t)) (Z.of_nat NUM)). unfold NUM in *. lia.
  - change (<[0%nat := 0]> (vd_info_status (vdisk t)) !! 0%nat = Some 0). apply list_lookup_insert_eq. rewrite Hst. unfold NUM. lia.
  - exact Hinfo.
  - exists mm. mstep E2. set (t3 := upd vdisk counted _).
    assert (env h0 ∅ t3) as He3 by exact (env_upd _ _ t2 t3 He2 eq_refl).
    mapply (env_acquire h0 ∅) by first [plocktac | set_solver]. rewrite union_empty_r_L.
    unfold proc_upd. msimpl. set (t4 := upd procs _ _).
    assert (env h0 {[LkProc i]} t4) as He4 by (split; [done|done|apply He1]).
    destruct (c_proc_ok (Some i) h0 _ _ He4) as [E4 _]. rewrite E4. unfold h0. rewrite running_on_back by done.
    f_equal. pose proof (env_hw _ _ _ He) as Eh. unfold t4, t3, t2, back. fold h0. clear -Eh.
    destruct t. simpl in Eh. subst. reflexivity.
Qed.

(** The slot of the process that waited, and the other slots. *)
Lemma back_lookup i b h ps p :
  ps !! i = Some p -> curproc h = Some i -> quiet h -> state p = RUNNING ->
  back i b h (<[i := asleep (ChBuf b) p]> ps) !! i = Some (p <| chan := Some (ChBuf b) |>).
Proof.
  intros Hp Hc Hq Hst. unfold back. rewrite list_lookup_alter_eq. unfold woken. rewrite list_lookup_imap.
  rewrite list_lookup_insert_eq by (by eapply lookup_lt_Some). cbn [fmap option_fmap option_map mbind].
  rewrite running_on_curproc by done. rewrite decide_False by done. unfold wake. rewrite bool_decide_eq_true_2 by done.
  destruct p. simpl in Hst. subst. reflexivity.
Qed.

Lemma back_woke i b h ps p :
  ps !! i = Some p -> Forall2 woke ps (<[i := p]> (back i b h (<[i := asleep (ChBuf b) p]> ps))).
Proof.
  intros Hp. apply Forall2_same_length_lookup_2.
  { unfold back. by rewrite length_insert, length_alter, woken_length, length_insert. }
  intros j q r Hq. destruct (decide (i = j)) as [<-|Hne].
  - rewrite list_lookup_insert_eq; [intros [= <-]; left; congruence|].
    unfold back. rewrite length_alter, woken_length, length_insert. by eapply lookup_lt_Some.
  - rewrite list_lookup_insert_ne by done. unfold back. rewrite list_lookup_alter_ne by done. unfold woken.
    rewrite list_lookup_imap, list_lookup_insert_ne, Hq by done. cbn [fmap option_fmap option_map]. intros [= <-].
    case_decide; [by left|]. unfold wake. case_bool_decide as Hw; [|by left]. right. tauto.
Qed.

Lemma cleared_ok b w sector d : vd_ok d -> vd_ok (cleared (counted (completed 0 (posted b w sector d)))).
Proof.
  intros [Hd Ha Hu Hi Hst Ht Hs Hf (E1 & E2 & Hr)]. split.
  1-7: cbn -[alter insert]; repeat first [rewrite length_alter | rewrite length_insert]; assumption.
  - reflexivity.
  - split_and!.
    + change (u16 (vd_avail_idx d + 1) = u16 (vd_used_dev_idx d + 1)). by rewrite E1.
    + change (u16 (vd_used_idx d + 1) = u16 (vd_used_dev_idx d + 1)). by rewrite E2.
    + change (0 <= u16 (vd_used_dev_idx d + 1)). apply Z.mod_pos_bound. lia.
    + change (u16 (vd_used_dev_idx d + 1) < 2 ^ 16). apply Z.mod_pos_bound. lia.
Qed.

Lemma posted_pending b w sector d : vd_ok d -> pending b (posted b w sector d).
Proof.
  intros [Hd Ha Hu Hi Hst Ht Hs Hf (E1 & E2 & Hr)]. split.
  - done.
  - done.
  - change (length (<[0%nat := 0xff]> (vd_info_status d)) = NUM). by rewrite length_insert.
  - change (<[0%nat := Some b]> (vd_info_b d) !! 0%nat = Some (Some b)). apply list_lookup_insert_eq. rewrite Hi. unfold NUM. lia.
Qed.

(** The whole of a request, for any device that works on it as [B], [D] and [W]
    say. *)
Lemma moved_id s : moved s (vdisk s) (procs s) = s.
Proof. by destruct s. Qed.

Lemma served_desc b w sector d :
  vd_free (counted (completed 0 (posted b w sector d))) = taken3
  /\ vd_desc (counted (completed 0 (posted b w sector d))) = vd_desc (posted b w sector d).
Proof.
  assert (forall e, vd_free (counted (completed 0 e)) = vd_free e) as -> by done.
  assert (forall e, vd_desc (counted (completed 0 e)) = vd_desc e) as -> by done. split; [|done].
  unfold posted. cbn -[alter insert]. reflexivity.
Qed.

(** Two states that agree on all but the storage part, field by field. *)
Lemma storage_proj s s' :
  hw s' = hw s -> csr s' = csr s -> mem s' = mem s -> freelist s' = freelist s -> nextpid s' = nextpid s ->
  initproc s' = initproc s -> ticks s' = ticks s -> quota_window_start s' = quota_window_start s ->
  eco_mode s' = eco_mode s -> ftable s' = ftable s -> pipes s' = pipes s -> itable s' = itable s -> sb s' = sb s ->
  log s' = log s -> kcons s' = kcons s -> devsw s' = devsw s -> tx_busy s' = tx_busy s -> uart_rx s' = uart_rx s ->
  uart_tx_idle s' = uart_tx_idle s -> irqs s' = irqs s -> first s' = first s -> started s' = started s ->
  kpagetable s' = kpagetable s -> out s' = out s ->
  s' = storage s s'.
Proof. intros. destruct s, s'. simpl in *. subst. reflexivity. Qed.

Section request.
Context `{Patience, Device} (rd : list (Z * Z) -> Z -> Z).

Lemma machine_rw_ok h i p s b w x B D W y :
  (0 < patience)%nat -> running h ∅ i p s -> virtio_idle s -> bufs s !! b = Some x -> 0 <= b_blockno x < 2 ^ 31 ->
  B !! b = Some y ->
  (forall t, vdisk t = posted b w (2 * b_blockno x) (vdisk s) -> bufs t = alter (fun x => x <| b_disk := 1 |>) b (bufs s) ->
     disk t = disk s -> dwrites t = dwrites s -> device t = worked B D W t) ->
  exists s', machine_rw rd b w s = Ret tt s' /\ sframe s s' /\ virtio_idle s' /\ sleeplocks s' = sleeplocks s
    /\ disk s' = D /\ dwrites s' = W /\ bufs s' = alter (fun x => x <| b_disk := 0 |>) b B.
Proof.
  intros Hpat [He Hc Hi Hp Hst Hch Ht] Hid Hx Hr HB Hdev. unfold machine_rw.
  rewrite (driver_starts h b w x) by done. destruct patience as [|n]; [lia|]. 
  set (s1 := notified b w (2 * b_blockno x) (s <| hw := acquired h {[LkDisk]} |>)).
  assert (quiet h) as Hq by apply He.
  assert (env h {[LkDisk]} s1) as He1 by (split; [done|done|apply He]).
  destruct (finish_waits n h i s1 b (x <| b_disk := 1 |>) p) as (k & Ek & Hk); [done..| |done|].
  { change (alter (fun x => x <| b_disk := 1 |>) b (bufs s) !! b = Some (x <| b_disk := 1 |>)). by rewrite list_lookup_alter_eq, Hx. }
  rewrite Ek. set (t := upd procs _ _) in *. cbn [oserve].
  assert (env h {[LkProc i]} t) as Het by (split; [done|done|apply He]).
  destruct (away_ok rd h i t b B D W) as [mm Ea]; [done..| | |intros g; by apply Hdev|].
  { unfold table_ok. change (length (<[i := asleep (ChBuf b) p]> (procs s)) = NPROC). by rewrite length_insert. }
  { by apply posted_pending. }
  rewrite Ea. set (t1 := upd vdisk counted _).
  assert (procs t1 !! i = Some (p <| chan := Some (ChBuf b) |>)) as Hp1 by (by apply back_lookup).
  rewrite (Hk h t1 (p <| chan := Some (ChBuf b) |>)) by first [exact (env_upd _ _ t t1 Het eq_refl) | done].
  rewrite resumed_back by done. set (t2 := upd procs _ _).
  assert (procs t2 = <[i := p]> (back i b h (<[i := asleep (ChBuf b) p]> (procs s)))) as Ep.
  { unfold t2. cbn [procs]. change (procs t1) with (back i b h (<[i := asleep (ChBuf b) p]> (procs s))).
    assert (p <| chan := Some (ChBuf b) |> <| chan := None |> = p) as <- by (destruct p; simpl in Hch; by subst). done. }
  rewrite <- (moved_id t2).
  rewrite (finish_done n h t2 _ _ b (y <| b_disk := 0 |>) w (2 * b_blockno x) (vdisk s)); [|..].
  - eexists. split; [reflexivity|]. split_and!; [|exact (cleared_ok _ _ _ _ Hid)|done..].
    split; [|change (Forall2 woke (procs s) (woken3 h (procs t2))); rewrite Ep; unfold woken3].
    + pose proof (env_hw _ _ _ He) as Eh. rewrite acquired_empty in Eh by done. by apply storage_proj.
    + rewrite <- !woken_woke. by apply back_woke.
  - split; [done|done|apply He].
  - rewrite Ep. unfold back. by rewrite length_insert, length_alter, woken_length, length_insert.
  - change (alter (fun x => x <| b_disk := 0 |>) b B !! b = Some (y <| b_disk := 0 |>)). by rewrite list_lookup_alter_eq, HB.
  - done.
  - exact (proj1 (served_desc b w (2 * b_blockno x) (vdisk s))).
  - exact (proj2 (served_desc b w (2 * b_blockno x) (vdisk s))).
  - apply Hid.
Qed.
End request.

(** ** A device *)

(** A device that takes the next request of the ring and works on it at once. *)
Definition block_device : Device := fun s =>
  let d := vdisk s in
  let served : option kernel :=
    guard (vd_avail_idx d <> vd_used_dev_idx d);;
    i0 ← vd_avail_ring d !! Z.to_nat (vd_used_dev_idx d mod Z.of_nat NUM);
    d0 ← vd_desc d !! Z.to_nat i0;
    d1 ← vd_desc d !! Z.to_nat (d_next d0);
    ty ← vd_ops_type d !! Z.to_nat i0;
    sector ← vd_ops_sector d !! Z.to_nat i0;
    match d_addr d1 with
    | DData b =>
        if ty =? VIRTIO_BLK_T_IN then
          data ← disk s !! (sector / 2);
          Some (s <| bufs ::= alter (fun x => x <| b_data := data |>) b |> <| vdisk ::= completed i0 |>)
        else
          x ← bufs s !! b;
          Some (s <| disk ::= <[sector / 2 := b_data x]> |> <| dwrites ::= fun w => w ++ [(sector / 2, b_data x)] |>
                  <| vdisk ::= completed i0 |>)
    | _ => None
    end in
  default s served.

Lemma u16_succ_ne n : u16 (n + 1) <> n.
Proof. unfold u16. pose proof (Z.div_mod (n + 1) (2 ^ 16) ltac:(done)). lia. Qed.

#[export] Instance block_device_ok : @DeviceOk block_device.
Proof.
  split.
  - intros s i0 b n data [Hn Hr (i1 & i2 & H0 & H1 & _) Ht Hs] Hd. unfold device, block_device.
    rewrite Hn, option_guard_True by apply u16_succ_ne. cbn [mbind option_bind]. rewrite Hr. cbn [mbind option_bind].
    rewrite H0. cbn [mbind option_bind d_next]. rewrite H1. cbn [mbind option_bind d_addr]. rewrite Ht. cbn [mbind option_bind].
    rewrite Hs. cbn [mbind option_bind]. change (VIRTIO_BLK_T_IN =? VIRTIO_BLK_T_IN) with true. cbv iota.
    rewrite (Z.mul_comm 2 n), Z.div_mul, Hd by done. done.
  - intros s i0 b n x [Hn Hr (i1 & i2 & H0 & H1 & _) Ht Hs] Hx _. unfold device, block_device.
    rewrite Hn, option_guard_True by apply u16_succ_ne. cbn [mbind option_bind]. rewrite Hr. cbn [mbind option_bind].
    rewrite H0. cbn [mbind option_bind d_next]. rewrite H1. cbn [mbind option_bind d_addr]. rewrite Ht. cbn [mbind option_bind].
    rewrite Hs. cbn [mbind option_bind]. change (VIRTIO_BLK_T_OUT =? VIRTIO_BLK_T_IN) with false. cbv iota.
    rewrite Hx. cbn [mbind option_bind]. rewrite (Z.mul_comm 2 n), Z.div_mul by done. done.
Qed.

(** The rings as [virtio_disk_init] leaves them. *)
Definition idle_vdisk : vdiskst :=
  mkVdisk (replicate NUM zero_desc) (replicate NUM 0) 0 (replicate NUM 0) 0 (replicate NUM 1) 0
    (replicate NUM None) (replicate NUM 0) (replicate NUM 0) (replicate NUM 0).

(** Buffer 0 is for block 5 and holds sevens; the disk holds threes there. *)
Definition driver_kernel : kernel :=
  disk_kernel {[5 := block_of 3]} <| vdisk := idle_vdisk |>
    <| bufs ::= <[0%nat := blank_buf <| b_blockno := 5 |> <| b_data := block_of 7 |>]> |>.


