(* ===== verification/Log.v ===== *)
(** * The write-ahead log

    [kernel/log.c].  The on-disk header is [n] followed by the block numbers,
    32-bit little-endian words in the block [log.start]. *)

From stdpp Require Import base numbers gmap sets strings option list.
From S2P Require Import Prelude Machine Spinlock CString Printf Proc Sleeplock Bio.

Definition log_upd (f : logst -> logst) : K () := modify (fun s => s <| log ::= f |>).

(** Entry [i] of [log.lh.block]; outside the array there is nothing to read. *)
Definition log_block (i : nat) : K Z := lg ← gets log; deref (lh_block (lh lg) !! i).
Definition log_n : K Z := lg ← gets log; mret (lh_n (lh lg)).

Section ops.
Context `{Patience, Disk}.

Definition install_trans (recovering : bool) : K () :=
  n ← log_n;
  forM (seq 0 (Z.to_nat n)) (fun tail =>
    when recovering
      (bn ← log_block tail;
       printf "recovering tail %d dst %d\n" [VInt (Z.of_nat tail); VInt bn]);;
    lg ← gets log;
    lbuf ← bread (u32 (lg_dev lg)) (u32 (lg_start lg + Z.of_nat tail + 1));
    bn ← log_block tail;
    dbuf ← bread (u32 (lg_dev lg)) (u32 bn);
    d ← data_of lbuf;
    set_data dbuf d;;
    bwrite dbuf;;
    when (negb recovering) (bunpin dbuf);;
    brelse lbuf;;
    brelse dbuf).

Definition read_head : K () :=
  lg ← gets log;
  buf ← bread (u32 (lg_dev lg)) (u32 (lg_start lg));
  d ← data_of buf;
  log_upd (fun l => l <| lh ::= fun x => x <| lh_n := i32 (get32 d 0) |> |>);;
  n ← log_n;
  forM (seq 0 (Z.to_nat n)) (fun i =>
    log_block i;;
    log_upd (fun l => l <| lh ::= fun x => x <| lh_block ::= <[i := i32 (get32 d (4 + 4 * i))]> |> |>));;
  brelse buf.

Definition write_head : K () :=
  lg ← gets log;
  buf ← bread (u32 (lg_dev lg)) (u32 (lg_start lg));
  n ← log_n;
  d ← data_of buf;
  set_data buf (put32 d 0 n);;
  forM (seq 0 (Z.to_nat n)) (fun i =>
    bn ← log_block i;
    d ← data_of buf;
    set_data buf (put32 d (4 + 4 * i) bn));;
  bwrite buf;;
  brelse buf.

Definition recover_from_log : K () :=
  read_head;;
  install_trans true;;
  log_upd (fun l => l <| lh ::= fun x => x <| lh_n := 0 |> |>);;
  write_head.

Definition initlog (dev : Z) (sb : superblock) : K () :=
  initlock LkLog;;
  log_upd (fun l => l <| lg_start := i32 (sb_logstart sb) |>);;
  log_upd (fun l => l <| lg_dev := dev |>);;
  recover_from_log.

Definition begin_op : K () :=
  acquire LkLog;;
  iterM (S patience) (fun _ : () =>
    lg ← gets log;
    if negb (committing lg =? 0) then sleep ChLog LkLog;; mret (inl tt)
    else if lh_n (lh lg) + (outstanding lg + 1) * Z.of_nat MAXOPBLOCKS >? Z.of_nat LOGBLOCKS then
      sleep ChLog LkLog;; mret (inl tt)
    else
      log_upd (fun l => l <| outstanding ::= fun n => n + 1 |>);;
      release LkLog;;
      mret (inr tt)) tt.

Definition write_log : K () :=
  n ← log_n;
  forM (seq 0 (Z.to_nat n)) (fun tail =>
    lg ← gets log;
    to ← bread (u32 (lg_dev lg)) (u32 (lg_start lg + Z.of_nat tail + 1));
    bn ← log_block tail;
    from ← bread (u32 (lg_dev lg)) (u32 bn);
    d ← data_of from;
    set_data to d;;
    bwrite to;;
    brelse from;;
    brelse to).

Definition commit : K () :=
  n ← log_n;
  when (n >? 0)
    (write_log;;
     write_head;;
     install_trans false;;
     log_upd (fun l => l <| lh ::= fun x => x <| lh_n := 0 |> |>);;
     write_head).

Definition end_op : K () :=
  acquire LkLog;;
  log_upd (fun l => l <| outstanding ::= fun n => n - 1 |>);;
  lg ← gets log;
  if negb (committing lg =? 0) then panic "log.committing"
  else
    do_commit ←
      (if outstanding lg =? 0 then log_upd (fun l => l <| committing := 1 |>);; mret true
       else wakeup ChLog;; mret false);
    release LkLog;;
    when do_commit
      (commit;;
       acquire LkLog;;
       log_upd (fun l => l <| committing := 0 |>);;
       wakeup ChLog;;
       release LkLog).

(** The index of the first entry equal to [bn], or [n]. *)
Fixpoint log_find (bn : Z) (blocks : list Z) (n : nat) : nat :=
  match n, blocks with
  | S n, b :: blocks => if u32 b =? bn then O else S (log_find bn blocks n)
  | _, _ => n
  end.

Definition log_write (b : nat) : K () :=
  acquire LkLog;;
  lg ← gets log;
  if lh_n (lh lg) >=? Z.of_nat LOGBLOCKS then panic "too big a transaction"
  else if outstanding lg <? 1 then panic "log_write outside of trans"
  else
    x ← buf_get b;
    let i := log_find (b_blockno x) (lh_block (lh lg)) (Z.to_nat (lh_n (lh lg))) in
    log_upd (fun l => l <| lh ::= fun y => y <| lh_block ::= <[i := i32 (b_blockno x)]> |> |>);;
    when (Z.of_nat i =? lh_n (lh lg))
      (bpin b;;
       log_upd (fun l => l <| lh ::= fun y => y <| lh_n ::= fun n => n + 1 |> |>));;
    release LkLog.
End ops.
