(* ===== verification/LogSpec.v ===== *)
(** * The log: what commit and recovery do

    Every function of [Log] against the abstract cache of [Cache]: [write_log]
    copies the pinned blocks to the log area, [write_head] stores the header,
    [install_trans] copies the log to the home locations, and [recover_from_log]
    replays a committed log after a crash. *)

From stdpp Require Import base numbers gmap sets strings option functions list.
From S2P Require Import Prelude Machine Spinlock CString Printf Kalloc Vm Proc ProcSpec.
From S2P Require Import Sleeplock SleeplockSpec Bio BlockData Cache Log.

(** ** Cache equations *)

Lemma dropped_took n b c :
  (forall k, cv_refs c !! n = Some k -> 0 < k) -> cv_held c !! n = None -> dropped n (took n b c) = c.
Proof.
  intros Hpos Hn. destruct c as [v r hd]. simpl in *.
  unfold dropped, took, refs_of, put_refs, upd, set_cv_refs, set_cv_held. simpl. rewrite lookup_insert_eq. simpl.
  f_equal; [|by rewrite delete_insert_id]. rewrite Z.add_simpl_r.
  destruct (r !! n) as [k|] eqn:Hk; simpl.
  - rewrite (proj2 (Z.eqb_neq k 0)) by (specialize (Hpos k eq_refl); lia).
    by rewrite insert_insert_eq, insert_id.
  - by rewrite delete_insert_id.
Qed.

Lemma dropped_took_comm n m b c : n <> m -> dropped n (took m b c) = took m b (dropped n c).
Proof.
  intros Hnm. destruct c as [v r hd].
  unfold dropped, took, refs_of, put_refs, upd, set_cv_refs, set_cv_held. simpl.
  rewrite lookup_insert_ne by done. f_equal; [|by rewrite delete_insert_ne].
  assert (forall k, (if k =? 0 then delete n r else <[n := k]> r) !! m = r !! m) as E.
  { intros k. destruct (k =? 0); [by rewrite lookup_delete_ne|by rewrite lookup_insert_ne]. }
  rewrite E. destruct (_ =? 0); [by rewrite delete_insert_ne|by rewrite insert_insert_ne].
Qed.

Lemma dropped_view n f c : dropped n (c <| cv_view ::= f |>) = (dropped n c) <| cv_view ::= f |>.
Proof. by destruct c. Qed.
Lemma took_view n b f c : took n b (c <| cv_view ::= f |>) = (took n b c) <| cv_view ::= f |>.
Proof. by destruct c. Qed.

Lemma rep_refs_pos me s c n k : cache_rep me s c -> cv_refs c !! n = Some k -> 0 < k.
Proof.
  intros Hrep Hk. pose proof (rep_refs_nonneg Hrep n) as Hnn. unfold refs_of in Hnn. rewrite Hk in Hnn. simpl in Hnn.
  destruct (cr_refs _ _ _ Hrep n) as (b & x & Hb & Hx & Hn & Hr); [by exists k|].
  pose proof (rep_refs_of Hrep n b x Hb Hx Hn) as E. unfold refs_of in E. rewrite Hk in E. simpl in E. lia.
Qed.

(** ** Copying one block *)

Lemma sframe_log s s' : sframe s s' -> log s' = log s.
Proof. intros [E _]. rewrite E. by destruct s, s'. Qed.

Section copy.
Context `{Patience, Disk} {disk_idle : kernel -> Prop} `{!DiskOk disk_idle}.
Context (h : hart) (i : nat) (p : proc).

(** The state of the storage after a step: the frame, the driver at rest, and
    the abstract cache, disk and history. *)
Definition storage_at (s : kernel) (c : cache) (D : gmap Z (list Z)) (W : list (Z * list Z)) (s' : kernel) : Prop :=
  sframe s s' /\ disk_idle s' /\ cache_rep (pid p) s' c /\ disk s' = D /\ dwrites s' = W.

Lemma storage_running s c D W s' : running h ∅ i p s -> storage_at s c D W s' -> running h ∅ i p s'.
Proof. intros Hr (Hf & _). by apply (running_frame _ _ _ _ s). Qed.

(** Read block [n], read block [m], overwrite one of the two with the other. *)
Lemma bread_at s0 s c D W n d :
  running h ∅ i p s0 -> storage_at s0 c D W s ->
  cv_held c !! n = None -> cv_view c !! n = Some d -> refs_of c n + 1 < 2 ^ 32 ->
  is_Some (cv_refs c !! n) \/ (size (cv_refs c) < NBUF)%nat ->
  exists b s', bread ROOTDEV n s = Ret b s' /\ storage_at s0 (took n b c) D W s'.
Proof.
  intros Hrun Hat Hn Hd Hov Hroom. pose proof (storage_running _ _ _ _ _ Hrun Hat) as Hrun'.
  destruct Hat as (Hf & Hi & Hrep & HD & HW).
  destruct (bread_ok h i p s c n d Hrun' Hi Hrep Hn Hd Hov Hroom) as (b & s' & Hs & Hf' & Hi' & Hrep' & HD' & HW').
  exists b, s'. split; [done|]. split_and!; [by transitivity s|done|done|congruence|congruence].
Qed.

Lemma set_data_at s0 s c D W n b d :
  storage_at s0 c D W s -> cv_held c !! n = Some b -> length d = Z.to_nat BSIZE ->
  exists s', set_data b d s = Ret tt s' /\ storage_at s0 (c <| cv_view ::= <[n := d]> |>) D W s'.
Proof.
  intros (Hf & Hi & Hrep & HD & HW) Hn Hlen.
  destruct (set_data_ok _ s c n b d Hrep Hn Hlen) as (s' & Hs & Hf' & Hv & HD' & HW' & Hrep').
  exists s'. split; [done|]. split_and!; [by transitivity s|by apply (disk_idle_ext s)|done|congruence|congruence].
Qed.

Lemma bwrite_at s0 s c D W n b d :
  running h ∅ i p s0 -> storage_at s0 c D W s -> cv_held c !! n = Some b -> cv_view c !! n = Some d ->
  exists s', bwrite b s = Ret tt s' /\ storage_at s0 c (<[n := d]> D) (W ++ [(n, d)]) s'.
Proof.
  intros Hrun Hat Hn Hd. pose proof (storage_running _ _ _ _ _ Hrun Hat) as Hrun'.
  destruct Hat as (Hf & Hi & Hrep & HD & HW).
  destruct (bwrite_ok h i p s c n b d Hrun' Hi Hrep Hn Hd) as (s' & Hs & Hf' & Hi' & HD' & HW' & Hrep').
  exists s'. split; [done|]. split_and!; [by transitivity s|done|done|congruence|congruence].
Qed.

Lemma brelse_at s0 s c D W n b :
  running h ∅ i p s0 -> storage_at s0 c D W s -> cv_held c !! n = Some b ->
  (refs_of c n = 1 -> cv_view c !! n = D !! n) ->
  exists s', brelse b s = Ret tt s' /\ storage_at s0 (dropped n c) D W s'.
Proof.
  intros Hrun Hat Hn Hcl. pose proof (storage_running _ _ _ _ _ Hrun Hat) as Hrun'.
  destruct Hat as (Hf & Hi & Hrep & HD & HW). subst D.
  destruct (brelse_ok h i p s c n b Hrun' Hrep Hn Hcl) as (s' & Hs & Hf' & Hv & HD' & HW' & Hrep').
  exists s'. split; [done|]. split_and!; [by transitivity s|by apply (disk_idle_ext s)|done|congruence|congruence].
Qed.

Lemma bunpin_at s0 s c D W n b :
  running h ∅ i p s0 -> storage_at s0 c D W s -> cv_held c !! n = Some b -> 1 < refs_of c n ->
  exists s', bunpin b s = Ret tt s' /\ storage_at s0 (c <| cv_refs ::= <[n := refs_of c n - 1]> |>) D W s'.
Proof.
  intros Hrun Hat Hn Hr. pose proof (storage_running _ _ _ _ _ Hrun Hat) as Hrun'.
  destruct Hat as (Hf & Hi & Hrep & HD & HW).
  destruct (bunpin_ok h p ∅ s c n b (ru_env _ _ _ _ _ Hrun') ltac:(set_solver) Hrep Hn Hr)
    as (s' & Hs & Hf' & Hv & HD' & HW' & Hrep').
  exists s'. split; [done|]. split_and!; [by transitivity s|by apply (disk_idle_ext s)|done|congruence|congruence].
Qed.

Lemma data_of_at s0 s c D W n b d :
  storage_at s0 c D W s -> cv_held c !! n = Some b -> cv_view c !! n = Some d -> data_of b s = Ret d s.
Proof. intros (_ & _ & Hrep & _) Hn Hd. by eapply data_of_ok. Qed.


(** *** One turn of [write_log] *)
Section turns.
Context (lg : logst) (st : Z) (Hdev : lg_dev lg = ROOTDEV) (Hstart : lg_start lg = st).
Context (Hst : 0 <= st) (Hst2 : st + Z.of_nat LOGBLOCKS + 1 < 2 ^ 31).

(** The [j]th block of the log area. *)
Definition lb (j : nat) : Z := st + Z.of_nat j + 1.

Lemma lb_ok j : (j < LOGBLOCKS)%nat -> u32 (lg_start lg + Z.of_nat j + 1) = lb j.
Proof. intros Hj. rewrite Hstart. unfold lb. apply u32_small. lia. Qed.

Lemma dev_ok : u32 (lg_dev lg) = ROOTDEV.
Proof. by rewrite Hdev. Qed.

Lemma log_block_ok j bn s : log s = lg -> lh_block (lh lg) !! j = Some bn -> log_block j s = Ret bn s.
Proof. intros Hl Hj. unfold log_block. mrun. by rewrite Hl, Hj. Qed.

Definition write_log_turn (tail : nat) : K () :=
  lg ← gets log;
  to ← bread (u32 (lg_dev lg)) (u32 (lg_start lg + Z.of_nat tail + 1));
  bn ← log_block tail;
  from ← bread (u32 (lg_dev lg)) (u32 bn);
  d ← data_of from;
  set_data to d;;
  bwrite to;;
  brelse from;;
  brelse to.

Lemma write_log_turn_ok s0 s c D W j bn d dl :
  running h ∅ i p s0 -> storage_at s0 c D W s -> log s0 = lg -> (j < LOGBLOCKS)%nat ->
  lh_block (lh lg) !! j = Some bn -> 0 <= bn < 2 ^ 31 -> bn <> lb j ->
  cv_held c !! bn = None -> cv_held c !! lb j = None ->
  cv_view c !! bn = Some d -> cv_view c !! lb j = Some dl ->
  cv_refs c !! bn = Some 1 -> cv_refs c !! lb j = None -> (size (cv_refs c) < NBUF)%nat ->
  exists s', write_log_turn j s = Ret tt s'
    /\ storage_at s0 (c <| cv_view ::= <[lb j := d]> |>) (<[lb j := d]> D) (W ++ [(lb j, d)]) s'.
Proof.
  intros Hrun Hat Hlg Hj Hbn Hrng Hne Hh1 Hh2 Hv1 Hv2 Hr1 Hr2 Hroom. unfold write_log_turn. msimpl.
  rewrite (sframe_log s0 s) by apply Hat. rewrite Hlg, dev_ok, lb_ok by done.
  destruct (bread_at s0 s c D W (lb j) dl) as (b1 & s1 & Hs1 & Hat1); [done..|unfold refs_of; rewrite Hr2; simpl; lia|by right|].
  mstep Hs1. mapply log_block_ok by (rewrite ?(sframe_log s0 s1) by apply Hat1; done).
  rewrite u32_small by lia.
  destruct (bread_at s0 s1 (took (lb j) b1 c) D W bn d) as (b2 & s2 & Hs2 & Hat2); simpl; [done|done| |done| | |].
  { by rewrite lookup_insert_ne. } { unfold refs_of. simpl. rewrite lookup_insert_ne, Hr1 by done. simpl. lia. }
  { left. rewrite lookup_insert_ne by done. by exists 1. }
  mstep Hs2. mapply data_of_at by (first [exact Hat2 | apply lookup_insert_eq | done]).
  assert (length d = Z.to_nat BSIZE) as Hlen by (apply (cr_size _ _ _ (proj1 (proj2 (proj2 Hat))) bn d Hv1)).
  destruct (set_data_at s0 s2 _ D W (lb j) b1 d Hat2) as (s3 & Hs3 & Hat3); [|done|].
  { simpl. rewrite lookup_insert_ne by done. apply lookup_insert_eq. }
  mstep Hs3.
  destruct (bwrite_at s0 s3 _ D W (lb j) b1 d Hrun Hat3) as (s4 & Hs4 & Hat4).
  { simpl. rewrite lookup_insert_ne by done. apply lookup_insert_eq. } { apply lookup_insert_eq. }
  mstep Hs4.
  destruct (brelse_at s0 s4 _ _ _ bn b2 Hrun Hat4) as (s5 & Hs5 & Hat5).
  { apply lookup_insert_eq. }
  { unfold refs_of. simpl. rewrite lookup_insert_eq. simpl. unfold refs_of. simpl. rewrite lookup_insert_ne, Hr1 by done.
    simpl. lia. }
  mstep Hs5. pose proof (proj1 (proj2 (proj2 Hat))) as Hrep.
  rewrite dropped_view, dropped_took in Hat5.
  2: { simpl. rewrite lookup_insert_ne by done. intros k. by apply (rep_refs_pos _ _ _ _ _ Hrep). }
  2: { simpl. by rewrite lookup_insert_ne. }
  destruct (brelse_at s0 s5 _ _ _ (lb j) b1 Hrun Hat5) as (s6 & Hs6 & Hat6).
  { apply lookup_insert_eq. } { intros _. simpl. by rewrite !lookup_insert_eq. }
  exists s6. split; [done|]. rewrite dropped_view, dropped_took in Hat6; [done| |done].
  intros k. by apply (rep_refs_pos _ _ _ _ _ Hrep).
Qed.

(** *** One turn of [install_trans], after its message *)
Definition install_turn (recovering : bool) (tail : nat) : K () :=
  lg ← gets log;
  lbuf ← bread (u32 (lg_dev lg)) (u32 (lg_start lg + Z.of_nat tail + 1));
  bn ← log_block tail;
  dbuf ← bread (u32 (lg_dev lg)) (u32 bn);
  d ← data_of lbuf;
  set_data dbuf d;;
  bwrite dbuf;;
  when (negb recovering) (bunpin dbuf);;
  brelse lbuf;;
  brelse dbuf.

(** Giving back the pin makes the block unpinned under its reader. *)
Lemma unpin_took n b m b' c :
  n <> m -> cv_refs c !! n = Some 1 ->
  took n b (took m b' c) <| cv_refs ::= <[n := 1]> |> = took n b (took m b' (c <| cv_refs ::= delete n |>)).
Proof.
  intros Hnm Hn. destruct c as [v r hd]. simpl in Hn.
  unfold took, refs_of, upd, set_cv_refs, set_cv_held. simpl.
  rewrite insert_insert_eq, lookup_insert_ne, !lookup_delete_eq, lookup_delete_ne by done. simpl. f_equal.
  rewrite (insert_insert_ne _ n m), (insert_insert_ne _ n m) by done. by rewrite insert_delete_eq.
Qed.

Definition pin_count (recovering : bool) : option Z := if recovering then None else Some 1.

Lemma install_turn_ok recovering s0 s c D W j bn d dold :
  running h ∅ i p s0 -> storage_at s0 c D W s -> log s0 = lg -> (j < LOGBLOCKS)%nat ->
  lh_block (lh lg) !! j = Some bn -> 0 <= bn < 2 ^ 31 -> bn <> lb j ->
  cv_held c !! bn = None -> cv_held c !! lb j = None ->
  cv_view c !! bn = Some dold -> cv_view c !! lb j = Some d ->
  cv_refs c !! bn = pin_count recovering -> cv_refs c !! lb j = None -> (S (size (cv_refs c)) < NBUF \/ (size (cv_refs c) < NBUF /\ recovering = false))%nat ->
  exists s', install_turn recovering j s = Ret tt s'
    /\ storage_at s0 (c <| cv_refs ::= delete bn |> <| cv_view ::= <[bn := d]> |>) (<[bn := d]> D) (W ++ [(bn, d)]) s'.
Proof.
  intros Hrun Hat Hlg Hj Hbn Hrng Hne Hh1 Hh2 Hv1 Hv2 Hr1 Hr2 Hroom. unfold install_turn. msimpl.
  rewrite (sframe_log s0 s) by apply Hat. rewrite Hlg, dev_ok, lb_ok by done.
  pose proof (proj1 (proj2 (proj2 Hat))) as Hrep.
  assert (forall n k, cv_refs c !! n = Some k -> 0 < k) as Hpos by (intros n k; by apply (rep_refs_pos _ _ _ _ _ Hrep)).
  destruct (bread_at s0 s c D W (lb j) d) as (b1 & s1 & Hs1 & Hat1); [done..|unfold refs_of; rewrite Hr2; simpl; lia|right; lia|].
  mstep Hs1. mapply log_block_ok by (rewrite ?(sframe_log s0 s1) by apply Hat1; done).
  rewrite u32_small by lia.
  destruct (bread_at s0 s1 (took (lb j) b1 c) D W bn dold) as (b2 & s2 & Hs2 & Hat2); simpl; [done|done| |done| | |].
  { by rewrite lookup_insert_ne. }
  { unfold refs_of. simpl. rewrite lookup_insert_ne, Hr1 by done. destruct recovering; simpl; lia. }
  { rewrite lookup_insert_ne, Hr1 by done. destruct recovering; simpl; [right|left; by exists 1].
    rewrite map_size_insert_None by done. lia. }
  mstep Hs2. mapply (data_of_at s0 s2 _ D W (lb j) b1 d) by (first [exact Hat2 | done | simpl; rewrite lookup_insert_ne by done; apply lookup_insert_eq]).
  assert (length d = Z.to_nat BSIZE) as Hlen by (apply (cr_size _ _ _ Hrep _ d Hv2)).
  destruct (set_data_at s0 s2 _ D W bn b2 d Hat2) as (s3 & Hs3 & Hat3); [apply lookup_insert_eq|done|]. mstep Hs3.
  destruct (bwrite_at s0 s3 _ D W bn b2 d Hrun Hat3) as (s4 & Hs4 & Hat4); [apply lookup_insert_eq..|]. mstep Hs4.
  assert (exists s5, when (negb recovering) (bunpin b2) s4 = Ret tt s5 /\
    storage_at s0 (took bn b2 (took (lb j) b1 (c <| cv_refs ::= delete bn |>)) <| cv_view ::= <[bn := d]> |>)
      (<[bn := d]> D) (W ++ [(bn, d)]) s5) as (s5 & Hs5 & Hat5).
  { destruct recovering; simpl negb; simpl when.
    - exists s4. split; [done|]. replace (c <| cv_refs ::= delete bn |>) with c; [done|].
      destruct c; unfold upd, set_cv_refs; simpl in *. by rewrite delete_id.
    - destruct (bunpin_at s0 s4 _ _ _ bn b2 Hrun Hat4) as (s5 & Hs5 & Hat5); [apply lookup_insert_eq| |].
      { unfold refs_of. simpl. rewrite lookup_insert_eq. simpl. unfold refs_of. simpl. rewrite lookup_insert_ne, Hr1 by done. done. }
      exists s5. split; [done|]. rewrite <- unpin_took by done.
      replace (refs_of _ bn - 1) with 1 in Hat5; [done|].
      unfold refs_of. simpl. rewrite lookup_insert_eq. simpl. unfold refs_of. simpl. by rewrite lookup_insert_ne, Hr1. }
  mstep Hs5.
  destruct (brelse_at s0 s5 _ _ _ (lb j) b1 Hrun Hat5) as (s6 & Hs6 & Hat6).
  { simpl. rewrite lookup_insert_ne by done. apply lookup_insert_eq. }
  { intros _. simpl. rewrite !lookup_insert_ne by done. destruct Hat as (_ & _ & _ & <- & _). by apply Hrep. }
  mstep Hs6. rewrite dropped_view, dropped_took_comm, dropped_took in Hat6; [|simpl; by rewrite lookup_delete_ne, Hr2 by done|done|done].
  destruct (brelse_at s0 s6 _ _ _ bn b2 Hrun Hat6) as (s7 & Hs7 & Hat7).
  { apply lookup_insert_eq. } { intros _. simpl. by rewrite !lookup_insert_eq. }
  exists s7. split; [done|]. rewrite dropped_view, dropped_took in Hat7; [done|simpl; by rewrite lookup_delete_eq|done].
Qed.
End turns.
End copy.

(** ** The state between two steps of the log code *)

(** Storage, the log's own variables and console output may change. *)
Definition lframe (s s' : kernel) : Prop :=
  s' = storage s s' <| log := log s' |> <| out := out s' |> /\ Forall2 woke (procs s) (procs s').

#[export] Instance lframe_refl : Reflexive lframe.
Proof. intros s. split; [by destruct s|reflexivity]. Qed.
#[export] Instance lframe_trans : Transitive lframe.
Proof.
  intros s s' s'' [E Hp] [E' Hp']. split; [|by etrans].
  rewrite E' at 1. rewrite E at 1. by destruct s, s', s''.
Qed.
Lemma sframe_lframe s s' : sframe s s' -> lframe s s'.
Proof.
  intros [E Hp]. split; [|done].
  assert (log s' = log s /\ out s' = out s) as [-> ->] by (split; rewrite E; clear; by destruct s, s').
  transitivity (storage s s'); [exact E|]. clear. by destruct s, s'.
Qed.

Lemma rep_ext me s s' c :
  bufs s' = bufs s -> sleeplocks s' = sleeplocks s -> disk s' = disk s -> cache_rep me s c -> cache_rep me s' c.
Proof.
  intros Eb Es Ed [? ? ? ? ? ? ? ? ? Hlk]. split; rewrite ?Eb, ?Ed; try done.
  intros b Hb. unfold sl_of. rewrite Es. by apply Hlk.
Qed.

Definition apply_writes (D : gmap Z (list Z)) (ws : list (Z * list Z)) : gmap Z (list Z) :=
  foldl (fun D w => <[w.1 := w.2]> D) D ws.

Lemma apply_writes_app D ws ws' : apply_writes D (ws ++ ws') = apply_writes (apply_writes D ws) ws'.
Proof. apply foldl_app. Qed.
Lemma apply_writes_ne D ws n : n ∉ ws.*1 -> apply_writes D ws !! n = D !! n.
Proof.
  induction ws as [|[m d] ws IH] using rev_ind; intros Hn; [done|].
  rewrite fmap_app in Hn. rewrite apply_writes_app. simpl. rewrite lookup_insert_ne by set_solver.
  apply IH. set_solver.
Qed.
Lemma apply_writes_some D ws n : is_Some (D !! n) -> is_Some (apply_writes D ws !! n).
Proof.
  induction ws as [|[m d] ws IH] using rev_ind; intros Hn; [done|]. rewrite apply_writes_app. simpl.
  destruct (decide (m = n)) as [->|]; [rewrite lookup_insert_eq; by eexists|]. rewrite lookup_insert_ne by done. by apply IH.
Qed.

Section rest.
Context {disk_idle : kernel -> Prop} (h : hart) (i : nat) (p : proc).

Record at_rest (lg : logst) (c : cache) (D : gmap Z (list Z)) (W : list (Z * list Z)) (t : kernel) : Prop := {
  ar_run : running h ∅ i p t;
  ar_idle : disk_idle t;
  ar_rep : cache_rep (pid p) t c;
  ar_disk : disk t = D;
  ar_writes : dwrites t = W;
  ar_log : log t = lg
}.

Lemma at_rest_storage lg c D W t c' D' W' t' :
  at_rest lg c D W t -> storage_at (disk_idle := disk_idle) p t c' D' W' t' -> lframe t t' /\ at_rest lg c' D' W' t'.
Proof.
  intros [Hr Hi Hrep HD HW Hl] (Hf & Hi' & Hrep' & HD' & HW'). split; [by apply sframe_lframe|].
  split; try done; [by apply (running_frame _ _ _ _ t)|]. by rewrite (sframe_log t).
Qed.

Lemma storage_at_rest lg c D W t :
  at_rest lg c D W t -> storage_at (disk_idle := disk_idle) p t c D W t.
Proof. intros []. by split_and!. Qed.
End rest.

(** The cache after some blocks have been overwritten. *)
Definition wrote (ws : list (Z * list Z)) (c : cache) : cache := c <| cv_view ::= fun v => apply_writes v ws |>.

Lemma wrote_nil c : wrote [] c = c.
Proof. by destruct c. Qed.
Lemma wrote_snoc ws n d c : wrote (ws ++ [(n, d)]) c = wrote ws c <| cv_view ::= <[n := d]> |>.
Proof. destruct c. unfold wrote, upd, set_cv_view. simpl. by rewrite apply_writes_app. Qed.

(** ** The loops *)

(** One pin for each block of the transaction. *)
Definition pins (bs : list Z) : gmap Z Z := gset_to_gmap 1 (list_to_set bs).

Lemma pins_in bs n : n ∈ bs -> pins bs !! n = Some 1.
Proof. intros Hn. apply lookup_gset_to_gmap_Some. by rewrite elem_of_list_to_set. Qed.
Lemma pins_out bs n : n ∉ bs -> pins bs !! n = None.
Proof. intros Hn. apply lookup_gset_to_gmap_None. by rewrite elem_of_list_to_set. Qed.
Lemma pins_size bs : NoDup bs -> size (pins bs) = length bs.
Proof. intros Hnd. unfold pins. rewrite <- size_dom, dom_gset_to_gmap. by apply size_list_to_set. Qed.
Lemma pins_delete bn bs : NoDup (bn :: bs) -> delete bn (pins (bn :: bs)) = pins bs.
Proof.
  intros [Hn _]%NoDup_cons. apply map_eq. intros m. destruct (decide (m = bn)) as [->|Hm].
  - by rewrite lookup_delete_eq, pins_out.
  - rewrite lookup_delete_ne by done. destruct (decide (m ∈ bs)) as [Hin|Hin].
    + rewrite !pins_in by set_solver. done.
    + rewrite !pins_out by set_solver. done.
Qed.

Section area.
Context (st : Z).

(** The header and the area behind it. *)
Definition in_log (n : Z) : Prop := st <= n <= st + Z.of_nat LOGBLOCKS.

(** The disk writes of [write_log] and of [install_trans]. *)
Definition log_ws (v : gmap Z (list Z)) (bs : list Z) : list (Z * list Z) :=
  imap (fun j bn => (lb st j, default [] (v !! bn))) bs.
Definition home_ws (v : gmap Z (list Z)) (bs : list Z) : list (Z * list Z) :=
  imap (fun j bn => (bn, default [] (v !! lb st j))) bs.

Lemma in_log_lb j : (j < LOGBLOCKS)%nat -> in_log (lb st j).
Proof. unfold in_log, lb. lia. Qed.

Lemma log_ws_keys v bs k n : n ∈ (take k (log_ws v bs)).*1 -> (length bs <= LOGBLOCKS)%nat -> in_log n.
Proof.
  intros (w & -> & Hw)%list_elem_of_fmap Hlen. apply list_elem_of_lookup in Hw as (j & Hj).
  apply lookup_take_Some in Hj as [Hj _]. unfold log_ws in Hj. rewrite list_lookup_imap in Hj.
  destruct (bs !! j) as [bn|] eqn:E; simplify_eq/=. apply lookup_lt_Some in E. apply in_log_lb. lia.
Qed.
Lemma home_ws_keys v bs k n : n ∈ (take k (home_ws v bs)).*1 -> exists j, (j < k)%nat /\ bs !! j = Some n.
Proof.
  intros (w & -> & Hw)%list_elem_of_fmap. apply list_elem_of_lookup in Hw as (j & Hj).
  apply lookup_take_Some in Hj as [Hj Hk]. unfold home_ws in Hj. rewrite list_lookup_imap in Hj.
  destruct (bs !! j) as [bn|] eqn:E; simplify_eq/=. eauto.
Qed.

End area.

Section loops.
Context `{Patience, Disk} {disk_idle : kernel -> Prop} `{!DiskOk disk_idle}.
Context (h : hart) (i : nat) (p : proc).
Context (lg : logst) (st : Z) (Hdev : lg_dev lg = ROOTDEV) (Hstart : lg_start lg = st).
Context (Hst : 0 <= st) (Hst2 : st + Z.of_nat LOGBLOCKS + 1 < 2 ^ 31).
Abbreviation rest := (at_rest (disk_idle := disk_idle) h i p).

(** The in-memory header lists the blocks [bs]. *)
Record logged (bs : list Z) (c : cache) : Prop := {
  lo_n : lh_n (lh lg) = Z.of_nat (length bs);
  lo_len : (length bs <= LOGBLOCKS)%nat;
  lo_blk : forall j bn, bs !! j = Some bn ->
    lh_block (lh lg) !! j = Some bn /\ 0 <= bn < 2 ^ 31 /\ ~ in_log st bn /\ is_Some (cv_view c !! bn);
  lo_nodup : NoDup bs;
  lo_area : forall n, in_log st n -> is_Some (cv_view c !! n);
  lo_held : cv_held c = ∅
}.

Lemma log_n_ok t : log t = lg -> log_n t = Ret (lh_n (lh lg)) t.
Proof. intros Hl. unfold log_n. mrun. by rewrite Hl. Qed.

Lemma write_log_ok bs c D W t :
  rest lg c D W t -> logged bs c -> cv_refs c = pins bs -> (length bs < NBUF)%nat ->
  exists t', write_log t = Ret tt t' /\ lframe t t' /\
    rest lg (wrote (log_ws st (cv_view c) bs) c) (apply_writes D (log_ws st (cv_view c) bs))
      (W ++ log_ws st (cv_view c) bs) t'.
Proof.
  intros Hr Hlo Href Hroom. unfold write_log. mapply log_n_ok by apply Hr.
  rewrite (lo_n _ _ Hlo), Nat2Z.id. set (ws := log_ws st (cv_view c) bs).
  assert (length ws = length bs) as Hlw by apply length_imap.
  destruct (forM_seq_ind (fun j t' => lframe t t' /\
    rest lg (wrote (take j ws) c) (apply_writes D (take j ws)) (W ++ take j ws) t')
    write_log_turn (length bs) 0 t) as (t' & Hs & Hf & Hr').
  - split; [reflexivity|]. simpl. by rewrite app_nil_r, wrote_nil.
  - intros j t1 Hj [Hf1 Hr1]. destruct (lookup_lt_is_Some_2 bs j) as [bn Hbn]; [lia|].
    destruct (lo_blk _ _ Hlo j bn Hbn) as (Hblk & Hrng & Hout & [d Hd]).
    pose proof (lo_len _ _ Hlo) as Hlen. assert (bn <> lb st j) as Hne.
    { intros ->. apply Hout, in_log_lb. lia. }
    assert (forall n, ~ in_log st n -> apply_writes (cv_view c) (take j ws) !! n = cv_view c !! n) as Hsame.
    { intros n Hn. apply apply_writes_ne. intros Hin. by eapply Hn, log_ws_keys. }
    destruct (apply_writes_some (cv_view c) (take j ws) (lb st j)) as [dl Hdl].
    { apply (lo_area _ _ Hlo), in_log_lb. lia. }
    destruct (write_log_turn_ok h i p lg st Hdev Hstart Hst Hst2 t1 t1 _ _ _ j bn d dl (ar_run _ _ _ _ _ _ _ _ Hr1)
      (storage_at_rest _ _ _ _ _ _ _ _ Hr1)) as (t2 & Hs2 & Hat2); simpl; rewrite ?(lo_held _ _ Hlo), ?lookup_empty; try done.
    + apply Hr1.
    + lia.
    + by rewrite Hsame.
    + rewrite Href. apply pins_in. by eapply list_elem_of_lookup_2.
    + rewrite Href. apply pins_out. intros (k & Hk)%list_elem_of_lookup.
      destruct (lo_blk _ _ Hlo k _ Hk) as (_ & _ & Hn & _). apply Hn, in_log_lb. lia.
    + rewrite Href, pins_size; [lia|apply Hlo].
    + exists t2. split; [done|].
      destruct (at_rest_storage _ _ _ _ _ _ _ _ _ _ _ _ Hr1 Hat2) as [Hf2 Hr2].
      split; [by transitivity t1|].
      assert (ws !! j = Some (lb st j, d)) as Hwj by (unfold ws, log_ws; by rewrite list_lookup_imap, Hbn; simpl; rewrite Hd).
      by rewrite (take_S_r _ _ _ Hwj), apply_writes_app, app_assoc, wrote_snoc.
  - exists t'. split; [exact Hs|]. split; [done|]. by rewrite Nat.add_0_l, firstn_all2 in Hr' by lia.
Qed.

(** Console output does not disturb the storage. *)
Lemma rest_out o c D W t : rest lg c D W t -> lframe t (t <| out := o |>) /\ rest lg c D W (t <| out := o |>).
Proof.
  intros [[He ? ? ? ? ? ?] Hi Hrep ? ? ?]. split; [split; [by destruct t|reflexivity]|].
  split; try done; [|by apply (disk_idle_ext t)|by apply (rep_ext _ t)].
  split; try done. by apply (env_upd _ _ t).
Qed.

Lemma recovering_msg_ok j bn c D W t :
  rest lg c D W t -> lh_block (lh lg) !! j = Some bn ->
  exists t', (bn ← log_block j; printf "recovering tail %d dst %d\n" [VInt (Z.of_nat j); VInt bn]) t = Ret tt t'
    /\ lframe t t' /\ rest lg c D W t'.
Proof.
  intros Hr Hj. mapply (log_block_ok lg) by (first [apply Hr | done]).
  destruct (printf_total h ∅ "recovering tail %d dst %d\n" [VInt (Z.of_nat j); VInt bn] [VInt 0; VInt 0] t) as [o Ho].
  - apply Hr.
  - apply not_elem_of_empty.
  - vm_compute. discriminate.
  - by repeat constructor.
  - eexists. split; [exact Ho|]. by apply (rest_out _ c).
Qed.

(** What is still pinned after [j] turns. *)
Definition left_pins (recovering : bool) (bs : list Z) (j : nat) : gmap Z Z :=
  if recovering then ∅ else pins (drop j bs).

Lemma left_pins_S recovering bs j bn :
  NoDup bs -> bs !! j = Some bn -> delete bn (left_pins recovering bs j) = left_pins recovering bs (S j).
Proof.
  intros Hnd Hj. destruct recovering; simpl; [apply delete_empty|]. rewrite (drop_S _ _ _ Hj). apply pins_delete.
  rewrite <- (drop_S _ _ _ Hj). rewrite <- (take_drop j bs) in Hnd. by apply NoDup_app in Hnd as (_ & _ & ?).
Qed.
Lemma left_pins_at recovering bs j bn :
  bs !! j = Some bn -> left_pins recovering bs j !! bn = pin_count recovering.
Proof.
  intros Hj. destruct recovering; simpl; [apply lookup_empty|]. apply pins_in. rewrite (drop_S _ _ _ Hj). set_solver.
Qed.
Lemma left_pins_out recovering bs j n : n ∉ bs -> left_pins recovering bs j !! n = None.
Proof.
  intros Hn. destruct recovering; simpl; [apply lookup_empty|]. apply pins_out. intros Hin. apply Hn.
  rewrite <- (take_drop j bs). set_solver.
Qed.
Lemma left_pins_size bs recovering j : NoDup bs -> (size (left_pins recovering bs j) <= length bs)%nat.
Proof.
  intros Hnd. destruct recovering; simpl; [rewrite map_size_empty; lia|]. rewrite pins_size, length_drop; [lia|].
  rewrite <- (take_drop j bs) in Hnd. by apply NoDup_app in Hnd as (_ & _ & ?).
Qed.

Lemma with_refs_wrote ws r n d c :
  wrote ws (c <| cv_refs := r |>) <| cv_refs ::= delete n |> <| cv_view ::= <[n := d]> |>
  = wrote (ws ++ [(n, d)]) (c <| cv_refs := delete n r |>).
Proof. rewrite wrote_snoc. by destruct c. Qed.

Lemma install_trans_ok recovering bs c D W t :
  rest lg c D W t -> logged bs c -> cv_refs c = left_pins recovering bs 0 ->
  (recovering = false -> (length bs < NBUF)%nat) ->
  exists t', install_trans recovering t = Ret tt t' /\ lframe t t' /\
    rest lg (wrote (home_ws st (cv_view c) bs) (c <| cv_refs := ∅ |>)) (apply_writes D (home_ws st (cv_view c) bs))
      (W ++ home_ws st (cv_view c) bs) t'.
Proof.
  intros Hr Hlo Href Hroom. unfold install_trans. mapply log_n_ok by apply Hr.
  rewrite (lo_n _ _ Hlo), Nat2Z.id. set (ws := home_ws st (cv_view c) bs).
  assert (length ws = length bs) as Hlw by apply length_imap. pose proof (lo_nodup _ _ Hlo) as Hnd.
  pose proof (lo_len _ _ Hlo) as Hlen.
  destruct (forM_seq_ind (fun j t' => lframe t t' /\
    rest lg (wrote (take j ws) (c <| cv_refs := left_pins recovering bs j |>)) (apply_writes D (take j ws)) (W ++ take j ws) t')
    (fun tail => when recovering (bn ← log_block tail; printf "recovering tail %d dst %d\n" [VInt (Z.of_nat tail); VInt bn]);;
       install_turn recovering tail) (length bs) 0 t) as (t' & Hs & Hf & Hr').
  - split; [reflexivity|]. simpl. rewrite app_nil_r, wrote_nil, <- Href. by destruct c.
  - intros j t1 Hj [Hf1 Hr1]. destruct (lookup_lt_is_Some_2 bs j) as [bn Hbn]; [lia|].
    destruct (lo_blk _ _ Hlo j bn Hbn) as (Hblk & Hrng & Hout & Hold).
    assert (bn <> lb st j) as Hne by (intros ->; apply Hout, in_log_lb; lia).
    assert (exists t2, when recovering (bn ← log_block j; printf "recovering tail %d dst %d\n" [VInt (Z.of_nat j); VInt bn]) t1 = Ret tt t2
      /\ lframe t1 t2 /\ rest lg (wrote (take j ws) (c <| cv_refs := left_pins recovering bs j |>)) (apply_writes D (take j ws)) (W ++ take j ws) t2)
      as (t2 & Hs2 & Hf2 & Hr2).
    { destruct recovering; simpl when; [by eapply recovering_msg_ok|]. by exists t1. }
    rewrite (bind_Ret _ _ _ _ _ Hs2).
    destruct (lo_area _ _ Hlo (lb st j)) as [d Hd]; [apply in_log_lb; lia|].
    destruct (apply_writes_some (cv_view c) (take j ws) bn Hold) as [dold Hdold].
    assert (lb st j ∉ bs) as Hlb.
    { intros (k & Hk)%list_elem_of_lookup. destruct (lo_blk _ _ Hlo k _ Hk) as (_ & _ & Hn & _). apply Hn, in_log_lb. lia. }
    destruct (install_turn_ok h i p lg st Hdev Hstart Hst Hst2 recovering t2 t2 _ _ _ j bn d dold (ar_run _ _ _ _ _ _ _ _ Hr2)
      (storage_at_rest _ _ _ _ _ _ _ _ Hr2)) as (t3 & Hs3 & Hat3); simpl; rewrite ?(lo_held _ _ Hlo), ?lookup_empty; try done.
    + apply Hr2.
    + lia.
    + rewrite apply_writes_ne; [done|]. intros (k & _ & Hk)%home_ws_keys. apply Hlb. by eapply list_elem_of_lookup_2.
    + by apply left_pins_at.
    + by apply left_pins_out.
    + pose proof (left_pins_size bs recovering j Hnd). destruct recovering; [left|specialize (Hroom eq_refl); lia].
      simpl. rewrite map_size_empty. unfold NBUF. lia.
    + exists t3. split; [done|].
      destruct (at_rest_storage _ _ _ _ _ _ _ _ _ _ _ _ Hr2 Hat3) as [Hf3 Hr3].
      split; [by transitivity t1; [|transitivity t2]|].
      assert (ws !! j = Some (bn, d)) as Hwj by (unfold ws, home_ws; by rewrite list_lookup_imap, Hbn; simpl; rewrite Hd).
      rewrite (take_S_r _ _ _ Hwj), apply_writes_app, app_assoc, <- (left_pins_S _ _ _ _ Hnd Hbn).
      by rewrite with_refs_wrote in Hr3.
  - exists t'. split; [exact Hs|]. split; [done|]. rewrite Nat.add_0_l, firstn_all2 in Hr' by lia.
    replace (left_pins recovering bs (length bs)) with (∅ : gmap Z Z) in Hr'; [done|].
    destruct recovering; simpl; [done|]. by rewrite drop_all.
Qed.
End loops.

(** ** The header block *)

(** The blocks a header names, and the header with the blocks [bs] in it. *)
Definition head_n (d : list Z) : Z := i32 (get32 d 0).
Definition head_blocks (d : list Z) : list Z := get_words d 4 (Z.to_nat (head_n d)).
Definition head_with (bs : list Z) (d : list Z) : list Z := put_words (put32 d 0 (Z.of_nat (length bs))) 4 bs.

Lemma length_head_with bs d : length (head_with bs d) = length d.
Proof. unfold head_with. by rewrite length_put_words, length_put_le. Qed.

Lemma head_roundtrip bs d :
  length d = Z.to_nat BSIZE -> (length bs <= LOGBLOCKS)%nat -> Forall (fun b => 0 <= b < 2 ^ 31) bs ->
  head_n (head_with bs d) = Z.of_nat (length bs) /\ head_blocks (head_with bs d) = bs.
Proof.
  intros Hd Hlen Hbs. assert (4 + 4 * length bs <= length d)%nat as Hfit.
  { rewrite Hd. change (Z.to_nat BSIZE) with 1024%nat. unfold LOGBLOCKS in Hlen. lia. }
  assert (head_n (head_with bs d) = Z.of_nat (length bs)) as Hn.
  { unfold head_n, head_with. rewrite get_put_words_before by lia. apply get32_i32; [lia|].
    unfold LOGBLOCKS in Hlen. lia. }
  split; [done|]. unfold head_blocks. rewrite Hn, Nat2Z.id. unfold head_with. apply get_words_put.
  - by rewrite length_put_le.
  - eapply Forall_impl; [exact Hbs|]. simpl. lia.
Qed.

Section header.
Context `{Patience, Disk} {disk_idle : kernel -> Prop} `{!DiskOk disk_idle}.
Context (h : hart) (i : nat) (p : proc).
Context (st : Z) (Hst : 0 <= st) (Hst2 : st + Z.of_nat LOGBLOCKS + 1 < 2 ^ 31).
Abbreviation rest := (at_rest (disk_idle := disk_idle) h i p).

Lemma write_head_ok lg bs c D W t d0 :
  rest lg c D W t -> lg_dev lg = ROOTDEV -> lg_start lg = st ->
  lh_n (lh lg) = Z.of_nat (length bs) -> (forall j bn, bs !! j = Some bn -> lh_block (lh lg) !! j = Some bn) ->
  cv_held c !! st = None -> cv_view c !! st = Some d0 -> cv_refs c !! st = None -> (size (cv_refs c) < NBUF)%nat ->
  exists t', write_head t = Ret tt t' /\ lframe t t' /\
    rest lg (wrote [(st, head_with bs d0)] c) (<[st := head_with bs d0]> D) (W ++ [(st, head_with bs d0)]) t'.
Proof.
  intros Hr Hdev Hstart Hn Hblk Hheld Hview Hrefs Hroom. pose proof (ar_run _ _ _ _ _ _ _ _ Hr) as Hrun.
  pose proof (ar_rep _ _ _ _ _ _ _ _ Hr) as Hrep. pose proof (ar_log _ _ _ _ _ _ _ _ Hr) as Hlg.
  assert (length d0 = Z.to_nat BSIZE) as Hlen by (by apply (cr_size _ _ _ Hrep st)).
  unfold write_head. msimpl. rewrite Hlg, Hdev, Hstart.
  change (u32 ROOTDEV) with ROOTDEV. rewrite (u32_small st) by lia.
  destruct (bread_at h i p t t c D W st d0 Hrun (storage_at_rest _ _ _ _ _ _ _ _ Hr)) as (b & t1 & Hs1 & Hat1);
    [done|done|unfold refs_of; rewrite Hrefs; simpl; lia|by right|].
  mstep Hs1. mapply log_n_ok by exact (eq_trans (sframe_log t t1 (proj1 Hat1)) Hlg).
  mapply (data_of_at p t t1 _ D W st b d0) by (first [exact Hat1 | apply lookup_insert_eq | done]).
  set (d1 := put32 d0 0 (lh_n (lh lg))).
  destruct (set_data_at p t t1 _ D W st b d1 Hat1) as (t2 & Hs2 & Hat2); [apply lookup_insert_eq|unfold d1; by rewrite length_put_le|].
  mstep Hs2.
  destruct (forM_seq_ind (fun j t' => storage_at (disk_idle := disk_idle) p t (took st b c <| cv_view ::= <[st := put_words d1 4 (take j bs)]> |>) D W t')
    (fun j => bn ← log_block j; d ← data_of b; set_data b (put32 d (4 + 4 * j) bn)) (length bs) 0 t2) as (t3 & Hs3 & Hat3).
  { done. }
  { intros j t' Hj Hat'. destruct (lookup_lt_is_Some_2 bs j) as [bn Hbn]; [lia|].
    mapply (log_block_ok lg) by (first [exact (eq_trans (sframe_log t t' (proj1 Hat')) Hlg) | by apply Hblk]).
    mapply (data_of_at p t t' _ D W st b) by (first [exact Hat' | apply lookup_insert_eq]).
    destruct (set_data_at p t t' _ D W st b (put32 (put_words d1 4 (take j bs)) (4 + 4 * j) bn) Hat') as (t'' & Hs'' & Hat'').
    { apply lookup_insert_eq. } { unfold d1. by rewrite length_put_le, length_put_words, length_put_le. }
    exists t''. split; [done|]. rewrite (take_S_r _ _ _ Hbn), put_words_snoc, length_take, Nat.min_l by lia.
    clear -Hat''. destruct c. unfold upd, set_cv_view in *. simpl in *. by rewrite insert_insert_eq in Hat''. }
  rewrite Hn, Nat2Z.id. mstep Hs3. rewrite Nat.add_0_l, firstn_all in Hat3.
  replace (put_words d1 4 bs) with (head_with bs d0) in Hat3 by (unfold head_with, d1; by rewrite Hn).
  destruct (bwrite_at h i p t t3 _ D W st b (head_with bs d0) Hrun Hat3) as (t4 & Hs4 & Hat4); [apply lookup_insert_eq..|].
  mstep Hs4. destruct (brelse_at h i p t t4 _ _ _ st b Hrun Hat4) as (t5 & Hs5 & Hat5).
  { apply lookup_insert_eq. } { intros _. simpl. by rewrite !lookup_insert_eq. }
  exists t5. split; [done|]. rewrite dropped_view, dropped_took in Hat5; [|intros k; by rewrite Hrefs|done].
  destruct (at_rest_storage _ _ _ _ _ _ _ _ _ _ _ _ Hr Hat5) as [Hf5 Hr5]. split; [done|].
  by destruct c.
Qed.

Lemma rest_log lg lg' c D W t : rest lg c D W t -> lframe t (t <| log := lg' |>) /\ rest lg' c D W (t <| log := lg' |>).
Proof.
  intros [[He ? ? ? ? ? ?] Hi Hrep ? ? ?]. split; [split; [by destruct t|reflexivity]|].
  split; try done; [|by apply (disk_idle_ext t)|by apply (rep_ext _ t)].
  split; try done. by apply (env_upd _ _ t).
Qed.

Lemma log_upd_rest f lg c D W t :
  rest lg c D W t -> exists t', log_upd f t = Ret tt t' /\ lframe t t' /\ rest (f lg) c D W t'.
Proof.
  intros Hr. exists (t <| log := f lg |>). split; [|by apply (rest_log lg)].
  unfold log_upd, modify. f_equal. rewrite <- (ar_log _ _ _ _ _ _ _ _ Hr). by destruct t.
Qed.

(** [log] with the blocks [bs] in its header. *)
Definition log_with (bs : list Z) (lg : logst) : logst :=
  lg <| lh := mkLogheader (Z.of_nat (length bs)) (list_inserts 0 bs (lh_block (lh lg))) |>.

Lemma read_head_ok lg c D W t d0 :
  rest lg c D W t -> lg_dev lg = ROOTDEV -> lg_start lg = st -> length (lh_block (lh lg)) = LOGBLOCKS ->
  0 <= head_n d0 <= Z.of_nat LOGBLOCKS ->
  cv_held c !! st = None -> cv_view c !! st = Some d0 -> cv_refs c !! st = None -> (size (cv_refs c) < NBUF)%nat ->
  D !! st = Some d0 ->
  exists t', read_head t = Ret tt t' /\ lframe t t' /\ rest (log_with (head_blocks d0) lg) c D W t'.
Proof.
  intros Hr Hdev Hstart Hlb Hn Hheld Hview Hrefs Hroom HD. pose proof (ar_run _ _ _ _ _ _ _ _ Hr) as Hrun.
  pose proof (ar_log _ _ _ _ _ _ _ _ Hr) as Hlg.
  unfold read_head. msimpl. rewrite Hlg, Hdev, Hstart.
  change (u32 ROOTDEV) with ROOTDEV. rewrite (u32_small st) by lia.
  destruct (bread_at h i p t t c D W st d0 Hrun (storage_at_rest _ _ _ _ _ _ _ _ Hr)) as (b & t1 & Hs1 & Hat1);
    [done|done|unfold refs_of; rewrite Hrefs; simpl; lia|by right|].
  mstep Hs1.
  mapply (data_of_at p t t1 _ D W st b d0) by (first [exact Hat1 | apply lookup_insert_eq | done]).
  destruct (at_rest_storage _ _ _ _ _ _ _ _ _ _ _ _ Hr Hat1) as [Hf1 Hr1].
  destruct (log_upd_rest (fun l => l <| lh ::= fun x => x <| lh_n := i32 (get32 d0 0) |> |>) _ _ _ _ _ Hr1) as (t2 & Hs2 & Hf2 & Hr2).
  mstep Hs2. mapply log_n_ok by apply Hr2.
  set (bs := head_blocks d0). assert (length bs = Z.to_nat (head_n d0)) as Hbl.
  { unfold bs, head_blocks, get_words. by rewrite length_map, length_seq. }
  change (lh_n _) with (head_n d0). rewrite <- Hbl.
  set (lgj := fun j => lg <| lh := mkLogheader (head_n d0) (list_inserts 0 (take j bs) (lh_block (lh lg))) |>).
  destruct (forM_seq_ind (fun j t' => lframe t2 t' /\ rest (lgj j) (took st b c) D W t')
    (fun j => log_block j;; log_upd (fun l => l <| lh ::= fun x => x <| lh_block ::= <[j := i32 (get32 d0 (4 + 4 * j))]> |> |>))
    (length bs) 0 t2) as (t3 & Hs3 & Hf3 & Hr3).
  { split; [reflexivity|]. unfold lgj. simpl. exact Hr2. }
  { intros j t' Hj [Hf' Hr'].
    destruct (lookup_lt_is_Some_2 (lh_block (lh (lgj j))) j) as [w Hw]; [unfold lgj; simpl; rewrite length_inserts; lia|].
    mapply (log_block_ok (lgj j)) by (first [apply Hr' | exact Hw]).
    destruct (log_upd_rest (fun l => l <| lh ::= fun x => x <| lh_block ::= <[j := i32 (get32 d0 (4 + 4 * j))]> |> |>) _ _ _ _ _ Hr') as (t'' & Hs'' & Hf'' & Hr'').
    exists t''. split; [done|]. split; [by transitivity t'|].
    assert (bs !! j = Some (i32 (get32 d0 (4 + 4 * j)))) as Hbj.
    { unfold bs, head_blocks, get_words. change (map ?f ?l) with (f <$> l). rewrite list_lookup_fmap, lookup_seq_lt by lia. done. }
    unfold lgj in *. rewrite (take_S_r _ _ _ Hbj), list_inserts_app_l, length_take, Nat.add_0_r, Nat.min_l by lia. exact Hr''. }
  mstep Hs3. rewrite Nat.add_0_l in Hr3.
  destruct (brelse_at h i p t3 t3 _ D W st b (ar_run _ _ _ _ _ _ _ _ Hr3) (storage_at_rest _ _ _ _ _ _ _ _ Hr3)) as (t4 & Hs4 & Hat4).
  { apply lookup_insert_eq. } { intros _. simpl. by rewrite Hview, HD. }
  rewrite dropped_took in Hat4; [|intros k; by rewrite Hrefs|done].
  destruct (at_rest_storage _ _ _ _ _ _ _ _ _ _ _ _ Hr3 Hat4) as [Hf4 Hr4].
  exists t4. split; [done|]. split; [by transitivity t1; [|transitivity t2; [|transitivity t3] ]|].
  unfold lgj in Hr4. rewrite firstn_all in Hr4. unfold log_with. fold bs. rewrite Hbl, Z2Nat.id by lia. exact Hr4.
Qed.
End header.
