(* ===== verification/Crash.v ===== *)
(** * Crash safety of the log

    [commit] and [recover_from_log] as sequences of disk writes, and what the
    disk means after any prefix of them. *)

From stdpp Require Import base numbers gmap sets strings option functions list.
From S2P Require Import Prelude Machine Spinlock CString Printf Kalloc Vm Proc ProcSpec.
From S2P Require Import Sleeplock SleeplockSpec Bio BlockData Cache CacheSpec Log LogSpec.

(** ** What a disk means *)

Section meaning.
Context (st : Z) (Hst : 0 <= st) (Hst2 : st + Z.of_nat LOGBLOCKS + 1 < 2 ^ 31).

(** The blocks the header on disk names. *)
Definition disk_blocks (D : gmap Z (list Z)) : list Z := from_option head_blocks [] (D !! st).

(** The contents of block [n] once the log has been replayed. *)
Definition logical (D : gmap Z (list Z)) (n : Z) : option (list Z) :=
  match list_find (fun m => m = n) (disk_blocks D) with
  | Some (j, _) => D !! lb st j
  | None => D !! n
  end.

Lemma logical_in D n j : NoDup (disk_blocks D) -> disk_blocks D !! j = Some n -> logical D n = D !! lb st j.
Proof.
  intros Hnd Hj. unfold logical. destruct (list_find (fun m => m = n) (disk_blocks D)) as [[k m]|] eqn:E.
  - apply list_find_Some in E as (Hk & -> & _). by rewrite (NoDup_lookup _ _ _ _ Hnd Hj Hk).
  - exfalso. apply list_find_None in E. rewrite Forall_forall in E. apply (E n); [|done]. by eapply list_elem_of_lookup_2.
Qed.
Lemma logical_out D n : n ∉ disk_blocks D -> logical D n = D !! n.
Proof.
  intros Hn. unfold logical. destruct (list_find (fun m => m = n) (disk_blocks D)) as [[k m]|] eqn:E; [|done].
  apply list_find_Some in E as (Hk & -> & _). by apply list_elem_of_lookup_2 in Hk.
Qed.

(** A disk that recovery can start from. *)
Record disk_ok (D : gmap Z (list Z)) : Prop := {
  do_size : forall n d, D !! n = Some d -> length d = Z.to_nat BSIZE;
  do_area : forall n, in_log st n -> is_Some (D !! n);
  do_head : forall d, D !! st = Some d -> 0 <= head_n d <= Z.of_nat LOGBLOCKS;
  do_blk : Forall (fun b => 0 <= b < 2 ^ 31 /\ ~ in_log st b /\ is_Some (D !! b)) (disk_blocks D);
  do_nodup : NoDup (disk_blocks D)
}.

(** Writes that keep a disk in order: to blocks outside the log, to the area
    behind the header, or a header that names nothing. *)
Lemma in_log_head : in_log st st.
Proof. unfold in_log. lia. Qed.

Lemma disk_blocks_ne D n d : n <> st -> disk_blocks (<[n := d]> D) = disk_blocks D.
Proof. intros Hn. unfold disk_blocks. by rewrite lookup_insert_ne. Qed.
Lemma disk_blocks_eq D d : disk_blocks (<[st := d]> D) = head_blocks d.
Proof. unfold disk_blocks. by rewrite lookup_insert_eq. Qed.

Lemma insert_is_Some (D : gmap Z (list Z)) n d m : is_Some (D !! m) -> is_Some (<[n := d]> D !! m).
Proof.
  destruct (decide (n = m)) as [->|]; [rewrite lookup_insert_eq; by eexists|by rewrite lookup_insert_ne].
Qed.

Lemma disk_ok_insert D n d : disk_ok D -> n <> st -> length d = Z.to_nat BSIZE -> disk_ok (<[n := d]> D).
Proof.
  intros [Hs Ha Hh Hb Hnd] Hn Hd. split.
  - intros m d' [[<- <-]|[_ Hm] ]%lookup_insert_Some; [done|]. by apply (Hs m).
  - intros m Hm. by apply insert_is_Some, Ha.
  - intros d'. rewrite lookup_insert_ne by done. apply Hh.
  - rewrite disk_blocks_ne by done. eapply Forall_impl; [exact Hb|]. intros b (? & ? & ?).
    split; [done|]. split; [done|]. by apply insert_is_Some.
  - by rewrite disk_blocks_ne.
Qed.

Lemma disk_ok_header D bs d :
  disk_ok D -> length d = Z.to_nat BSIZE -> (length bs <= LOGBLOCKS)%nat -> NoDup bs ->
  Forall (fun b => 0 <= b < 2 ^ 31 /\ ~ in_log st b /\ is_Some (D !! b)) bs ->
  disk_ok (<[st := head_with bs d]> D) /\ disk_blocks (<[st := head_with bs d]> D) = bs.
Proof.
  intros [Hs Ha Hh Hb Hnd] Hd Hlen Hbnd Hbs.
  destruct (head_roundtrip bs d Hd Hlen) as [En Eb]; [eapply Forall_impl; [exact Hbs|]; simpl; tauto|].
  assert (disk_blocks (<[st := head_with bs d]> D) = bs) as E by (by rewrite disk_blocks_eq).
  split; [|done]. split.
  - intros m d' [[<- <-]|[_ Hm] ]%lookup_insert_Some; [by rewrite length_head_with|]. by apply (Hs m).
  - intros m Hm. by apply insert_is_Some, Ha.
  - intros d'. rewrite lookup_insert_eq. intros [= <-]. rewrite En. lia.
  - rewrite E. eapply Forall_impl; [exact Hbs|]. intros b (? & ? & ?). split; [done|]. split; [done|]. by apply insert_is_Some.
  - by rewrite E.
Qed.

(** Replaying the log: what recovery writes. *)
Definition recovery_ws (D : gmap Z (list Z)) : list (Z * list Z) :=
  home_ws st D (disk_blocks D) ++ [(st, head_with [] (default [] (D !! st)))].

(** A crash during recovery leaves a prefix of its writes on the disk. *)
Definition crashed (D D' : gmap Z (list Z)) : Prop := exists k, D' = apply_writes D (take k (recovery_ws D)).

Lemma apply_writes_at D ws j n d :
  NoDup ws.*1 -> ws !! j = Some (n, d) -> apply_writes D ws !! n = Some d.
Proof.
  intros Hnd Hj. rewrite <- (take_drop_middle _ _ _ Hj) in *. rewrite fmap_app in Hnd. simpl in Hnd.
  apply NoDup_app in Hnd as (_ & _ & [Hn _]%NoDup_cons). rewrite apply_writes_app.
  change (apply_writes ?D' ((n, d) :: ?l)) with (apply_writes (<[n := d]> D') l).
  rewrite apply_writes_ne by done. apply lookup_insert_eq.
Qed.

Lemma home_ws_fst v bs : (home_ws st v bs).*1 = bs.
Proof. unfold home_ws. rewrite fmap_imap. etransitivity; [apply (imap_const id)|apply list_fmap_id]. Qed.

Lemma home_ws_at v bs j n : bs !! j = Some n -> home_ws st v bs !! j = Some (n, default [] (v !! lb st j)).
Proof. intros Hj. unfold home_ws. by rewrite list_lookup_imap, Hj. Qed.
Lemma log_ws_at v bs j n : bs !! j = Some n -> log_ws st v bs !! j = Some (lb st j, default [] (v !! n)).
Proof. intros Hj. unfold log_ws. by rewrite list_lookup_imap, Hj. Qed.

Section recovery.
Context (D : gmap Z (list Z)) (HD : disk_ok D).
Abbreviation bs := (disk_blocks D).
Abbreviation ws := (home_ws st D (disk_blocks D)).

Lemma blocks_bound : (length bs <= LOGBLOCKS)%nat.
Proof.
  destruct (do_area _ HD st in_log_head) as [d Hd]. pose proof (do_head _ HD d Hd). unfold disk_blocks. rewrite Hd. simpl.
  unfold head_blocks, get_words. rewrite length_map, length_seq. lia.
Qed.

Lemma block_facts j n : bs !! j = Some n ->
  0 <= n < 2 ^ 31 /\ ~ in_log st n /\ is_Some (D !! n) /\ (j < LOGBLOCKS)%nat /\ exists d, D !! lb st j = Some d /\ length d = Z.to_nat BSIZE.
Proof.
  intros Hj. pose proof (do_blk _ HD) as Hb. rewrite Forall_forall in Hb.
  destruct (Hb n) as (? & ? & ?); [by eapply list_elem_of_lookup_2|].
  pose proof blocks_bound. pose proof (lookup_lt_Some _ _ _ Hj). assert (j < LOGBLOCKS)%nat by lia.
  destruct (do_area _ HD (lb st j)) as [d Hd]; [by apply in_log_lb|].
  split; [done|]. split; [done|]. split; [done|]. split; [done|]. exists d. split; [done|]. by apply (do_size _ HD (lb st j)).
Qed.

(** While the log is being copied home. *)
Lemma home_prefix k : (k <= length bs)%nat ->
  disk_ok (apply_writes D (take k ws)) /\ disk_blocks (apply_writes D (take k ws)) = bs.
Proof.
  induction k as [|k IH]; intros Hk; [done|]. destruct (lookup_lt_is_Some_2 bs k) as [n Hn]; [lia|].
  destruct (block_facts k n Hn) as (_ & Hout & _ & Hlt & d & Hd & Hlen). destruct IH as [Hok Hbl]; [lia|].
  assert (n <> st) as Hne by (intros ->; apply Hout, in_log_head).
  rewrite (take_S_r _ _ _ (home_ws_at D bs k n Hn)), apply_writes_app. simpl. rewrite Hd. simpl.
  split; [by apply disk_ok_insert|]. by rewrite disk_blocks_ne.
Qed.

Lemma home_area k n : in_log st n -> apply_writes D (take k ws) !! n = D !! n.
Proof.
  intros Hn. apply apply_writes_ne. intros (j & _ & Hj)%home_ws_keys.
  by destruct (block_facts j n Hj) as (_ & ? & _).
Qed.
Lemma home_out k n : n ∉ bs -> apply_writes D (take k ws) !! n = D !! n.
Proof. intros Hn. apply apply_writes_ne. intros (j & _ & Hj)%home_ws_keys. apply Hn. by eapply list_elem_of_lookup_2. Qed.

Lemma home_logical k n : (k <= length bs)%nat -> ~ in_log st n -> logical (apply_writes D (take k ws)) n = logical D n.
Proof.
  intros Hk Hn. destruct (home_prefix k Hk) as [Hok Hbl]. destruct (decide (n ∈ bs)) as [Hin|Hout].
  - apply list_elem_of_lookup in Hin as (j & Hj). destruct (block_facts j n Hj) as (_ & _ & _ & Hlt & _).
    rewrite (logical_in D n j), (logical_in _ n j) by (rewrite ?Hbl; first [apply HD | done]).
    apply home_area. by apply in_log_lb.
  - rewrite !logical_out by (by rewrite ?Hbl). by apply home_out.
Qed.

(** With everything home the disk says what the log said. *)
Lemma home_done n : ~ in_log st n -> apply_writes D ws !! n = logical D n.
Proof.
  intros Hn. destruct (decide (n ∈ bs)) as [Hin|Hout].
  - apply list_elem_of_lookup in Hin as (j & Hj). destruct (block_facts j n Hj) as (_ & _ & _ & _ & d & Hd & _).
    rewrite (logical_in D n j) by (first [apply HD | done]). rewrite Hd.
    apply (apply_writes_at _ _ j); [rewrite home_ws_fst; apply HD|]. rewrite (home_ws_at _ _ _ _ Hj), Hd. done.
  - rewrite logical_out by done. pose proof (home_out (length ws) n Hout) as E. by rewrite firstn_all in E.
Qed.

Lemma recovery_prefix k :
  let D' := apply_writes D (take k (recovery_ws D)) in
  disk_ok D' /\ (forall n, ~ in_log st n -> logical D' n = logical D n)
  /\ ((length bs < k)%nat -> disk_blocks D' = []).
Proof.
  assert (length ws = length bs) as Hl by apply length_imap. intros D'. unfold D', recovery_ws.
  destruct (decide (k <= length bs)%nat) as [Hk|Hk].
  - rewrite take_app_le by lia. split; [by apply home_prefix|]. split; [intros n; by apply home_logical|lia].
  - rewrite firstn_all2 by (rewrite length_app; simpl; lia). rewrite apply_writes_app. simpl.
    destruct (do_area _ HD st in_log_head) as [d0 Hd0]. rewrite Hd0. simpl.
    pose proof (home_prefix (length bs) (le_n _)) as [Hok _]. rewrite firstn_all2 in Hok by lia.
    destruct (disk_ok_header _ [] d0 Hok) as [Hok' Hbl'].
    { by apply (do_size _ HD st). } { simpl. lia. } { constructor. } { constructor. }
    split; [done|]. split; [|done]. intros n Hn. rewrite logical_out by (rewrite Hbl'; apply not_elem_of_nil).
    rewrite lookup_insert_ne by (intros <-; apply Hn, in_log_head). by apply home_done.
Qed.
End recovery.

Lemma crashed_ok D D' : rtc crashed D D' -> disk_ok D -> disk_ok D' /\ forall n, ~ in_log st n -> logical D' n = logical D n.
Proof.
  induction 1 as [D|D D1 D2 [k ->] _ IH]; intros HD; [done|].
  destruct (recovery_prefix D HD k) as (Hok & Hlog & _). destruct (IH Hok) as [Hok2 Hlog2].
  split; [done|]. intros n Hn. by rewrite Hlog2, Hlog.
Qed.

(** A recovery that is not interrupted. *)
Lemma recovery_done D : disk_ok D ->
  disk_blocks (apply_writes D (recovery_ws D)) = []
  /\ forall n, ~ in_log st n -> apply_writes D (recovery_ws D) !! n = logical D n.
Proof.
  intros HD. destruct (recovery_prefix D HD (S (length (recovery_ws D)))) as (_ & Hl & Hb).
  rewrite firstn_all2 in Hl, Hb by lia.
  assert (length (disk_blocks D) < S (length (recovery_ws D)))%nat as Hlt.
  { unfold recovery_ws. rewrite length_app. unfold home_ws. rewrite length_imap. simpl. lia. }
  specialize (Hb Hlt). split; [done|]. intros n Hn. rewrite <- Hl by done.
  rewrite logical_out; [done|]. rewrite Hb. apply not_elem_of_nil.
Qed.

(** *** Commit *)

Section commit_writes.
Context (D V : gmap Z (list Z)) (bs : list Z) (d0 : list Z).
Context (HD : disk_ok D) (Hempty : disk_blocks D = []) (Hd0 : D !! st = Some d0).
Context (Hlen : (length bs <= LOGBLOCKS)%nat) (Hnd : NoDup bs).
Context (Hbs : Forall (fun b => 0 <= b < 2 ^ 31 /\ ~ in_log st b /\ is_Some (D !! b)) bs).
Context (HV : forall n, n ∈ bs -> exists d, V !! n = Some d /\ length d = Z.to_nat BSIZE).
Context (HVD : forall n, n ∉ bs -> V !! n = D !! n).

(** The disk at the moment the header has been written. *)
Definition committed : gmap Z (list Z) := apply_writes D (log_ws st V bs ++ [(st, head_with bs d0)]).
Definition commit_ws : list (Z * list Z) := log_ws st V bs ++ [(st, head_with bs d0)] ++ recovery_ws committed.

Lemma length_log_ws : length (log_ws st V bs) = length bs.
Proof. apply length_imap. Qed.

Lemma log_ws_nth j n : bs !! j = Some n -> exists d, log_ws st V bs !! j = Some (lb st j, d) /\ V !! n = Some d /\ length d = Z.to_nat BSIZE.
Proof.
  intros Hj. destruct (HV n) as (d & Hd & Hl); [by eapply list_elem_of_lookup_2|]. exists d.
  by rewrite (log_ws_at _ _ _ _ Hj), Hd.
Qed.

Lemma lb_ne_st j : lb st j <> st.
Proof. unfold lb. lia. Qed.

(** While the blocks are being copied to the log. *)
Lemma log_prefix k : (k <= length bs)%nat ->
  disk_ok (apply_writes D (take k (log_ws st V bs))) /\ disk_blocks (apply_writes D (take k (log_ws st V bs))) = [].
Proof.
  induction k as [|k IH]; intros Hk; [done|]. destruct (lookup_lt_is_Some_2 bs k) as [n Hn]; [lia|].
  destruct (log_ws_nth k n Hn) as (d & Hw & _ & Hl). destruct IH as [Hok Hbl]; [lia|].
  rewrite (take_S_r _ _ _ Hw), apply_writes_app. simpl. pose proof (lb_ne_st k).
  split; [by apply disk_ok_insert|]. by rewrite disk_blocks_ne.
Qed.

Lemma log_out k n : ~ in_log st n -> apply_writes D (take k (log_ws st V bs)) !! n = D !! n.
Proof. intros Hn. apply apply_writes_ne. intros Hin. by eapply Hn, log_ws_keys. Qed.

Lemma committed_eq : committed = <[st := head_with bs d0]> (apply_writes D (log_ws st V bs)).
Proof. unfold committed. by rewrite apply_writes_app. Qed.

Lemma committed_ok : disk_ok committed /\ disk_blocks committed = bs.
Proof.
  rewrite committed_eq. destruct (log_prefix (length bs) (le_n _)) as [Hok _].
  rewrite firstn_all2 in Hok by (rewrite length_log_ws; lia). apply disk_ok_header; try done.
  - by apply (do_size _ HD st).
  - eapply Forall_impl; [exact Hbs|]. intros b (? & ? & ?). split; [done|]. split; [done|]. by apply apply_writes_some.
Qed.

(** In the committed disk the log holds the new contents. *)
Lemma committed_log j n : bs !! j = Some n -> committed !! lb st j = V !! n.
Proof.
  intros Hj. rewrite committed_eq, lookup_insert_ne by (apply not_eq_sym, lb_ne_st).
  destruct (log_ws_nth j n Hj) as (d & Hw & -> & _). apply (apply_writes_at _ _ j); [|done].
  unfold log_ws. rewrite fmap_imap. apply NoDup_alt. intros x y z Hx Hy. rewrite list_lookup_imap in Hx, Hy.
  apply fmap_Some in Hx as (? & _ & ->), Hy as (? & _ & E). unfold lb in E. simpl in E. lia.
Qed.

Lemma committed_logical n : ~ in_log st n -> logical committed n = V !! n.
Proof.
  intros Hn. destruct committed_ok as [Hok Hbl]. destruct (decide (n ∈ bs)) as [Hin|Hout].
  - apply list_elem_of_lookup in Hin as (j & Hj). rewrite (logical_in _ n j) by (by rewrite Hbl). by apply committed_log.
  - rewrite logical_out by (by rewrite Hbl). rewrite committed_eq, lookup_insert_ne by (intros <-; apply Hn, in_log_head).
    rewrite HVD by done. pose proof (log_out (length bs) n Hn) as E. by rewrite firstn_all2 in E by (rewrite length_log_ws; lia).
Qed.

Lemma commit_prefix k :
  let D' := apply_writes D (take k commit_ws) in
  disk_ok D' /\ forall n, ~ in_log st n -> logical D' n = if decide (k <= length bs)%nat then D !! n else V !! n.
Proof.
  intros D'. unfold D', commit_ws. case_decide as Hk.
  - rewrite take_app_le by (rewrite length_log_ws; lia). destruct (log_prefix k Hk) as [Hok Hbl].
    split; [done|]. intros n Hn. rewrite logical_out by (rewrite Hbl; apply not_elem_of_nil). by apply log_out.
  - rewrite app_assoc. rewrite take_app_ge by (rewrite length_app, length_log_ws; simpl; lia).
    rewrite apply_writes_app. change (apply_writes D (_ ++ _)) with committed.
    destruct committed_ok as [Hok Hbl]. destruct (recovery_prefix committed Hok (k - length (log_ws st V bs ++ [(st, head_with bs d0)]))) as (Hok' & Hl & _).
    split; [done|]. intros n Hn. rewrite Hl by done. by apply committed_logical.
Qed.

Lemma commit_done n : ~ in_log st n -> apply_writes D commit_ws !! n = V !! n.
Proof.
  intros Hn. destruct committed_ok as [Hok Hbl]. destruct (recovery_done committed Hok) as [_ Hfin].
  unfold commit_ws. rewrite app_assoc, apply_writes_app. change (apply_writes D (_ ++ _)) with committed.
  rewrite Hfin by done. by apply committed_logical.
Qed.

Lemma commit_blocks : disk_blocks (apply_writes D commit_ws) = [].
Proof.
  destruct committed_ok as [Hok _]. unfold commit_ws. rewrite app_assoc, apply_writes_app.
  by apply (recovery_done committed).
Qed.
End commit_writes.
End meaning.

(** ** The code performs these writes *)

Lemma wrote_app ws ws' c : wrote ws' (wrote ws c) = wrote (ws ++ ws') c.
Proof. destruct c. unfold wrote, upd, set_cv_view. simpl. by rewrite apply_writes_app. Qed.
Lemma wrote_refs ws r c : wrote ws c <| cv_refs := r |> = wrote ws (c <| cv_refs := r |>).
Proof. by destruct c. Qed.

Lemma home_ws_ext st v v' bs :
  (forall j, (j < length bs)%nat -> v !! lb st j = v' !! lb st j) -> home_ws st v bs = home_ws st v' bs.
Proof. intros Hv. apply imap_ext. intros j n Hj. rewrite Hv; [done|]. by eapply lookup_lt_Some. Qed.

Section code.
Context `{Patience, Disk} {disk_idle : kernel -> Prop} `{!DiskOk disk_idle}.
Context (h : hart) (i : nat) (p : proc).
Context (st : Z) (Hst : 0 <= st) (Hst2 : st + Z.of_nat LOGBLOCKS + 1 < 2 ^ 31).
Abbreviation rest := (at_rest (disk_idle := disk_idle) h i p).

Lemma logged_wrote lg bs c ws r : logged lg st bs c -> logged lg st bs (wrote ws (c <| cv_refs := r |>)).
Proof.
  intros [Hn Hl Hb Hnd Ha Hh]. split; try done.
  - intros j bn Hj. destruct (Hb j bn Hj) as (? & ? & ? & ?). split; [done|]. split; [done|]. split; [done|].
    simpl. by apply apply_writes_some.
  - intros n Hn'. simpl. by apply apply_writes_some, Ha.
Qed.

Lemma st_not_logged lg bs c : logged lg st bs c -> st ∉ bs.
Proof.
  intros Hlo (j & Hj)%list_elem_of_lookup. destruct (lo_blk _ _ _ _ Hlo j st Hj) as (_ & _ & Hn & _).
  apply Hn. by apply in_log_head.
Qed.

Lemma rest_view lg c D W t n : rest lg c D W t -> cv_refs c !! n = None -> cv_view c !! n = D !! n.
Proof. intros Hr Hn. rewrite <- (ar_disk _ _ _ _ _ _ _ _ Hr). by apply (cr_view _ _ _ (ar_rep _ _ _ _ _ _ _ _ Hr)). Qed.

(** The in-memory log with an empty header. *)
Definition emptied (lg : logst) : logst := lg <| lh ::= fun x => x <| lh_n := 0 |> |>.

(** The end of both: an empty header goes to disk. *)
Lemma clear_head_ok lg c D W t d :
  rest lg c D W t -> lg_dev lg = ROOTDEV -> lg_start lg = st -> cv_held c = ∅ -> cv_refs c = ∅ -> D !! st = Some d ->
  exists t', (log_upd (fun l => l <| lh ::= fun x => x <| lh_n := 0 |> |>);; write_head) t = Ret tt t' /\ lframe t t' /\
    rest (emptied lg) (wrote [(st, head_with [] d)] c) (apply_writes D [(st, head_with [] d)]) (W ++ [(st, head_with [] d)]) t'.
Proof.
  intros Hr Hdev Hstart Hheld Hrefs Hd.
  destruct (log_upd_rest h i p (fun l => l <| lh ::= fun x => x <| lh_n := 0 |> |>) lg c D W t Hr) as (t1 & Hs1 & Hf1 & Hr1).
  mstep Hs1.
  destruct (write_head_ok h i p st Hst Hst2 (emptied lg) [] c D W t1 d) as (t2 & Hs2 & Hf2 & Hr2); try done.
  - by rewrite Hheld.
  - rewrite (rest_view _ _ _ _ _ _ Hr); [done|]. by rewrite Hrefs.
  - by rewrite Hrefs.
  - rewrite Hrefs, map_size_empty. unfold NBUF. lia.
  - exists t2. split; [done|]. split; [by transitivity t1|done].
Qed.

Lemma commit_ok lg bs c D W t d0 :
  rest lg c D W t -> lg_dev lg = ROOTDEV -> lg_start lg = st -> logged lg st bs c -> cv_refs c = pins bs ->
  (0 < length bs < NBUF)%nat -> D !! st = Some d0 -> disk_blocks st (committed st D (cv_view c) bs d0) = bs ->
  exists t', commit t = Ret tt t' /\ lframe t t' /\
    rest (emptied lg) (wrote (commit_ws st D (cv_view c) bs d0) (c <| cv_refs := ∅ |>))
      (apply_writes D (commit_ws st D (cv_view c) bs d0)) (W ++ commit_ws st D (cv_view c) bs d0) t'.
Proof.
  intros Hr Hdev Hstart Hlo Href Hlen Hd0 Hcb. unfold commit. pose proof (st_not_logged _ _ _ Hlo) as Hst0.
  mapply log_n_ok by apply Hr. rewrite (lo_n _ _ _ _ Hlo).
  rewrite (proj2 (Z.gtb_lt _ 0)) by lia. unfold when.
  destruct (write_log_ok h i p lg st Hdev Hstart Hst Hst2 bs c D W t) as (t1 & Hs1 & Hf1 & Hr1); [done..|lia|].
  rewrite (bind_Ret _ _ _ _ _ Hs1).
  destruct (write_head_ok h i p st Hst Hst2 lg bs _ _ _ t1 d0 Hr1) as (t2 & Hs2 & Hf2 & Hr2); try done.
  { apply Hlo. } { intros j bn Hj. apply (lo_blk _ _ _ _ Hlo j bn Hj). } { simpl. by rewrite (lo_held _ _ _ _ Hlo). }
  { simpl. rewrite apply_writes_ne.
    - rewrite (rest_view _ _ _ _ _ _ Hr); [done|]. rewrite Href. by apply pins_out.
    - intros (w & E & (j & Hj)%list_elem_of_lookup)%list_elem_of_fmap. unfold log_ws in Hj. rewrite list_lookup_imap in Hj.
      apply fmap_Some in Hj as (? & _ & ->). simpl in E. unfold lb in E. lia. }
  { simpl. rewrite Href. by apply pins_out. } { simpl. rewrite Href, pins_size by apply Hlo. lia. }
  rewrite (bind_Ret _ _ _ _ _ Hs2). rewrite wrote_app in Hr2.
  rewrite <- committed_eq, <- app_assoc in Hr2. unfold committed in Hr2. set (hws := log_ws st (cv_view c) bs ++ [(st, head_with bs d0)]) in *.
  destruct (install_trans_ok h i p lg st Hdev Hstart Hst Hst2 false bs (wrote hws c) _ _ t2 Hr2) as (t3 & Hs3 & Hf3 & Hr3).
  { pose proof (logged_wrote lg bs c hws (cv_refs c) Hlo) as Hlo'. by destruct c. } { done. } { lia. }
  rewrite (bind_Ret _ _ _ _ _ Hs3).
  assert (home_ws st (cv_view (wrote hws c)) bs = home_ws st (committed st D (cv_view c) bs d0) bs) as Eh.
  { apply home_ws_ext. intros j Hj. rewrite (rest_view _ _ _ _ _ _ Hr2); [done|]. simpl. rewrite Href. apply pins_out.
    intros (k & Hk)%list_elem_of_lookup. destruct (lo_blk _ _ _ _ Hlo k _ Hk) as (_ & _ & Hn & _). apply Hn, in_log_lb.
    pose proof (lo_len _ _ _ _ Hlo). lia. }
  rewrite Eh in Hr3. rewrite wrote_refs, wrote_app, <- apply_writes_app, <- app_assoc in Hr3.
  destruct (clear_head_ok lg _ _ _ t3 (head_with bs d0) Hr3 Hdev Hstart) as (t4 & Hs4 & Hf4 & Hr4).
  { apply Hlo. } { done. }
  { rewrite apply_writes_app, apply_writes_ne; [unfold hws; rewrite apply_writes_app; apply lookup_insert_eq|].
    intros Hin. rewrite home_ws_fst in Hin. done. }
  exists t4. split; [exact Hs4|]. split; [by transitivity t1; [|transitivity t2; [|transitivity t3] ]|].
  rewrite wrote_app, <- apply_writes_app, <- !app_assoc in Hr4. unfold commit_ws, recovery_ws. rewrite Hcb.
  assert (committed st D (cv_view c) bs d0 !! st = Some (head_with bs d0)) as -> by (rewrite committed_eq; apply lookup_insert_eq).
  unfold hws in Hr4. by rewrite <- !app_assoc in Hr4.
Qed.

(** An empty cache over the disk [D]. *)
Definition fresh_cache (D : gmap Z (list Z)) : cache := mkCache D ∅ ∅.

Lemma recover_logged lg D :
  disk_ok st D -> length (lh_block (lh lg)) = LOGBLOCKS ->
  logged (log_with (disk_blocks st D) lg) st (disk_blocks st D) (fresh_cache D).
Proof.
  intros HD Hlb. pose proof (blocks_bound st D HD) as Hb. split; try done; [|apply HD|apply HD].
  intros j n Hj. destruct (block_facts st D HD j n Hj) as (? & ? & ? & _). split; [|done].
  simpl. rewrite list_lookup_inserts; [by rewrite Nat.sub_0_r|apply lookup_lt_Some in Hj; lia|].
  apply lookup_lt_Some in Hj. lia.
Qed.

Lemma recover_ok lg D W t :
  rest lg (fresh_cache D) D W t -> lg_dev lg = ROOTDEV -> lg_start lg = st -> length (lh_block (lh lg)) = LOGBLOCKS ->
  disk_ok st D ->
  exists t', recover_from_log t = Ret tt t' /\ lframe t t' /\
    rest (emptied (log_with (disk_blocks st D) lg)) (wrote (recovery_ws st D) (fresh_cache D))
      (apply_writes D (recovery_ws st D)) (W ++ recovery_ws st D) t'.
Proof.
  intros Hr Hdev Hstart Hlb HD. unfold recover_from_log.
  destruct (do_area _ _ HD st (in_log_head st)) as [d0 Hd0].
  assert (disk_blocks st D = head_blocks d0) as Eb by (unfold disk_blocks; by rewrite Hd0).
  destruct (read_head_ok h i p st Hst Hst2 lg (fresh_cache D) D W t d0) as (t1 & Hs1 & Hf1 & Hr1); try done.
  { by apply (do_head _ _ HD). } { simpl. rewrite map_size_empty. unfold NBUF. lia. }
  rewrite (bind_Ret _ _ _ _ _ Hs1). rewrite <- Eb in Hr1.
  destruct (install_trans_ok h i p (log_with (disk_blocks st D) lg) st Hdev Hstart Hst Hst2 true (disk_blocks st D) _ _ _ t1 Hr1) as (t2 & Hs2 & Hf2 & Hr2); [by apply recover_logged|done|done|].
  rewrite (bind_Ret _ _ _ _ _ Hs2).
  destruct (clear_head_ok (log_with (disk_blocks st D) lg) _ _ _ t2 d0 Hr2 Hdev Hstart) as (t3 & Hs3 & Hf3 & Hr3); [done|done| |].
  { rewrite apply_writes_ne; [done|]. rewrite home_ws_fst. intros (j & Hj)%list_elem_of_lookup.
    destruct (block_facts st D HD j st Hj) as (_ & Hn & _). apply Hn, in_log_head. }
  exists t3. split; [exact Hs3|]. split; [by transitivity t1; [|transitivity t2]|].
  rewrite wrote_app, <- apply_writes_app, <- app_assoc in Hr3. unfold recovery_ws. by rewrite Hd0.
Qed.
End code.

(** ** Properties *)

(** C1: A transaction survives a crash at any point.  [commit] of the blocks [bs]
    returns with the new contents on the disk.  If instead the machine stops
    after any number [k] of its disk writes, and then again any number of times
    during recovery, the recovery that is finally left to finish leaves an
    empty log and the whole file system as it was before the transaction when
    the header had not reached the disk, or with the whole transaction in it
    when it had: never a part of it.  [crashed] is what an interrupted recovery
    leaves, because [recovery_ws] are the writes recovery performs. *)
Theorem log_crash_safe `{Patience, Disk} disk_idle `{!DiskOk disk_idle} h i p st lg bs c D W t :
  0 <= st -> st + Z.of_nat LOGBLOCKS + 1 < 2 ^ 31 ->
  at_rest (disk_idle := disk_idle) h i p lg c D W t ->
  lg_dev lg = ROOTDEV -> lg_start lg = st -> logged lg st bs c -> cv_refs c = pins bs -> (0 < length bs < NBUF)%nat ->
  disk_ok st D -> disk_blocks st D = [] -> Forall (fun b => is_Some (D !! b)) bs ->
  exists t' ws, commit t = Ret tt t' /\ disk t' = apply_writes D ws /\ dwrites t' = W ++ ws
    /\ (forall n, ~ in_log st n -> disk t' !! n = cv_view c !! n)
    /\ forall k D', rtc (crashed st) (apply_writes D (take k ws)) D' ->
       forall h' i' p' lg' W' u, at_rest (disk_idle := disk_idle) h' i' p' lg' (fresh_cache D') D' W' u ->
       lg_dev lg' = ROOTDEV -> lg_start lg' = st -> length (lh_block (lh lg')) = LOGBLOCKS ->
       exists u', recover_from_log u = Ret tt u' /\ dwrites u' = W' ++ recovery_ws st D' /\ lh_n (lh (log u')) = 0
         /\ disk_blocks st (disk u') = []
         /\ forall n, ~ in_log st n -> disk u' !! n = if decide (k <= length bs)%nat then D !! n else cv_view c !! n.
Proof.
  intros Hst Hst2 Hr Hdev Hstart Hlo Href Hlen HD Hempty Hbs0.
  destruct (do_area _ _ HD st (in_log_head st)) as [d0 Hd0].
  assert (Forall (fun b => 0 <= b < 2 ^ 31 /\ ~ in_log st b /\ is_Some (D !! b)) bs) as Hbs.
  { rewrite Forall_forall in *. intros b Hb. specialize (Hbs0 b Hb). apply list_elem_of_lookup in Hb as (j & Hj).
    destruct (lo_blk _ _ _ _ Hlo j b Hj) as (_ & ? & ? & _). done. }
  assert (forall n, n ∈ bs -> exists d, cv_view c !! n = Some d /\ length d = Z.to_nat BSIZE) as HV.
  { intros n (j & Hj)%list_elem_of_lookup. destruct (lo_blk _ _ _ _ Hlo j n Hj) as (_ & _ & _ & [d Hd]).
    exists d. split; [done|]. by apply (cr_size _ _ _ (ar_rep _ _ _ _ _ _ _ _ Hr) n). }
  assert (forall n, n ∉ bs -> cv_view c !! n = D !! n) as HVD.
  { intros n Hn. apply (rest_view h i p _ _ _ _ _ _ Hr). rewrite Href. by apply pins_out. }
  pose proof (lo_len _ _ _ _ Hlo) as Hll. pose proof (lo_nodup _ _ _ _ Hlo) as Hnd.
  pose proof (commit_prefix st D (cv_view c) bs d0 HD Hempty Hd0 Hll Hnd Hbs HV HVD) as Hpre.
  destruct (commit_ok h i p st Hst Hst2 lg bs c D W t d0 Hr Hdev Hstart Hlo Href Hlen Hd0) as (t' & Hs & _ & Hr').
  { by apply committed_ok. }
  exists t', (commit_ws st D (cv_view c) bs d0). split; [done|]. split; [apply Hr'|]. split; [apply Hr'|]. split.
  - intros n Hn. rewrite (ar_disk _ _ _ _ _ _ _ _ Hr').
    apply (commit_done st D (cv_view c) bs d0 HD Hempty Hd0 Hll Hnd Hbs HV HVD n Hn).
  - intros k D' Hcr h' i' p' lg' W' u Hru Hdev' Hstart' Hlb'.
    destruct (Hpre k) as [Hok Hlog]. destruct (crashed_ok st _ _ Hcr Hok) as [Hok' Hlog'].
    destruct (recover_ok h' i' p' st Hst Hst2 lg' D' W' u Hru Hdev' Hstart' Hlb' Hok') as (u' & Hsu & _ & Hru').
    destruct (recovery_done st D' Hok') as [Hbl' Hfin].
    exists u'. split; [done|]. split; [apply Hru'|]. split; [by rewrite (ar_log _ _ _ _ _ _ _ _ Hru')|].
    rewrite (ar_disk _ _ _ _ _ _ _ _ Hru'). split; [done|]. intros n Hn. by rewrite Hfin, Hlog', Hlog.
Qed.

(** A disk of 100 zeroed blocks with the log at block 2, and a transaction that
    has changed block 50. *)
Definition demo_disk : gmap Z (list Z) := gset_to_gmap (block_of 0) (list_to_set (seqZ 0 100)).
Definition demo_log : logst := mkLog 2 0 0 ROOTDEV (mkLogheader 1 (50 :: replicate 29 0)).
Definition demo_cache : cache := mkCache (<[50 := block_of 7]> demo_disk) (pins [50]) ∅.

Lemma demo_disk_at n : 0 <= n < 100 -> demo_disk !! n = Some (block_of 0).
Proof. intros Hn. apply lookup_gset_to_gmap_Some. split; [|done]. by rewrite elem_of_list_to_set, elem_of_seqZ. Qed.
Lemma demo_disk_inv n d : demo_disk !! n = Some d -> d = block_of 0.
Proof. intros [_ <-]%lookup_gset_to_gmap_Some. done. Qed.
Lemma demo_disk_range n d : demo_disk !! n = Some d -> 0 <= n < 2 ^ 31.
Proof. intros [Hn _]%lookup_gset_to_gmap_Some. rewrite elem_of_list_to_set, elem_of_seqZ in Hn. lia. Qed.

Lemma demo_disk_run :
  babs_run [BRead 50; BSet 50 (block_of 7); BPin 50; BRelse 50] (mkBlocks demo_disk ∅ ∅ demo_disk [])
  = Some (mkBlocks (<[50 := block_of 7]> demo_disk) (pins [50]) ∅ demo_disk [], []).
Proof.
  cbn [babs_run babs]. rewrite decide_True.
  2: { split_and!; [set_solver|rewrite demo_disk_at by lia; by eexists|unfold bl_count; simpl; rewrite lookup_empty; simpl; lia|right; rewrite map_size_empty; unfold NBUF; lia]. }
  cbn [mbind option_bind babs]. rewrite decide_True by (split; [set_solver|reflexivity]).
  cbn [mbind option_bind babs]. rewrite decide_True by (split; [set_solver|vm_compute; reflexivity]).
  cbn [mbind option_bind babs]. rewrite decide_True by (split; [set_solver|intros E; vm_compute in E; discriminate]).
  cbn [mbind option_bind]. do 2 f_equal.
Qed.

(** A kernel that has run some cache commands since it was booted. *)
Lemma demo_rest cmds V R lg :
  babs_run cmds (mkBlocks demo_disk ∅ ∅ demo_disk []) = Some (mkBlocks V R ∅ demo_disk [], []) ->
  exists t, at_rest (disk_idle := fun _ => True) (boot_hart (Some 0%nat)) 0 disk_proc lg (mkCache V R ∅) demo_disk [] t.
Proof.
  intros Habs. destruct (binit_ok (pid disk_proc) (boot_hart (Some 0%nat)) ∅ (disk_kernel demo_disk)) as (s1 & _ & E1 & Hrep).
  { apply (disk_kernel_running demo_disk). } { set_solver. } { set_solver. } { done. }
  { apply Forall_replicate. by split_and!. } { intros n d Hn. split; [by eapply demo_disk_range|]. by rewrite (demo_disk_inv n d). }
  assert (sframe (disk_kernel demo_disk) s1) as Hf1.
  { apply binit_frame. exact E1. }
  assert (brel (disk_idle := fun _ => True) (boot_hart (Some 0%nat)) 0 disk_proc ∅ s1 (mkBlocks demo_disk ∅ ∅ demo_disk [])) as Hb.
  { apply (brel_intro (boot_hart (Some 0%nat)) 0 disk_proc ∅ (disk_kernel demo_disk)); try done.
    - apply disk_kernel_running.
    - rewrite E1. reflexivity.
    - rewrite E1. reflexivity. }
  destruct (@brun_ok 0%nat sync_disk _ sync_disk_ok (boot_hart (Some 0%nat)) 0 disk_proc _ _ _ _ _ _ Hb Habs)
    as (vars & s2 & _ & (Hrun & Hi & Hrep2 & Hh & HD & HW) & _).
  simpl in Hh, HD, HW. symmetry in Hh. apply dom_empty_iff_L in Hh as ->.
  assert (at_rest (disk_idle := fun _ => True) (boot_hart (Some 0%nat)) 0 disk_proc (log s2) (mkCache V R ∅) demo_disk [] s2) as Hr by done.
  exists (s2 <| log := lg |>).
  exact (proj2 (@rest_log sync_disk _ sync_disk_ok _ _ _ _ lg _ _ _ _ Hr)).
Qed.

Lemma demo_ok : disk_ok 2 demo_disk /\ disk_blocks 2 demo_disk = [].
Proof.
  assert (disk_blocks 2 demo_disk = []) as E.
  { unfold disk_blocks. rewrite demo_disk_at by lia. vm_compute. reflexivity. }
  split; [|done]. split.
  - intros n d ->%demo_disk_inv. reflexivity.
  - intros n Hn. rewrite demo_disk_at; [by eexists|]. unfold in_log, LOGBLOCKS in Hn. lia.
  - intros d ->%demo_disk_inv. vm_compute. split; discriminate.
  - rewrite E. constructor.
  - rewrite E. constructor.
Qed.

Lemma log_crash_safe_witness :
  exists t t', @commit 0%nat sync_disk t = Ret tt t' /\ disk t !! 50 = Some (block_of 0) /\ disk t' !! 50 = Some (block_of 7).
Proof.
  destruct (demo_rest _ _ _ demo_log demo_disk_run) as [t Hr].
  destruct (@log_crash_safe 0%nat sync_disk (fun _ => True) sync_disk_ok (boot_hart (Some 0%nat)) 0 disk_proc 2 demo_log
    [50] demo_cache demo_disk [] t) as (t' & ws & Hs & _ & _ & Hd & _).
  - lia.
  - vm_compute. reflexivity.
  - exact Hr.
  - reflexivity.
  - reflexivity.
  - split; try done.
    + unfold LOGBLOCKS. simpl. lia.
    + intros [|[|j] ] bn Hj; simplify_eq/=. split; [done|]. split; [lia|]. split; [unfold in_log, LOGBLOCKS; lia|].
      rewrite lookup_insert_eq. by eexists.
    + apply NoDup_singleton.
    + intros n Hn. simpl. apply insert_is_Some. rewrite demo_disk_at; [by eexists|]. unfold in_log, LOGBLOCKS in Hn. lia.
  - reflexivity.
  - unfold NBUF. simpl. lia.
  - apply demo_ok.
  - apply demo_ok.
  - constructor; [|constructor]. rewrite demo_disk_at by lia. by eexists.
  - exists t, t'. split; [exact Hs|]. rewrite (ar_disk _ _ _ _ _ _ _ _ Hr).
    split; [apply demo_disk_at; lia|]. rewrite Hd by (unfold in_log, LOGBLOCKS; lia). apply lookup_insert_eq.
Defined.

(** C38: The log may hold [LOGBLOCKS] blocks, and [begin_op] and [log_write] allow
    that many, but the cache has no more buffers than that: once all of them
    are pinned by the transaction, [commit] finds no buffer to read the first
    log block into and panics. *)
Theorem full_log_commit_panics `{Patience, Disk} disk_idle `{!DiskOk disk_idle} h i p st lg bs c D W t :
  0 <= st -> st + Z.of_nat LOGBLOCKS + 1 < 2 ^ 31 ->
  at_rest (disk_idle := disk_idle) h i p lg c D W t ->
  lg_dev lg = ROOTDEV -> lg_start lg = st -> logged lg st bs c -> cv_refs c = pins bs -> length bs = LOGBLOCKS ->
  commit t = Panic "bget: no buffers".
Proof.
  intros Hst Hst2 Hr Hdev Hstart Hlo Href Hlen. unfold commit.
  mapply log_n_ok by apply Hr. rewrite (lo_n _ _ _ _ Hlo), Hlen. unfold when. change (Z.of_nat LOGBLOCKS >? 0) with true. cbv iota.
  assert (write_log t = Panic "bget: no buffers") as Hwl; [|by rewrite (bind_Panic _ _ _ _ Hwl)].
  unfold write_log. mapply log_n_ok by apply Hr. rewrite (lo_n _ _ _ _ Hlo), Hlen, Nat2Z.id.
  change (seq 0 LOGBLOCKS) with (0%nat :: seq 1 29). cbn [forM]. msimpl.
  rewrite (ar_log _ _ _ _ _ _ _ _ Hr), Hdev, (lb_ok lg st Hstart Hst Hst2) by (unfold LOGBLOCKS; lia).
  change (u32 ROOTDEV) with ROOTDEV.
  mapply (bread_full h i p t c) by first [apply Hr | idtac]; [done| | |].
  - rewrite (lo_held _ _ _ _ Hlo). apply lookup_empty.
  - rewrite Href. apply pins_out. intros (k & Hk)%list_elem_of_lookup.
    destruct (lo_blk _ _ _ _ Hlo k _ Hk) as (_ & _ & Hn & _). apply Hn, in_log_lb. unfold LOGBLOCKS. lia.
  - rewrite Href, pins_size by apply Hlo. rewrite Hlen. unfold LOGBLOCKS, NBUF. lia.
Qed.

(** Thirty blocks pinned. *)
Definition full_blocks : list Z := seqZ 40 30.
Definition full_log : logst := mkLog 2 0 0 ROOTDEV (mkLogheader 30 full_blocks).

Lemma full_run :
  babs_run (full_blocks ≫= fun n => [BRead n; BPin n; BRelse n]) (mkBlocks demo_disk ∅ ∅ demo_disk [])
  = Some (mkBlocks demo_disk (pins full_blocks) ∅ demo_disk [], []).
Proof. vm_compute. reflexivity. Qed.

Lemma full_log_commit_panics_witness : exists t, @commit 0%nat sync_disk t = Panic "bget: no buffers".
Proof.
  destruct (demo_rest _ _ _ full_log full_run) as [t Hr]. exists t.
  apply (@full_log_commit_panics 0%nat sync_disk (fun _ => True) sync_disk_ok (boot_hart (Some 0%nat)) 0 disk_proc 2 full_log
    full_blocks (mkCache demo_disk (pins full_blocks) ∅) demo_disk [] t).
  - lia.
  - vm_compute. reflexivity.
  - exact Hr.
  - reflexivity.
  - reflexivity.
  - split; try done.
    + intros j bn Hj. split; [exact Hj|]. apply list_elem_of_lookup_2, elem_of_seqZ in Hj.
      split; [lia|]. split; [unfold in_log, LOGBLOCKS; lia|]. simpl. rewrite demo_disk_at by lia. by eexists.
    + apply NoDup_seqZ.
    + intros n Hn. simpl. rewrite demo_disk_at; [by eexists|]. unfold in_log, LOGBLOCKS in Hn. lia.
  - reflexivity.
  - reflexivity.
Defined.
