(* ===== verification/Txn.v ===== *)
(** * File system transactions

    [begin_op], [log_write] and [end_op], and a whole operation between
    [begin_op] and [end_op] as one atomic change of the disk. *)

From stdpp Require Import base numbers gmap sets strings option functions list.
From S2P Require Import Prelude Machine Spinlock CString Printf Kalloc Vm Proc ProcSpec.
From S2P Require Import Sleeplock SleeplockSpec Bio BlockData Cache CacheSpec Log LogSpec Crash.

(** ** The log's in-memory header *)

(** The references of a block: one when it is in the log, one when it is held. *)
Definition refs_for (logged held : bool) : option Z :=
  match logged, held with
  | false, false => None
  | true, true => Some 2
  | _, _ => Some 1
  end.

Definition txn_refs (bs : list Z) (c : cache) : Prop := forall n,
  cv_refs c !! n = refs_for (bool_decide (n ∈ bs)) (bool_decide (is_Some (cv_held c !! n))).

(** The blocks of the log after block [n] was logged. *)
Definition log_add (n : Z) (bs : list Z) : list Z := if decide (n ∈ bs) then bs else bs ++ [n].

Lemma log_add_length n l : (length (log_add n l) <= length l + 1)%nat.
Proof. unfold log_add. case_decide; [lia|]. rewrite length_app. simpl. lia. Qed.

Section txn.
Context `{Patience, Disk} {disk_idle : kernel -> Prop} `{!DiskOk disk_idle}.
Context (h : hart) (i : nat) (p : proc).
Context (st : Z).
Abbreviation rest := (at_rest (disk_idle := disk_idle) h i p).

(** The header lists [bs], and an operation is under way when [out] is 1. *)
Record log_state (outst : Z) (bs : list Z) (lg : logst) : Prop := {
  ls_dev : lg_dev lg = ROOTDEV;
  ls_start : lg_start lg = st;
  ls_out : outstanding lg = outst;
  ls_committing : committing lg = 0;
  ls_n : lh_n (lh lg) = Z.of_nat (length bs);
  ls_block : forall j bn, bs !! j = Some bn -> lh_block (lh lg) !! j = Some bn;
  ls_len : length (lh_block (lh lg)) = LOGBLOCKS;
  ls_nodup : NoDup bs;
  ls_fit : (length bs <= LOGBLOCKS)%nat;
  ls_ok : Forall (fun b => 0 <= b < 2 ^ 31 /\ ~ in_log st b) bs
}.

Lemma log_find_out n bs blocks k :
  (forall j bn, bs !! j = Some bn -> blocks !! j = Some bn) -> Forall (fun b => 0 <= b < 2 ^ 31) bs ->
  k = length bs -> n ∉ bs -> log_find n blocks k = k.
Proof.
  intros Hb Hbs ->. revert blocks Hb. induction bs as [|b bs IH]; intros blocks Hb Hn; simpl; [by destruct blocks|].
  apply Forall_cons in Hbs as [Hr Hbs]. specialize (IH Hbs).
  destruct blocks as [|b' blocks]; [done|]. pose proof (Hb 0%nat b eq_refl) as E. simpl in E. injection E as ->.
  cbn [log_find length]. rewrite u32_small by lia. rewrite (proj2 (Z.eqb_neq b n)) by set_solver.
  f_equal. apply IH; [|set_solver]. intros j bn Hj. exact (Hb (S j) bn Hj).
Qed.

Lemma log_find_in n j bs blocks :
  (forall j bn, bs !! j = Some bn -> blocks !! j = Some bn) -> Forall (fun b => 0 <= b < 2 ^ 31) bs ->
  NoDup bs -> bs !! j = Some n -> log_find n blocks (length bs) = j.
Proof.
  revert j blocks. induction bs as [|b bs IH]; intros j blocks Hb Hbs Hnd Hj; simpl; [done|].
  apply Forall_cons in Hbs as [Hr Hbs]. apply NoDup_cons in Hnd as [Hn Hnd].
  destruct blocks as [|b' blocks]; [by specialize (Hb 0%nat b eq_refl)|].
  pose proof (Hb 0%nat b eq_refl) as E. simpl in E. injection E as ->.
  cbn [log_find length]. rewrite u32_small by lia. destruct j as [|j]; simpl in Hj; [injection Hj as ->; by rewrite Z.eqb_refl|].
  rewrite (proj2 (Z.eqb_neq b n)) by (intros ->; apply Hn; by eapply list_elem_of_lookup_2).
  f_equal. apply IH; [|done..]. intros k bn Hk. exact (Hb (S k) bn Hk).
Qed.

Lemma bind_log_upd {B} f (k : () -> K B) s : (log_upd f ≫= k) s = k tt (s <| log ::= f |>).
Proof. done. Qed.

(** ** The lock of the log *)

(** The state inside the lock, the log's variables being [lg]. *)
Abbreviation locked lg t := (t <| hw := acquired h {[LkLog]} |> <| log := lg |>).

Lemma lock_ok lg c D W t :
  rest lg c D W t -> acquire LkLog t = Ret tt (locked lg t) /\ sframe (locked lg t) (locked lg t)
    /\ running h {[LkLog]} i p (locked lg t) /\ disk_idle (locked lg t) /\ cache_rep (pid p) (locked lg t) c.
Proof.
  intros Hr. pose proof (ar_run _ _ _ _ _ _ _ _ Hr) as Hru. split; [|split; [reflexivity|]].
  - rewrite (env_acquire h ∅) by first [solve_env | done | set_solver | apply Hru].
    rewrite union_empty_r_L, <- (ar_log _ _ _ _ _ _ _ _ Hr). reflexivity.
  - split; [|split].
    + pose proof (running_locks h ∅ {[LkLog]} i p t Hru) as [He ? ? ? ? ? ?]. split; try done. by apply (env_upd _ _ _ _ He).
    + apply (disk_idle_ext t); [done|]. apply Hr.
    + apply (rep_ext _ t); try done. apply Hr.
Qed.

Lemma unlock_ok lg c D W t lg1 lg2 c' s u :
  rest lg c D W t -> sframe (locked lg1 t) s -> disk_idle s -> cache_rep (pid p) s c' -> disk s = D -> dwrites s = W ->
  u = s <| log := lg2 |> -> exists t', release LkLog u = Ret tt t' /\ lframe t t' /\ rest lg2 c' D W t'.
Proof.
  intros Hr [E Hw] Hi Hrep HD HW ->. pose proof (ar_run _ _ _ _ _ _ _ _ Hr) as Hru.
  pose proof (ru_env _ _ _ _ _ Hru) as He. pose proof (env_hw _ _ _ He) as Eh.
  assert (hw s = acquired h {[LkLog]} /\ out s = out t) as [Es Eo] by (split; rewrite E; clear; by destruct t, s).
  assert (env h {[LkLog]} (s <| log := lg2 |>)) as He1 by (split; [apply He|done|apply He]).
  exists (s <| log := lg2 |> <| hw := hw t |>). split; [|split].
  - rewrite (env_release h {[LkLog]}) by first [exact He1 | done | set_solver]. by rewrite difference_diag_L, Eh.
  - split; [|exact Hw]. transitivity (storage (locked lg1 t) s <| log := lg2 |> <| hw := hw t |>); [by rewrite <- E|].
    clear -Eo. destruct t, s. simpl in Eo. by subst.
  - split; try done; [|by apply (disk_idle_ext s)|by apply (rep_ext _ s)].
    destruct Hru as [_ ? ? Hp ? ? Ht]. split; try done; [|simpl|].
    + split; [apply He|exact Eh|apply He].
    + destruct (Forall2_lookup_l _ _ _ _ _ Hw Hp) as (q & Hq & [->|[? _] ]); [done|congruence].
    + unfold table_ok in *. simpl. rewrite <- (Forall2_length _ _ _ Hw). exact Ht.
Qed.

(** ** [begin_op] *)

Lemma begin_op_ok lg c D W t :
  rest lg c D W t -> log_state 0 [] lg ->
  exists t' lg', begin_op t = Ret tt t' /\ lframe t t' /\ rest lg' c D W t' /\ log_state 1 [] lg'.
Proof.
  intros Hr Hl. destruct (lock_ok lg c D W t Hr) as (Hs & Hf & _ & Hi & Hrep). unfold begin_op. mstep Hs.
  cbn [iterM]. msimpl. change (log (locked lg t)) with lg.
  rewrite (ls_committing _ _ _ Hl), (ls_n _ _ _ Hl), (ls_out _ _ _ Hl).
  change (negb (0 =? 0)) with false. change (Z.of_nat (length []) + (0 + 1) * Z.of_nat MAXOPBLOCKS >? Z.of_nat LOGBLOCKS) with false.
  cbv iota. unfold log_upd. msimpl.
  edestruct (unlock_ok lg c D W t lg (lg <| outstanding ::= fun n => n + 1 |>)) as (t' & Ht' & Hf' & Hr'); [exact Hr|exact Hf|done|done|apply Hr..|reflexivity|].
  mstep Ht'. msimpl. do 2 eexists. split; [reflexivity|]. split; [done|]. split; [exact Hr'|].
  destruct Hl. split; simpl; try done. lia.
Qed.

(** ** [log_write] *)

Lemma log_state_absorb bs lg j n :
  log_state 1 bs lg -> bs !! j = Some n ->
  log_state 1 bs (lg <| lh ::= fun y => y <| lh_block ::= <[j := n]> |> |>).
Proof.
  intros [] Hj. split; simpl; try done; [|by rewrite length_insert].
  intros k bn Hk. rewrite list_insert_id; by auto.
Qed.

Lemma log_state_add bs lg n :
  log_state 1 bs lg -> n ∉ bs -> 0 <= n < 2 ^ 31 -> ~ in_log st n -> (length bs < LOGBLOCKS)%nat ->
  log_state 1 (bs ++ [n]) (lg <| lh ::= fun y => y <| lh_block ::= <[length bs := n]> |> |>
                             <| lh ::= fun y => y <| lh_n ::= fun n => n + 1 |> |>).
Proof.
  intros [] Hn Hr Hl Hlt. split; simpl; try done.
  - rewrite length_app. simpl. lia.
  - intros j bn Hj. destruct (decide (j = length bs)) as [->|Hne].
    + rewrite lookup_app_r, Nat.sub_diag in Hj by lia. simplify_eq/=. apply list_lookup_insert_eq. lia.
    + rewrite list_lookup_insert_ne by done. apply ls_block0. apply lookup_lt_Some in Hj as Hlt'.
      rewrite length_app in Hlt'. simpl in Hlt'. by rewrite lookup_app_l in Hj by lia.
  - by rewrite length_insert.
  - apply NoDup_app. split; [done|]. split; [set_solver|apply NoDup_singleton].
  - rewrite length_app. simpl. lia.
  - apply Forall_app. split; [done|]. by constructor.
Qed.

Lemma log_write_ok bs lg c D W t n b :
  rest lg c D W t -> log_state 1 bs lg -> txn_refs bs c -> cv_held c !! n = Some b ->
  0 <= n < 2 ^ 31 -> ~ in_log st n -> (length bs < LOGBLOCKS)%nat ->
  exists t' lg' c', log_write b t = Ret tt t' /\ lframe t t' /\ rest lg' c' D W t' /\ log_state 1 (log_add n bs) lg'
    /\ txn_refs (log_add n bs) c' /\ cv_view c' = cv_view c /\ cv_held c' = cv_held c.
Proof.
  intros Hr Hl Htx Hn Hrg Hlog Hlt. destruct (lock_ok lg c D W t Hr) as (Hs & Hf & Hru & Hi & Hrep).
  unfold log_write. mstep Hs. msimpl. change (log (locked lg t)) with lg.
  rewrite (ls_n _ _ _ Hl), (ls_out _ _ _ Hl), Z.geb_leb, (proj2 (Z.leb_gt _ _)) by lia.
  change (1 <? 1) with false. cbv iota.
  destruct (cr_held _ _ _ Hrep n b Hn) as (_ & x & Hx & [_ Hbn] & _). mapply buf_get_ok by exact Hx.
  rewrite Hbn, Nat2Z.id, i32_small by lia.
  assert (Forall (fun b => 0 <= b < 2 ^ 31) bs) as Hbs by (eapply Forall_impl; [apply Hl|]; naive_solver).
  pose proof (ls_block _ _ _ Hl) as Hb. unfold log_add, log_upd. msimpl. case_decide as Hin.
  - apply list_elem_of_lookup in Hin as (j & Hj). pose proof (lookup_lt_Some _ _ _ Hj).
    rewrite (log_find_in n j bs) by (done || apply Hl). rewrite (proj2 (Z.eqb_neq _ _)) by lia. unfold when. msimpl.
    edestruct (unlock_ok lg c D W t lg (lg <| lh ::= fun y => y <| lh_block ::= <[j := n]> |> |>)) as (t' & Ht' & Hf' & Hr');
      [exact Hr|exact Hf|done|done|apply Hr..|reflexivity|].
    exists t', (lg <| lh ::= fun y => y <| lh_block ::= <[j := n]> |> |>), c. split; [exact Ht'|].
    split_and!; try done. by apply log_state_absorb.
  - rewrite (log_find_out n bs) by done. rewrite Z.eqb_refl. unfold when.
    set (lg1 := lg <| lh ::= fun y => y <| lh_block ::= <[length bs := n]> |> |>).
    assert (refs_of c n = 1) as Hrf.
    { unfold refs_of. rewrite Htx, (bool_decide_false _ Hin), Hn. by rewrite bool_decide_true. }
    destruct (bpin_ok h p {[LkLog]} (locked lg1 t) c n b) as (s & Hs1 & Hf1 & Hv1 & Hd1 & Hw1 & Hrep1); [| | |done|lia|].
    { apply (env_upd _ _ (locked lg t)); [apply Hru|done]. } { set_solver. } { by apply (rep_ext _ (locked lg t)). }
    rewrite bind_assoc. rewrite (bind_Ret _ _ _ _ _ (Hs1 : bpin b _ = _)). msimpl.
    edestruct (unlock_ok lg c D W t lg1 (lg1 <| lh ::= fun y => y <| lh_n ::= fun n => n + 1 |> |>)
      (c <| cv_refs ::= <[n := refs_of c n + 1]> |>) s) as (t' & Ht' & Hf' & Hr'); [exact Hr|exact Hf1| |exact Hrep1| | |reflexivity|].
    { apply (disk_idle_ext (locked lg t)); [exact Hv1|done]. }
    { rewrite Hd1. apply Hr. } { rewrite Hw1. apply Hr. }
    eexists t', _, _. split; [|split; [exact Hf'|split; [exact Hr'|]]].
    { rewrite <- Ht'. f_equal. pose proof (sframe_log _ _ Hf1) as El. change (log (locked lg1 t)) with lg1 in El.
      rewrite <- El. reflexivity. }
    split; [by apply log_state_add|]. split; [|by destruct c].
    intros m. simpl. destruct (decide (m = n)) as [->|Hne].
    + rewrite lookup_insert_eq, Hrf, !bool_decide_true by (set_solver || (rewrite Hn; done)). done.
    + rewrite lookup_insert_ne, Htx by done. f_equal. apply bool_decide_ext. set_solver.
Qed.

(** ** [end_op] *)

(** The writes [ws] to [D], cut off at any point, leave a disk that recovery
    turns into [D] or into [V]. *)
Definition all_or_nothing (D V : gmap Z (list Z)) (ws : list (Z * list Z)) : Prop :=
  forall k, disk_ok st (apply_writes D (take k ws))
    /\ ((forall n, ~ in_log st n -> logical st (apply_writes D (take k ws)) n = D !! n)
        \/ forall n, ~ in_log st n -> logical st (apply_writes D (take k ws)) n = V !! n).

(** A disk whose log is empty. *)
Definition clean (D : gmap Z (list Z)) : Prop := disk_ok st D /\ disk_blocks st D = [].

(** The end of a commit: [committing] is cleared and waiting operations are woken. *)
Lemma commit_end_ok lg c D W t :
  rest lg c D W t ->
  exists t', (acquire LkLog;; log_upd (fun l => l <| committing := 0 |>);; wakeup ChLog;; release LkLog) t = Ret tt t'
    /\ lframe t t' /\ rest (lg <| committing := 0 |>) c D W t'.
Proof.
  intros Hr. destruct (lock_ok lg c D W t Hr) as (Hs & Hf & Hru & Hi & Hrep). mstep Hs. unfold log_upd. msimpl.
  set (lg1 := lg <| committing := 0 |>).
  assert (env h {[LkLog]} (locked lg1 t)) as He by (apply (env_upd _ _ (locked lg t)); [apply Hru|done]).
  assert (no_plock {[LkLog]}) as Hno by (intros j Hj; set_solver).
  rewrite (bind_Ret _ _ _ _ _ (wakeup_ok h {[LkLog]} Hno ChLog (locked lg1 t) He (ru_table _ _ _ _ _ Hru))).
  apply (unlock_ok lg c D W t lg1 lg1 c (locked lg1 t <| procs := woken h ChLog (procs t) |>)); [exact Hr| | | |apply Hr..|reflexivity].
  - split; [by destruct t|]. apply woken_woke.
  - by apply (disk_idle_ext (locked lg t)).
  - by apply (rep_ext _ (locked lg t)).
Qed.

Lemma txn_refs_pins bs c : txn_refs bs c -> cv_held c = ∅ -> cv_refs c = pins bs.
Proof.
  intros Htx Hh. apply map_eq. intros n. rewrite Htx, Hh, lookup_empty, (bool_decide_false (is_Some None)) by apply is_Some_None.
  case_bool_decide; [by rewrite pins_in|by rewrite pins_out].
Qed.

Lemma rep_ref_view s c n k : cache_rep (pid p) s c -> cv_refs c !! n = Some k -> is_Some (cv_view c !! n).
Proof.
  intros Hrep Hn. destruct (cr_refs _ _ _ Hrep n) as (b & x & Hb & Hx & [_ <-] & Hrf); [by rewrite Hn|].
  destruct (cr_buf _ _ _ Hrep b x Hb Hx) as [[? _]|(_ & _ & _ & _ & ->)]; [done|by eexists].
Qed.

Lemma log_state_logged bs lg c D W t :
  rest lg c D W t -> log_state 1 bs lg -> cv_refs c = pins bs -> cv_held c = ∅ -> clean D ->
  logged (lg <| outstanding ::= fun n => n - 1 |> <| committing := 1 |>) st bs c.
Proof.
  intros Hr [] Href Hh [HD _]. split; simpl; try done.
  - intros j bn Hj. pose proof (list_elem_of_lookup_2 _ _ _ Hj) as Hin. rewrite Forall_forall in ls_ok0.
    destruct (ls_ok0 bn Hin). split; [by apply ls_block0|]. split; [done|]. split; [done|].
    eapply rep_ref_view; [apply Hr|]. rewrite Href. by apply pins_in.
  - intros n Hn. rewrite (rest_view h i p _ _ _ _ _ _ Hr); [by apply HD|]. rewrite Href. apply pins_out.
    rewrite Forall_forall in ls_ok0. intros Hin. by apply (ls_ok0 n).
Qed.

(** ** The state inside a transaction *)

(** The disk holds [D], the operation has logged the blocks [bs], sees the
    contents [V] and holds the buffers [B]. *)
Definition in_txn (D : gmap Z (list Z)) (W : list (Z * list Z)) (bs : list Z) (V : gmap Z (list Z)) (B : gmap Z nat)
    (t : kernel) : Prop :=
  exists lg c, rest lg c D W t /\ log_state 1 bs lg /\ txn_refs bs c /\ cv_view c = V /\ cv_held c = B
    /\ Forall (fun b => is_Some (D !! b)) bs /\ forall n, is_Some (V !! n) <-> is_Some (D !! n).

(** No operation is under way, and the cache is clean. *)
Definition quiescent (D : gmap Z (list Z)) (W : list (Z * list Z)) (t : kernel) : Prop :=
  exists lg c, rest lg c D W t /\ log_state 0 [] lg /\ cv_refs c = ∅ /\ cv_held c = ∅ /\ clean D.

Lemma txn_refs_size bs c : txn_refs bs c -> (size (cv_refs c) <= length bs + size (cv_held c))%nat.
Proof.
  intros Htx. rewrite <- !size_dom.
  pose proof (subseteq_size (dom (cv_refs c)) (list_to_set bs ∪ dom (cv_held c)) ltac:(
    intros n [k Hk]%elem_of_dom; rewrite Htx in Hk; rewrite elem_of_union, elem_of_list_to_set, elem_of_dom;
    do 2 case_bool_decide; try tauto; done)) as Hs.
  rewrite size_union_alt in Hs. pose proof (size_list_to_set_le bs).
  pose proof (subseteq_size (dom (cv_held c) ∖ list_to_set bs) (dom (cv_held c)) ltac:(set_solver)). lia.
Qed.

Lemma bread_txn D W bs V B t n d :
  in_txn D W bs V B t -> B !! n = None -> V !! n = Some d -> (length bs + size B < NBUF)%nat ->
  exists b t', bread ROOTDEV n t = Ret b t' /\ lframe t t' /\ in_txn D W bs V (<[n := b]> B) t'.
Proof.
  intros (lg & c & Hr & Hl & Htx & <- & <- & Hbs & HVD) Hn Hd Hroom. pose proof (txn_refs_size _ _ Htx).
  assert (refs_of c n + 1 < 2 ^ 32) as Hov.
  { unfold refs_of. rewrite Htx. do 2 case_bool_decide; simpl; lia. }
  destruct (bread_at h i p t t c D W n d (ar_run _ _ _ _ _ _ _ _ Hr) (storage_at_rest _ _ _ _ _ _ _ _ Hr)) as (b & t' & Hs & Hat);
    [done|done|done|right; lia|].
  destruct (at_rest_storage h i p lg c D W t _ _ _ _ Hr Hat) as [Hf Hr'].
  exists b, t'. split; [done|]. split; [done|]. exists lg, (took n b c). split_and!; try done.
  intros m. simpl. destruct (decide (m = n)) as [->|Hne].
  - rewrite !lookup_insert_eq. unfold refs_of. rewrite Htx, Hn. rewrite (bool_decide_true (is_Some (Some b))) by done.
    rewrite (bool_decide_false (is_Some None)) by apply is_Some_None. by case_bool_decide.
  - by rewrite !lookup_insert_ne, Htx by done.
Qed.

Lemma data_of_txn D W bs V B t n b d : in_txn D W bs V B t -> B !! n = Some b -> V !! n = Some d -> data_of b t = Ret d t.
Proof.
  intros (lg & c & Hr & _ & _ & <- & <- & _) Hn Hd. eapply data_of_at; [by apply (storage_at_rest h i p lg)|done..].
Qed.

Lemma set_data_txn D W bs V B t n b d :
  in_txn D W bs V B t -> B !! n = Some b -> length d = Z.to_nat BSIZE ->
  exists t', set_data b d t = Ret tt t' /\ lframe t t' /\ in_txn D W bs (<[n := d]> V) B t'.
Proof.
  intros (lg & c & Hr & Hl & Htx & <- & <- & Hbs & HVD) Hn Hd.
  destruct (set_data_at p t t c D W n b d (storage_at_rest _ _ _ _ _ _ _ _ Hr) Hn Hd) as (t' & Hs & Hat).
  destruct (at_rest_storage h i p lg c D W t _ _ _ _ Hr Hat) as [Hf Hr'].
  exists t'. split; [done|]. split; [done|]. exists lg, (c <| cv_view ::= <[n := d]> |>). split_and!; try done.
  intros m. rewrite <- HVD. destruct (decide (m = n)) as [->|]; [|by rewrite lookup_insert_ne].
  rewrite lookup_insert_eq. split; [intros _|done].
  destruct (rep_held (ar_rep _ _ _ _ _ _ _ _ Hr) n b Hn) as (x & _ & _ & _ & _ & _ & _ & Hv' & _). by rewrite Hv'.
Qed.

Lemma log_write_txn D W bs V B t n b :
  in_txn D W bs V B t -> B !! n = Some b -> 0 <= n < 2 ^ 31 -> ~ in_log st n -> (length bs < LOGBLOCKS)%nat ->
  exists t', log_write b t = Ret tt t' /\ lframe t t' /\ in_txn D W (log_add n bs) V B t'.
Proof.
  intros (lg & c & Hr & Hl & Htx & <- & <- & Hbs & HVD) Hn Hrg Hlog Hlt.
  destruct (log_write_ok bs lg c D W t n b Hr Hl Htx Hn Hrg Hlog Hlt) as (t' & lg' & c' & Hs & Hf & Hr' & Hl' & Htx' & Hv & Hh).
  exists t'. split; [done|]. split; [done|]. exists lg', c'. split_and!; try done.
  unfold log_add. case_decide; [done|]. apply Forall_app. split; [done|]. constructor; [|done].
  rewrite <- HVD.
  destruct (rep_held (ar_rep _ _ _ _ _ _ _ _ Hr) n b Hn) as (x & _ & _ & _ & _ & _ & _ & Hv' & _). by rewrite Hv'.
Qed.

Lemma brelse_txn D W bs V B t n b :
  in_txn D W bs V B t -> B !! n = Some b -> n ∈ bs \/ V !! n = D !! n ->
  exists t', brelse b t = Ret tt t' /\ lframe t t' /\ in_txn D W bs V (delete n B) t'.
Proof.
  intros (lg & c & Hr & Hl & Htx & <- & <- & Hbs & HVD) Hn Hcl.
  assert (cv_refs c !! n = Some (if bool_decide (n ∈ bs) then 2 else 1)) as Hrf.
  { rewrite Htx, Hn, (bool_decide_true (is_Some (Some b))) by done. by case_bool_decide. }
  destruct (brelse_at h i p t t c D W n b (ar_run _ _ _ _ _ _ _ _ Hr) (storage_at_rest _ _ _ _ _ _ _ _ Hr) Hn) as (t' & Hs & Hat).
  { unfold refs_of. rewrite Hrf. case_bool_decide; simpl; [done|]. intros _. tauto. }
  destruct (at_rest_storage h i p lg c D W t _ _ _ _ Hr Hat) as [Hf Hr'].
  exists t'. split; [done|]. split; [done|]. exists lg, (dropped n c). split_and!; try done.
  intros m. unfold dropped, put_refs, refs_of. rewrite Hrf. simpl. destruct (decide (m = n)) as [->|Hne].
  - rewrite lookup_delete_eq, (bool_decide_false (is_Some None)) by apply is_Some_None.
    case_bool_decide; simpl; [apply lookup_insert_eq|apply lookup_delete_eq].
  - rewrite lookup_delete_ne by done. rewrite <- Htx.
    case_bool_decide; simpl; [by rewrite lookup_insert_ne|by rewrite lookup_delete_ne].
Qed.

(** A block that is neither held nor logged is as on the disk. *)
Lemma txn_clean D W bs V B t n : in_txn D W bs V B t -> B !! n = None -> n ∉ bs -> V !! n = D !! n.
Proof.
  intros (lg & c & Hr & _ & Htx & <- & <- & _) Hn Hbs. apply (rest_view h i p _ _ _ _ _ _ Hr).
  by rewrite Htx, Hn, (bool_decide_false _ Hbs), (bool_decide_false (is_Some None)) by apply is_Some_None.
Qed.
Lemma txn_size D W bs V B t n d : in_txn D W bs V B t -> V !! n = Some d -> length d = Z.to_nat BSIZE.
Proof. intros (lg & c & Hr & _ & _ & <- & _) Hn. eapply (cr_size _ _ _ (ar_rep _ _ _ _ _ _ _ _ Hr)), Hn. Qed.
Lemma txn_env D W bs V B t : in_txn D W bs V B t -> env h ∅ t.
Proof. intros (lg & c & Hr & _). apply Hr. Qed.
Lemma txn_out D W bs V B t o : in_txn D W bs V B t -> lframe t (t <| out := o |>) /\ in_txn D W bs V B (t <| out := o |>).
Proof.
  intros (lg & c & Hr & Htx). destruct (rest_out h i p lg o c D W t Hr) as [Hf Hr']. split; [done|]. by exists lg, c.
Qed.

(** A buffer that is read and put back unchanged. *)
Lemma brelse_read_txn D W bs V B t n b :
  in_txn D W bs V (<[n := b]> B) t -> B !! n = None -> n ∈ bs \/ V !! n = D !! n ->
  exists t', brelse b t = Ret tt t' /\ lframe t t' /\ in_txn D W bs V B t'.
Proof.
  intros Hin Hn Hcl. destruct (brelse_txn D W bs V _ t n b Hin (lookup_insert_eq _ _ _) Hcl) as (t' & Hs & Hf & Hin').
  rewrite delete_insert_id in Hin' by done. by exists t'.
Qed.

Lemma begin_op_txn D W t :
  quiescent D W t -> exists t', begin_op t = Ret tt t' /\ lframe t t' /\ in_txn D W [] D ∅ t'.
Proof.
  intros (lg & c & Hr & Hl & Href & Hh & Hcl). destruct (begin_op_ok lg c D W t Hr Hl) as (t' & lg' & Hs & Hf & Hr' & Hl').
  exists t'. split; [done|]. split; [done|]. exists lg', c.
  split_and!; try done.
  - intros n. by rewrite Href, Hh, !lookup_empty, (bool_decide_false (is_Some None)) by apply is_Some_None.
  - apply map_eq. intros n. apply (rest_view h i p _ _ _ _ _ _ Hr'). by rewrite Href.
Qed.

(** Recovery after a crash at any point of the writes. *)
Definition recovers_to (D V : gmap Z (list Z)) (ws : list (Z * list Z)) : Prop :=
  forall k D', rtc (crashed st) (apply_writes D (take k ws)) D' ->
  forall h' i' p' lg' W' u, at_rest (disk_idle := disk_idle) h' i' p' lg' (fresh_cache D') D' W' u ->
  lg_dev lg' = ROOTDEV -> lg_start lg' = st -> length (lh_block (lh lg')) = LOGBLOCKS ->
  exists u', recover_from_log u = Ret tt u' /\ lh_n (lh (log u')) = 0 /\ disk_blocks st (disk u') = []
    /\ ((forall n, ~ in_log st n -> disk u' !! n = D !! n) \/ forall n, ~ in_log st n -> disk u' !! n = V !! n).

(** *** Commit and recovery *)
Context (Hst : 0 <= st) (Hst2 : st + Z.of_nat LOGBLOCKS + 1 < 2 ^ 31).

Lemma commit_atomic lg bs c D W t :
  rest lg c D W t -> lg_dev lg = ROOTDEV -> lg_start lg = st -> logged lg st bs c -> cv_refs c = pins bs ->
  (length bs < NBUF)%nat -> clean D -> Forall (fun b => is_Some (D !! b)) bs ->
  exists t' ws c', commit t = Ret tt t' /\ lframe t t' /\ rest (emptied lg) c' (apply_writes D ws) (W ++ ws) t'
    /\ cv_refs c' = ∅ /\ cv_held c' = ∅ /\ clean (apply_writes D ws) /\ all_or_nothing D (cv_view c) ws
    /\ forall n, ~ in_log st n -> apply_writes D ws !! n = cv_view c !! n.
Proof.
  intros Hr Hdev Hstart Hlo Href Hlen [HD Hempty] Hbs0.
  assert (forall n, n ∉ bs -> cv_view c !! n = D !! n) as HVD.
  { intros n Hn. apply (rest_view h i p _ _ _ _ _ _ Hr). rewrite Href. by apply pins_out. }
  destruct (decide (bs = [])) as [->|Hne].
  { exists t, [], c. unfold commit. mapply log_n_ok by apply Hr. rewrite (lo_n _ _ _ _ Hlo). split; [reflexivity|]. split; [reflexivity|].
    rewrite app_nil_r. simpl. split_and!; [|exact Href|apply Hlo|by split| |].
    - pose proof (lo_n _ _ _ _ Hlo) as E0. replace (emptied lg) with lg; [done|]. clear -E0. destruct lg as [? ? ? ? [n l] ].
      simpl in E0. by subst.
    - intros k. rewrite take_nil. split; [done|]. left. intros n _. apply logical_out. rewrite Hempty. set_solver.
    - intros n _. by rewrite HVD by set_solver. }
  destruct (do_area _ _ HD st (in_log_head st)) as [d0 Hd0].
  assert (Forall (fun b => 0 <= b < 2 ^ 31 /\ ~ in_log st b /\ is_Some (D !! b)) bs) as Hbs.
  { rewrite Forall_forall in *. intros b Hb. specialize (Hbs0 b Hb). apply list_elem_of_lookup in Hb as (j & Hj).
    destruct (lo_blk _ _ _ _ Hlo j b Hj) as (_ & ? & ? & _). done. }
  assert (forall n, n ∈ bs -> exists d, cv_view c !! n = Some d /\ length d = Z.to_nat BSIZE) as HV.
  { intros n (j & Hj)%list_elem_of_lookup. destruct (lo_blk _ _ _ _ Hlo j n Hj) as (_ & _ & _ & [d Hd]).
    exists d. split; [done|]. by apply (cr_size _ _ _ (ar_rep _ _ _ _ _ _ _ _ Hr) n). }
  pose proof (lo_len _ _ _ _ Hlo) as Hll. pose proof (lo_nodup _ _ _ _ Hlo) as Hnd.
  pose proof (commit_prefix st D (cv_view c) bs d0 HD Hempty Hd0 Hll Hnd Hbs HV HVD) as Hpre.
  destruct (commit_ok h i p st Hst Hst2 lg bs c D W t d0 Hr Hdev Hstart Hlo Href) as (t' & Hs & Hf & Hr');
    [destruct bs; [done|simpl in *; lia]|done|by apply committed_ok|].
  exists t', (commit_ws st D (cv_view c) bs d0), (wrote (commit_ws st D (cv_view c) bs d0) (c <| cv_refs := ∅ |>)).
  split_and!; [done..|apply Hlo| | |].
  - split; [|by apply commit_blocks]. destruct (Hpre (length (commit_ws st D (cv_view c) bs d0))) as [Hok _].
    by rewrite firstn_all in Hok.
  - intros k. destruct (Hpre k) as [Hok Hlog]. split; [done|]. case_decide; [left|right]; exact Hlog.
  - intros n Hn. apply (commit_done st D (cv_view c) bs d0 HD Hempty Hd0 Hll Hnd Hbs HV HVD n Hn).
Qed.

Lemma end_op_ok bs lg c D W t :
  rest lg c D W t -> log_state 1 bs lg -> txn_refs bs c -> cv_held c = ∅ -> (length bs < NBUF)%nat -> clean D ->
  Forall (fun b => is_Some (D !! b)) bs ->
  exists t' ws lg' c', end_op t = Ret tt t' /\ lframe t t' /\ rest lg' c' (apply_writes D ws) (W ++ ws) t'
    /\ log_state 0 [] lg' /\ cv_refs c' = ∅ /\ cv_held c' = ∅ /\ clean (apply_writes D ws)
    /\ all_or_nothing D (cv_view c) ws /\ forall n, ~ in_log st n -> apply_writes D ws !! n = cv_view c !! n.
Proof.
  intros Hr Hl Htx Hh Hlen Hcl Hbs. pose proof (txn_refs_pins _ _ Htx Hh) as Href.
  pose proof (log_state_logged _ _ _ _ _ _ Hr Hl Href Hh Hcl) as Hlo.
  destruct (lock_ok lg c D W t Hr) as (Hs & Hf & _ & Hi & Hrep). unfold end_op. mstep Hs. rewrite bind_log_upd. msimpl.
  change (log (upd log _ (locked lg t))) with (lg <| outstanding ::= fun n => n - 1 |>).
  change (committing (lg <| outstanding ::= fun n => n - 1 |>)) with (committing lg).
  change (outstanding (lg <| outstanding ::= fun n => n - 1 |>)) with (outstanding lg - 1).
  rewrite (ls_committing _ _ _ Hl), (ls_out _ _ _ Hl). change (negb (0 =? 0)) with false. change (1 - 1 =? 0) with true.
  cbv iota. rewrite bind_assoc, bind_log_upd. msimpl.
  edestruct (unlock_ok lg c D W t lg (lg <| outstanding ::= fun n => n - 1 |> <| committing := 1 |>)) as (t1 & Ht1 & Hf1 & Hr1);
    [exact Hr|exact Hf|done|done|apply Hr..|reflexivity|].
  rewrite (bind_Ret _ _ _ _ _ Ht1). unfold when.
  destruct (commit_atomic _ bs c D W t1 Hr1) as (t2 & ws & c' & Hs2 & Hf2 & Hr2 & Hrf & Hhd & Hcl2 & Haon & Hv); [apply Hl..|done|done|done|done|done|].
  mstep Hs2. destruct (commit_end_ok _ _ _ _ _ Hr2) as (t3 & Hs3 & Hf3 & Hr3).
  eexists t3, ws, _, c'. split; [exact Hs3|]. split; [etrans; [exact Hf1|]; etrans; [exact Hf2|exact Hf3]|].
  split; [exact Hr3|]. split; [|done].
  destruct Hl. split; simpl; first [done | lia | constructor].
Qed.

Lemma end_op_txn D W bs V t :
  in_txn D W bs V ∅ t -> (length bs < NBUF)%nat -> clean D ->
  exists t' ws, end_op t = Ret tt t' /\ lframe t t' /\ quiescent (apply_writes D ws) (W ++ ws) t'
    /\ all_or_nothing D V ws /\ forall n, ~ in_log st n -> apply_writes D ws !! n = V !! n.
Proof.
  intros (lg & c & Hr & Hl & Htx & <- & Hh & Hbs & _) Hlen Hcl.
  destruct (end_op_ok bs lg c D W t Hr Hl Htx Hh Hlen Hcl Hbs) as (t' & ws & lg' & c' & Hs & Hf & Hr' & Hl' & Href' & Hh' & Hcl' & Ha & Hv).
  exists t', ws. split; [done|]. split; [done|]. split; [by exists lg', c'|]. done.
Qed.

Lemma all_or_nothing_recovers D V ws : all_or_nothing D V ws -> recovers_to D V ws.
Proof.
  intros Ha k D' Hcr h' i' p' lg' W' u Hru Hdev' Hstart' Hlb'. destruct (Ha k) as [Hok Hlog].
  destruct (crashed_ok st _ _ Hcr Hok) as [Hok' Hlog'].
  destruct (recover_ok h' i' p' st Hst Hst2 lg' D' W' u Hru Hdev' Hstart' Hlb' Hok') as (u' & Hsu & _ & Hru').
  destruct (recovery_done st D' Hok') as [Hbl' Hfin].
  exists u'. split; [done|]. split; [by rewrite (ar_log _ _ _ _ _ _ _ _ Hru')|].
  rewrite (ar_disk _ _ _ _ _ _ _ _ Hru'). split; [done|].
  destruct Hlog as [Hl|Hl]; [left|right]; intros n Hn; by rewrite Hfin, Hlog', Hl.
Qed.
End txn.

(** C2: An operation between [begin_op] and [end_op] that keeps to the rules of the
    interface (it modifies a block only while it holds its buffer, logs what it
    modified before it lets go, lets go of every buffer, and logs fewer blocks
    than the cache has buffers) is atomic: it returns with its changes on disk
    and the file system ready for the next one, and after a crash at any point
    of its disk writes recovery finds all of its changes or none. *)
Theorem transaction_atomic `{Patience, Disk} disk_idle `{!DiskOk disk_idle} h i p st {A} (body : K A) Q D W t :
  0 <= st -> st + Z.of_nat LOGBLOCKS + 1 < 2 ^ 31 ->
  quiescent (disk_idle := disk_idle) h i p st D W t ->
  (forall u, lframe t u -> in_txn (disk_idle := disk_idle) h i p st D W [] D ∅ u ->
    exists a u' bs V, body u = Ret a u' /\ lframe u u' /\ in_txn (disk_idle := disk_idle) h i p st D W bs V ∅ u'
      /\ (length bs < NBUF)%nat /\ Q a V) ->
  exists a t' V ws, (begin_op;; r ← body; end_op;; mret r) t = Ret a t' /\ lframe t t' /\ Q a V
    /\ quiescent (disk_idle := disk_idle) h i p st (apply_writes D ws) (W ++ ws) t'
    /\ (forall n, ~ in_log st n -> apply_writes D ws !! n = V !! n)
    /\ recovers_to (disk_idle := disk_idle) st D V ws.
Proof.
  intros Hst Hst2 Hq Hbody. pose proof Hq as (_ & _ & _ & _ & _ & _ & Hcl).
  destruct (begin_op_txn h i p st D W t Hq) as (t1 & Hs1 & Hf1 & Hin1). mstep Hs1.
  destruct (Hbody t1 Hf1 Hin1) as (a & t2 & bs & V & Hs2 & Hf2 & Hin2 & Hlen & HQ). mstep Hs2.
  destruct (end_op_txn h i p st Hst Hst2 D W bs V t2 Hin2 Hlen Hcl) as (t3 & ws & Hs3 & Hf3 & Hq3 & Ha & Hv). mstep Hs3.
  exists a, t3, V, ws. split; [done|]. split; [by etrans; [|etrans]|]. split; [done|]. split; [done|]. split; [done|].
  by apply all_or_nothing_recovers.
Qed.

(** An operation that overwrites block 50. *)
Definition demo_op `{Patience, Disk} : K () :=
  b ← bread ROOTDEV 50; set_data b (block_of 7);; log_write b;; brelse b.

Lemma demo_quiescent :
  exists t, quiescent (disk_idle := fun _ => True) (boot_hart (Some 0%nat)) 0 disk_proc 2 demo_disk [] t.
Proof.
  destruct (demo_rest [] demo_disk ∅ (mkLog 2 0 0 ROOTDEV (mkLogheader 0 (replicate 30 0)))) as [t Ht]; [reflexivity|].
  exists t. eexists _, _. split; [exact Ht|]. split; [|split_and!; [done..|exact demo_ok] ].
  split; first [done | unfold LOGBLOCKS; simpl; lia | constructor].
Qed.

Lemma transaction_atomic_witness :
  exists t t' ws, (@begin_op 0%nat;; r ← @demo_op 0%nat sync_disk; @end_op 0%nat sync_disk;; mret r) t = Ret tt t'
    /\ demo_disk !! 50 = Some (block_of 0) /\ apply_writes demo_disk ws !! 50 = Some (block_of 7).
Proof.
  destruct demo_quiescent as [t Hq].
  destruct (@transaction_atomic 0%nat sync_disk (fun _ => True) sync_disk_ok (boot_hart (Some 0%nat)) 0 disk_proc 2 ()
    (@demo_op 0%nat sync_disk) (fun _ V => V !! 50 = Some (block_of 7)) demo_disk [] t) as ([] & t' & V & ws & Hs & _ & HV & _ & Hd & _).
  - lia.
  - vm_compute. reflexivity.
  - exact Hq.
  - intros u _ Hin. pose proof (demo_disk_at 50 ltac:(lia)) as H50. assert (~ in_log 2 50) as Hl by (unfold in_log, LOGBLOCKS; lia).
    destruct (@bread_txn 0%nat sync_disk _ sync_disk_ok _ _ _ _ _ _ _ _ _ _ 50 (block_of 0) Hin) as (b & u1 & Hs1 & Hf1 & Hin1);
      [done|exact H50|rewrite map_size_empty; unfold NBUF; simpl; lia|].
    destruct (@set_data_txn sync_disk _ sync_disk_ok _ _ _ _ _ _ _ _ _ _ 50 b (block_of 7) Hin1) as (u2 & Hs2 & Hf2 & Hin2);
      [apply lookup_insert_eq|reflexivity|].
    destruct (@log_write_txn sync_disk _ sync_disk_ok _ _ _ _ _ _ _ _ _ _ 50 b Hin2) as (u3 & Hs3 & Hf3 & Hin3);
      [apply lookup_insert_eq|lia|exact Hl|unfold LOGBLOCKS; simpl; lia|].
    destruct (@brelse_txn sync_disk _ sync_disk_ok _ _ _ _ _ _ _ _ _ _ 50 b Hin3) as (u4 & Hs4 & Hf4 & Hin4);
      [apply lookup_insert_eq|left; set_solver|].
    exists tt, u4, [50], (<[50 := block_of 7]> demo_disk). unfold demo_op. mstep Hs1. mstep Hs2. mstep Hs3. rewrite Hs4.
    split; [done|]. split; [by do 3 (etrans; [eassumption|])|]. rewrite delete_insert_id in Hin4 by done.
    split; [exact Hin4|]. split; [unfold NBUF; simpl; lia|apply lookup_insert_eq].
  - exists t, t', ws. split; [|split; [apply demo_disk_at; lia|rewrite Hd; [exact HV|unfold in_log, LOGBLOCKS; lia] ] ].
    exact Hs.
Defined.
