(* ===== verification/Fs.v ===== *)
(** * Inodes, directories and path names

    [kernel/fs.c] over the buffer cache and the log.  A [struct inode *] is an
    index into [itable]; a [struct dinode *] is a block with a byte offset in
    it. *)

From stdpp Require Import base numbers gmap sets strings option list.
From Stdlib Require Import Ascii.
From S2P Require Import Prelude Machine Spinlock CString Printf Kalloc Vm Proc Sleeplock Bio Log.

Definition FSMAGIC : Z := 0x10203040.
Definition ROOTINO : Z := 1.
Definition NINDIRECT : Z := BSIZE / 4.
Definition MAXFILE : Z := Z.of_nat NDIRECT + NINDIRECT.
Definition IPB : Z := 16.
Definition BPB : Z := BSIZE * 8.
Definition T_DIR : Z := 1.
Definition T_FILE : Z := 2.
Definition T_DEVICE : Z := 3.
Definition DINODE_SIZE : nat := 64.
Definition DIRENT_SIZE : Z := 16.

(** C [short] *)
Definition i16 (z : Z) : Z := (z + 2 ^ 15) mod 2 ^ 16 - 2 ^ 15.

Definition IBLOCK (i : Z) (sb : superblock) : Z := u32 (i / IPB + sb_inodestart sb).
Definition BBLOCK (b : Z) (sb : superblock) : Z := u32 (b / BPB + sb_bmapstart sb).

Definition inode_get (i : nat) : K inode := t ← gets itable; deref (t !! i).
Definition inode_upd (i : nat) (f : inode -> inode) : K () := modify (fun s => s <| itable ::= alter f i |>).

(** The on-disk inode at byte offset [o]: type 0, major 2, minor 4, nlink 6,
    size 8, addrs 12. *)
Definition dinode_off (inum : Z) : nat := Z.to_nat (inum mod IPB) * DINODE_SIZE.

Definition superblock_of (d : list Z) : superblock :=
  let w i := get32 d (4 * i)%nat in
  mkSuperblock (w 0%nat) (w 1%nat) (w 2%nat) (w 3%nat) (w 4%nat) (w 5%nat) (w 6%nat) (w 7%nat).

(** The bit of block [bi] in a bitmap block, as the code masks it. *)
Definition bit_mask (bi : Z) : Z := Z.shiftl 1 (bi mod 8).
Definition bit_clear (d : list Z) (bi : nat) : bool :=
  Z.land (nth (bi / 8) d 0) (bit_mask (Z.of_nat bi)) =? 0.

Section ops.
Context `{Link, Patience, Disk}.

Definition readsb (dev : Z) : K () :=
  bp ← bread dev 1;
  d ← data_of bp;
  modify (fun s => s <| sb := superblock_of d |>);;
  brelse bp.

Definition bzero (dev bno : Z) : K () :=
  bp ← bread dev bno;
  set_data bp (replicate (Z.to_nat BSIZE) 0);;
  log_write bp;;
  brelse bp.

(** ** Blocks *)

(** The loop over the bitmap blocks, [b] being the first block number of each. *)
Fixpoint balloc_loop (fuel : nat) (dev b : Z) : K Z :=
  match fuel with
  | O => hangs HFuel
  | S fuel =>
      sb ← gets sb;
      if b <? sb_size sb then
        bp ← bread dev (BBLOCK b sb);
        d ← data_of bp;
        match List.find (bit_clear d) (seq 0 (Z.to_nat (Z.min BPB (sb_size sb - b)))) with
        | Some bi =>
            set_data bp (alter (fun x => Z.lor x (bit_mask (Z.of_nat bi))) (bi / 8)%nat d);;
            log_write bp;;
            brelse bp;;
            bzero dev (b + Z.of_nat bi);;
            mret (b + Z.of_nat bi)
        | None => brelse bp;; balloc_loop fuel dev (b + BPB)
        end
      else printf "balloc: out of blocks\n" [];; mret 0
  end.
Definition balloc (dev : Z) : K Z :=
  sb ← gets sb;
  balloc_loop (Z.to_nat (sb_size sb / BPB) + 2) dev 0.

Definition bfree (dev b : Z) : K () :=
  sb ← gets sb;
  bp ← bread dev (BBLOCK b sb);
  let bi := Z.to_nat (b mod BPB) in
  d ← data_of bp;
  if bit_clear d bi then panic "freeing free block"
  else
    set_data bp (alter (fun x => Z.land x (Z.lnot (bit_mask (Z.of_nat bi)))) (bi / 8)%nat d);;
    log_write bp;;
    brelse bp.

(** ** The inode table *)

Definition iinit : K () :=
  initlock LkItable;;
  forM (seq 0 NINODE) (fun i => initsleeplock (SlInode i)).

(** The first entry for the inode, else the first free entry. *)
Fixpoint iget_scan (dev inum : Z) (t : list inode) (i : nat) (empty : option nat) : nat + option nat :=
  match t with
  | [] => inr empty
  | ip :: t =>
      if (i_ref ip >? 0) && (i_dev ip =? dev) && (i_inum ip =? inum) then inl i
      else
        let empty := match empty with
                     | None => if i_ref ip =? 0 then Some i else None
                     | Some e => Some e
                     end in
        iget_scan dev inum t (S i) empty
  end.

Definition iget (dev inum : Z) : K nat :=
  acquire LkItable;;
  t ← gets itable;
  match iget_scan dev inum t 0 None with
  | inl i =>
      inode_upd i (fun ip => ip <| i_ref ::= fun n => n + 1 |>);;
      release LkItable;;
      mret i
  | inr None => panic "iget: no inodes"
  | inr (Some i) =>
      inode_upd i (fun ip => ip <| i_dev := dev |> <| i_inum := inum |> <| i_ref := 1 |> <| i_valid := 0 |>);;
      release LkItable;;
      mret i
  end.

Definition ialloc (dev type : Z) : K (option nat) :=
  sb0 ← gets sb;
  r ← forM_until (seq 1 (Z.to_nat (sb_ninodes sb0) - 1)) (fun k =>
    let inum := Z.of_nat k in
    sb ← gets sb;
    bp ← bread dev (IBLOCK inum sb);
    d ← data_of bp;
    let o := dinode_off inum in
    if get16 d o =? 0 then
      set_data bp (put16 (list_inserts o (replicate DINODE_SIZE 0) d) o type);;
      log_write bp;;
      brelse bp;;
      i ← iget dev inum;
      mret (Some i)
    else brelse bp;; mret None);
  match r with
  | Some i => mret (Some i)
  | None => printf "ialloc: no inodes\n" [];; mret None
  end.

(** [d] with the fields of [ip] stored at offset [o]. *)
Definition put_dinode (d : list Z) (o : nat) (ip : inode) : list Z :=
  let d := put16 d o (i_type ip) in
  let d := put16 d (o + 2)%nat (i_major ip) in
  let d := put16 d (o + 4)%nat (i_minor ip) in
  let d := put16 d (o + 6)%nat (i_nlink ip) in
  let d := put32 d (o + 8)%nat (i_size ip) in
  list_inserts (o + 12)%nat (flat_map (le_bytes 4) (i_addrs ip)) d.

(** [ip] with its on-disk fields loaded from offset [o] of [d]. *)
Definition get_dinode (d : list Z) (o : nat) (ip : inode) : inode :=
  ip <| i_type := i16 (get16 d o) |> <| i_major := i16 (get16 d (o + 2)%nat) |>
     <| i_minor := i16 (get16 d (o + 4)%nat) |> <| i_nlink := i16 (get16 d (o + 6)%nat) |>
     <| i_size := get32 d (o + 8)%nat |>
     <| i_addrs := map (fun k => get32 d (o + 12 + 4 * k)%nat) (seq 0 (NDIRECT + 1)) |>.

Definition iupdate (i : nat) : K () :=
  sb ← gets sb;
  ip ← inode_get i;
  bp ← bread (i_dev ip) (IBLOCK (i_inum ip) sb);
  d ← data_of bp;
  set_data bp (put_dinode d (dinode_off (i_inum ip)) ip);;
  log_write bp;;
  brelse bp.

Definition idup (i : nat) : K nat :=
  acquire LkItable;;
  inode_upd i (fun ip => ip <| i_ref ::= fun n => n + 1 |>);;
  release LkItable;;
  mret i.

Definition ilock (i : nat) : K () :=
  ip ← inode_get i;
  if i_ref ip <? 1 then panic "ilock"
  else
    acquiresleep (SlInode i);;
    ip ← inode_get i;
    when (i_valid ip =? 0)
      (sb ← gets sb;
       bp ← bread (i_dev ip) (IBLOCK (i_inum ip) sb);
       d ← data_of bp;
       inode_upd i (get_dinode d (dinode_off (i_inum ip)));;
       brelse bp;;
       inode_upd i (fun ip => ip <| i_valid := 1 |>);;
       ip ← inode_get i;
       when (i_type ip =? 0) (panic "ilock: no type")).

Definition iunlock (i : nat) : K () :=
  h ← holdingsleep (SlInode i);
  ip ← inode_get i;
  if negb h || (i_ref ip <? 1) then panic "iunlock"
  else releasesleep (SlInode i).

(** Discard the contents. *)
Definition itrunc (i : nat) : K () :=
  forM (seq 0 NDIRECT) (fun k =>
    ip ← inode_get i;
    a ← deref (i_addrs ip !! k);
    when (negb (a =? 0))
      (bfree (i_dev ip) a;;
       inode_upd i (fun ip => ip <| i_addrs ::= <[k := 0]> |>)));;
  ip ← inode_get i;
  a ← deref (i_addrs ip !! NDIRECT);
  when (negb (a =? 0))
    (bp ← bread (i_dev ip) a;
     forM (seq 0 (Z.to_nat NINDIRECT)) (fun j =>
       d ← data_of bp;
       let e := get32 d (4 * j) in
       when (negb (e =? 0)) (bfree (i_dev ip) e));;
     brelse bp;;
     bfree (i_dev ip) a;;
     inode_upd i (fun ip => ip <| i_addrs ::= <[NDIRECT := 0]> |>));;
  inode_upd i (fun ip => ip <| i_size := 0 |>);;
  iupdate i.

Definition iput (i : nat) : K () :=
  acquire LkItable;;
  ip ← inode_get i;
  when ((i_ref ip =? 1) && negb (i_valid ip =? 0) && (i_nlink ip =? 0))
    (acquiresleep (SlInode i);;
     release LkItable;;
     itrunc i;;
     inode_upd i (fun ip => ip <| i_type := 0 |>);;
     iupdate i;;
     inode_upd i (fun ip => ip <| i_valid := 0 |>);;
     releasesleep (SlInode i);;
     acquire LkItable);;
  inode_upd i (fun ip => ip <| i_ref ::= fun n => n - 1 |>);;
  release LkItable.

Definition iunlockput (i : nat) : K () := iunlock i;; iput i.

Definition ireclaim (dev : Z) : K () :=
  sb0 ← gets sb;
  forM (seq 1 (Z.to_nat (sb_ninodes sb0) - 1)) (fun k =>
    let inum := Z.of_nat k in
    sb ← gets sb;
    bp ← bread dev (IBLOCK inum sb);
    d ← data_of bp;
    let o := dinode_off inum in
    ip ← (if negb (get16 d o =? 0) && (get16 d (o + 6)%nat =? 0) then
            printf "ireclaim: orphaned inode %d\n" [VInt inum];;
            i ← iget dev inum;
            mret (Some i)
          else mret None);
    brelse bp;;
    match ip with
    | Some i => begin_op;; ilock i;; iunlock i;; iput i;; end_op
    | None => mret tt
    end).

Definition fsinit (dev : Z) : K () :=
  readsb dev;;
  sb ← gets sb;
  if negb (sb_magic sb =? FSMAGIC) then panic "invalid file system"
  else initlog dev sb;; ireclaim dev.

(** ** Inode content *)

(** The disk block of the [bn]th block of the file, 0 when the disk is full. *)
Definition bmap (i : nat) (bn : Z) : K Z :=
  ip ← inode_get i;
  if bn <? Z.of_nat NDIRECT then
    a ← deref (i_addrs ip !! Z.to_nat bn);
    if a =? 0 then
      addr ← balloc (i_dev ip);
      if addr =? 0 then mret 0
      else inode_upd i (fun ip => ip <| i_addrs ::= <[Z.to_nat bn := addr]> |>);; mret addr
    else mret a
  else
    let bn := bn - Z.of_nat NDIRECT in
    if bn <? NINDIRECT then
      a ← deref (i_addrs ip !! NDIRECT);
      addr ← (if a =? 0 then
                addr ← balloc (i_dev ip);
                when (negb (addr =? 0)) (inode_upd i (fun ip => ip <| i_addrs ::= <[NDIRECT := addr]> |>));;
                mret addr
              else mret a);
      if addr =? 0 then mret 0
      else
        bp ← bread (i_dev ip) addr;
        d ← data_of bp;
        let e := get32 d (4 * Z.to_nat bn) in
        addr ← (if e =? 0 then
                  addr ← balloc (i_dev ip);
                  when (negb (addr =? 0))
                    (d ← data_of bp;
                     set_data bp (put32 d (4 * Z.to_nat bn) addr);;
                     log_write bp);;
                  mret addr
                else mret e);
        brelse bp;;
        mret addr
    else panic "bmap: out of range".

(** [struct stat] without its padding. *)
Definition stati (i : nat) : K (Z * Z * Z * Z * Z) :=
  ip ← inode_get i;
  mret (i_dev ip, i_inum ip, i_type ip, i_nlink ip, i_size ip).

(** Each turn reads the rest of one block; [acc] is what a kernel destination
    has received. *)
Fixpoint readi_loop (fuel : nat) (i : nat) (dst : option Z) (off n tot : Z) (acc : list Z) : K (Z * list Z) :=
  match fuel with
  | O => hangs HFuel
  | S fuel =>
      if tot <? n then
        addr ← bmap i (off / BSIZE);
        if addr =? 0 then mret (tot, acc)
        else
          ip ← inode_get i;
          bp ← bread (i_dev ip) addr;
          let m := Z.min (n - tot) (BSIZE - off mod BSIZE) in
          d ← data_of bp;
          '(r, bs) ← either_copyout dst (take (Z.to_nat m) (drop (Z.to_nat (off mod BSIZE)) d));
          if r =? -1 then brelse bp;; mret (-1, acc)
          else
            brelse bp;;
            readi_loop fuel i ((fun a => u64 (a + m)) <$> dst) (off + m) n (tot + m) (acc ++ bs)
      else mret (tot, acc)
  end.
Definition readi (i : nat) (dst : option Z) (off n : Z) : K (Z * list Z) :=
  ip ← inode_get i;
  if (off >? i_size ip) || (u32 (off + n) <? off) then mret (0, [])
  else
    let n := if u32 (off + n) >? i_size ip then i_size ip - off else n in
    '(tot, acc) ← readi_loop (Z.to_nat (n / BSIZE) + 3) i dst off n 0 [];
    mret (i32 tot, acc).

(** Returns [tot] and the final [off]. *)
Fixpoint writei_loop (fuel : nat) (i : nat) (src : Z + list Z) (off n tot : Z) : K (Z * Z) :=
  match fuel with
  | O => hangs HFuel
  | S fuel =>
      if tot <? n then
        addr ← bmap i (off / BSIZE);
        if addr =? 0 then mret (tot, off)
        else
          ip ← inode_get i;
          bp ← bread (i_dev ip) addr;
          let m := Z.min (n - tot) (BSIZE - off mod BSIZE) in
          '(r, bs) ← either_copyin src m;
          d ← data_of bp;
          set_data bp (list_inserts (Z.to_nat (off mod BSIZE)) bs d);;
          if r =? -1 then brelse bp;; mret (tot, off)
          else
            log_write bp;;
            brelse bp;;
            let src := match src with inl a => inl (u64 (a + m)) | inr l => inr (drop (Z.to_nat m) l) end in
            writei_loop fuel i src (off + m) n (tot + m)
      else mret (tot, off)
  end.
Definition writei (i : nat) (src : Z + list Z) (off n : Z) : K Z :=
  ip ← inode_get i;
  if (off >? i_size ip) || (u32 (off + n) <? off) then mret (-1)
  else if u32 (off + n) >? MAXFILE * BSIZE then mret (-1)
  else
    '(tot, off) ← writei_loop (Z.to_nat (n / BSIZE) + 3) i src off n 0;
    ip ← inode_get i;
    when (off >? i_size ip) (inode_upd i (fun ip => ip <| i_size := off |>));;
    iupdate i;;
    mret (i32 tot).

(** ** Directories *)

Definition namecmp (s t : list Z) : Z := strncmp (chars s) (chars t) (Z.of_nat DIRSIZ).

Definition de_inum (de : list Z) : Z := get16 de 0.
Definition de_name (de : list Z) : list Z := drop 2 de.

(** The inode and the offset of the entry, if there is one. *)
Definition dirlookup (dp : nat) (name : list Z) : K (option (nat * Z)) :=
  ip ← inode_get dp;
  if negb (i_type ip =? T_DIR) then panic "dirlookup not DIR"
  else
    iterM (Z.to_nat (i_size ip / DIRENT_SIZE) + 2) (fun off : Z =>
      ip ← inode_get dp;
      if off <? i_size ip then
        '(r, de) ← readi dp None off DIRENT_SIZE;
        if negb (r =? DIRENT_SIZE) then panic "dirlookup read"
        else if de_inum de =? 0 then mret (inl (off + DIRENT_SIZE))
        else if namecmp name (de_name de) =? 0 then
          i ← iget (i_dev ip) (de_inum de);
          mret (inr (Some (i, off)))
        else mret (inl (off + DIRENT_SIZE))
      else mret (inr None)) 0.

(** [strncpy(de.name, name, DIRSIZ)] *)
Definition dirent_name (name : list Z) : list Z :=
  read_bytes DIRSIZ (strncpy (fun _ => 0) 0 (chars name) (Z.of_nat DIRSIZ)) 0.
Definition dirent_bytes (inum : Z) (name : list Z) : list Z := le_bytes 2 inum ++ dirent_name name.

(** The offset of the first empty entry, or the end of the directory. *)
Definition find_slot (dp : nat) : K Z :=
  ip ← inode_get dp;
  iterM (Z.to_nat (i_size ip / DIRENT_SIZE) + 2) (fun off : Z =>
    ip ← inode_get dp;
    if off <? i_size ip then
      '(r, de) ← readi dp None off DIRENT_SIZE;
      if negb (r =? DIRENT_SIZE) then panic "dirlink read"
      else if de_inum de =? 0 then mret (inr off)
      else mret (inl (off + DIRENT_SIZE))
    else mret (inr off)) 0.

Definition dirlink (dp : nat) (name : list Z) (inum : Z) : K Z :=
  r ← dirlookup dp name;
  match r with
  | Some (i, _) => iput i;; mret (-1)
  | None =>
      off ← find_slot dp;
      r ← writei dp (inr (dirent_bytes inum name)) off DIRENT_SIZE;
      mret (if r =? DIRENT_SIZE then 0 else -1)
  end.
End ops.

(** ** Paths

    A C string is the list of its bytes without the NUL. *)

Definition is_slash (c : Z) : bool := c =? ch "/".

Fixpoint skip_slashes (path : list Z) : list Z :=
  match path with
  | c :: path' => if is_slash c then skip_slashes path' else path
  | [] => []
  end.
(** The element up to the next slash, and what follows it. *)
Fixpoint span_elem (path : list Z) : list Z * list Z :=
  match path with
  | c :: path' => if is_slash c then ([], path) else let '(e, r) := span_elem path' in (c :: e, r)
  | [] => ([], [])
  end.

(** The rest of the path and the new contents of the buffer [name]. *)
Definition skipelem (path name : list Z) : option (list Z * list Z) :=
  match skip_slashes path with
  | [] => None
  | path =>
      let '(s, rest) := span_elem path in
      let name := if (DIRSIZ <=? length s)%nat then list_inserts 0 (take DIRSIZ s) name
                  else list_inserts 0 (s ++ [0]) name in
      Some (skip_slashes rest, name)
  end.

Section namex.
Context `{Link, Patience, Disk}.

(** The inode, or none, and the contents of [name]. *)
Definition namex (path : list Z) (nameiparent : bool) (name : list Z) : K (option nat * list Z) :=
  ip ← (if is_slash (nth 0 path 0) then iget ROOTDEV ROOTINO
        else i ← myproc; i ← deref i; p ← proc_get i; c ← deref (cwd p); idup c);
  iterM (S (length path)) (fun '(ip, path, name) =>
    match skipelem path name with
    | None =>
        if nameiparent then iput ip;; mret (inr (None, name)) else mret (inr (Some ip, name))
    | Some (path, name) =>
        ilock ip;;
        x ← inode_get ip;
        if negb (i_type x =? T_DIR) then iunlockput ip;; mret (inr (None, name))
        else if nameiparent && bool_decide (path = []) then iunlock ip;; mret (inr (Some ip, name))
        else
          r ← dirlookup ip name;
          match r with
          | None => iunlockput ip;; mret (inr (None, name))
          | Some (next, _) => iunlockput ip;; mret (inl (next, path, name))
          end
    end) (ip, path, name).

(** [char name[DIRSIZ]] of [namei] is not seen by the caller. *)
Definition namei (path : list Z) : K (option nat) :=
  '(ip, _) ← namex path false (replicate DIRSIZ 0); mret ip.
Definition nameiparent (path name : list Z) : K (option nat * list Z) := namex path true name.
End namex.
