(* ===== verification/FsSpec.v ===== *)
(** * The free block bitmap and the inodes on disk

    What [balloc] and [bfree] do to the set of blocks in use, inside a
    transaction, and that [iupdate] and [ilock] move an inode to the disk and
    back. *)

From stdpp Require Import base numbers gmap sets strings option functions list.
From S2P Require Import Prelude Machine Spinlock CString Printf Kalloc Vm Proc ProcSpec.
From S2P Require Import Sleeplock SleeplockSpec Bio BlockData Cache CacheSpec Log LogSpec Crash Txn Fs.

(** ** Bits of a bitmap block *)

Lemma bit_clear_testbit d bi : bit_clear d bi = negb (Z.testbit (nth (bi / 8) d 0) (Z.of_nat bi mod 8)).
Proof.
  unfold bit_clear, bit_mask. set (x := nth (bi / 8) d 0). set (k := Z.of_nat bi mod 8).
  assert (0 <= k) as Hk by (apply Z.mod_pos_bound; lia).
  destruct (Z.testbit x k) eqn:E; simpl.
  - apply Z.eqb_neq. intros E0. pose proof (f_equal (fun z => Z.testbit z k) E0) as E1. simpl in E1.
    rewrite Z.land_spec, E, Z.shiftl_spec, Z.sub_diag, Z.bits_0 in E1 by lia. done.
  - apply Z.eqb_eq. apply Z.bits_inj'. intros n Hn. rewrite Z.land_spec, Z.bits_0, Z.shiftl_spec by lia.
    destruct (decide (n = k)) as [->|Hne]; [by rewrite E|].
    destruct (Z.testbit 1 (n - k)) eqn:E1; [|by rewrite andb_false_r].
    destruct (Z_lt_le_dec (n - k) 0); [by rewrite Z.testbit_neg_r in E1 by lia|].
    rewrite (Z.bits_above_log2 1 (n - k)) in E1 by (simpl; lia). done.
Qed.

Lemma mask_testbit bi k : 0 <= k < 8 -> Z.testbit (bit_mask (Z.of_nat bi)) k = bool_decide (k = Z.of_nat bi mod 8).
Proof.
  intros Hk. unfold bit_mask. rewrite Z.shiftl_spec by lia. pose proof (Z.mod_pos_bound (Z.of_nat bi) 8 ltac:(lia)).
  case_bool_decide as E; [by rewrite E, Z.sub_diag|].
  destruct (Z_lt_le_dec (k - Z.of_nat bi mod 8) 0); [by rewrite Z.testbit_neg_r by lia|].
  apply Z.bits_above_log2; simpl; lia.
Qed.

Lemma same_bit (bi bj : nat) : (bi / 8 = bj / 8)%nat /\ Z.of_nat bj mod 8 = Z.of_nat bi mod 8 <-> bi = bj.
Proof.
  split; [|by intros ->]. intros [E1 E2]. rewrite <- (Nat2Z.inj_mod _ 8), <- (Nat2Z.inj_mod _ 8) in E2.
  pose proof (Nat.div_mod_eq bi 8). pose proof (Nat.div_mod_eq bj 8). lia.
Qed.

Lemma bit_clear_alter d bi bj f :
  (bi / 8 < length d)%nat -> (forall x, x = nth (bi / 8) d 0 -> forall k, 0 <= k < 8 -> k <> Z.of_nat bi mod 8 -> Z.testbit (f x) k = Z.testbit x k) ->
  bit_clear (alter f (bi / 8)%nat d) bj =
    if decide (bi = bj) then negb (Z.testbit (f (nth (bi / 8) d 0)) (Z.of_nat bi mod 8)) else bit_clear d bj.
Proof.
  intros Hlt Hf. rewrite !bit_clear_testbit. rewrite !(nth_lookup (alter _ _ _)).
  destruct (decide ((bi / 8 = bj / 8)%nat)) as [E|Hne].
  - rewrite <- E, list_lookup_alter_eq. destruct (lookup_lt_is_Some_2 d (bi / 8) Hlt) as [x Hx].
    rewrite (nth_lookup_Some _ _ _ _ Hx), Hx. simpl. case_decide as Hd; [by subst|].
    f_equal. apply Hf; [by rewrite (nth_lookup_Some _ _ _ _ Hx)|apply Z.mod_pos_bound; lia|].
    intros E2. by apply Hd, same_bit.
  - rewrite list_lookup_alter_ne by done. rewrite decide_False by (by intros ->). by rewrite nth_lookup.
Qed.

Lemma bit_clear_set d bi bj : (bi / 8 < length d)%nat ->
  bit_clear (alter (fun x => Z.lor x (bit_mask (Z.of_nat bi))) (bi / 8)%nat d) bj = bit_clear d bj && negb (bool_decide (bi = bj)).
Proof.
  intros Hlt. rewrite bit_clear_alter; [|done|].
  - case_decide; [subst|by rewrite bool_decide_false, andb_true_r].
    rewrite bool_decide_true, andb_false_r by done. rewrite Z.lor_spec, mask_testbit, bool_decide_true, orb_true_r; [done..|].
    apply Z.mod_pos_bound; lia.
  - intros x _ k Hk Hne. by rewrite Z.lor_spec, mask_testbit, bool_decide_false, orb_false_r.
Qed.

Lemma bit_clear_unset d bi bj : (bi / 8 < length d)%nat ->
  bit_clear (alter (fun x => Z.land x (Z.lnot (bit_mask (Z.of_nat bi)))) (bi / 8)%nat d) bj = bit_clear d bj || bool_decide (bi = bj).
Proof.
  intros Hlt. rewrite bit_clear_alter; [|done|].
  - case_decide; [subst|by rewrite bool_decide_false, orb_false_r].
    pose proof (Z.mod_pos_bound (Z.of_nat bj) 8 ltac:(lia)).
    rewrite bool_decide_true, orb_true_r by done. rewrite Z.land_spec, Z.lnot_spec, mask_testbit, bool_decide_true, andb_false_r; [done..|lia].
  - intros x _ k Hk Hne. by rewrite Z.land_spec, Z.lnot_spec, mask_testbit, bool_decide_false, andb_true_r by lia.
Qed.

(** ** Allocation *)

Lemma lframe_sb t t' : lframe t t' -> sb t' = sb t.
Proof. intros [-> _]. by destruct t, t'. Qed.

Lemma lframe_itable t t' : lframe t t' -> itable t' = itable t.
Proof. intros [-> _]. by destruct t, t'. Qed.

(** Block [b] is in use according to the bitmap. *)
Definition used (sb0 : superblock) (V : gmap Z (list Z)) (b : Z) : bool :=
  match V !! BBLOCK b sb0 with
  | Some d => negb (bit_clear d (Z.to_nat (b mod BPB)))
  | None => false
  end.

(** The bitmap covers the disk, and what it says is free may be given out: it
    is neither part of the log nor of the bitmap. *)
Record bitmap_ok (st : Z) (sb0 : superblock) (V : gmap Z (list Z)) : Prop := {
  bm_size : 0 <= sb_size sb0 < 2 ^ 31;
  bm_start : 0 <= sb_bmapstart sb0 /\ sb_bmapstart sb0 + sb_size sb0 / BPB < 2 ^ 31;
  bm_block : forall b, 0 <= b < sb_size sb0 -> is_Some (V !! BBLOCK b sb0) /\ ~ in_log st (BBLOCK b sb0);
  bm_free : forall b, 0 <= b < sb_size sb0 -> used sb0 V b = false ->
    is_Some (V !! b) /\ ~ in_log st b /\ forall b', 0 <= b' < sb_size sb0 -> BBLOCK b' sb0 <> b
}.

Lemma BPB_eq : BPB = 8192.
Proof. reflexivity. Qed.

Lemma BBLOCK_eq st sb0 V b : bitmap_ok st sb0 V -> 0 <= b < sb_size sb0 -> BBLOCK b sb0 = b / BPB + sb_bmapstart sb0.
Proof.
  intros [? [? ?] _ _] Hb. unfold BBLOCK. apply u32_small.
  pose proof (Z.div_le_mono b (sb_size sb0) BPB ltac:(rewrite BPB_eq; lia) ltac:(lia)).
  pose proof (Z.div_pos b BPB ltac:(lia) ltac:(rewrite BPB_eq; lia)). lia.
Qed.

(** Blocks [k * BPB + bi] share the bitmap block of [k * BPB]. *)
Lemma block_split k bi : 0 <= k -> 0 <= bi < BPB -> (k * BPB + bi) / BPB = k /\ (k * BPB + bi) mod BPB = bi.
Proof.
  intros Hk Hbi. rewrite BPB_eq in *. split.
  - symmetry. apply (Z.div_unique_pos _ _ _ bi); lia.
  - symmetry. apply (Z.mod_unique_pos _ _ k); lia.
Qed.

(** The bitmap after a bit was set or cleared. *)
Lemma used_insert st sb0 V b b' d f :
  bitmap_ok st sb0 V -> 0 <= b < sb_size sb0 -> 0 <= b' < sb_size sb0 -> V !! BBLOCK b sb0 = Some d ->
  (forall bj, bit_clear (f d) bj = if decide (Z.to_nat (b mod BPB) = bj) then bit_clear (f d) bj else bit_clear d bj) ->
  used sb0 (<[BBLOCK b sb0 := f d]> V) b' = if decide (b' = b) then negb (bit_clear (f d) (Z.to_nat (b mod BPB))) else used sb0 V b'.
Proof.
  intros Hok Hb Hb' Hd Hf. unfold used. destruct (decide (BBLOCK b' sb0 = BBLOCK b sb0)) as [E|Hne].
  - rewrite E, lookup_insert_eq, Hd. rewrite Hf.
    rewrite !(BBLOCK_eq st sb0 V) in E by done.
    pose proof (Z.mod_pos_bound b BPB ltac:(rewrite BPB_eq; lia)). pose proof (Z.mod_pos_bound b' BPB ltac:(rewrite BPB_eq; lia)).
    destruct (decide (b' = b)) as [->|Hn]; [by rewrite decide_True by done|].
    rewrite decide_False; [done|]. intros Em. apply Hn.
    rewrite (Z.div_mod b BPB), (Z.div_mod b' BPB) by (rewrite BPB_eq; lia). nia.
  - rewrite lookup_insert_ne by done. rewrite decide_False by (by intros ->). done.
Qed.

Section blocks.
Context `{Patience, Disk} {disk_idle : kernel -> Prop} `{!DiskOk disk_idle}.
Context (h : hart) (i : nat) (p : proc) (st : Z) (D : gmap Z (list Z)) (W : list (Z * list Z)).
Abbreviation txn := (in_txn (disk_idle := disk_idle) h i p st D W).

Definition zeros : list Z := replicate (Z.to_nat BSIZE) 0.

(** Data is replaced, logged and the buffer given back. *)
Lemma put_block_txn bs V B t n b d :
  txn bs V (<[n := b]> B) t -> B !! n = None -> length d = Z.to_nat BSIZE -> 0 <= n < 2 ^ 31 -> ~ in_log st n ->
  (length bs < LOGBLOCKS)%nat ->
  exists t1 t2 t', set_data b d t = Ret tt t1 /\ log_write b t1 = Ret tt t2 /\ brelse b t2 = Ret tt t' /\ lframe t t'
    /\ txn (log_add n bs) (<[n := d]> V) B t'.
Proof.
  intros Hin Hn Hd Hr Hl Hlen.
  destruct (set_data_txn h i p st D W bs V _ t n b d Hin) as (t1 & Hs1 & Hf1 & Hin1); [apply lookup_insert_eq|done|].
  destruct (log_write_txn h i p st D W bs _ _ t1 n b Hin1) as (t2 & Hs2 & Hf2 & Hin2); [apply lookup_insert_eq|done..|].
  destruct (brelse_read_txn h i p st D W _ _ B t2 n b Hin2 Hn) as (t3 & Hs3 & Hf3 & Hin3).
  { left. unfold log_add. case_decide; set_solver. }
  exists t1, t2, t3. do 3 (split; [done|]). split; [|done]. by do 2 (etrans; [eassumption|]).
Qed.

Lemma bzero_txn bs V B t n :
  txn bs V B t -> B !! n = None -> is_Some (V !! n) -> 0 <= n < 2 ^ 31 -> ~ in_log st n ->
  (length bs < LOGBLOCKS)%nat -> (length bs + size B < NBUF)%nat ->
  exists t', bzero ROOTDEV n t = Ret tt t' /\ lframe t t' /\ txn (log_add n bs) (<[n := zeros]> V) B t'.
Proof.
  intros Hin Hn [d Hd] Hr Hl Hlen Hroom.
  destruct (bread_txn h i p st D W bs V B t n d Hin Hn Hd Hroom) as (b & t1 & Hs1 & Hf1 & Hin1).
  destruct (put_block_txn bs V B t1 n b zeros Hin1 Hn) as (u1 & u2 & t2 & Hu1 & Hu2 & Hs2 & Hf2 & Hin2); [apply length_replicate|done..|].
  exists t2. unfold bzero. mstep Hs1. mstep Hu1. mstep Hu2. split; [exact Hs2|]. split; [by etrans|done].
Qed.

Section bitmap.
Context (sb0 : superblock) (V : gmap Z (list Z)) (Hok : bitmap_ok st sb0 V).

Lemma bitmap_range b : 0 <= b < sb_size sb0 -> 0 <= BBLOCK b sb0 < 2 ^ 31.
Proof.
  intros Hb. rewrite (BBLOCK_eq st sb0 V b Hok Hb). destruct Hok as [? [? ?] _ _].
  pose proof (Z.div_le_mono b (sb_size sb0) BPB ltac:(rewrite BPB_eq; lia) ltac:(lia)).
  pose proof (Z.div_pos b BPB ltac:(lia) ltac:(rewrite BPB_eq; lia)). lia.
Qed.

Lemma bit_index (d : list Z) b : length d = Z.to_nat BSIZE -> (Z.to_nat (b mod BPB) / 8 < length d)%nat.
Proof.
  intros ->. pose proof (Z.mod_pos_bound b BPB ltac:(rewrite BPB_eq; lia)) as Hb. rewrite BPB_eq in *.
  apply Nat.Div0.div_lt_upper_bound. unfold BSIZE. lia.
Qed.

Definition mark (b : Z) (d : list Z) : list Z :=
  let bi := Z.to_nat (b mod BPB) in alter (fun x => Z.lor x (bit_mask (Z.of_nat bi))) (bi / 8)%nat d.
Definition unmark (b : Z) (d : list Z) : list Z :=
  let bi := Z.to_nat (b mod BPB) in alter (fun x => Z.land x (Z.lnot (bit_mask (Z.of_nat bi)))) (bi / 8)%nat d.

Lemma used_mark b b' d :
  0 <= b < sb_size sb0 -> 0 <= b' < sb_size sb0 -> V !! BBLOCK b sb0 = Some d -> length d = Z.to_nat BSIZE ->
  used sb0 (<[BBLOCK b sb0 := mark b d]> V) b' = (b' =? b) || used sb0 V b'.
Proof.
  intros Hb Hb' Hd Hl. pose proof (bit_index d b Hl) as Hi. rewrite (used_insert st sb0 V b b' d (mark b)) by
    (first [done | intros bj; unfold mark; rewrite bit_clear_set by done; case_decide; [done|by rewrite bool_decide_false, andb_true_r] ]).
  unfold mark. rewrite bit_clear_set, bool_decide_true, andb_false_r by done.
  case_decide; [subst; by rewrite Z.eqb_refl|]. by rewrite (proj2 (Z.eqb_neq _ _)).
Qed.

Lemma used_unmark b b' d :
  0 <= b < sb_size sb0 -> 0 <= b' < sb_size sb0 -> V !! BBLOCK b sb0 = Some d -> length d = Z.to_nat BSIZE ->
  used sb0 (<[BBLOCK b sb0 := unmark b d]> V) b' = negb (b' =? b) && used sb0 V b'.
Proof.
  intros Hb Hb' Hd Hl. pose proof (bit_index d b Hl) as Hi. rewrite (used_insert st sb0 V b b' d (unmark b)) by
    (first [done | intros bj; unfold unmark; rewrite bit_clear_unset by done; case_decide; [done|by rewrite bool_decide_false, orb_false_r] ]).
  unfold unmark. rewrite bit_clear_unset, bool_decide_true, orb_true_r by done.
  case_decide; [subst; by rewrite Z.eqb_refl|]. by rewrite (proj2 (Z.eqb_neq _ _)).
Qed.

(** [bfree] clears the bit, and panics on a block that is free already. *)
Lemma bfree_txn bs B t b :
  txn bs V B t -> sb t = sb0 -> 0 <= b < sb_size sb0 -> B !! BBLOCK b sb0 = None ->
  (length bs < LOGBLOCKS)%nat -> (length bs + size B < NBUF)%nat ->
  if used sb0 V b then exists t' d, bfree ROOTDEV b t = Ret tt t' /\ lframe t t' /\ V !! BBLOCK b sb0 = Some d
    /\ length d = Z.to_nat BSIZE /\ txn (log_add (BBLOCK b sb0) bs) (<[BBLOCK b sb0 := unmark b d]> V) B t'
  else bfree ROOTDEV b t = Panic "freeing free block".
Proof.
  intros Hin Hsb Hb Hn Hlen Hroom. destruct (bm_block _ _ _ Hok b Hb) as [[d Hd] Hl].
  destruct (bread_txn h i p st D W bs V B t _ d Hin Hn Hd Hroom) as (bp & t1 & Hs1 & Hf1 & Hin1).
  assert (bfree ROOTDEV b t = (if bit_clear d (Z.to_nat (b mod BPB)) then panic "freeing free block"
    else set_data bp (unmark b d);; log_write bp;; brelse bp) t1) as E.
  { unfold bfree. msimpl. rewrite Hsb. mstep Hs1.
    mapply (data_of_txn h i p st D W bs V _ t1) by first [exact Hin1 | apply lookup_insert_eq | exact Hd]. done. }
  unfold used. rewrite Hd, E. destruct (bit_clear d _); simpl; [done|].
  pose proof (txn_size h i p st D W _ _ _ _ _ _ Hin Hd) as Hsz.
  destruct (put_block_txn bs V B t1 _ bp (unmark b d) Hin1 Hn) as (u1 & u2 & t2 & Hu1 & Hu2 & Hs2 & Hf2 & Hin2); [|by apply bitmap_range|done|done|].
  { unfold unmark. by rewrite length_alter. }
  exists t2, d. mstep Hu1. mstep Hu2. split; [done|]. split; [by etrans|]. done.
Qed.

(** The outcome of an allocation: the first free block, marked and zeroed, or
    0 and no change when there is none. *)
Definition alloc_post (bs : list Z) (B : gmap Z nat) (r : Z) (t : kernel) : Prop :=
  (exists d, 0 <= r < sb_size sb0 /\ used sb0 V r = false /\ (forall b, 0 <= b < r -> used sb0 V b = true)
     /\ V !! BBLOCK r sb0 = Some d /\ length d = Z.to_nat BSIZE
     /\ txn (log_add r (log_add (BBLOCK r sb0) bs)) (<[r := zeros]> (<[BBLOCK r sb0 := mark r d]> V)) B t)
  \/ (r = 0 /\ (forall b, 0 <= b < sb_size sb0 -> used sb0 V b = true) /\ txn bs V B t).

(** One bitmap block: its first clear bit below [m] is a free block, or the
    blocks it stands for are all in use. *)
Lemma scan_used k d m :
  0 <= k -> V !! BBLOCK (k * BPB) sb0 = Some d -> 0 <= m <= BPB -> k * BPB + m <= sb_size sb0 ->
  (forall b, 0 <= b < sb_size sb0 -> b < k * BPB -> used sb0 V b = true) ->
  match List.find (bit_clear d) (seq 0 (Z.to_nat m)) with
  | Some bi => 0 <= Z.of_nat bi < m /\ used sb0 V (k * BPB + Z.of_nat bi) = false
      /\ forall b, 0 <= b < k * BPB + Z.of_nat bi -> used sb0 V b = true
  | None => forall b, 0 <= b < k * BPB + m -> used sb0 V b = true
  end.
Proof.
  intros Hk Hd Hm Hsz Hlow.
  assert (forall j : nat, Z.of_nat j < m -> used sb0 V (k * BPB + Z.of_nat j) = negb (bit_clear d j)) as Hu.
  { intros j Hj. destruct (block_split k (Z.of_nat j) Hk ltac:(lia)) as [E1 E2]. unfold used.
    assert (BBLOCK (k * BPB + Z.of_nat j) sb0 = BBLOCK (k * BPB) sb0) as ->.
    { unfold BBLOCK. rewrite E1, Z.div_mul by (rewrite BPB_eq; lia). done. }
    by rewrite Hd, E2, Nat2Z.id. }
  assert (forall (n : nat) b, (forall j, (j < n)%nat -> bit_clear d j = false) -> Z.of_nat n <= m -> 0 <= b < k * BPB + Z.of_nat n ->
    used sb0 V b = true) as Hall.
  { intros n b Hn Hnm Hb. destruct (Z_lt_le_dec b (k * BPB)); [apply Hlow; lia|].
    replace b with (k * BPB + Z.of_nat (Z.to_nat (b - k * BPB))) by lia.
    rewrite Hu, Hn by lia. done. }
  destruct (List.find _ _) as [bi|] eqn:E.
  - apply find_seq_Some in E as (Hbi & Hc & Hlt). split; [lia|]. split; [rewrite Hu, Hc by lia; done|].
    intros b Hb. apply (Hall bi); [|lia|done]. intros j Hj. apply Hlt. lia.
  - intros b Hb. apply (Hall (Z.to_nat m)); [|lia|lia]. intros j Hj. apply (find_none _ _ E). apply in_seq. lia.
Qed.

Context (bs : list Z) (B : gmap Z nat).
Context (Hlen : (length bs + 1 < LOGBLOCKS)%nat) (Hroom : (length bs + 1 + size B < NBUF)%nat).
Context (Hheld : forall b, 0 <= b < sb_size sb0 -> B !! BBLOCK b sb0 = None).
Context (Hfree : forall b, 0 <= b < sb_size sb0 -> used sb0 V b = false -> B !! b = None).

(** The allocation once the bit has been found. *)
Lemma take_block_txn t b bp d :
  txn bs V (<[BBLOCK b sb0 := bp]> B) t -> 0 <= b < sb_size sb0 -> used sb0 V b = false ->
  (forall b', 0 <= b' < b -> used sb0 V b' = true) -> V !! BBLOCK b sb0 = Some d ->
  exists t', (set_data bp (mark b d);; log_write bp;; brelse bp;; bzero ROOTDEV b;; mret b) t = Ret b t'
    /\ lframe t t' /\ alloc_post bs B b t'.
Proof.
  intros Hin Hb Hu Hlow Hd. pose proof (txn_size h i p st D W _ _ _ _ _ _ Hin Hd) as Hsz.
  destruct (bm_block _ _ _ Hok b Hb) as [_ Hl]. destruct (bm_free _ _ _ Hok b Hb Hu) as (Hv & Hlb & Hnb).
  destruct (put_block_txn bs V B t _ bp (mark b d) Hin (Hheld b Hb)) as (u1 & u2 & t1 & Hu1 & Hu2 & Hs1 & Hf1 & Hin1);
    [unfold mark; by rewrite length_alter|by apply bitmap_range|done|lia|].
  pose proof (log_add_length (BBLOCK b sb0) bs).
  destruct (bzero_txn _ _ B t1 b Hin1 (Hfree b Hb Hu)) as (t2 & Hs2 & Hf2 & Hin2);
    [by rewrite lookup_insert_ne by (by apply Hnb)|pose proof (bm_size _ _ _ Hok); lia|done|lia|lia|].
  exists t2. split; [|split; [by etrans|left; by exists d]].
  mstep Hu1. mstep Hu2. mstep Hs1. mstep Hs2. done.
Qed.

Lemma balloc_loop_txn fuel : forall k t,
  txn bs V B t -> sb t = sb0 -> 0 <= k -> (1 <= fuel)%nat -> sb_size sb0 - k * BPB <= BPB * (Z.of_nat fuel - 1) ->
  (forall b, 0 <= b < sb_size sb0 -> b < k * BPB -> used sb0 V b = true) ->
  exists r t', balloc_loop fuel ROOTDEV (k * BPB) t = Ret r t' /\ lframe t t' /\ alloc_post bs B r t'.
Proof.
  induction fuel as [|fuel IH]; intros k t Hin Hsb Hk Hfu Hm Hlow; [lia|]. cbn [balloc_loop]. msimpl. rewrite Hsb.
  destruct (Z.ltb_spec (k * BPB) (sb_size sb0)) as [Hlt|Hge].
  - assert (0 <= k * BPB < sb_size sb0) as Hb by (rewrite BPB_eq in *; lia).
    destruct (bm_block _ _ _ Hok _ Hb) as [[d Hd] Hl].
    destruct (bread_txn h i p st D W bs V B t _ d Hin (Hheld _ Hb) Hd) as (bp & t1 & Hs1 & Hf1 & Hin1); [lia|]. mstep Hs1.
    mapply (data_of_txn h i p st D W bs V _ t1) by first [exact Hin1 | apply lookup_insert_eq | exact Hd].
    set (m := Z.min BPB (sb_size sb0 - k * BPB)).
    assert (0 <= m <= BPB /\ k * BPB + m <= sb_size sb0 /\ (k * BPB + m = sb_size sb0 \/ m = BPB)) as (Hm1 & Hm2 & Hm3).
    { unfold m. rewrite BPB_eq in *. lia. }
    pose proof (scan_used k d m Hk Hd Hm1 Hm2 Hlow) as Hscan.
    destruct (List.find (bit_clear d) (seq 0 (Z.to_nat m))) as [bi|].
    + destruct Hscan as (Hbi & Hu & Hlow'). destruct (block_split k (Z.of_nat bi) Hk ltac:(lia)) as [E1 E2].
      assert (BBLOCK (k * BPB + Z.of_nat bi) sb0 = BBLOCK (k * BPB) sb0) as E.
      { unfold BBLOCK. rewrite E1, Z.div_mul by (rewrite BPB_eq; lia). done. }
      destruct (take_block_txn t1 (k * BPB + Z.of_nat bi) bp d) as (t2 & Hs2 & Hf2 & Hp2); [by rewrite E|lia|done..|by rewrite E|].
      exists (k * BPB + Z.of_nat bi), t2. split; [|split; [by etrans|done]].
      rewrite <- Hs2. unfold mark. by rewrite E2, Nat2Z.id.
    + destruct (brelse_read_txn h i p st D W bs V B t1 _ bp Hin1 (Hheld _ Hb)) as (t2 & Hs2 & Hf2 & Hin2).
      { destruct (decide (BBLOCK (k * BPB) sb0 ∈ bs)); [by left|right]. eapply txn_clean; [exact Hin|by apply Hheld|done]. }
      mstep Hs2. replace (k * BPB + BPB) with ((k + 1) * BPB) by lia.
      assert (lframe t t2) as Hf by (by etrans).
      destruct fuel as [|fuel]; [rewrite BPB_eq in *; lia|].
      destruct (IH (k + 1) t2 Hin2) as (r & t3 & Hs3 & Hf3 & Hp3);
        [by rewrite (lframe_sb t)|lia|lia|rewrite BPB_eq in *; lia|intros b ? ?; apply Hscan; rewrite BPB_eq in *; lia|].
      exists r, t3. split; [done|]. split; [by etrans|done].
  - destruct (printf_total h ∅ "balloc: out of blocks\n" [] [] t) as [o Ho].
    { by eapply txn_env. } { set_solver. } { vm_compute. discriminate. } { constructor. }
    mstep Ho. exists 0. destruct (txn_out h i p st D W bs V B t (out t ++ o) Hin) as [Hf Hin'].
    eexists. split; [reflexivity|]. split; [exact Hf|]. right. split; [done|]. split; [|exact Hin']. intros b Hb. apply Hlow; lia.
Qed.

Lemma balloc_txn t : txn bs V B t -> sb t = sb0 ->
  exists r t', balloc ROOTDEV t = Ret r t' /\ lframe t t' /\ alloc_post bs B r t'.
Proof.
  intros Hin Hsb. unfold balloc. msimpl. rewrite Hsb. pose proof (bm_size _ _ _ Hok).
  pose proof (Z.div_pos (sb_size sb0) BPB ltac:(lia) ltac:(rewrite BPB_eq; lia)).
  pose proof (Z.mod_pos_bound (sb_size sb0) BPB ltac:(rewrite BPB_eq; lia)).
  pose proof (Z.div_mod (sb_size sb0) BPB ltac:(rewrite BPB_eq; lia)).
  apply (balloc_loop_txn _ 0 t Hin Hsb); [lia..| |lia].
  rewrite Nat2Z.inj_add, Z2Nat.id by lia. rewrite BPB_eq in *. lia.
Qed.
End bitmap.
End blocks.

(** Updates that keep the bitmap in order: the block map keeps its domain and
    nothing becomes free. *)
Lemma bitmap_ok_mono st sb0 V V' :
  bitmap_ok st sb0 V -> (forall n, is_Some (V !! n) -> is_Some (V' !! n)) ->
  (forall b, 0 <= b < sb_size sb0 -> used sb0 V' b = false -> used sb0 V b = false) -> bitmap_ok st sb0 V'.
Proof.
  intros [? ? Hb Hf] Hdom Hu. split; try done.
  - intros b Hr. destruct (Hb b Hr). split; [by apply Hdom|done].
  - intros b Hr Hfree. destruct (Hf b Hr (Hu b Hr Hfree)) as (? & ? & ?). split; [by apply Hdom|done].
Qed.

(** From [V] to [V'] the free block [r] was marked as used and zeroed. *)
Record taken (sb0 : superblock) (V : gmap Z (list Z)) (r : Z) (V' : gmap Z (list Z)) : Prop := {
  tk_range : 0 <= r < sb_size sb0;
  tk_free : used sb0 V r = false;
  tk_zero : V' !! r = Some zeros;
  tk_used b : 0 <= b < sb_size sb0 -> used sb0 V' b = (b =? r) || used sb0 V b;
  tk_other n : n <> r -> n <> BBLOCK r sb0 -> V' !! n = V !! n;
  tk_dom n : is_Some (V !! n) -> is_Some (V' !! n)
}.

Lemma alloc_taken st sb0 V r d :
  bitmap_ok st sb0 V -> 0 <= r < sb_size sb0 -> used sb0 V r = false -> V !! BBLOCK r sb0 = Some d -> length d = Z.to_nat BSIZE ->
  let V' := <[r := zeros]> (<[BBLOCK r sb0 := mark r d]> V) in taken sb0 V r V' /\ bitmap_ok st sb0 V'.
Proof.
  intros Hok Hr Hu Hd Hl V'. destruct (bm_free _ _ _ Hok r Hr Hu) as (Hv & Hlb & Hnb).
  assert (forall b, 0 <= b < sb_size sb0 -> used sb0 V' b = (b =? r) || used sb0 V b) as Hused.
  { intros b Hb. rewrite <- (used_mark st sb0 V Hok r b d Hr Hb Hd Hl). unfold used, V'.
    by rewrite lookup_insert_ne by (intros E; by apply (Hnb b)). }
  assert (forall n, is_Some (V !! n) -> is_Some (V' !! n)) as Hdom by (intros n Hn; by do 2 apply insert_is_Some).
  split; [|apply (bitmap_ok_mono st sb0 V); [done|done|]; intros b Hb; rewrite Hused by done; by intros [_ ?]%orb_false_iff].
  split; try done; [apply lookup_insert_eq|]. intros n Hn1 Hn2. unfold V'. by rewrite !lookup_insert_ne.
Qed.

(** C10: In a transaction [balloc] returns the least free block, marked as used and
    zeroed, with every other block left as it was; when all blocks are in use
    it returns 0 and changes nothing. *)
Theorem balloc_correct `{Patience, Disk} disk_idle `{!DiskOk disk_idle} h i p st D W sb0 bs V B t :
  in_txn (disk_idle := disk_idle) h i p st D W bs V B t -> sb t = sb0 -> bitmap_ok st sb0 V ->
  (length bs + 1 < LOGBLOCKS)%nat -> (length bs + 1 + size B < NBUF)%nat ->
  (forall b, 0 <= b < sb_size sb0 -> B !! BBLOCK b sb0 = None) ->
  (forall b, 0 <= b < sb_size sb0 -> used sb0 V b = false -> B !! b = None) ->
  exists r t' bs' V', balloc ROOTDEV t = Ret r t' /\ lframe t t' /\ (length bs' <= length bs + 2)%nat
    /\ in_txn (disk_idle := disk_idle) h i p st D W bs' V' B t' /\ bitmap_ok st sb0 V'
    /\ ((0 <= r < sb_size sb0 /\ used sb0 V r = false /\ (forall b, 0 <= b < r -> used sb0 V b = true)
         /\ V' !! r = Some zeros /\ (forall b, 0 <= b < sb_size sb0 -> used sb0 V' b = (b =? r) || used sb0 V b)
         /\ forall n, n <> r -> n <> BBLOCK r sb0 -> V' !! n = V !! n)
        \/ (r = 0 /\ (forall b, 0 <= b < sb_size sb0 -> used sb0 V b = true) /\ V' = V /\ bs' = bs)).
Proof.
  intros Hin Hsb Hok Hlen Hroom Hheld Hfree.
  destruct (balloc_txn h i p st D W sb0 V Hok bs B Hlen Hroom Hheld Hfree t Hin Hsb)
    as (r & t' & Hs & Hf & [(d & Hr & Hu & Hlow & Hd & Hl & Hin')|(-> & Hall & Hin')]).
  - destruct (alloc_taken st sb0 V r d Hok Hr Hu Hd Hl) as [[_ _ Hz Hused Hother _] Hok'].
    eexists r, t', _, _. split; [done|]. split; [done|]. split; [|split; [exact Hin'|]].
    { pose proof (log_add_length r (log_add (BBLOCK r sb0) bs)). pose proof (log_add_length (BBLOCK r sb0) bs). lia. }
    split; [exact Hok'|]. left. split_and!; try done; lia.
  - exists 0, t', bs, V. split_and!; try done; [lia|]. right. done.
Qed.

(** C40: In a transaction [bfree] makes exactly the given block free; it panics when
    the block is free already. *)
Theorem bfree_correct `{Patience, Disk} disk_idle `{!DiskOk disk_idle} h i p st D W sb0 bs V B t b :
  in_txn (disk_idle := disk_idle) h i p st D W bs V B t -> sb t = sb0 -> bitmap_ok st sb0 V ->
  (length bs < LOGBLOCKS)%nat -> (length bs + size B < NBUF)%nat -> 0 <= b < sb_size sb0 -> B !! BBLOCK b sb0 = None ->
  if used sb0 V b then
    exists t' bs' V', bfree ROOTDEV b t = Ret tt t' /\ lframe t t' /\ (length bs' <= length bs + 1)%nat
      /\ in_txn (disk_idle := disk_idle) h i p st D W bs' V' B t'
      /\ (forall b', 0 <= b' < sb_size sb0 -> used sb0 V' b' = negb (b' =? b) && used sb0 V b')
      /\ forall n, n <> BBLOCK b sb0 -> V' !! n = V !! n
  else bfree ROOTDEV b t = Panic "freeing free block".
Proof.
  intros Hin Hsb Hok Hlen Hroom Hb Hheld.
  pose proof (bfree_txn h i p st D W sb0 V Hok bs B t b Hin Hsb Hb Hheld Hlen Hroom) as Hfree.
  destruct (used sb0 V b); [|done]. destruct Hfree as (t' & d & Hs & Hf & Hd & Hl & Hin').
  eexists t', _, _. split; [done|]. split; [done|]. split; [|split; [exact Hin'|]].
  { apply log_add_length. }
  split; [intros b' Hb'; by apply (used_unmark st)|]. intros n Hn. by rewrite lookup_insert_ne.
Qed.

(** ** Inodes on disk *)

(** The ranges of the C fields. *)
Record inode_ok (ip : inode) : Prop := {
  io_type : - 2 ^ 15 <= i_type ip < 2 ^ 15;
  io_major : - 2 ^ 15 <= i_major ip < 2 ^ 15;
  io_minor : - 2 ^ 15 <= i_minor ip < 2 ^ 15;
  io_nlink : - 2 ^ 15 <= i_nlink ip < 2 ^ 15;
  io_size : 0 <= i_size ip < 2 ^ 32;
  io_addrs : length (i_addrs ip) = (NDIRECT + 1)%nat;
  io_addr : Forall (fun a => 0 <= a < 2 ^ 32) (i_addrs ip)
}.

(** [ip0] with the on-disk part of [ip]. *)
Definition with_dinode (ip ip0 : inode) : inode :=
  ip0 <| i_type := i_type ip |> <| i_major := i_major ip |> <| i_minor := i_minor ip |>
      <| i_nlink := i_nlink ip |> <| i_size := i_size ip |> <| i_addrs := i_addrs ip |>.

Lemma i16_mod v : - 2 ^ 15 <= v < 2 ^ 15 -> i16 (v mod 256 ^ Z.of_nat 2) = v.
Proof.
  intros Hv. change (256 ^ Z.of_nat 2) with (2 ^ 16). unfold i16. rewrite Zplus_mod_idemp_l, Z.mod_small by lia. lia.
Qed.

Lemma inode_get_ok k ip s : itable s !! k = Some ip -> inode_get k s = Ret ip s.
Proof. intros Hk. unfold inode_get. mrun. by rewrite Hk. Qed.

Lemma length_put_dinode d o ip : length (put_dinode d o ip) = length d.
Proof. unfold put_dinode. cbv zeta. by rewrite length_inserts, !length_put_le. Qed.

Lemma get_put_dinode d o ip ip0 :
  inode_ok ip -> (o + DINODE_SIZE <= length d)%nat -> get_dinode (put_dinode d o ip) o ip0 = with_dinode ip ip0.
Proof.
  intros Hok Hlen. unfold DINODE_SIZE in Hlen. pose proof (io_addrs _ Hok) as Hl. unfold NDIRECT in Hl.
  pose proof (length_words (i_addrs ip)) as Hw. rewrite Hl in Hw.
  assert (get32 (put_dinode d o ip) (o + 8) = i_size ip) as E5.
  { unfold put_dinode. cbv zeta. rewrite get_inserts_out by lia. apply get32_u32; [rewrite !length_put_le; lia|apply Hok]. }
  assert (forall k v, (k = 0 /\ v = i_type ip \/ k = 2 /\ v = i_major ip \/ k = 4 /\ v = i_minor ip \/ k = 6 /\ v = i_nlink ip)%nat ->
    i16 (get16 (put_dinode d o ip) (o + k)) = v) as E14.
  { intros k v Hk. unfold put_dinode. cbv zeta. rewrite get_inserts_out, get_put_other by lia.
    destruct Hk as [[-> ->]|[[-> ->]|[[-> ->]|[-> ->]]]]; rewrite ?Nat.add_0_r;
      repeat first [rewrite get_put_same by (rewrite ?length_put_le; lia) | rewrite get_put_other by lia]; apply i16_mod, Hok. }
  assert (map (fun k => get32 (put_dinode d o ip) (o + 12 + 4 * k)) (seq 0 (NDIRECT + 1)) = i_addrs ip) as E6.
  { apply list_eq. intros k. rewrite list_lookup_fmap. destruct (decide (k < 13)%nat) as [Hk|Hk].
    - rewrite lookup_seq_lt by (unfold NDIRECT; lia). destruct (lookup_lt_is_Some_2 (i_addrs ip) k) as [w Hwk]; [lia|].
      rewrite Hwk. cbn [fmap option_fmap option_map]. rewrite Nat.add_0_l. f_equal. unfold put_dinode. cbv zeta.
      rewrite get_inserts_in by (rewrite ?Hw, ?length_put_le; lia). rewrite (words_at _ _ _ Hwk), le_val_bytes.
      change (256 ^ Z.of_nat 4) with (2 ^ 32). apply Z.mod_small. pose proof (io_addr _ Hok) as Ha.
      rewrite Forall_lookup in Ha. exact (Ha k w Hwk).
    - rewrite lookup_seq_ge by (unfold NDIRECT; lia). symmetry. apply lookup_ge_None. lia. }
  unfold get_dinode, with_dinode. rewrite E5, E6.
  pose proof (E14 0%nat (i_type ip) ltac:(tauto)) as E0. rewrite Nat.add_0_r in E0.
  rewrite E0, (E14 2%nat (i_major ip)), (E14 4%nat (i_minor ip)), (E14 6%nat (i_nlink ip)) by tauto. done.
Qed.

Lemma get_put_dinode_other d o o' ip ip0 :
  length (i_addrs ip) = (NDIRECT + 1)%nat -> (o + DINODE_SIZE <= o' \/ o' + DINODE_SIZE <= o)%nat ->
  get_dinode (put_dinode d o ip) o' ip0 = get_dinode d o' ip0.
Proof.
  intros Hl Hdis. unfold DINODE_SIZE, NDIRECT in *. pose proof (length_words (i_addrs ip)) as Hw. rewrite Hl in Hw.
  assert (forall n k, (k + n <= 64)%nat -> get_le n (put_dinode d o ip) (o' + k) = get_le n d (o' + k)) as E.
  { intros n k Hk. unfold put_dinode. cbv zeta. rewrite get_inserts_out by lia. by rewrite !get_put_other by lia. }
  unfold get_dinode. pose proof (E 2%nat 0%nat) as E0. rewrite Nat.add_0_r in E0. rewrite E0, !E by lia.
  assert (map (fun k => get32 (put_dinode d o ip) (o' + 12 + 4 * k)) (seq 0 (NDIRECT + 1))
    = map (fun k => get32 d (o' + 12 + 4 * k)) (seq 0 (NDIRECT + 1))) as ->; [|done].
  apply map_ext_in. intros k Hk%in_seq. unfold NDIRECT in Hk. rewrite <- Nat.add_assoc. apply E. lia.
Qed.

(** The inode block after [iupdate]. *)
Lemma iupdate_txn `{Patience, Disk} {disk_idle} `{!DiskOk disk_idle} h i p st D W sb0 bs V B t k ip d :
  in_txn (disk_idle := disk_idle) h i p st D W bs V B t -> sb t = sb0 -> itable t !! k = Some ip -> i_dev ip = ROOTDEV ->
  inode_ok ip -> 0 <= i_inum ip -> 0 <= IBLOCK (i_inum ip) sb0 < 2 ^ 31 -> ~ in_log st (IBLOCK (i_inum ip) sb0) ->
  V !! IBLOCK (i_inum ip) sb0 = Some d -> B !! IBLOCK (i_inum ip) sb0 = None ->
  (length bs < LOGBLOCKS)%nat -> (length bs + size B < NBUF)%nat ->
  exists t' d', iupdate k t = Ret tt t' /\ lframe t t'
    /\ in_txn (disk_idle := disk_idle) h i p st D W (log_add (IBLOCK (i_inum ip) sb0) bs) (<[IBLOCK (i_inum ip) sb0 := d']> V) B t'
    /\ forall q ip0, 0 <= q -> get_dinode d' (dinode_off q) ip0 =
         if decide (q mod IPB = i_inum ip mod IPB) then with_dinode ip ip0 else get_dinode d (dinode_off q) ip0.
Proof.
  intros Hin Hsb Hk Hdev Hok Hnum Hr Hl Hd Hn Hlen Hroom. set (n := IBLOCK (i_inum ip) sb0) in *.
  destruct (bread_txn h i p st D W bs V B t n d Hin Hn Hd Hroom) as (bp & t1 & Hs1 & Hf1 & Hin1).
  pose proof (txn_size h i p st D W _ _ _ _ _ _ Hin Hd) as Hsz.
  destruct (put_block_txn h i p st D W bs V B t1 n bp (put_dinode d (dinode_off (i_inum ip)) ip) Hin1 Hn)
    as (u1 & u2 & t2 & Hu1 & Hu2 & Hs2 & Hf2 & Hin2); [by rewrite length_put_dinode|done..|].
  exists t2, (put_dinode d (dinode_off (i_inum ip)) ip). split; [|split; [by etrans|split; [done|]]].
  - unfold iupdate. msimpl. rewrite Hsb. mapply inode_get_ok by exact Hk. rewrite Hdev. mstep Hs1.
    mapply (data_of_txn h i p st D W bs V _ t1) by first [exact Hin1 | apply lookup_insert_eq | exact Hd].
    mstep Hu1. mstep Hu2. exact Hs2.
  - intros q ip0 Hq. unfold dinode_off. pose proof (Z.mod_pos_bound q IPB ltac:(unfold IPB; lia)).
    pose proof (Z.mod_pos_bound (i_inum ip) IPB ltac:(unfold IPB; lia)). unfold IPB, DINODE_SIZE in *.
    case_decide as E; [rewrite E; apply get_put_dinode|apply get_put_dinode_other]; try done.
    + unfold DINODE_SIZE, BSIZE in *. lia.
    + apply Hok.
    + unfold DINODE_SIZE. nia.
Qed.

(** C23: [iupdate] stores the inode where [ilock] reads it, and leaves the other
    inodes of the block alone. *)
Theorem iupdate_roundtrip `{Patience, Disk} disk_idle `{!DiskOk disk_idle} h i p st D W sb0 bs V B t k ip d :
  in_txn (disk_idle := disk_idle) h i p st D W bs V B t -> sb t = sb0 -> itable t !! k = Some ip -> i_dev ip = ROOTDEV ->
  inode_ok ip -> 0 <= i_inum ip -> 0 <= IBLOCK (i_inum ip) sb0 < 2 ^ 31 -> ~ in_log st (IBLOCK (i_inum ip) sb0) ->
  V !! IBLOCK (i_inum ip) sb0 = Some d -> B !! IBLOCK (i_inum ip) sb0 = None ->
  (length bs < LOGBLOCKS)%nat -> (length bs + size B < NBUF)%nat ->
  exists t' d', iupdate k t = Ret tt t' /\ lframe t t'
    /\ in_txn (disk_idle := disk_idle) h i p st D W (log_add (IBLOCK (i_inum ip) sb0) bs) (<[IBLOCK (i_inum ip) sb0 := d']> V) B t'
    /\ forall q ip0, 0 <= q -> get_dinode d' (dinode_off q) ip0 =
         if decide (q mod IPB = i_inum ip mod IPB) then with_dinode ip ip0 else get_dinode d (dinode_off q) ip0.
Proof. apply iupdate_txn. Qed.

(** A disk of 100 blocks: the log at 2, the bitmap in block 45, and the blocks up to
    the bitmap in use. *)
Definition demo_sb : superblock := mkSuperblock FSMAGIC 100 54 192 31 2 33 45.
Definition demo_bitmap : list Z := replicate 5 255 ++ [63] ++ replicate 1018 0.
Definition demo_blocks : gmap Z (list Z) := <[45 := demo_bitmap]> demo_disk.

Lemma demo_BBLOCK b : 0 <= b < 100 -> BBLOCK b demo_sb = 45.
Proof.
  intros Hb. unfold BBLOCK. rewrite Z.div_small by (rewrite BPB_eq; lia). reflexivity.
Qed.

Lemma demo_used b : 0 <= b < 100 -> used demo_sb demo_blocks b = (b <? 46).
Proof.
  intros Hb. unfold used, demo_blocks. rewrite demo_BBLOCK, lookup_insert_eq, Z.mod_small by (rewrite ?BPB_eq; lia).
  assert (forallb (fun k => Bool.eqb (negb (bit_clear demo_bitmap k)) (Z.of_nat k <? 46)) (seq 0 100) = true) as Hall
    by (vm_compute; reflexivity).
  rewrite forallb_forall in Hall. specialize (Hall (Z.to_nat b)). rewrite Z2Nat.id in Hall by lia.
  apply Bool.eqb_prop. apply Hall. apply in_seq. lia.
Qed.

Lemma demo_bitmap_ok : bitmap_ok 2 demo_sb demo_blocks.
Proof.
  split.
  - simpl. lia.
  - vm_compute. split; [discriminate|reflexivity].
  - intros b Hb. simpl in Hb. rewrite demo_BBLOCK by lia. split; [|unfold in_log, LOGBLOCKS; lia].
    unfold demo_blocks. rewrite lookup_insert_eq. by eexists.
  - intros b Hb. simpl in Hb. rewrite demo_used by lia. intros Hlt%Z.ltb_ge. split_and!.
    + unfold demo_blocks. rewrite lookup_insert_ne, demo_disk_at by lia. by eexists.
    + unfold in_log, LOGBLOCKS. lia.
    + intros b' Hb'. simpl in Hb'. rewrite demo_BBLOCK by lia. lia.
Qed.

Definition demo_inode : inode := mkInode ROOTDEV 18 1 1 T_FILE 0 0 1 2048 (46 :: 47 :: replicate 11 0).
Definition zero_inode : inode := mkInode 0 0 0 0 0 0 0 0 0 [].

(** A transaction that has just written the bitmap. *)
Lemma demo_txn :
  exists t, @in_txn (fun _ => True) (boot_hart (Some 0%nat)) 0 disk_proc 2 demo_disk [] [45] demo_blocks ∅ t /\ sb t = demo_sb
    /\ itable t = replicate NINODE demo_inode.
Proof.
  destruct demo_quiescent as [t0 (lg & c & Hr & Hl & Href)].
  assert (quiescent (disk_idle := fun _ => True) (boot_hart (Some 0%nat)) 0 disk_proc 2 demo_disk []
    (t0 <| sb := demo_sb |> <| itable := replicate NINODE demo_inode |>)) as Hq.
  { exists lg, c. split; [|done]. destruct Hr as [[He ? ? ? ? ? ?] Hi Hrep ? ? ?].
    split; try done; [|by apply (rep_ext _ t0)]. split; try done. by apply (env_upd _ _ t0). }
  destruct (@begin_op_txn 0%nat sync_disk _ sync_disk_ok _ _ _ _ _ _ _ Hq) as (t1 & _ & Hf1 & Hin1).
  destruct (@bread_txn 0%nat sync_disk _ sync_disk_ok _ _ _ _ _ _ _ _ _ _ 45 (block_of 0) Hin1) as (b & t2 & _ & Hf2 & Hin2);
    [done|apply demo_disk_at; lia|rewrite map_size_empty; unfold NBUF; simpl; lia|].
  destruct (@put_block_txn sync_disk _ sync_disk_ok _ _ _ _ _ _ _ _ ∅ _ 45 b demo_bitmap Hin2)
    as (u1 & u2 & t3 & _ & _ & _ & Hf3 & Hin3); [done|reflexivity|lia|unfold in_log, LOGBLOCKS; lia|unfold LOGBLOCKS; simpl; lia|].
  exists t3. split; [exact Hin3|]. split.
  - rewrite (lframe_sb t2), (lframe_sb t1) by done. by rewrite (lframe_sb _ _ Hf1).
  - rewrite (lframe_itable t2), (lframe_itable t1) by done. by rewrite (lframe_itable _ _ Hf1).
Qed.

Lemma balloc_correct_witness : exists t t', @balloc 0%nat sync_disk ROOTDEV t = Ret 46 t'.
Proof.
  destruct demo_txn as (t & Hin & Hsb & _).
  destruct (@balloc_correct 0%nat sync_disk _ sync_disk_ok _ _ _ _ _ _ demo_sb _ _ _ t Hin Hsb demo_bitmap_ok)
    as (r & t' & bs' & V' & Hs & _ & _ & _ & _ & [(Hr & Hu & Hlow & _)|(_ & Hall & _)]).
  - unfold LOGBLOCKS. simpl. lia.
  - rewrite map_size_empty. unfold NBUF. simpl. lia.
  - intros b _. apply lookup_empty.
  - intros b _ _. apply lookup_empty.
  - simpl in Hr. rewrite demo_used in Hu by lia. apply Z.ltb_ge in Hu.
    assert (r = 46) as ->; [|by exists t, t'].
    destruct (Z_lt_le_dec 46 r) as [Hlt|]; [|lia]. specialize (Hlow 46 ltac:(lia)). rewrite demo_used in Hlow by lia. discriminate.
  - specialize (Hall 46 ltac:(simpl; lia)). rewrite demo_used in Hall by lia. discriminate.
Defined.

Lemma bfree_correct_witness :
  exists t t', @bfree 0%nat sync_disk ROOTDEV 40 t = Ret tt t' /\ @bfree 0%nat sync_disk ROOTDEV 50 t = Panic "freeing free block".
Proof.
  destruct demo_txn as (t & Hin & Hsb & _).
  assert ((length [45] < LOGBLOCKS)%nat /\ (length [45] + size (∅ : gmap Z nat) < NBUF)%nat) as [H1 H2].
  { rewrite map_size_empty. unfold LOGBLOCKS, NBUF. simpl. lia. }
  pose proof (@bfree_correct 0%nat sync_disk _ sync_disk_ok _ _ _ _ _ _ demo_sb _ _ _ t 40 Hin Hsb demo_bitmap_ok H1 H2
    ltac:(simpl; lia) (lookup_empty _)) as Hfree.
  pose proof (@bfree_correct 0%nat sync_disk _ sync_disk_ok _ _ _ _ _ _ demo_sb _ _ _ t 50 Hin Hsb demo_bitmap_ok H1 H2
    ltac:(simpl; lia) (lookup_empty _)) as Hpanic.
  rewrite demo_used in Hfree, Hpanic by lia. destruct Hfree as (t' & bs' & V' & Hs & _). exists t, t'. split; [exact Hs|exact Hpanic].
Defined.

Lemma iupdate_roundtrip_witness :
  exists t t' d', @iupdate 0%nat sync_disk 3 t = Ret tt t' /\ get_dinode d' (dinode_off 18) zero_inode = with_dinode demo_inode zero_inode
    /\ i_type (get_dinode d' (dinode_off 19) zero_inode) = 0.
Proof.
  destruct demo_txn as (t & Hin & Hsb & Hit).
  destruct (@iupdate_roundtrip 0%nat sync_disk _ sync_disk_ok _ _ _ _ _ _ demo_sb _ _ _ t 3 demo_inode (block_of 0) Hin Hsb)
    as (t' & d' & Hs & _ & _ & Hd').
  - rewrite Hit. reflexivity.
  - reflexivity.
  - split; unfold demo_inode, T_FILE; simpl; first [lia | reflexivity | repeat (apply Forall_cons; split; [lia|]); constructor].
  - simpl. lia.
  - vm_compute. split; [discriminate|reflexivity].
  - change (~ in_log 2 34). unfold in_log, LOGBLOCKS. lia.
  - change (demo_blocks !! 34 = Some (block_of 0)). unfold demo_blocks. rewrite lookup_insert_ne by lia. apply demo_disk_at. lia.
  - apply lookup_empty.
  - unfold LOGBLOCKS. simpl. lia.
  - rewrite map_size_empty. unfold NBUF. simpl. lia.
  - exists t, t', d'. split; [exact Hs|]. split; [by rewrite (Hd' 18)|]. rewrite (Hd' 19) by lia. reflexivity.
Defined.
