(* ===== verification/FileData.v ===== *)
(** * The contents of a file

    The bytes that the block map of an inode says are in a file, and that
    [readi] returns them, inside a transaction. *)

From stdpp Require Import base numbers gmap sets strings option functions list.
From S2P Require Import Prelude Machine Spinlock CString Printf Kalloc Vm Proc ProcSpec.
From S2P Require Import Sleeplock SleeplockSpec Bio BlockData Cache CacheSpec Log LogSpec Crash Txn Fs FsSpec.

(** ** The bytes of a file *)

(** The disk block of block [k] of the file, direct or through the indirect
    block, 0 when it is not allocated; and its bytes. *)
Definition file_addr (ip : inode) (V : gmap Z (list Z)) (k : nat) : option Z :=
  if (k <? NDIRECT)%nat then i_addrs ip !! k
  else a ← i_addrs ip !! NDIRECT; if a =? 0 then Some 0 else d ← V !! a; Some (get32 d (4 * (k - NDIRECT))).
Definition fblock (ip : inode) (V : gmap Z (list Z)) (k : nat) : list Z :=
  default [] (a ← file_addr ip V k; if a =? 0 then None else V !! a).
Definition fbyte (ip : inode) (V : gmap Z (list Z)) (pos : Z) : Z :=
  nth (Z.to_nat (pos mod BSIZE)) (fblock ip V (Z.to_nat (pos / BSIZE))) 0.
Definition fbytes (ip : inode) (V : gmap Z (list Z)) (off n : Z) : list Z :=
  map (fun j => fbyte ip V (off + Z.of_nat j)) (seq 0 (Z.to_nat n)).

Lemma fbytes_app ip V off a b : 0 <= a -> 0 <= b -> fbytes ip V off (a + b) = fbytes ip V off a ++ fbytes ip V (off + a) b.
Proof.
  intros Ha Hb. unfold fbytes. rewrite Z2Nat.inj_add, seq_app, map_app by done. f_equal.
  rewrite Nat.add_0_l, <- (Nat.add_0_r (Z.to_nat a)), <- fmap_add_seq, map_map. apply map_ext_in. intros j _. f_equal. lia.
Qed.

(** Bytes of one block. *)
Lemma BSIZE_pos : 0 < BSIZE.
Proof. reflexivity. Qed.
Lemma block_pos off j : 0 <= off -> 0 <= j -> off mod BSIZE + j < BSIZE ->
  (off + j) / BSIZE = off / BSIZE /\ (off + j) mod BSIZE = off mod BSIZE + j.
Proof.
  intros Ho Hj Hlt. pose proof (Z.mod_pos_bound off BSIZE BSIZE_pos). pose proof (Z.div_mod off BSIZE ltac:(done)).
  split; symmetry; [apply (Z.div_unique_pos _ _ _ (off mod BSIZE + j))|apply (Z.mod_unique_pos _ _ (off / BSIZE))]; lia.
Qed.

Lemma fbytes_block ip V off m d :
  0 <= off -> 0 <= m -> off mod BSIZE + m <= BSIZE -> fblock ip V (Z.to_nat (off / BSIZE)) = d -> length d = Z.to_nat BSIZE ->
  take (Z.to_nat m) (drop (Z.to_nat (off mod BSIZE)) d) = fbytes ip V off m.
Proof.
  intros Ho Hm Hle Hd Hl. pose proof (Z.mod_pos_bound off BSIZE BSIZE_pos) as Hmod. apply list_eq. intros j.
  unfold fbytes. rewrite list_lookup_fmap. destruct (decide (j < Z.to_nat m)%nat) as [Hj|Hj].
  - rewrite lookup_take_lt, lookup_drop, lookup_seq_lt by done. cbn [fmap option_fmap option_map]. rewrite Nat.add_0_l.
    destruct (block_pos off (Z.of_nat j)) as [E1 E2]; [lia..|]. unfold fbyte. rewrite E1, E2, Hd.
    destruct (lookup_lt_is_Some_2 d (Z.to_nat (off mod BSIZE) + j)) as [x Hx]; [lia|]. rewrite Hx. f_equal.
    symmetry. apply nth_lookup_Some. rewrite <- Hx. f_equal. lia.
  - rewrite lookup_take_ge, lookup_seq_ge by lia. done.
Qed.

(** The first [nb] blocks of the file are allocated, and nobody holds them. *)
Record mapped (ip : inode) (V : gmap Z (list Z)) (B : gmap Z nat) (nb : nat) : Prop := {
  mp_nb : Z.of_nat nb <= MAXFILE;
  mp_ind : (NDIRECT < nb)%nat -> exists a, i_addrs ip !! NDIRECT = Some a /\ a <> 0 /\ is_Some (V !! a) /\ B !! a = None;
  mp_data k : (k < nb)%nat -> exists a, file_addr ip V k = Some a /\ a <> 0 /\ is_Some (V !! a) /\ B !! a = None
}.

Lemma fbytes_exact ip V off l :
  (forall j, (j < length l)%nat -> fbyte ip V (off + Z.of_nat j) = nth j l 0) -> fbytes ip V off (Z.of_nat (length l)) = l.
Proof.
  intros Hb. apply list_eq. intros j. unfold fbytes. rewrite list_lookup_fmap, Nat2Z.id.
  destruct (decide (j < length l)%nat) as [Hj|Hj]; [|rewrite lookup_seq_ge by lia; symmetry; apply lookup_ge_None; lia].
  rewrite lookup_seq_lt by done. cbn [fmap option_fmap option_map]. rewrite Nat.add_0_l, Hb by done.
  destruct (lookup_lt_is_Some_2 l j Hj) as [x Hx]. by rewrite Hx, (nth_lookup_Some _ _ _ _ Hx).
Qed.

Lemma mapped_insert ip V B nb x d :
  (forall j, (j < nb)%nat -> file_addr ip (<[x := d]> V) j = file_addr ip V j) -> mapped ip V B nb -> mapped ip (<[x := d]> V) B nb.
Proof.
  intros HA [M1 M2 M3]. assert (forall y, is_Some (V !! y) -> is_Some (<[x := d]> V !! y)) as Hsome.
  { intros y Hy. destruct (decide (y = x)) as [->|]; [rewrite lookup_insert_eq; by eexists|by rewrite lookup_insert_ne]. }
  split; [done|..].
  - intros Hlt. destruct (M2 Hlt) as (a & ? & ? & ? & ?). exists a. split_and!; try done. by apply Hsome.
  - intros j Hj. destruct (M3 j Hj) as (a & ? & ? & ? & ?). exists a. rewrite HA by done. split_and!; try done. by apply Hsome.
Qed.

Lemma mapped_size ip V B nb n : mapped ip V B nb -> mapped (ip <| i_size := n |>) V B nb.
Proof. intros [M1 M2 M3]. by split. Qed.

Section contents.
Context `{Link, Patience, Disk} {disk_idle : kernel -> Prop} `{!DiskOk disk_idle}.
Context (h : hart) (i : nat) (p : proc) (st : Z) (D : gmap Z (list Z)) (W : list (Z * list Z)).
Local Abbreviation txn := (in_txn (disk_idle := disk_idle) h i p st D W).

(** A block is read and given back. *)
Lemma look_txn bs V B t n d :
  txn bs V B t -> B !! n = None -> V !! n = Some d -> (length bs + size B < NBUF)%nat ->
  exists b t1 t', bread ROOTDEV n t = Ret b t1 /\ data_of b t1 = Ret d t1 /\ brelse b t1 = Ret tt t'
    /\ lframe t t1 /\ lframe t t' /\ txn bs V (<[n := b]> B) t1 /\ txn bs V B t'.
Proof.
  intros Hin Hn Hd Hroom. destruct (bread_txn h i p st D W bs V B t n d Hin Hn Hd Hroom) as (b & t1 & Hs1 & Hf1 & Hin1).
  destruct (brelse_read_txn h i p st D W bs V B t1 n b Hin1 Hn) as (t2 & Hs2 & Hf2 & Hin2).
  { destruct (decide (n ∈ bs)) as [|Hno]; [by left|right]. exact (txn_clean h i p st D W bs V B t n Hin Hn Hno). }
  exists b, t1, t2. split; [exact Hs1|]. split; [exact (data_of_txn h i p st D W bs V _ t1 n b d Hin1 (lookup_insert_eq _ _ _) Hd)|].
  split; [exact Hs2|]. split; [exact Hf1|]. split; [exact (transitivity Hf1 Hf2)|]. by split.
Qed.

Context (k : nat) (ip : inode) (Hdev : i_dev ip = ROOTDEV).

Lemma bmap_mapped bs V B t nb bn :
  txn bs V B t -> itable t !! k = Some ip -> mapped ip V B nb -> (bn < nb)%nat -> (length bs + size B < NBUF)%nat ->
  exists a t', bmap k (Z.of_nat bn) t = Ret a t' /\ lframe t t' /\ txn bs V B t' /\ file_addr ip V bn = Some a
    /\ a <> 0 /\ is_Some (V !! a) /\ B !! a = None.
Proof.
  intros Hin Hk Hm Hbn Hroom. destruct (mp_data _ _ _ _ Hm bn Hbn) as (a & Ha & Hnz & Hv & Hb). exists a.
  unfold bmap. mapply inode_get_ok by exact Hk. unfold file_addr in Ha. destruct (Nat.ltb_spec bn NDIRECT) as [Hd|Hd].
  - rewrite (proj2 (Z.ltb_lt _ _)) by lia. rewrite Nat2Z.id, Ha. cbn [deref]. msimpl.
    rewrite (proj2 (Z.eqb_neq _ _) Hnz). exists t. split_and!; try done. unfold file_addr. by rewrite (proj2 (Nat.ltb_lt _ _) Hd).
  - rewrite (proj2 (Z.ltb_ge _ _)) by lia. pose proof (mp_nb _ _ _ _ Hm) as Hnb. unfold MAXFILE in Hnb.
    rewrite (proj2 (Z.ltb_lt _ _)) by lia.
    destruct (mp_ind _ _ _ _ Hm ltac:(lia)) as (a0 & Ha0 & Hnz0 & [d0 Hv0] & Hb0). rewrite Ha0 in *. cbn [deref mbind option_bind] in *.
    rewrite (proj2 (Z.eqb_neq _ _) Hnz0), Hv0 in Ha. cbn [mbind option_bind] in Ha. apply (inj Some) in Ha. msimpl.
    rewrite (proj2 (Z.eqb_neq _ _) Hnz0). msimpl. rewrite (proj2 (Z.eqb_neq _ _) Hnz0), Hdev.
    destruct (look_txn bs V B t a0 d0 Hin Hb0 Hv0 Hroom) as (b & t1 & t2 & Hs1 & Hd1 & Hs2 & _ & Hf2 & _ & Hin2).
    mstep Hs1. mstep Hd1. replace (Z.to_nat (Z.of_nat bn - Z.of_nat NDIRECT)) with (bn - NDIRECT)%nat by lia.
    rewrite Ha, (proj2 (Z.eqb_neq _ _) Hnz). msimpl. mstep Hs2. exists t2. split_and!; try done.
    unfold file_addr. rewrite (proj2 (Nat.ltb_ge _ _) Hd), Ha0. cbn [mbind option_bind]. rewrite (proj2 (Z.eqb_neq _ _) Hnz0), Hv0. cbn [mbind option_bind]. by rewrite Ha.
Qed.

(** ** Reading *)

(** How many turns a loop over the blocks still takes. *)
Definition turns_left (off m : Z) : Z := if m <=? 0 then 0 else (off mod BSIZE + m + BSIZE - 1) / BSIZE.

Lemma turns_nonneg off m : 0 <= turns_left off m.
Proof.
  unfold turns_left. destruct (Z.leb_spec m 0); [done|]. pose proof (Z.mod_pos_bound off BSIZE BSIZE_pos).
  apply Z.div_pos; [lia|done].
Qed.

Lemma next_block off : 0 <= off -> (off + (BSIZE - off mod BSIZE)) mod BSIZE = 0.
Proof.
  intros Ho. pose proof (Z.div_mod off BSIZE ltac:(done)). symmetry. apply (Z.mod_unique_pos _ _ (off / BSIZE + 1)); [by split|lia].
Qed.

Lemma turns_step off m : 0 <= off -> 0 < m -> let c := Z.min m (BSIZE - off mod BSIZE) in
  0 < c <= m /\ off mod BSIZE + c <= BSIZE /\ turns_left (off + c) (m - c) + 1 <= turns_left off m.
Proof.
  intros Ho Hm c. pose proof (Z.mod_pos_bound off BSIZE BSIZE_pos) as Hmod. pose proof BSIZE_pos.
  split_and!; [unfold c; lia..|]. unfold turns_left. rewrite (proj2 (Z.leb_gt m 0)) by lia.
  destruct (Z.leb_spec (m - c) 0) as [Hz|Hleft].
  { apply Z.div_le_lower_bound; lia. }
  assert (c = BSIZE - off mod BSIZE) as Ec by (unfold c; lia).
  assert ((off + c) mod BSIZE = 0) as E0 by (rewrite Ec; by apply next_block).
  rewrite E0. replace (off mod BSIZE + m + BSIZE - 1) with (0 + (m - c) + BSIZE - 1 + 1 * BSIZE) by lia.
  rewrite Z.div_add by done. lia.
Qed.

Lemma turns_start off n : 0 <= n -> turns_left off n < Z.of_nat (Z.to_nat (n / BSIZE) + 3).
Proof.
  intros Hn. pose proof (Z.mod_pos_bound off BSIZE BSIZE_pos). pose proof (Z.mod_pos_bound n BSIZE BSIZE_pos).
  pose proof (Z.div_mod n BSIZE ltac:(done)). pose proof (Z.div_pos n BSIZE Hn BSIZE_pos). unfold turns_left.
  destruct (Z.leb_spec n 0); [lia|]. apply Z.div_lt_upper_bound; [done|]. change BSIZE with 1024 in *. lia.
Qed.

(** The block of the file that holds byte [off]. *)
Lemma off_block off nb : 0 <= off -> off < Z.of_nat nb * BSIZE ->
  (Z.to_nat (off / BSIZE) < nb)%nat /\ Z.of_nat (Z.to_nat (off / BSIZE)) = off / BSIZE.
Proof.
  intros Ho Hlt. pose proof (Z.div_pos off BSIZE Ho BSIZE_pos). pose proof (Z.div_lt_upper_bound off BSIZE (Z.of_nat nb) BSIZE_pos). lia.
Qed.

Lemma fblock_at V bn a d : file_addr ip V bn = Some a -> a <> 0 -> V !! a = Some d -> fblock ip V bn = d.
Proof. intros Ha Hnz Hd. unfold fblock. rewrite Ha. simpl. by rewrite (proj2 (Z.eqb_neq _ _) Hnz), Hd. Qed.

Lemma readi_loop_ok bs V B nb fuel off n tot acc t :
  txn bs V B t -> itable t !! k = Some ip -> mapped ip V B nb -> (length bs + size B < NBUF)%nat ->
  0 <= off -> tot <= n -> off + (n - tot) <= Z.of_nat nb * BSIZE -> turns_left off (n - tot) < Z.of_nat fuel ->
  exists t', readi_loop fuel k None off n tot acc t = Ret (n, acc ++ fbytes ip V off (n - tot)) t' /\ lframe t t' /\ txn bs V B t'.
Proof.
  revert off tot acc t. induction fuel as [|fuel IH]; intros off tot acc t Hin Hk Hm Hroom Ho Htot Hsz Hfuel;
    pose proof (turns_nonneg off (n - tot)); [lia|]. cbn [readi_loop].
  destruct (Z.ltb_spec tot n) as [Hlt|Hge].
  2: { exists t. replace (n - tot) with 0 by lia. assert (tot = n) as -> by lia. change (fbytes ip V off 0) with (@nil Z).
       rewrite app_nil_r. by split_and!. }
  destruct (turns_step off (n - tot) Ho ltac:(lia)) as (Hc & Hin_block & Hnext). set (c := Z.min _ _) in *.
  destruct (off_block off nb Ho ltac:(lia)) as [Hbn Ebn].
  destruct (bmap_mapped bs V B t nb (Z.to_nat (off / BSIZE)) Hin Hk Hm Hbn Hroom) as (a & t1 & Hs1 & Hf1 & Hin1 & Ha & Hnz & [d Hd] & Hb).
  rewrite Ebn in Hs1. mstep Hs1. rewrite (proj2 (Z.eqb_neq _ _) Hnz).
  assert (itable t1 !! k = Some ip) as Hk1 by (by rewrite (lframe_itable _ _ Hf1)). mapply inode_get_ok by exact Hk1. rewrite Hdev.
  destruct (look_txn bs V B t1 a d Hin1 Hb Hd Hroom) as (bp & t2 & t3 & Hs2 & Hd2 & Hs3 & Hf2 & Hf3 & Hin2 & Hin3).
  mstep Hs2. mstep Hd2. unfold either_copyout. mapply (env_myproc h ∅) by (eapply txn_env; exact Hin2). msimpl.
  change (0 =? -1) with false. cbv iota. mstep Hs3.
  assert (itable t3 !! k = Some ip) as Hk3 by (by rewrite (lframe_itable _ _ Hf3)).
  rewrite (fbytes_block ip V off c d) by first [lia | by eapply fblock_at | by eapply (txn_size h i p st D W)].
  destruct (IH (off + c) (tot + c) (acc ++ fbytes ip V off c) t3) as (t' & Hs' & Hf'' & Hin'); try done; try lia.
  { replace (n - (tot + c)) with (n - tot - c) by lia. lia. }
  exists t'. change (@None Z) with ((fun a => u64 (a + c)) <$> @None Z) in Hs'. rewrite Hs'. split; [|split; [exact (transitivity Hf1 (transitivity Hf3 Hf''))|done]].
  rewrite <- app_assoc, <- fbytes_app by lia. by replace (c + (n - (tot + c))) with (n - tot) by lia.
Qed.

(** [uint] addition wraps around exactly when the sum does not fit. *)
Lemma u32_wraps off n : 0 <= off < 2 ^ 32 -> 0 <= n < 2 ^ 32 -> (u32 (off + n) <? off) = (2 ^ 32 <=? off + n).
Proof.
  intros Ho Hn. destruct (Z.leb_spec (2 ^ 32) (off + n)) as [Hle|Hlt].
  - replace (off + n) with (off + n - 2 ^ 32 + 1 * 2 ^ 32) by lia. unfold u32. rewrite Z.mod_add by done.
    rewrite Z.mod_small by lia. apply Z.ltb_lt. lia.
  - rewrite u32_small by lia. apply Z.ltb_ge. lia.
Qed.

Lemma readi_ok bs V B nb off n t :
  txn bs V B t -> itable t !! k = Some ip -> mapped ip V B nb -> 0 <= i_size ip <= Z.of_nat nb * BSIZE ->
  (length bs + size B < NBUF)%nat -> 0 <= off < 2 ^ 32 -> 0 <= n < 2 ^ 32 ->
  let len := if (off >? i_size ip) || (2 ^ 32 <=? off + n) then 0 else Z.min n (i_size ip - off) in
  exists t', readi k None off n t = Ret (len, fbytes ip V off len) t' /\ lframe t t' /\ txn bs V B t'.
Proof.
  intros Hin Hk Hm Hsz Hroom Ho Hn len. unfold readi. mapply inode_get_ok by exact Hk. rewrite u32_wraps by done.
  unfold len. clear len. destruct (Z.gtb_spec off (i_size ip)) as [Hgt|Hle]; cbn [orb]; [by exists t|].
  destruct (Z.leb_spec (2 ^ 32) (off + n)) as [Hov|Hov]; [by exists t|]. rewrite (u32_small (off + n)) by lia.
  assert ((if off + n >? i_size ip then i_size ip - off else n) = Z.min n (i_size ip - off)) as ->.
  { destruct (Z.gtb_spec (off + n) (i_size ip)); lia. }
  set (len := Z.min n (i_size ip - off)). pose proof (mp_nb _ _ _ _ Hm) as Hnb. change MAXFILE with 268 in Hnb. change BSIZE with 1024 in Hsz.
  destruct (readi_loop_ok bs V B nb (Z.to_nat (len / BSIZE) + 3) off len 0 [] t) as (t' & Hs & Hf & Hin'); try done; try (unfold len; lia).
  { change BSIZE with 1024. unfold len. lia. }
  { rewrite Z.sub_0_r. apply turns_start. unfold len. lia. }
  exists t'. mstep Hs. rewrite Z.sub_0_r. cbn [app]. rewrite i32_small by (unfold len; lia). by split_and!.
Qed.

(** A change of the inode table does not disturb the storage. *)
Lemma txn_itable bs V B t x : txn bs V B t -> txn bs V B (t <| itable := x |>).
Proof.
  intros (lg & c & [[He ? ? ? ? ? ?] Hi Hrep ? ? ?] & Htx). exists lg, c. split; [|done].
  split; try done; [|by apply (disk_idle_ext t)|by apply (rep_ext _ t)]. split; try done. by apply (env_upd _ _ t).
Qed.

End contents.

(** C15: [readi] into kernel memory returns the bytes of the file from [off] on, up to
    its end, and changes nothing; it returns none when [off] lies beyond the end
    or the range wraps around. *)
Theorem readi_correct `{Link, Patience, Disk} disk_idle `{!DiskOk disk_idle} h i p st D W bs V B t k ip nb off n :
  in_txn (disk_idle := disk_idle) h i p st D W bs V B t -> itable t !! k = Some ip -> i_dev ip = ROOTDEV ->
  mapped ip V B nb -> 0 <= i_size ip <= Z.of_nat nb * BSIZE -> (length bs + size B < NBUF)%nat ->
  0 <= off < 2 ^ 32 -> 0 <= n < 2 ^ 32 ->
  let len := if (off >? i_size ip) || (2 ^ 32 <=? off + n) then 0 else Z.min n (i_size ip - off) in
  exists t', readi k None off n t = Ret (len, fbytes ip V off len) t' /\ lframe t t'
    /\ in_txn (disk_idle := disk_idle) h i p st D W bs V B t'.
Proof. intros Hin Hk Hdev Hm Hsz Hroom Ho Hn. by apply (readi_ok h i p st D W k ip Hdev bs V B nb). Qed.

(** The file of [demo_inode] has the blocks 46 and 47. *)
Lemma demo_mapped : mapped demo_inode demo_blocks ∅ 2.
Proof.
  split; [done|by unfold NDIRECT; lia|]. intros j Hj. exists (46 + Z.of_nat j).
  split; [by destruct j as [|[|]]; [..|lia]|]. split; [lia|]. split; [|apply lookup_empty].
  unfold demo_blocks. rewrite lookup_insert_ne, demo_disk_at by lia. by eexists.
Qed.
Lemma readi_correct_witness :
  exists t t', @readi demo_link 0%nat sync_disk 3 None 2000 100 t = Ret (48, replicate 48 0) t'.
Proof.
  destruct demo_txn as (t & Hin & Hsb & Hit).
  destruct (@readi_correct demo_link 0%nat sync_disk _ sync_disk_ok _ _ _ _ _ _ _ _ _ t 3 demo_inode 2 2000 100 Hin) as (t' & Hs & _).
  - rewrite Hit. reflexivity.
  - reflexivity.
  - apply demo_mapped.
  - vm_compute. split; discriminate.
  - rewrite map_size_empty. unfold NBUF. simpl. lia.
  - lia.
  - lia.
  - exists t, t'. rewrite Hs. f_equal.
Defined.
