(* ===== verification/FileWrite.v ===== *)
(** * Writing a file

    [bmap] gives a file the blocks it lacks, direct ones, the indirect block
    and the ones it points to, and [writei] puts bytes into them, inside a
    transaction.  A block that is not allocated reads as zeros. *)

From stdpp Require Import base numbers gmap sets strings option functions list.
From S2P Require Import Prelude Machine Spinlock CString Printf Kalloc Vm Proc ProcSpec.
From S2P Require Import Sleeplock SleeplockSpec Bio BlockData Cache CacheSpec Log LogSpec Crash Txn Fs FsSpec FileData.

(** ** Free blocks *)

(** The free blocks, and that there is none. *)
Definition nfree (sb0 : superblock) (V : gmap Z (list Z)) : nat :=
  length (List.filter (fun b => negb (used sb0 V b)) (seqZ 0 (sb_size sb0))).
Definition full (sb0 : superblock) (V : gmap Z (list Z)) : Prop := forall b, 0 <= b < sb_size sb0 -> used sb0 V b = true.

Lemma filter_all_false {A} (f : A -> bool) l : (forall x, x ∈ l -> f x = false) -> List.filter f l = [].
Proof. induction l as [|x l IH]; intros Hf; [done|]. simpl. rewrite Hf by set_solver. apply IH. set_solver. Qed.

Lemma filter_take_one (f g : Z -> bool) r l :
  NoDup l -> r ∈ l -> f r = true -> (forall x, x ∈ l -> g x = negb (x =? r) && f x) ->
  length (List.filter f l) = S (length (List.filter g l)).
Proof.
  induction 1 as [|x l Hx Hnd IH]; intros Hr Hf Hg; [by apply not_elem_of_nil in Hr|]. simpl. rewrite (Hg x) by set_solver.
  destruct (Z.eqb_spec x r) as [->|Hne]; cbn [negb andb].
  - rewrite Hf. simpl. f_equal. f_equal. apply List.filter_ext_in. intros y Hy%list_elem_of_In. rewrite Hg by set_solver.
    rewrite (proj2 (Z.eqb_neq _ _)) by (by intros ->). done.
  - assert (length (List.filter f l) = S (length (List.filter g l))) as E by (apply IH; set_solver).
    destruct (f x); simpl; lia.
Qed.

Lemma nfree_full sb0 V : full sb0 V -> nfree sb0 V = 0%nat.
Proof. intros Hf. unfold nfree. rewrite filter_all_false; [done|]. intros b [Hb ?]%elem_of_seqZ. by rewrite Hf by lia. Qed.
Lemma nfree_taken sb0 V r V' : taken sb0 V r V' -> nfree sb0 V = S (nfree sb0 V').
Proof.
  intros [Hr Hu _ Hused _ _]. unfold nfree. apply (filter_take_one _ _ r); [apply NoDup_seqZ|apply elem_of_seqZ; lia|by rewrite Hu|].
  intros b [Hb ?]%elem_of_seqZ. rewrite Hused by lia. by rewrite negb_orb.
Qed.
Lemma nfree_same sb0 V V' : (forall b, 0 <= b < sb_size sb0 -> used sb0 V' b = used sb0 V b) -> nfree sb0 V' = nfree sb0 V.
Proof. intros Hs. unfold nfree. f_equal. apply List.filter_ext_in. intros b [Hb ?]%list_elem_of_In%elem_of_seqZ. by rewrite Hs by lia. Qed.

(** An empty block has the address 0 everywhere. *)
Lemma get32_zeros j : get32 zeros j = 0.
Proof.
  unfold get32, get_le, zeros. rewrite drop_replicate, take_replicate. generalize (4 `min` (Z.to_nat BSIZE - j))%nat.
  induction n as [|n IH]; [done|]. simpl. by rewrite IH.
Qed.

(** ** The blocks of a file *)

Definition MAXB : nat := Z.to_nat MAXFILE.
Lemma MAXB_eq : MAXB = 268%nat.
Proof. reflexivity. Qed.

Section blocks.
Context (st : Z) (sb0 : superblock).

Definition bitmap_block (x : Z) : Prop := exists b, 0 <= b < sb_size sb0 /\ BBLOCK b sb0 = x.

(** A block that a file may own. *)
Record good (V : gmap Z (list Z)) (B : gmap Z nat) (a : Z) : Prop := {
  gd_range : 0 < a < sb_size sb0;
  gd_used : used sb0 V a = true;
  gd_some : is_Some (V !! a);
  gd_held : B !! a = None;
  gd_log : ~ in_log st a;
  gd_map : ~ bitmap_block a
}.

(** The bitmap is in order, block 0 is in use, and nobody holds a block that the
    allocator may want. *)
Record alloc_ok (V : gmap Z (list Z)) (B : gmap Z nat) : Prop := {
  ao_bitmap : bitmap_ok st sb0 V;
  ao_zero : 0 < sb_size sb0 /\ used sb0 V 0 = true;
  ao_held b : 0 <= b < sb_size sb0 -> B !! BBLOCK b sb0 = None;
  ao_free b : 0 <= b < sb_size sb0 -> used sb0 V b = false -> B !! b = None
}.

(** Every address of the file is 0 or a block of its own. *)
Record file_ok (ip : inode) (V : gmap Z (list Z)) (B : gmap Z nat) : Prop := {
  fo_len : length (i_addrs ip) = (NDIRECT + 1)%nat;
  fo_ind a : i_addrs ip !! NDIRECT = Some a -> a = 0 \/ good V B a;
  fo_data k : (k < MAXB)%nat -> exists a, file_addr ip V k = Some a /\ (a = 0 \/ good V B a);
  fo_inj k k' a : (k < MAXB)%nat -> (k' < MAXB)%nat -> file_addr ip V k = Some a -> file_addr ip V k' = Some a -> a <> 0 -> k = k';
  fo_sep k a : (k < MAXB)%nat -> file_addr ip V k = Some a -> a <> 0 -> i_addrs ip !! NDIRECT <> Some a
}.

(** A block in use that belongs neither to the file nor to the bitmap. *)
Record foreign (ip : inode) (V : gmap Z (list Z)) (x : Z) : Prop := {
  fg_range : 0 < x < sb_size sb0;
  fg_used : used sb0 V x = true;
  fg_map : ~ bitmap_block x;
  fg_ind : i_addrs ip !! NDIRECT <> Some x;
  fg_data k : (k < MAXB)%nat -> file_addr ip V k <> Some x
}.

(** The file [ip] on the disk [V] became [ip'] on [V']: the bytes [l] were put
    at [off], blocks were added, and nothing else changed. *)
Record written (off : Z) (l : list Z) (ip : inode) (V : gmap Z (list Z)) (ip' : inode) (V' : gmap Z (list Z)) : Prop := {
  wr_inode : ip' = ip <| i_addrs := i_addrs ip' |>;
  wr_addr k a : (k < MAXB)%nat -> file_addr ip V k = Some a -> a <> 0 -> file_addr ip' V' k = Some a;
  wr_byte pos : 0 <= pos < MAXFILE * BSIZE -> fbyte ip' V' pos =
    if decide (off <= pos < off + Z.of_nat (length l)) then nth (Z.to_nat (pos - off)) l 0 else fbyte ip V pos;
  wr_used b : 0 <= b < sb_size sb0 -> used sb0 V b = true -> used sb0 V' b = true;
  wr_other x : foreign ip V x -> V' !! x = V !! x /\ foreign ip' V' x;
  wr_dom x : is_Some (V !! x) -> is_Some (V' !! x)
}.

Lemma written_same off ip V : written off [] ip V ip V.
Proof. split; try done; [by destruct ip|]. intros pos _. rewrite decide_False by (simpl; lia). done. Qed.

Lemma written_app off m l ip V ip1 V1 ip2 V2 :
  0 <= m <= Z.of_nat (length l) -> written off (take (Z.to_nat m) l) ip V ip1 V1 ->
  written (off + m) (drop (Z.to_nat m) l) ip1 V1 ip2 V2 -> written off l ip V ip2 V2.
Proof.
  intros Hm [I1 A1 B1 U1 O1 D1] [I2 A2 B2 U2 O2 D2]. split.
  - transitivity (ip1 <| i_addrs := i_addrs ip2 |>); [done|]. exact (f_equal (fun x : inode => x <| i_addrs := i_addrs ip2 |>) I1).
  - intros k a Hk Ha Hnz. apply A2; [done|by apply A1|done].
  - intros pos Hpos. rewrite B2, B1 by done. rewrite length_drop, length_take.
    destruct (decide (off + m <= pos < off + m + Z.of_nat (length l - Z.to_nat m))) as [H2|H2].
    + rewrite decide_True by lia. rewrite !nth_lookup, lookup_drop. f_equal. f_equal. lia.
    + destruct (decide (off <= pos < off + Z.of_nat (Nat.min (Z.to_nat m) (length l)))) as [H3|H3].
      * rewrite decide_True by lia. rewrite !nth_lookup, lookup_take_lt by lia. done.
      * rewrite decide_False by lia. done.
  - intros b Hb Hu. by apply U2, U1.
  - intros x Hx. destruct (O1 x Hx) as [E1 F1]. destruct (O2 x F1) as [E2 F2]. by rewrite E2, E1.
  - intros x Hx. by apply D2, D1.
Qed.

(** A change that adds blocks only, before bytes are put. *)
Lemma written_after off off0 l ip V ip1 V1 ip2 V2 :
  written off0 [] ip V ip1 V1 -> written off l ip1 V1 ip2 V2 -> written off l ip V ip2 V2.
Proof.
  intros [I1 A1 B1 U1 O1 D1] Hw2. apply (written_app off 0 l ip V ip1 V1); [lia| |by rewrite Z.add_0_r].
  split; try done. intros pos Hpos. rewrite B1 by done. simpl. rewrite !decide_False by (simpl; lia). done.
Qed.

(** ** Allocation for a file *)

Lemma good_ext V V' B a : good V B a -> (forall b, 0 <= b < sb_size sb0 -> used sb0 V b = true -> used sb0 V' b = true) ->
  (is_Some (V !! a) -> is_Some (V' !! a)) -> good V' B a.
Proof. intros [] Hu Hs. split; auto with lia. Qed.

Section attach.
Context (ip : inode) (V : gmap Z (list Z)) (B : gmap Z nat) (Hfo : file_ok ip V B).

Lemma file_addr_lt k a : (k < MAXB)%nat -> file_addr ip V k = Some a -> a = 0 \/ good V B a.
Proof. intros Hk Ha. destruct (fo_data _ _ _ Hfo k Hk) as (a' & Ha' & Hg). by simplify_eq. Qed.

(** The indirect block stays when other blocks change. *)
Lemma file_addr_ext V' k :
  (forall a, i_addrs ip !! NDIRECT = Some a -> a <> 0 -> V' !! a = V !! a) -> file_addr ip V' k = file_addr ip V k.
Proof.
  intros HV. unfold file_addr. destruct (k <? NDIRECT)%nat; [done|]. destruct (i_addrs ip !! NDIRECT) as [a|] eqn:Ea; [|done]. simpl.
  destruct (Z.eqb_spec a 0) as [->|Hnz]; [done|]. by rewrite HV.
Qed.

(** The block just taken is nobody's. *)
Context (r : Z) (V1 : gmap Z (list Z)) (Hao : alloc_ok V B) (Htk : taken sb0 V r V1).

Lemma taken_used b : 0 <= b < sb_size sb0 -> used sb0 V b = true -> used sb0 V1 b = true.
Proof. intros Hb Hu. rewrite (tk_used _ _ _ _ Htk) by done. rewrite Hu. apply orb_true_r. Qed.
Lemma taken_pos : 0 < r < sb_size sb0.
Proof.
  destruct Htk as [Hr Hu _ _ _ _]. destruct (decide (r = 0)) as [->|]; [|lia]. by rewrite (proj2 (ao_zero _ _ Hao)) in Hu.
Qed.
Lemma taken_not_used b : used sb0 V b = true -> b <> r.
Proof. intros Hu ->. by rewrite (tk_free _ _ _ _ Htk) in Hu. Qed.
Lemma taken_keeps b : used sb0 V b = true -> ~ bitmap_block b -> V1 !! b = V !! b.
Proof.
  intros Hu Hm. apply (tk_other _ _ _ _ Htk); [by apply taken_not_used|]. intros ->. apply Hm. exists r. split; [apply Htk|done].
Qed.
Lemma taken_good : good V1 B r.
Proof.
  pose proof taken_pos as Hr. pose proof (tk_free _ _ _ _ Htk) as Hu. destruct Hao as [Hbm _ Hh Hf].
  destruct (bm_free _ _ _ Hbm r (tk_range _ _ _ _ Htk) Hu) as (Hs & Hl & Hn). split; try done.
  - rewrite (tk_used _ _ _ _ Htk) by lia. by rewrite Z.eqb_refl.
  - rewrite (tk_zero _ _ _ _ Htk). by eexists.
  - apply Hf; [lia|done].
  - intros (b & Hb & E). by apply (Hn b).
Qed.
Lemma taken_addr k : file_addr ip V1 k = file_addr ip V k.
Proof.
  apply file_addr_ext. intros a Ha Hnz. destruct (fo_ind _ _ _ Hfo a Ha) as [->|Hg]; [done|].
  apply taken_keeps; apply Hg.
Qed.
Lemma taken_fresh k : (k < MAXB)%nat -> file_addr ip V k <> Some r.
Proof.
  intros Hk Ha. pose proof taken_pos. destruct (file_addr_lt k r Hk Ha) as [->|Hg]; [lia|].
  apply (taken_not_used r); [apply Hg|done].
Qed.
Lemma taken_fresh_ind : i_addrs ip !! NDIRECT <> Some r.
Proof.
  intros Ha. pose proof taken_pos. destruct (fo_ind _ _ _ Hfo r Ha) as [->|Hg]; [lia|]. apply (taken_not_used r); [apply Hg|done].
Qed.
Lemma taken_alloc_ok : bitmap_ok st sb0 V1 -> alloc_ok V1 B.
Proof.
  intros Hbm. destruct Hao as [_ Hz Hh Hf]. split; try done.
  - destruct Hz as [? Hz]. split; [done|]. by apply taken_used.
  - intros b Hb Hu. apply Hf; [done|]. rewrite (tk_used _ _ _ _ Htk) in Hu by done. by apply orb_false_iff in Hu as [_ ?].
Qed.

(** Bytes compare block by block. *)
Lemma fbyte_ext ip' V' :
  (forall k j, (k < MAXB)%nat -> nth j (fblock ip' V' k) 0 = nth j (fblock ip V k) 0) ->
  forall pos, 0 <= pos < MAXFILE * BSIZE -> fbyte ip' V' pos = fbyte ip V pos.
Proof.
  intros Hb pos Hpos. unfold fbyte. apply Hb. apply (off_block pos MAXB); [lia|]. rewrite MAXB_eq. change MAXFILE with 268 in Hpos. lia.
Qed.

Lemma nth_zeros j : nth j zeros 0 = 0.
Proof. unfold zeros. rewrite nth_lookup. destruct (_ !! j) as [x|] eqn:E; [|done]. by apply lookup_replicate in E as [-> _]. Qed.

Lemma taken_written_blocks ip' V' off :
  ip' = ip <| i_addrs := i_addrs ip' |> ->
  (forall k a, (k < MAXB)%nat -> file_addr ip V k = Some a -> a <> 0 -> file_addr ip' V' k = Some a) ->
  (forall k j, (k < MAXB)%nat -> nth j (fblock ip' V' k) 0 = nth j (fblock ip V k) 0) ->
  (forall x, i_addrs ip' !! NDIRECT = Some x -> i_addrs ip !! NDIRECT = Some x \/ x = r) ->
  (forall k x, (k < MAXB)%nat -> file_addr ip' V' k = Some x -> file_addr ip V k = Some x \/ x = r) ->
  (forall x, x = 0 \/ i_addrs ip !! NDIRECT <> Some x -> V' !! x = V1 !! x) ->
  (forall x, is_Some (V1 !! x) -> is_Some (V' !! x)) ->
  written off [] ip V ip' V' /\ forall b, 0 <= b < sb_size sb0 -> used sb0 V' b = used sb0 V1 b.
Proof.
  intros Hip Haddr Hblk Hind Hnew HV Hdom.
  assert (forall b, 0 <= b < sb_size sb0 -> used sb0 V' b = used sb0 V1 b) as Hused.
  { intros b Hb. unfold used. rewrite HV; [done|]. destruct (decide (BBLOCK b sb0 = 0)) as [E0|E0]; [by left|right]. intros E.
    destruct (fo_ind _ _ _ Hfo _ E) as [|Hg]; [done|]. apply (gd_map _ _ _ Hg). by exists b. }
  split; [|done]. split; try done.
  - intros pos Hpos. rewrite decide_False by (simpl; lia). by apply fbyte_ext.
  - intros b Hb Hu. rewrite Hused by done. by apply taken_used.
  - intros x [Fr Fu Fm Fi Fd]. rewrite HV by (by right). split; [by apply taken_keeps|]. split; try done.
    + rewrite Hused by lia. apply taken_used; [lia|done].
    + intros E. destruct (Hind x E) as [ | -> ]; [done|]. by apply (taken_not_used r).
    + intros k Hk E. destruct (Hnew k x Hk E) as [E' | -> ]; [by apply (Fd k)|]. by apply (taken_not_used r).
  - intros x Hx. by apply Hdom, (tk_dom _ _ _ _ Htk).
Qed.

(** A block of the file in the new state is as it was. *)
Lemma kept_block ip' V' k a :
  (forall x, x = 0 \/ i_addrs ip !! NDIRECT <> Some x -> V' !! x = V1 !! x) ->
  (k < MAXB)%nat -> file_addr ip V k = Some a -> file_addr ip' V' k = Some a -> fblock ip' V' k = fblock ip V k.
Proof.
  intros HV Hk Ha Ha'. unfold fblock. rewrite Ha, Ha'. simpl. destruct (Z.eqb_spec a 0) as [|Hnz]; [done|].
  destruct (file_addr_lt k a Hk Ha) as [|Hg]; [done|]. rewrite HV by (right; by apply (fo_sep _ _ _ Hfo k)).
  rewrite taken_keeps; [done|apply Hg|apply Hg].
Qed.

(** Block [bn] of the file, which was missing, is now [r]. *)
Lemma attach_data bn ip' V' off :
  (bn < MAXB)%nat -> file_addr ip V bn = Some 0 ->
  ip' = ip <| i_addrs := i_addrs ip' |> -> length (i_addrs ip') = (NDIRECT + 1)%nat -> i_addrs ip' !! NDIRECT = i_addrs ip !! NDIRECT ->
  (forall k, (k < MAXB)%nat -> file_addr ip' V' k = if decide (k = bn) then Some r else file_addr ip V k) ->
  (forall x, x = 0 \/ i_addrs ip !! NDIRECT <> Some x -> V' !! x = V1 !! x) ->
  (forall x, is_Some (V1 !! x) -> is_Some (V' !! x)) ->
  file_ok ip' V' B /\ written off [] ip V ip' V' /\ forall b, 0 <= b < sb_size sb0 -> used sb0 V' b = used sb0 V1 b.
Proof.
  intros Hbn H0 Hip Hlen Hind Haddr HV Hdom. pose proof taken_pos as Hr. pose proof taken_fresh_ind as Hri.
  assert (V' !! r = Some zeros) as Hz by (rewrite HV by (by right); apply Htk).
  destruct (taken_written_blocks ip' V' off) as [Hw Hused]; try done.
  - intros k a Hk Ha Hnz. rewrite Haddr by done. rewrite decide_False; [done|]. intros ->. congruence.
  - intros k j Hk. pose proof (Haddr k Hk) as Ha. destruct (decide (k = bn)) as [->|Hne].
    + unfold fblock. rewrite Ha, H0. cbn [mbind option_bind]. rewrite (proj2 (Z.eqb_neq r 0)) by lia. rewrite Hz.
      change (default [] (Some zeros)) with zeros. rewrite nth_zeros. by destruct j.
    + destruct (fo_data _ _ _ Hfo k Hk) as (a & Ea & _). rewrite (kept_block ip' V' k a); try done. by rewrite Ha.
  - intros x E. left. by rewrite <- Hind.
  - intros k x Hk. rewrite Haddr by done. case_decide; [intros [= <-]; by right|by left].
  - split; [|done]. assert (forall a, good V B a -> good V' B a) as Hgood.
    { intros a Hg. apply (good_ext V V' B); [done|intros b Hb Hu; rewrite Hused by done; by apply taken_used|].
      intros Hx. by apply Hdom, (tk_dom _ _ _ _ Htk). }
    assert (good V' B r) as Hgr.
    { apply (good_ext V1 V' B); [apply taken_good|intros b Hb Hu; by rewrite Hused by done|apply Hdom]. }
    split; try done.
    + intros a Ea. rewrite Hind in Ea. destruct (fo_ind _ _ _ Hfo a Ea); auto.
    + intros k Hk. rewrite Haddr by done. case_decide; [by exists r; auto|].
      destruct (fo_data _ _ _ Hfo k Hk) as (a & Ea & [|]); exists a; auto.
    + intros k k' a Hk Hk'. rewrite !Haddr by done. pose proof (taken_fresh k Hk). pose proof (taken_fresh k' Hk').
      do 2 case_decide; intros E1 E2 Hnz; try congruence. by apply (fo_inj _ _ _ Hfo k k' a).
    + intros k a Hk. rewrite Haddr, Hind by done. case_decide; [intros [= <-] _; done|by apply (fo_sep _ _ _ Hfo)].
Qed.

(** The indirect block, which was missing, is now [r]. *)
Lemma attach_ind off :
  i_addrs ip !! NDIRECT = Some 0 -> let ip' := ip <| i_addrs ::= <[NDIRECT := r]> |> in
  file_ok ip' V1 B /\ written off [] ip V ip' V1.
Proof.
  intros H0 ip'. pose proof taken_pos as Hr. pose proof (fo_len _ _ _ Hfo) as Hlen.
  assert (i_addrs ip' !! NDIRECT = Some r) as Hi by (apply list_lookup_insert_eq; rewrite Hlen; unfold NDIRECT; lia).
  assert (forall k, file_addr ip' V1 k = file_addr ip V k) as Haddr.
  { intros k. unfold file_addr. rewrite Hi, H0. destruct (Nat.ltb_spec k NDIRECT); [by apply list_lookup_insert_ne; lia|]. cbn [mbind option_bind].
    rewrite (proj2 (Z.eqb_neq r 0)) by lia. rewrite (tk_zero _ _ _ _ Htk). cbn [mbind option_bind]. by rewrite get32_zeros. }
  assert (forall a, good V B a -> good V1 B a) as Hgood.
  { intros a Hg. apply (good_ext V V1 B); [done|apply taken_used|apply (tk_dom _ _ _ _ Htk)]. }
  destruct (taken_written_blocks ip' V1 off) as [Hw _]; try done.
  - intros k a Hk Ha _. by rewrite Haddr.
  - intros k j Hk. destruct (fo_data _ _ _ Hfo k Hk) as (a & Ea & _). rewrite (kept_block ip' V1 k a); try done. by rewrite Haddr.
  - intros x. rewrite Hi. intros [= <-]. by right.
  - intros k x Hk. rewrite Haddr. by left.
  - split; [|done]. split.
    + unfold ip'. simpl. by rewrite length_insert.
    + intros a. rewrite Hi. intros [= <-]. right. apply taken_good.
    + intros k Hk. rewrite Haddr. destruct (fo_data _ _ _ Hfo k Hk) as (a & Ea & [|]); exists a; auto.
    + intros k k' a Hk Hk'. rewrite !Haddr. by apply (fo_inj _ _ _ Hfo).
    + intros k a Hk. rewrite Haddr, Hi. intros Ea _ [= <-]. by apply (taken_fresh k).
Qed.
End attach.

(** ** Bytes put into one block of the file *)

Lemma written_block off l ip V B a d :
  file_ok ip V B -> 0 <= off < MAXFILE * BSIZE -> off mod BSIZE + Z.of_nat (length l) <= BSIZE ->
  file_addr ip V (Z.to_nat (off / BSIZE)) = Some a -> a <> 0 -> V !! a = Some d -> length d = Z.to_nat BSIZE ->
  let V' := <[a := list_inserts (Z.to_nat (off mod BSIZE)) l d]> V in
  file_ok ip V' B /\ written off l ip V ip V' /\ forall b, 0 <= b < sb_size sb0 -> used sb0 V' b = used sb0 V b.
Proof.
  intros Hfo Ho Hl Ha Hnz Hd Hlen V'.
  assert (forall pos, 0 <= pos < MAXFILE * BSIZE -> (Z.to_nat (pos / BSIZE) < MAXB)%nat /\ Z.of_nat (Z.to_nat (pos / BSIZE)) = pos / BSIZE) as Hblk.
  { intros pos Hpos. apply off_block; [lia|]. rewrite MAXB_eq. change MAXFILE with 268 in Hpos. lia. }
  destruct (Hblk off Ho) as [Hbn Ebn]. destruct (file_addr_lt ip V B Hfo _ _ Hbn Ha) as [|Hg]; [done|].
  assert (forall j, file_addr ip V' j = file_addr ip V j) as HA.
  { intros j. apply (file_addr_ext ip V). intros a0 E0 _. unfold V'. rewrite lookup_insert_ne; [done|]. intros <-.
    by apply (fo_sep _ _ _ Hfo _ _ Hbn Ha). }
  assert (forall b, 0 <= b < sb_size sb0 -> used sb0 V' b = used sb0 V b) as Hu.
  { intros b Hb. unfold used, V'. rewrite lookup_insert_ne; [done|]. intros E. apply (gd_map _ _ _ Hg). by exists b. }
  assert (forall x, is_Some (V !! x) -> is_Some (V' !! x)) as Hdom by (intros x Hx; by apply insert_is_Some).
  assert (forall x, good V B x -> good V' B x) as Hgood by (intros x Hx; apply (good_ext V V'); [done|intros; by rewrite Hu|apply Hdom]).
  split; [|split; [|done] ].
  { destruct Hfo as [F1 F2 F3 F4 F5]. split; try done.
    - intros x Ex. destruct (F2 x Ex); auto.
    - intros j Hj. rewrite HA. destruct (F3 j Hj) as (x & Ex & [|]); exists x; auto.
    - intros j j' x Hj Hj'. rewrite !HA. by apply F4.
    - intros j x Hj. rewrite HA. by apply F5. }
  pose proof (Z.mod_pos_bound off BSIZE BSIZE_pos) as Hmod. split; try done.
  - by destruct ip.
  - intros j x Hj Ex _. by rewrite HA.
  - intros pos Hpos. destruct (Hblk pos Hpos) as [Hpb Epb]. pose proof (Z.mod_pos_bound pos BSIZE BSIZE_pos) as Hpmod.
    pose proof (Z.div_mod off BSIZE ltac:(done)) as Hdo. pose proof (Z.div_mod pos BSIZE ltac:(done)) as Hdp.
    unfold fbyte. destruct (decide (pos / BSIZE = off / BSIZE)) as [E|Hne].
    + rewrite E. rewrite (fblock_at ip V' _ a (list_inserts (Z.to_nat (off mod BSIZE)) l d)) by (first [by rewrite HA | done | apply lookup_insert_eq]).
      rewrite (fblock_at ip V _ a d) by done. rewrite !nth_lookup. destruct (decide (off <= pos < off + Z.of_nat (length l))) as [Hin|Hin].
      * rewrite list_lookup_inserts by (change BSIZE with 1024 in *; lia). f_equal. f_equal. change BSIZE with 1024 in *. lia.
      * destruct (decide (pos < off)) as [Hlt|Hge].
        -- rewrite list_lookup_inserts_lt by (change BSIZE with 1024 in *; lia). done.
        -- rewrite list_lookup_inserts_ge by (change BSIZE with 1024 in *; lia). done.
    + rewrite decide_False; [|change BSIZE with 1024 in *; nia]. f_equal. unfold fblock. rewrite HA.
      destruct (file_addr ip V (Z.to_nat (pos / BSIZE))) as [a'|] eqn:Ea'; [|done]. cbn [mbind option_bind].
      destruct (Z.eqb_spec a' 0) as [|Hnz']; [done|]. unfold V'. rewrite lookup_insert_ne; [done|].
      intros <-. apply Hne. pose proof (fo_inj _ _ _ Hfo _ _ _ Hpb Hbn Ea' Ha Hnz). lia.
  - intros b Hb. by rewrite Hu.
  - intros x [Fr Fu Fm Fi Fd]. assert (x <> a) as Hxa by (intros ->; by apply (Fd _ Hbn)). unfold V' at 1.
    rewrite lookup_insert_ne by done. split; [done|]. split; try done; [by rewrite Hu by lia|]. intros j Hj. rewrite HA. by apply Fd.
Qed.

(** ** A block outside the file changes *)

Section outside.
Context (ip : inode) (V : gmap Z (list Z)) (x : Z) (d : list Z) (Hx : foreign ip V x).
Let V' := <[x := d]> V.

Lemma outside_addr k : file_addr ip V' k = file_addr ip V k.
Proof. apply file_addr_ext. intros a Ha _. unfold V'. rewrite lookup_insert_ne; [done|]. intros <-. by apply (fg_ind _ _ _ Hx). Qed.
Lemma outside_used b : 0 <= b < sb_size sb0 -> used sb0 V' b = used sb0 V b.
Proof. intros Hb. unfold used, V'. rewrite lookup_insert_ne; [done|]. intros E. apply (fg_map _ _ _ Hx). by exists b. Qed.
Lemma outside_byte pos : 0 <= pos < MAXFILE * BSIZE -> fbyte ip V' pos = fbyte ip V pos.
Proof.
  apply (fbyte_ext ip V). intros k j Hk. f_equal. unfold fblock. rewrite outside_addr.
  destruct (file_addr ip V k) as [a|] eqn:Ea; [|done]. cbn [mbind option_bind]. destruct (a =? 0); [done|]. unfold V'.
  rewrite lookup_insert_ne; [done|]. intros <-. by apply (fg_data _ _ _ Hx k Hk).
Qed.
Lemma outside_foreign y : foreign ip V y -> foreign ip V' y.
Proof.
  intros []. split; try done; [by rewrite outside_used by lia|]. intros k Hk. rewrite outside_addr. auto.
Qed.
Lemma outside_file B : file_ok ip V B -> file_ok ip V' B.
Proof.
  intros [F1 F2 F3 F4 F5]. assert (forall a, good V B a -> good V' B a) as Hgood.
  { intros a Ha. apply (good_ext V V'); [done|intros b Hb; by rewrite outside_used|intros Hs; by apply insert_is_Some]. }
  split; try done.
  - intros a Ea. destruct (F2 a Ea); auto.
  - intros j Hj. rewrite outside_addr. destruct (F3 j Hj) as (a & Ea & [|]); exists a; auto.
  - intros j j' a Hj Hj'. rewrite !outside_addr. by apply F4.
  - intros j a Hj. rewrite outside_addr. by apply F5.
Qed.
End outside.

Lemma file_ok_size ip V B n : file_ok ip V B -> file_ok (ip <| i_size := n |>) V B.
Proof. intros [F1 F2 F3 F4 F5]. by split. Qed.
Lemma foreign_size ip V x n : foreign ip V x -> foreign (ip <| i_size := n |>) V x.
Proof. intros [F1 F2 F3 F4 F5]. by split. Qed.
End blocks.

(** ** [bmap] *)

Section run.
Context `{Link, Patience, Disk} {disk_idle : kernel -> Prop} `{!DiskOk disk_idle}.
Context (h : hart) (i : nat) (p : proc) (st : Z) (D : gmap Z (list Z)) (W : list (Z * list Z)) (sb0 : superblock) (k : nat).
Local Abbreviation txn := (in_txn (disk_idle := disk_idle) h i p st D W).
Local Abbreviation file_ok := (file_ok st sb0).
Local Abbreviation alloc_ok := (alloc_ok st sb0).
Local Abbreviation written := (written sb0).

(** From one state of the transaction to another: at most [n] more blocks are
    logged, the bytes [l] were put at [off] of the file in slot [k]. *)
Record advance (n : nat) (off : Z) (l : list Z) (B : gmap Z nat) (t : kernel) (bs : list Z) (ip : inode) (V : gmap Z (list Z))
    (t' : kernel) (bs' : list Z) (ip' : inode) (V' : gmap Z (list Z)) : Prop := {
  ad_txn : txn bs' V' B t';
  ad_sb : sb t' = sb t;
  ad_table : itable t' = <[k := ip']> (itable t);
  ad_file : file_ok ip' V' B;
  ad_alloc : alloc_ok V' B;
  ad_written : written off l ip V ip' V';
  ad_log : (length bs' <= length bs + n)%nat
}.

(** The file of slot [k] in a transaction, with the allocator in order. *)
Record ready (B : gmap Z nat) (t : kernel) (bs : list Z) (ip : inode) (V : gmap Z (list Z)) : Prop := {
  sr_txn : txn bs V B t;
  sr_sb : sb t = sb0;
  sr_slot : itable t !! k = Some ip;
  sr_dev : i_dev ip = ROOTDEV;
  sr_file : file_ok ip V B;
  sr_alloc : alloc_ok V B
}.

Lemma advance_ready n off l B t bs ip V t' bs' ip' V' :
  ready B t bs ip V -> advance n off l B t bs ip V t' bs' ip' V' -> ready B t' bs' ip' V'.
Proof.
  intros [] []. split; try done.
  - by rewrite ad_sb0.
  - rewrite ad_table0. apply list_lookup_insert_eq. by eapply lookup_lt_Some.
  - by rewrite (wr_inode _ _ _ _ _ _ _ ad_written0).
Qed.

Lemma advance_none n off B t bs ip V t' bs' : ready B t bs ip V -> txn bs' V B t' -> lframe t t' ->
  (length bs' <= length bs + n)%nat -> advance n off [] B t bs ip V t' bs' ip V.
Proof.
  intros [] Hin Hf Hl. split; try done; [by apply lframe_sb| |apply written_same].
  rewrite (lframe_itable _ _ Hf). by rewrite list_insert_id.
Qed.

Lemma advance_trans n1 n2 off off0 l B t bs ip V t1 bs1 ip1 V1 t2 bs2 ip2 V2 :
  advance n1 off0 [] B t bs ip V t1 bs1 ip1 V1 -> advance n2 off l B t1 bs1 ip1 V1 t2 bs2 ip2 V2 ->
  advance (n1 + n2) off l B t bs ip V t2 bs2 ip2 V2.
Proof.
  intros [] []. split; try done; [congruence| | |lia].
  - rewrite ad_table1, ad_table0. apply list_insert_insert_eq.
  - by eapply written_after.
Qed.

Lemma balloc_file bs V B t :
  txn bs V B t -> sb t = sb0 -> alloc_ok V B -> (length bs + 1 < LOGBLOCKS)%nat -> (length bs + 1 + size B < NBUF)%nat ->
  exists r t' bs' V', balloc ROOTDEV t = Ret r t' /\ lframe t t' /\ txn bs' V' B t' /\ (length bs' <= length bs + 2)%nat
    /\ alloc_ok V' B /\ ((r <> 0 /\ taken sb0 V r V') \/ (r = 0 /\ full sb0 V /\ V' = V /\ bs' = bs)).
Proof.
  intros Hin Hsb Hao Hlen Hroom. pose proof Hao as [Hbm Hz Hh Hfr].
  destruct (balloc_txn h i p st D W sb0 V Hbm bs B Hlen Hroom Hh Hfr t Hin Hsb)
    as (r & t' & Hs & Hf & [(d & Hr & Hu & Hlow & Hd & Hl & Hin')|(-> & Hall & Hin')]).
  - destruct (alloc_taken st sb0 V r d Hbm Hr Hu Hd Hl) as [Htk Hbm']. do 4 eexists. split; [exact Hs|]. split; [done|].
    split; [exact Hin'|]. split; [|split; [by apply (taken_alloc_ok st sb0 V B r)|] ].
    { pose proof (log_add_length r (log_add (BBLOCK r sb0) bs)). pose proof (log_add_length (BBLOCK r sb0) bs). lia. }
    left. split; [|done]. pose proof (taken_pos st sb0 V B r _ Hao Htk). lia.
  - exists 0, t', bs, V. split_and!; try done; [lia|]. right. done.
Qed.

(** An address of the inode is set. *)
Lemma set_addr t ip j r :
  itable t !! k = Some ip ->
  inode_upd k (fun ip => ip <| i_addrs ::= <[j := r]> |>) t
  = Ret tt (t <| itable := <[k := ip <| i_addrs ::= <[j := r]> |>]> (itable t) |>).
Proof.
  intros Hk. unfold inode_upd, modify. f_equal.
  assert (alter (fun ip => ip <| i_addrs ::= <[j := r]> |>) k (itable t) = <[k := ip <| i_addrs ::= <[j := r]> |>]> (itable t)) as E.
  { apply list_eq. intros m. destruct (decide (m = k)) as [->|]; [|by rewrite list_lookup_alter_ne, list_lookup_insert_ne].
    rewrite list_lookup_alter_eq, Hk. simpl. by rewrite list_lookup_insert_eq by (by eapply lookup_lt_Some). }
  by rewrite <- E.
Qed.

(** 1 when the indirect block is missing. *)
Definition hole (ip : inode) : nat := if decide (i_addrs ip !! NDIRECT = Some 0) then 1 else 0.

(** What [bmap] of block [bn] comes to: the address, or 0 on a full disk. *)
Definition bmap_post (bn : nat) (ip : inode) (V : gmap Z (list Z)) (a : Z) (ip' : inode) (V' : gmap Z (list Z)) : Prop :=
  (a <> 0 /\ file_addr ip' V' bn = Some a /\ (nfree sb0 V + hole ip' <= nfree sb0 V' + hole ip + 1)%nat)
  \/ (a = 0 /\ full sb0 V' /\ (nfree sb0 V <= hole ip)%nat).

Lemma bmap_direct B t bs ip V bn :
  ready B t bs ip V -> (bn < NDIRECT)%nat -> (length bs + 1 < LOGBLOCKS)%nat -> (length bs + 1 + size B < NBUF)%nat ->
  exists a t' bs' ip' V', bmap k (Z.of_nat bn) t = Ret a t' /\ advance 2 0 [] B t bs ip V t' bs' ip' V' /\ bmap_post bn ip V a ip' V'.
Proof.
  intros Hst Hbn Hlen Hroom. pose proof Hst as [Hin Hsb Hk Hdev Hfo Hao]. pose proof (fo_len _ _ _ _ _ Hfo) as Hla.
  unfold bmap. mapply inode_get_ok by exact Hk. rewrite (proj2 (Z.ltb_lt _ _)) by lia. rewrite Nat2Z.id.
  assert (forall ip V, file_addr ip V bn = i_addrs ip !! bn) as Efa
    by (intros ip0 V0; unfold file_addr; by rewrite (proj2 (Nat.ltb_lt _ _) Hbn)).
  destruct (lookup_lt_is_Some_2 (i_addrs ip) bn) as [a Ha]; [lia|]. rewrite Ha. cbn [deref]. msimpl.
  destruct (Z.eqb_spec a 0) as [->|Hnz].
  2: { exists a, t, bs, ip, V. split; [done|]. split; [apply advance_none; [done..|lia]|]. left. rewrite Efa. split_and!; [done..|lia]. }
  rewrite Hdev. destruct (balloc_file bs V B t Hin Hsb Hao Hlen Hroom) as (r & t1 & bs1 & V1 & Hs1 & Hf1 & Hin1 & Hl1 & Hao1 & Hr).
  mstep Hs1. destruct Hr as [[Hr Htk]|(-> & Hfull & -> & ->)].
  2: { rewrite Z.eqb_refl. exists 0, t1, bs, ip, V. split; [done|]. split; [apply advance_none; [done..|lia]|].
       right. split_and!; [done..|]. rewrite nfree_full by done. lia. }
  rewrite (proj2 (Z.eqb_neq _ _) Hr). mapply set_addr by (rewrite (lframe_itable _ _ Hf1); exact Hk).
  set (ip' := ip <| i_addrs ::= <[bn := r]> |>).
  assert (i_addrs ip' !! NDIRECT = i_addrs ip !! NDIRECT) as Ei by (apply list_lookup_insert_ne; lia).
  assert (i_addrs ip' !! bn = Some r) as Eb by (apply list_lookup_insert_eq; lia).
  destruct (attach_data st sb0 ip V B Hfo r V1 Hao Htk bn ip' V1 0) as (Hfo' & Hw & _); try done.
  - rewrite MAXB_eq. unfold NDIRECT in Hbn. lia.
  - by rewrite Efa.
  - unfold ip'. simpl. by rewrite length_insert.
  - intros j Hj. case_decide; [subst; by rewrite Efa|]. rewrite <- (taken_addr st sb0 ip V B Hfo r V1 Htk).
    unfold file_addr. rewrite Ei. destruct (j <? NDIRECT)%nat; [|done]. by apply list_lookup_insert_ne.
  - exists r. do 2 eexists. exists ip', V1. split; [reflexivity|]. split.
    + split; try done; [by apply txn_itable|by apply (lframe_sb _ _ Hf1)|by rewrite <- (lframe_itable _ _ Hf1)].
    + left. split; [done|]. split; [by rewrite Efa|]. rewrite (nfree_taken _ _ _ _ Htk). unfold hole. rewrite Ei. lia.
Qed.

(** The first half of the other case: the indirect block. *)
Definition ind_code (dev a : Z) : K Z :=
  if a =? 0 then
    addr ← balloc dev;
    when (negb (addr =? 0)) (inode_upd k (fun ip => ip <| i_addrs ::= <[NDIRECT := addr]> |>));;
    mret addr
  else mret a.

Lemma ind_code_ok B t bs ip V a0 :
  ready B t bs ip V -> i_addrs ip !! NDIRECT = Some a0 -> (length bs + 1 < LOGBLOCKS)%nat -> (length bs + 1 + size B < NBUF)%nat ->
  exists a t' bs' ip' V', ind_code ROOTDEV a0 t = Ret a t' /\ advance 2 0 [] B t bs ip V t' bs' ip' V'
    /\ ((a <> 0 /\ i_addrs ip' !! NDIRECT = Some a /\ (nfree sb0 V <= nfree sb0 V' + hole ip)%nat)
        \/ (a = 0 /\ full sb0 V' /\ nfree sb0 V = 0%nat)).
Proof.
  intros Hst Ha Hlen Hroom. pose proof Hst as [Hin Hsb Hk Hdev Hfo Hao]. unfold ind_code. destruct (Z.eqb_spec a0 0) as [->|Hnz].
  2: { exists a0, t, bs, ip, V. split; [done|]. split; [apply advance_none; [done..|lia]|]. left. split_and!; [done..|lia]. }
  destruct (balloc_file bs V B t Hin Hsb Hao Hlen Hroom) as (r & t1 & bs1 & V1 & Hs1 & Hf1 & Hin1 & Hl1 & Hao1 & Hr).
  mstep Hs1. destruct Hr as [[Hr Htk]|(-> & Hfull & -> & ->)].
  2: { cbn [negb Z.eqb when]. msimpl. exists 0, t1, bs, ip, V. split; [done|]. split; [apply advance_none; [done..|lia]|].
       right. split_and!; [done..|by apply nfree_full]. }
  rewrite (proj2 (Z.eqb_neq _ _) Hr). cbn [negb when]. mapply set_addr by (rewrite (lframe_itable _ _ Hf1); exact Hk).
  destruct (attach_ind st sb0 ip V B Hfo r V1 Hao Htk 0 Ha) as [Hfo' Hw]. set (ip' := ip <| i_addrs ::= <[NDIRECT := r]> |>) in *.
  exists r. do 2 eexists. exists ip', V1. split; [reflexivity|]. split.
  - split; try done; [by apply txn_itable|by apply (lframe_sb _ _ Hf1)|by rewrite <- (lframe_itable _ _ Hf1)].
  - left. split; [done|]. split; [apply list_lookup_insert_eq; rewrite (fo_len _ _ _ _ _ Hfo); unfold NDIRECT; lia|].
    rewrite (nfree_taken _ _ _ _ Htk). unfold hole. rewrite Ha, decide_True by done. lia.
Qed.

(** Holding the indirect block is no obstacle to the allocator. *)
Lemma alloc_ok_hold V B a b : alloc_ok V B -> good st sb0 V B a -> alloc_ok V (<[a := b]> B).
Proof.
  intros [Hbm Hz Hh Hf] Hg. split; try done.
  - intros x Hx. rewrite lookup_insert_ne; [by apply Hh|]. intros E. apply (gd_map _ _ _ _ _ Hg). by exists x.
  - intros x Hx Hu. rewrite lookup_insert_ne; [by apply Hf|]. intros E. rewrite <- E, (gd_used _ _ _ _ _ Hg) in Hu. done.
Qed.
Lemma alloc_ok_drop V B a b : alloc_ok V (<[a := b]> B) -> alloc_ok V B.
Proof.
  assert (forall x, <[a := b]> B !! x = None -> B !! x = None) as Hx by (intros x Hx; by apply lookup_insert_None in Hx as [? _]).
  intros [Hbm Hz Hh Hf]. split; try done; eauto.
Qed.

Lemma alloc_ok_ext V V' B :
  alloc_ok V B -> (forall b, 0 <= b < sb_size sb0 -> used sb0 V' b = used sb0 V b) ->
  (forall x, is_Some (V !! x) -> is_Some (V' !! x)) -> alloc_ok V' B.
Proof.
  intros [Hbm Hz Hh Hf] Hu Hdom. split; try done.
  - apply (bitmap_ok_mono st sb0 V); [done|done|]. intros b Hb. by rewrite Hu.
  - destruct Hz as [? Hz]. split; [done|]. by rewrite Hu by lia.
  - intros b Hb. rewrite Hu by done. by apply Hf.
Qed.

(** An entry of the indirect block is set. *)
Lemma file_addr_entry ip V a0 d j r q :
  i_addrs ip !! NDIRECT = Some a0 -> a0 <> 0 -> V !! a0 = Some d -> length d = Z.to_nat BSIZE -> (j < 256)%nat -> 0 <= r < 2 ^ 32 ->
  (q < MAXB)%nat ->
  file_addr ip (<[a0 := put32 d (4 * j) r]> V) q = if decide (q = NDIRECT + j)%nat then Some r else file_addr ip V q.
Proof.
  intros Ha Hnz Hd Hl Hj Hr Hq. change (Z.to_nat BSIZE) with 1024%nat in Hl. unfold file_addr. rewrite Ha.
  destruct (Nat.ltb_spec q NDIRECT) as [Hlt|Hge]; [by rewrite decide_False by lia|]. cbn [mbind option_bind].
  rewrite (proj2 (Z.eqb_neq _ _) Hnz), lookup_insert_eq, Hd. cbn [mbind option_bind]. case_decide as E.
  - replace (q - NDIRECT)%nat with j by lia. by rewrite get32_u32 by lia.
  - by rewrite get_put_other by lia.
Qed.

(** The second half: the entry of the indirect block. *)
Definition entry_code (dev a : Z) (j : nat) : K Z :=
  bp ← bread dev a;
  d ← data_of bp;
  let e := get32 d (4 * j) in
  addr ← (if e =? 0 then
            addr ← balloc dev;
            when (negb (addr =? 0))
              (d ← data_of bp;
               set_data bp (put32 d (4 * j) addr);;
               log_write bp);;
            mret addr
          else mret e);
  brelse bp;;
  mret addr.

Lemma entry_code_ok B t bs ip V a0 j :
  ready B t bs ip V -> i_addrs ip !! NDIRECT = Some a0 -> a0 <> 0 -> (j < 256)%nat ->
  (length bs + 2 < LOGBLOCKS)%nat -> (length bs + 2 + size B < NBUF)%nat ->
  exists a t' bs' V', entry_code ROOTDEV a0 j t = Ret a t' /\ advance 3 0 [] B t bs ip V t' bs' ip V'
    /\ bmap_post (NDIRECT + j) ip V a ip V'.
Proof.
  intros Hst Ha0 Hnz0 Hj Hlen Hroom. pose proof Hst as [Hin Hsb Hk Hdev Hfo Hao].
  destruct (fo_ind _ _ _ _ _ Hfo a0 Ha0) as [|Hg]; [done|]. destruct (gd_some _ _ _ _ _ Hg) as [d Hd]. pose proof (gd_held _ _ _ _ _ Hg) as Hb0.
  pose proof (txn_size h i p st D W _ _ _ _ _ _ Hin Hd) as Hdl.
  destruct (bread_txn h i p st D W bs V B t a0 d Hin Hb0 Hd ltac:(lia)) as (b & t1 & Hs1 & Hf1 & Hin1).
  assert (a0 ∈ bs \/ V !! a0 = D !! a0) as Hcl.
  { destruct (decide (a0 ∈ bs)) as [|Hno]; [by left|right]. exact (txn_clean h i p st D W bs V B t a0 Hin Hb0 Hno). }
  unfold entry_code. mstep Hs1. mapply (data_of_txn h i p st D W bs V _ t1) by first [exact Hin1 | apply lookup_insert_eq | exact Hd].
  assert (file_addr ip V (NDIRECT + j) = Some (get32 d (4 * j))) as Efa.
  { unfold file_addr. rewrite (proj2 (Nat.ltb_ge _ _)) by lia. rewrite Ha0. cbn [mbind option_bind].
    rewrite (proj2 (Z.eqb_neq _ _) Hnz0), Hd. cbn [mbind option_bind]. do 3 f_equal. lia. }
  destruct (Z.eqb_spec (get32 d (4 * j)) 0) as [E0|Hnz].
  2: { msimpl. destruct (brelse_read_txn h i p st D W bs V B t1 a0 b Hin1 Hb0 Hcl) as (t2 & Hs2 & Hf2 & Hin2). mstep Hs2.
       exists (get32 d (4 * j)), t2, bs, V. split; [done|].
       split; [apply advance_none; [done|done|exact (transitivity Hf1 Hf2)|lia]|]. left. split_and!; [done..|lia]. }
  assert (size (<[a0 := b]> B) = S (size B)) as Esz by (by apply map_size_insert_None).
  destruct (balloc_file bs V (<[a0 := b]> B) t1 Hin1) as (r & t2 & bs2 & V2 & Hs2 & Hf2 & Hin2 & Hl2 & Hao2 & Hr);
    [by rewrite (lframe_sb _ _ Hf1)|by apply alloc_ok_hold|lia|lia|]. pose proof (transitivity Hf1 Hf2) as Hf12.
  msimpl. mstep Hs2. destruct Hr as [[Hr Htk]|(-> & Hfull & -> & ->)].
  2: { cbn [negb Z.eqb when]. msimpl.
       destruct (brelse_read_txn h i p st D W bs V B t2 a0 b Hin2 Hb0 Hcl) as (t3 & Hs3 & Hf3 & Hin3).
       mstep Hs3. exists 0, t3, bs, V. split; [done|].
       split; [apply advance_none; [done|done|exact (transitivity Hf12 Hf3)|lia]|]. right. split_and!; [done..|].
       rewrite nfree_full by done. lia. }
  pose proof (taken_pos st sb0 V B r V2 Hao Htk) as Hrp. pose proof (bm_size _ _ _ (ao_bitmap _ _ _ _ Hao)) as Hbsz.
  assert (V2 !! a0 = Some d) as Hd2 by (rewrite (taken_keeps sb0 V r V2 Htk); [done|apply Hg|apply Hg]).
  rewrite (proj2 (Z.eqb_neq _ _) Hr). cbn [negb when]. rewrite ?bind_assoc.
  mapply (data_of_txn h i p st D W bs2 V2 _ t2) by first [exact Hin2 | apply lookup_insert_eq | exact Hd2].
  destruct (put_block_txn h i p st D W bs2 V2 B t2 a0 b (put32 d (4 * j) r) Hin2 Hb0) as (u1 & u2 & t3 & Hu1 & Hu2 & Hs3 & Hf3 & Hin3);
    [by rewrite length_put_le|pose proof (gd_range _ _ _ _ _ Hg); lia|apply Hg|lia|].
  mstep Hu1. mstep Hu2. msimpl. mstep Hs3. set (V3 := <[a0 := put32 d (4 * j) r]> V2) in *.
  destruct (attach_data st sb0 ip V B Hfo r V2 Hao Htk (NDIRECT + j) ip V3 0) as (Hfo' & Hw & Hu); try done.
  - rewrite MAXB_eq. unfold NDIRECT. lia.
  - by rewrite Efa, E0.
  - by destruct ip.
  - apply Hfo.
  - intros q Hq. rewrite <- (taken_addr st sb0 ip V B Hfo r V2 Htk). apply file_addr_entry; try done; lia.
  - intros x Hx. unfold V3. rewrite lookup_insert_ne; [done|]. intros <-. destruct Hx; congruence.
  - intros x Hx. by apply insert_is_Some.
  - exists r, t3, (log_add a0 bs2), V3. split; [done|]. pose proof (transitivity Hf12 Hf3) as Hf. split.
    + split; try done; [by apply lframe_sb|by rewrite (lframe_itable _ _ Hf), list_insert_id| |pose proof (log_add_length a0 bs2); lia].
      apply (alloc_ok_ext V2); [by apply (alloc_ok_drop _ _ a0 b)|done|]. intros x Hx. by apply insert_is_Some.
    + left. split; [done|]. split; [|rewrite (nfree_taken _ _ _ _ Htk), (nfree_same _ V2 V3) by done; lia].
      unfold V3. rewrite (file_addr_entry ip V2 a0 d j r) by first [done | lia | rewrite MAXB_eq; unfold NDIRECT; lia]. by rewrite decide_True.
Qed.

Lemma advance_le n m off l B t bs ip V t' bs' ip' V' :
  (n <= m)%nat -> advance n off l B t bs ip V t' bs' ip' V' -> advance m off l B t bs ip V t' bs' ip' V'.
Proof. intros Hnm []. split; try done. lia. Qed.

Lemma bmap_indirect ip a0 bn t :
  itable t !! k = Some ip -> i_dev ip = ROOTDEV -> i_addrs ip !! NDIRECT = Some a0 -> (NDIRECT <= bn < MAXB)%nat ->
  bmap k (Z.of_nat bn) t = (a ← ind_code ROOTDEV a0; if a =? 0 then mret 0 else entry_code ROOTDEV a (bn - NDIRECT)) t.
Proof.
  intros Hk Hdev Ha Hbn. unfold bmap. mapply inode_get_ok by exact Hk. rewrite Hdev. rewrite (proj2 (Z.ltb_ge _ _)) by lia.
  rewrite MAXB_eq in Hbn. change NINDIRECT with 256. rewrite (proj2 (Z.ltb_lt _ _)) by (unfold NDIRECT in *; lia).
  rewrite Ha. cbn [deref]. rewrite bind_mret. replace (Z.to_nat (Z.of_nat bn - Z.of_nat NDIRECT)) with (bn - NDIRECT)%nat by lia. reflexivity.
Qed.

Lemma bmap_alloc B t bs ip V bn :
  ready B t bs ip V -> (bn < MAXB)%nat -> (length bs + 5 <= LOGBLOCKS)%nat -> (length bs + 5 + size B <= NBUF)%nat ->
  exists a t' bs' ip' V', bmap k (Z.of_nat bn) t = Ret a t' /\ advance 5 0 [] B t bs ip V t' bs' ip' V' /\ bmap_post bn ip V a ip' V'.
Proof.
  intros Hst Hbn Hlen Hroom. destruct (decide (bn < NDIRECT)%nat) as [Hd|Hd].
  { destruct (bmap_direct B t bs ip V bn Hst Hd ltac:(lia) ltac:(lia)) as (a & t' & bs' & ip' & V' & Hs & Ha & Hp).
    exists a, t', bs', ip', V'. split; [done|]. split; [|done]. eapply (advance_le 2); [lia|done]. }
  pose proof Hst as [Hin Hsb Hk Hdev Hfo Hao].
  destruct (lookup_lt_is_Some_2 (i_addrs ip) NDIRECT) as [a0 Ha0]; [rewrite (fo_len _ _ _ _ _ Hfo); lia|].
  rewrite (bmap_indirect ip a0 bn t Hk Hdev Ha0) by lia.
  destruct (ind_code_ok B t bs ip V a0 Hst Ha0 ltac:(lia) ltac:(lia)) as (a & t1 & bs1 & ip1 & V1 & Hs1 & Had1 & Hp1). mstep Hs1.
  destruct Hp1 as [(Hnz & Ha1 & Hn1)|(-> & Hfull & Hn1)].
  2: { exists 0, t1, bs1, ip1, V1. split; [done|]. split; [by eapply (advance_le 2); [lia|]|]. right. split_and!; [done..|lia]. }
  rewrite (proj2 (Z.eqb_neq _ _) Hnz). pose proof (advance_ready _ _ _ _ _ _ _ _ _ _ _ _ Hst Had1) as Hst1.
  pose proof (ad_log _ _ _ _ _ _ _ _ _ _ _ _ Had1) as Hl1. rewrite MAXB_eq in Hbn.
  destruct (entry_code_ok B t1 bs1 ip1 V1 a (bn - NDIRECT) Hst1 Ha1 Hnz) as (a2 & t2 & bs2 & V2 & Hs2 & Had2 & Hp2); [unfold NDIRECT in *; lia|lia|lia|].
  replace (NDIRECT + (bn - NDIRECT))%nat with bn in Hp2 by lia.
  exists a2, t2, bs2, ip1, V2. split; [done|]. split; [exact (advance_trans 2 3 _ _ _ _ _ _ _ _ _ _ _ _ _ _ _ _ Had1 Had2)|].
  assert (hole ip1 = 0%nat) as Eh by (unfold hole; rewrite Ha1, decide_False by congruence; done).
  destruct Hp2 as [(Hnz2 & Ha2 & Hn2)|(-> & Hfull & Hn2)]; [left|right]; split_and!; try done; lia.
Qed.

(** ** [writei] *)

Definition covered (ip : inode) (V : gmap Z (list Z)) (off m : Z) : Prop :=
  forall pos, off <= pos < off + m -> exists a, file_addr ip V (Z.to_nat (pos / BSIZE)) = Some a /\ a <> 0.

(** Bytes are put into a block that is there. *)
Lemma put_bytes B t bs ip V off l a :
  ready B t bs ip V -> 0 <= off < MAXFILE * BSIZE -> off mod BSIZE + Z.of_nat (length l) <= BSIZE ->
  file_addr ip V (Z.to_nat (off / BSIZE)) = Some a -> a <> 0 -> (length bs < LOGBLOCKS)%nat -> (length bs + size B < NBUF)%nat ->
  exists bp d t1 u1 u2 t2 V', bread ROOTDEV a t = Ret bp t1 /\ txn bs V (<[a := bp]> B) t1 /\ data_of bp t1 = Ret d t1
    /\ set_data bp (list_inserts (Z.to_nat (off mod BSIZE)) l d) t1 = Ret tt u1 /\ log_write bp u1 = Ret tt u2 /\ brelse bp u2 = Ret tt t2
    /\ advance 1 off l B t bs ip V t2 (log_add a bs) ip V' /\ nfree sb0 V' = nfree sb0 V.
Proof.
  intros Hst Ho Hl Ha Hnz Hlen Hroom. pose proof Hst as [Hin Hsb Hk Hdev Hfo Hao].
  assert (Z.to_nat (off / BSIZE) < MAXB)%nat as Hbn.
  { apply off_block; [lia|]. rewrite MAXB_eq. change MAXFILE with 268 in Ho. lia. }
  destruct (file_addr_lt st sb0 ip V B Hfo _ _ Hbn Ha) as [|Hg]; [done|].
  destruct (gd_some _ _ _ _ _ Hg) as [d Hd]. pose proof (gd_held _ _ _ _ _ Hg) as Hb. pose proof (gd_range _ _ _ _ _ Hg) as Har.
  pose proof (txn_size h i p st D W _ _ _ _ _ _ Hin Hd) as Hdl. pose proof (bm_size _ _ _ (ao_bitmap _ _ _ _ Hao)) as Hbs.
  destruct (bread_txn h i p st D W bs V B t a d Hin Hb Hd Hroom) as (bp & t1 & Hs1 & Hf1 & Hin1).
  set (d' := list_inserts (Z.to_nat (off mod BSIZE)) l d).
  destruct (put_block_txn h i p st D W bs V B t1 a bp d' Hin1 Hb) as (u1 & u2 & t2 & Hu1 & Hu2 & Hs2 & Hf2 & Hin2);
    [unfold d'; by rewrite length_inserts|lia|apply Hg|done|].
  destruct (written_block st sb0 off l ip V B a d Hfo Ho Hl Ha Hnz Hd Hdl) as (Hfo' & Hw & Hu). fold d' in Hfo', Hw, Hu.
  pose proof (transitivity Hf1 Hf2) as Hf. exists bp, d, t1, u1, u2, t2, (<[a := d']> V). split; [exact Hs1|]. split; [exact Hin1|].
  split; [exact (data_of_txn h i p st D W bs V _ t1 a bp d Hin1 (lookup_insert_eq _ _ _) Hd)|]. split; [exact Hu1|]. split; [exact Hu2|].
  split; [exact Hs2|]. split; [|by apply nfree_same]. split; try done; [by apply lframe_sb|by rewrite (lframe_itable _ _ Hf), list_insert_id|..].
  - apply (alloc_ok_ext V); [done|done|]. intros x Hx. by apply insert_is_Some.
  - apply log_add_length.
Qed.

Lemma covered_app ip V ip' V' off m m' l :
  0 <= off -> off + m + m' <= MAXFILE * BSIZE -> covered ip V off m -> written (off + m) l ip V ip' V' -> covered ip' V' (off + m) m' ->
  covered ip' V' off (m + m').
Proof.
  intros Ho Hle Hc1 Hw Hc2 pos Hpos. destruct (decide (pos < off + m)) as [Hlt|]; [|apply Hc2; lia].
  destruct (Hc1 pos ltac:(lia)) as (a & Ha & Hnz). exists a. split; [|done]. apply (wr_addr _ _ _ _ _ _ _ Hw); [|done|done].
  apply off_block; [lia|]. rewrite MAXB_eq. change MAXFILE with 268 in Hle. lia.
Qed.
Lemma covered_block ip V off m a :
  0 <= off -> off mod BSIZE + m <= BSIZE -> file_addr ip V (Z.to_nat (off / BSIZE)) = Some a -> a <> 0 -> covered ip V off m.
Proof.
  intros Ho Hm Ha Hnz pos Hpos. exists a. split; [|done]. destruct (block_pos off (pos - off)) as [E _]; [lia..|].
  replace (off + (pos - off)) with pos in E by lia. by rewrite E.
Qed.

Lemma advance_app n1 n2 off m l B t bs ip V t1 bs1 ip1 V1 t2 bs2 ip2 V2 r :
  0 <= m <= r -> r <= Z.of_nat (length l) ->
  advance n1 off (take (Z.to_nat m) l) B t bs ip V t1 bs1 ip1 V1 ->
  advance n2 (off + m) (take (Z.to_nat (r - m)) (drop (Z.to_nat m) l)) B t1 bs1 ip1 V1 t2 bs2 ip2 V2 ->
  advance (n1 + n2) off (take (Z.to_nat r) l) B t bs ip V t2 bs2 ip2 V2.
Proof.
  intros Hm Hr [] []. split; try done; [congruence| | |lia].
  - rewrite ad_table1, ad_table0. apply list_insert_insert_eq.
  - apply (written_app sb0 off m _ ip V ip1 V1); [rewrite length_take; lia| |].
    + rewrite take_take. by replace (Z.to_nat m `min` Z.to_nat r)%nat with (Z.to_nat m) by lia.
    + rewrite skipn_firstn_comm. by replace (Z.to_nat r - Z.to_nat m)%nat with (Z.to_nat (r - m)) by lia.
Qed.

(** How many blocks the log may still have to take, and the fate of a write of
    [m] bytes: it is complete, or the disk is full and it ended with a block. *)
Definition log_need (off m : Z) : nat := 6 * Z.to_nat (turns_left off m).
Definition fate (off m r : Z) (ip : inode) (V : gmap Z (list Z)) (ip' : inode) (V' : gmap Z (list Z)) : Prop :=
  0 <= r <= m /\ covered ip' V' off r
  /\ (r = m \/ full sb0 V' /\ (nfree sb0 V < Z.to_nat (turns_left off m) + hole ip)%nat /\ (r = 0 \/ (off + r) mod BSIZE = 0)).

Lemma writei_loop_ok B n fuel : forall l off tot t bs ip V,
  ready B t bs ip V -> 0 <= off -> tot <= n -> Z.of_nat (length l) = n - tot -> off + (n - tot) <= MAXFILE * BSIZE ->
  turns_left off (n - tot) < Z.of_nat fuel ->
  (length bs + log_need off (n - tot) <= LOGBLOCKS)%nat -> (length bs + log_need off (n - tot) + size B <= NBUF)%nat ->
  exists r t' bs' ip' V', writei_loop fuel k (inr l) off n tot t = Ret (tot + r, off + r) t'
    /\ advance (log_need off (n - tot)) off (take (Z.to_nat r) l) B t bs ip V t' bs' ip' V' /\ fate off (n - tot) r ip V ip' V'.
Proof.
  induction fuel as [|fuel IH]; intros l off tot t bs ip V Hst Ho Htot Hl Hsz Hfuel Hlog Hbuf;
    pose proof (turns_nonneg off (n - tot)) as Hge0; [lia|].
  pose proof Hst as [Hin Hsb Hk Hdev Hfo Hao].
  cbn [writei_loop]. destruct (Z.ltb_spec tot n) as [Hlt|Hge].
  2: { exists 0, t, bs, ip, V. rewrite !Z.add_0_r. split; [done|]. split; [apply advance_none; [done..|lia]|].
       split; [lia|]. split; [intros pos Hpos; lia|left; lia]. }
  destruct (turns_step off (n - tot) Ho ltac:(lia)) as (Hc & Hblk & Hnext). set (c := Z.min _ _) in *.
  pose proof (turns_nonneg (off + c) (n - tot - c)) as Hge1. unfold log_need in *.
  destruct (off_block off MAXB Ho) as [Hbn Ebn]; [rewrite MAXB_eq; change MAXFILE with 268 in Hsz; lia|].
  destruct (bmap_alloc B t bs ip V (Z.to_nat (off / BSIZE)) Hst Hbn ltac:(lia) ltac:(lia)) as (a & t1 & bs1 & ip1 & V1 & Hs1 & Had1 & Hp1).
  rewrite Ebn in Hs1. mstep Hs1. destruct Hp1 as [(Hnz & Ha & Hn1)|(-> & Hfull & Hn1)].
  2: { exists 0, t1, bs1, ip1, V1. rewrite !Z.add_0_r. split; [done|]. split; [|split; [lia|split; [intros pos Hpos; lia|right; split_and!; [done|lia|by left] ] ] ].
       eapply (advance_le 5); [lia|]. split; try apply Had1. eapply written_after; [apply Had1|apply written_same]. }
  rewrite (proj2 (Z.eqb_neq _ _) Hnz). pose proof (advance_ready _ _ _ _ _ _ _ _ _ _ _ _ Hst Had1) as Hst1.
  pose proof (ad_log _ _ _ _ _ _ _ _ _ _ _ _ Had1) as Hl1.
  mapply inode_get_ok by exact (sr_slot _ _ _ _ _ Hst1). rewrite (sr_dev _ _ _ _ _ Hst1).
  destruct (put_bytes B t1 bs1 ip1 V1 off (take (Z.to_nat c) l) a Hst1 ltac:(lia)) as (bp & d & t2 & u1 & u2 & t3 & V3 & Hb2 & Hin2 & Hd2 & Hu1 & Hu2 & Hs3 & Had3 & Hn3);
    [rewrite length_take; lia|done|done|lia|lia|].
  mstep Hb2. unfold either_copyin. mapply (env_myproc h ∅) by (eapply txn_env; exact Hin2). msimpl.
  mstep Hd2. mstep Hu1. change (0 =? -1) with false. cbv iota. mstep Hu2. mstep Hs3.
  pose proof (advance_trans 5 1 _ _ _ _ _ _ _ _ _ _ _ _ _ _ _ _ Had1 Had3) as Had13. pose proof (advance_ready _ _ _ _ _ _ _ _ _ _ _ _ Hst Had13) as Hst3.
  pose proof (ad_log _ _ _ _ _ _ _ _ _ _ _ _ Had13) as Hl3.
  assert (Z.to_nat (turns_left (off + c) (n - tot - c)) + 1 <= Z.to_nat (turns_left off (n - tot)))%nat as Htl by lia.
  destruct (IH (drop (Z.to_nat c) l) (off + c) (tot + c) t3 (log_add a bs1) ip1 V3 Hst3) as (r & t4 & bs4 & ip4 & V4 & Hs4 & Had4 & Hr & Hcov & Hend);
    replace (n - (tot + c)) with (n - tot - c) in * by lia; try lia; [rewrite length_drop; lia|].
  exists (c + r), t4, bs4, ip4, V4. rewrite Hs4. split; [do 2 f_equal; lia|]. split.
  - eapply (advance_le (5 + 1 + 6 * Z.to_nat (turns_left (off + c) (n - tot - c)))); [lia|].
    apply (advance_app (5 + 1) _ off c l B t bs ip V t3 (log_add a bs1) ip1 V3); [lia|lia|done|]. by replace (c + r - c) with r by lia.
  - split; [lia|]. split.
    + eapply (covered_app ip1 V3); [lia|lia| |apply Had4|done]. eapply covered_block; [lia|lia| |done].
      apply (wr_addr _ _ _ _ _ _ _ (ad_written _ _ _ _ _ _ _ _ _ _ _ _ Had3)); done.
    + destruct Hend as [->|(Hfull & Hn4 & Hz)]; [left; lia|]. destruct (decide (c = n - tot)) as [E|Hne]; [left; lia|right].
      split_and!; [done|lia|right]. destruct Hz as [->|Hz]; [|by rewrite Z.add_assoc]. rewrite Z.add_0_r.
      assert (c = BSIZE - off mod BSIZE) as -> by lia. by apply next_block.
Qed.

(** The home of the inode on the disk: a block in use that nobody holds and that
    no file owns. *)
Record home (B : gmap Z nat) (ip : inode) (V : gmap Z (list Z)) : Prop := {
  hm_ok : inode_ok ip;
  hm_num : 0 <= i_inum ip;
  hm_log : ~ in_log st (IBLOCK (i_inum ip) sb0);
  hm_data : is_Some (V !! IBLOCK (i_inum ip) sb0);
  hm_held : B !! IBLOCK (i_inum ip) sb0 = None;
  hm_foreign : foreign sb0 ip V (IBLOCK (i_inum ip) sb0)
}.

(** The addresses of a file fit into an [uint]. *)
Lemma file_inode_ok B ip V ip' V' off l :
  alloc_ok V' B -> file_ok ip' V' B -> written off l ip V ip' V' -> inode_ok ip -> inode_ok ip'.
Proof.
  intros Hao Hfo Hw Hok. pose proof (bm_size _ _ _ (ao_bitmap _ _ _ _ Hao)) as Hsz.
  assert (forall a, a = 0 \/ good st sb0 V' B a -> 0 <= a < 2 ^ 32) as Hg by (intros a [->|[? ? ? ? ? ?] ]; lia).
  pose proof (wr_inode _ _ _ _ _ _ _ Hw) as E. destruct Hok as [O1 O2 O3 O4 O5 O6 O7].
  split; [rewrite E; assumption..|apply Hfo|]. apply Forall_lookup. intros j a Ha. apply Hg.
  pose proof (lookup_lt_Some _ _ _ Ha) as Hj. rewrite (fo_len _ _ _ _ _ Hfo) in Hj.
  destruct (decide (j < NDIRECT)%nat) as [Hlt|Hge].
  - apply (file_addr_lt st sb0 ip' V' B Hfo j); [rewrite MAXB_eq; unfold NDIRECT in *; lia|]. unfold file_addr. by rewrite (proj2 (Nat.ltb_lt _ _) Hlt).
  - apply (fo_ind _ _ _ _ _ Hfo). replace NDIRECT with j by (unfold NDIRECT in *; lia). done.
Qed.

(** The file after [writei] stored the bytes [l] at [off]: its inode is on the
    disk, and nothing else of the disk changed but blocks that were free. *)
Record stored (off : Z) (l : list Z) (B : gmap Z nat) (ip : inode) (V : gmap Z (list Z)) (ip' : inode) (V' : gmap Z (list Z)) : Prop := {
  sd_inode : ip' = ip <| i_addrs := i_addrs ip' |> <| i_size := Z.max (i_size ip) (off + Z.of_nat (length l)) |>;
  sd_home : home B ip' V';
  sd_addr j a : (j < MAXB)%nat -> file_addr ip V j = Some a -> a <> 0 -> file_addr ip' V' j = Some a;
  sd_byte pos : 0 <= pos < MAXFILE * BSIZE -> fbyte ip' V' pos =
    if decide (off <= pos < off + Z.of_nat (length l)) then nth (Z.to_nat (pos - off)) l 0 else fbyte ip V pos;
  sd_other x : foreign sb0 ip V x -> x <> IBLOCK (i_inum ip) sb0 -> V' !! x = V !! x /\ foreign sb0 ip' V' x;
  sd_disk di : V !! IBLOCK (i_inum ip) sb0 = Some di -> exists di', V' !! IBLOCK (i_inum ip) sb0 = Some di' /\
    forall q ip0, 0 <= q -> get_dinode di' (dinode_off q) ip0 =
      if decide (q mod IPB = i_inum ip mod IPB) then with_dinode ip' ip0 else get_dinode di (dinode_off q) ip0
}.

Definition grown (ip : inode) (n : Z) : inode := ip <| i_size := Z.max (i_size ip) n |>.

(** [if(off > ip->size) ip->size = off] *)
Lemma grow_ok t ip n :
  itable t !! k = Some ip ->
  when (n >? i_size ip) (inode_upd k (fun ip => ip <| i_size := n |>)) t = Ret tt (t <| itable := <[k := grown ip n]> (itable t) |>).
Proof.
  intros Hk. unfold grown. destruct (Z.gtb_spec n (i_size ip)) as [Hgt|Hle].
  - rewrite Z.max_r by lia. cbn [when]. set (f := fun ip : inode => _).
    change (inode_upd k f t) with (Ret tt (t <| itable := alter f k (itable t) |>)).
    assert (alter f k (itable t) = <[k := f ip]> (itable t)) as ->; [|done].
    apply list_eq. intros j. destruct (decide (j = k)) as [->|]; [|by rewrite list_lookup_alter_ne, list_lookup_insert_ne].
    rewrite list_lookup_alter_eq, Hk. simpl. by rewrite list_lookup_insert_eq by (by eapply lookup_lt_Some).
  - rewrite Z.max_l by lia. cbn [when]. rewrite list_insert_id by (rewrite Hk; by destruct ip). by destruct t.
Qed.

(** The bytes are in the blocks, the inode is about to be written. *)
Lemma stored_final off l B ip V ip1 V1 di' :
  written off l ip V ip1 V1 -> file_ok ip1 V1 B -> alloc_ok V1 B -> home B ip V -> 0 <= off -> off + Z.of_nat (length l) < 2 ^ 31 ->
  (forall di, V !! IBLOCK (i_inum ip) sb0 = Some di -> forall q ip0, 0 <= q -> get_dinode di' (dinode_off q) ip0 =
     if decide (q mod IPB = i_inum ip mod IPB) then with_dinode (grown ip1 (off + Z.of_nat (length l))) ip0 else get_dinode di (dinode_off q) ip0) ->
  let ip' := grown ip1 (off + Z.of_nat (length l)) in let V' := <[IBLOCK (i_inum ip) sb0 := di']> V1 in
  stored off l B ip V ip' V' /\ file_ok ip' V' B /\ alloc_ok V' B /\ (forall b, 0 <= b < sb_size sb0 -> used sb0 V' b = used sb0 V1 b)
  /\ forall j, file_addr ip' V' j = file_addr ip1 V1 j.
Proof.
  intros Hw Hfo Hao [M1 M2 M3 M4 M5 M6] Ho Hn Hdi ip' V'. set (ib := IBLOCK (i_inum ip) sb0) in *.
  destruct (wr_other _ _ _ _ _ _ _ Hw ib M6) as [E1 F1]. pose proof (wr_inode _ _ _ _ _ _ _ Hw) as Ei.
  assert (i_inum ip' = i_inum ip) as En by (unfold ip', grown; rewrite Ei; done).
  assert (i_size ip1 = i_size ip) as Es by (by rewrite Ei).
  pose proof (outside_used sb0 ip1 V1 ib di' F1) as Hu. pose proof (outside_addr sb0 ip1 V1 ib di' F1) as HA.
  split; [|split; [by apply file_ok_size, outside_file|split; [|split; [exact Hu|exact HA] ] ] ].
  2: { apply (alloc_ok_ext V1); [done|exact Hu|]. intros x Hx. by apply insert_is_Some. }
  split.
  - unfold ip', grown. rewrite Es. rewrite Ei at 1. by destruct ip.
  - pose proof (file_inode_ok B ip V ip1 V1 off l Hao Hfo Hw M1) as O. pose proof (io_size _ M1) as Hs. split; rewrite ?En; try done.
    + destruct O as [? ? ? ? ? ? ?]. split; try done. change (0 <= Z.max (i_size ip1) (off + Z.of_nat (length l)) < 2 ^ 32). lia.
    + unfold V'. rewrite lookup_insert_eq. by eexists.
    + apply foreign_size. by apply outside_foreign.
  - intros j a Hj Ha Hnz. change (file_addr ip' V' j) with (file_addr ip1 V' j). rewrite HA. by apply (wr_addr _ _ _ _ _ _ _ Hw).
  - intros pos Hpos. change (fbyte ip' V' pos) with (fbyte ip1 V' pos). unfold V'. rewrite (outside_byte sb0) by done. by apply Hw.
  - intros x Hx Hne. destruct (wr_other _ _ _ _ _ _ _ Hw x Hx) as [Ex Fx]. unfold V'. rewrite lookup_insert_ne by done. split; [done|].
    apply foreign_size. by apply outside_foreign.
  - intros di Ed. exists di'. split; [apply lookup_insert_eq|by apply Hdi].
Qed.

Lemma writei_ok B t bs ip V off l :
  ready B t bs ip V -> home B ip V -> let n := Z.of_nat (length l) in
  0 <= off <= i_size ip -> off + n <= MAXFILE * BSIZE ->
  (length bs + log_need off n + 1 <= LOGBLOCKS)%nat -> (length bs + log_need off n + 1 + size B <= NBUF)%nat ->
  exists r t' bs' ip' V', writei k (inr l) off n t = Ret r t' /\ ready B t' bs' ip' V' /\ itable t' = <[k := ip']> (itable t)
    /\ (length bs' <= length bs + log_need off n + 1)%nat /\ stored off (take (Z.to_nat r) l) B ip V ip' V' /\ fate off n r ip V ip' V'.
Proof.
  intros Hst Hhm n Ho Hsz Hlog Hbuf. pose proof Hst as [Hin Hsb Hk Hdev Hfo Hao]. pose proof (io_size _ (hm_ok _ _ _ Hhm)) as Hisz.
  change (MAXFILE * BSIZE) with 274432 in Hsz. assert (0 <= n) as Hn0 by (unfold n; lia).
  unfold writei. mapply inode_get_ok by exact Hk. rewrite u32_wraps by lia.
  destruct (Z.gtb_spec off (i_size ip)) as [|_]; [lia|]. rewrite (proj2 (Z.leb_gt _ _)) by lia. cbn [orb].
  rewrite u32_small by lia. change (MAXFILE * BSIZE) with 274432. destruct (Z.gtb_spec (off + n) 274432) as [|_]; [lia|].
  destruct (writei_loop_ok B n (Z.to_nat (n / BSIZE) + 3) l off 0 t bs ip V Hst) as (r & t1 & bs1 & ip1 & V1 & Hs1 & Had & Hr & Hcov & Hend);
    rewrite ?Z.sub_0_r in *; try done; try lia; [by apply turns_start|].
  rewrite Z.add_0_l in Hs1. mstep Hs1. pose proof (advance_ready _ _ _ _ _ _ _ _ _ _ _ _ Hst Had) as Hst1.
  pose proof Had as [Hin1 Hsb1 Htab1 Hfo1 Hao1 Hw1 Hl1].
  assert (Z.of_nat (length (take (Z.to_nat r) l)) = r) as Elen by (rewrite length_take; unfold n in Hr; lia).
  mapply inode_get_ok by exact (sr_slot _ _ _ _ _ Hst1). mapply grow_ok by exact (sr_slot _ _ _ _ _ Hst1).
  destruct (hm_data _ _ _ Hhm) as [di Hdi]. destruct (wr_other _ _ _ _ _ _ _ Hw1 _ (hm_foreign _ _ _ Hhm)) as [E1 _]. rewrite Hdi in E1.
  assert (i_inum ip1 = i_inum ip) as En by (by rewrite (wr_inode _ _ _ _ _ _ _ Hw1)).
  pose proof (bm_size _ _ _ (ao_bitmap _ _ _ _ Hao)) as Hbs. pose proof (fg_range _ _ _ _ (hm_foreign _ _ _ Hhm)) as Hib.
  destruct (iupdate_txn h i p st D W sb0 bs1 V1 B (t1 <| itable := <[k := grown ip1 (off + r)]> (itable t1) |>) k (grown ip1 (off + r)) di)
    as (t2 & di' & Hs2 & Hf2 & Hin2 & Hd2); change (i_inum (grown ip1 (off + r))) with (i_inum ip1); rewrite ?En; try apply Hhm; try done; try lia.
  { by apply txn_itable. } { by apply (sr_sb _ _ _ _ _ Hst1). }
  { apply list_lookup_insert_eq. eapply lookup_lt_Some. apply Hst1. } { apply Hst1. }
  { pose proof (file_inode_ok B ip V ip1 V1 _ _ Hao1 Hfo1 Hw1 (hm_ok _ _ _ Hhm)) as [? ? ? ? ? ? ?]. split; try done.
    change (0 <= Z.max (i_size ip1) (off + r) < 2 ^ 32). lia. }
  change (i_inum (grown ip1 (off + r))) with (i_inum ip1) in Hin2, Hd2. rewrite En in Hin2, Hd2. mstep Hs2.
  destruct (stored_final off (take (Z.to_nat r) l) B ip V ip1 V1 di' Hw1 Hfo1 Hao1 Hhm) as (Hsd & Hfo2 & Hao2 & Hu2 & HA2); try lia.
  { intros di0 Ed q ip0 Hq. rewrite Hdi in Ed. injection Ed as <-. rewrite Hd2 by done. by rewrite Elen. }
  rewrite Elen in *. set (ip' := grown ip1 (off + r)) in *. set (V' := <[_ := di']> V1) in *.
  assert (itable t2 = <[k := ip']> (itable t)) as Htab.
  { rewrite (lframe_itable _ _ Hf2). change (<[k := ip']> (itable t1) = <[k := ip']> (itable t)). rewrite Htab1. apply list_insert_insert_eq. }
  exists r, t2. do 2 eexists. exists V'. split; [by rewrite i32_small by lia|]. split; [|split; [exact Htab|split; [|split; [exact Hsd|] ] ] ].
  - split; try done; [rewrite (lframe_sb _ _ Hf2); apply Hst1| |apply Hst1].
    rewrite Htab. apply list_lookup_insert_eq. by eapply lookup_lt_Some.
  - pose proof (log_add_length (IBLOCK (i_inum ip) sb0) bs1). lia.
  - split; [lia|]. split; [intros pos Hpos; rewrite HA2; by apply Hcov|]. destruct Hend as [->|[Hfull Hn]]; [by left|right]. split; [|done].
    intros b Hb. rewrite Hu2 by done. by apply Hfull.
Qed.

(** The blocks a file has, as [readi] wants to know it. *)
Lemma file_mapped B ip V nb :
  file_ok ip V B -> (nb <= MAXB)%nat -> (forall j, (j < nb)%nat -> file_addr ip V j <> Some 0) -> mapped ip V B nb.
Proof.
  intros Hfo Hnb Hnz. split.
  - rewrite MAXB_eq in Hnb. change MAXFILE with 268. lia.
  - intros Hlt. destruct (lookup_lt_is_Some_2 (i_addrs ip) NDIRECT) as [a Ha]; [rewrite (fo_len _ _ _ _ _ Hfo); lia|].
    exists a. split; [done|]. destruct (fo_ind _ _ _ _ _ Hfo a Ha) as [->|Hg]; [|pose proof (gd_range _ _ _ _ _ Hg); split_and!; [lia|apply Hg|apply Hg] ].
    exfalso. apply (Hnz NDIRECT Hlt). unfold file_addr. by rewrite Nat.ltb_irrefl, Ha.
  - intros j Hj. destruct (fo_data _ _ _ _ _ Hfo j ltac:(lia)) as (a & Ha & [->|Hg]); [by destruct (Hnz j Hj)|].
    exists a. pose proof (gd_range _ _ _ _ _ Hg). split_and!; [done|lia|apply Hg|apply Hg].
Qed.

(** The blocks of the file after a write, which leaves no hole. *)
Definition blocks_after (nb : nat) (m : Z) : nat := Nat.max nb (Z.to_nat ((m + BSIZE - 1) / BSIZE)).
Lemma stored_mapped B ip V ip' V' off l nb r :
  file_ok ip V B -> file_ok ip' V' B -> stored off l B ip V ip' V' -> covered ip' V' off r ->
  (nb <= MAXB)%nat -> (forall j, (j < nb)%nat -> file_addr ip V j <> Some 0) -> 0 <= off <= Z.of_nat nb * BSIZE ->
  0 <= r -> off + r <= MAXFILE * BSIZE -> let nb' := blocks_after nb (off + r) in
  mapped ip' V' B nb' /\ off + r <= Z.of_nat nb' * BSIZE /\ (nb <= nb' <= MAXB)%nat /\ forall j, (j < nb')%nat -> file_addr ip' V' j <> Some 0.
Proof.
  intros Hfo Hfo' Hsd Hcov Hnb Hnz Ho Hr Hm nb'. change (MAXFILE * BSIZE) with 274432 in Hm. rewrite MAXB_eq in *.
  pose proof (Z.div_mod (off + r + BSIZE - 1) BSIZE ltac:(done)) as Hdm. pose proof (Z.mod_pos_bound (off + r + BSIZE - 1) BSIZE BSIZE_pos) as Hmod.
  pose proof (Z.div_pos (off + r + BSIZE - 1) BSIZE ltac:(unfold BSIZE; lia) BSIZE_pos) as Hq. set (q := (off + r + BSIZE - 1) / BSIZE) in *.
  change BSIZE with 1024 in *.
  assert (nb' <= 268)%nat as Hnb' by (unfold nb', blocks_after; change BSIZE with 1024; fold q; lia).
  assert (forall j, (j < nb')%nat -> file_addr ip' V' j <> Some 0) as Hnz'.
  { intros j Hj. destruct (decide (j < nb)%nat) as [Hlt|Hge].
    - destruct (fo_data _ _ _ _ _ Hfo j ltac:(rewrite MAXB_eq; lia)) as (a & Ha & _).
      assert (a <> 0) as Ha0 by (intros ->; by apply (Hnz j)). rewrite (sd_addr _ _ _ _ _ _ _ Hsd j a) by (rewrite ?MAXB_eq; (done || lia)). congruence.
    - assert (Z.of_nat j < q) as Hjq by (unfold nb', blocks_after in Hj; change BSIZE with 1024 in Hj; fold q in Hj; lia).
      destruct (Hcov (Z.of_nat j * 1024)) as (a & Ha & Ha0); [lia|]. change BSIZE with 1024 in Ha.
      rewrite Z.div_mul, Nat2Z.id in Ha by done. congruence. }
  split; [by apply file_mapped; [done|rewrite MAXB_eq|]|]. split; [unfold nb', blocks_after; change BSIZE with 1024; fold q; lia|].
  split; [|done]. unfold nb', blocks_after in *. lia.
Qed.
End run.

(** C5: What [writei] stores [readi] returns, whether the blocks were there or had to
    be allocated: [writei] of the bytes [l] from kernel memory at [off] returns
    how many it stored, all of them unless the disk is full, and [readi] of as
    many bytes there returns them.  The other bytes of the file, the blocks of
    other files and the other inodes are as before, the inode on the disk has
    the new size and addresses, and the file and the bitmap are in order again. *)
Theorem writei_readi_roundtrip `{Link, Patience, Disk} disk_idle `{!DiskOk disk_idle} h i p st D W sb0 k B t bs ip V nb off l :
  ready (disk_idle := disk_idle) h i p st D W sb0 k B t bs ip V -> home st sb0 B ip V ->
  (nb <= MAXB)%nat -> i_size ip <= Z.of_nat nb * BSIZE -> (forall j, (j < nb)%nat -> file_addr ip V j <> Some 0) ->
  let n := Z.of_nat (length l) in 0 <= off <= i_size ip -> off + n <= MAXFILE * BSIZE ->
  (length bs + log_need off n + 1 <= LOGBLOCKS)%nat -> (length bs + log_need off n + 1 + size B < NBUF)%nat ->
  exists r t1 t2 bs' ip' V',
    writei k (inr l) off n t = Ret r t1 /\ readi k None off r t1 = Ret (r, take (Z.to_nat r) l) t2
    /\ (r = n \/ 0 <= r < n /\ full sb0 V') /\ ((Z.to_nat (turns_left off n) < nfree sb0 V)%nat -> r = n)
    /\ ready (disk_idle := disk_idle) h i p st D W sb0 k B t2 bs' ip' V' /\ itable t2 = <[k := ip']> (itable t)
    /\ stored st sb0 off (take (Z.to_nat r) l) B ip V ip' V'.
Proof.
  intros Hst Hhm Hnb Hcov Hnz n Ho Hsz Hlog Hbuf.
  destruct (writei_ok h i p st D W sb0 k B t bs ip V off l Hst Hhm) as (r & t1 & bs' & ip' & V' & Hs1 & Hst1 & Htab & Hbs & Hsd & Hr & Hcv & Hend);
    try done; [fold n; lia|]. fold n in Hs1, Hbs, Hr, Hend.
  pose proof Hst1 as [Hin1 Hsb1 Hk1 Hdev1 Hfo1 Hao1]. pose proof (sd_inode _ _ _ _ _ _ _ _ _ Hsd) as Ei.
  assert (Z.of_nat (length (take (Z.to_nat r) l)) = r) as Elen by (rewrite length_take; unfold n in Hr; lia). rewrite Elen in Ei.
  assert (i_size ip' = Z.max (i_size ip) (off + r)) as Es by (by rewrite Ei).
  pose proof (io_size _ (hm_ok _ _ _ _ _ Hhm)) as Hisz. change (MAXFILE * BSIZE) with 274432 in Hsz.
  destruct (stored_mapped st sb0 B ip V ip' V' off (take (Z.to_nat r) l) nb r (sr_file _ _ _ _ _ _ _ _ _ _ _ _ _ Hst) Hfo1 Hsd Hcv Hnb Hnz)
    as (Hmap & Hm1 & [Hm2 _] & _); [lia|lia|change (MAXFILE * BSIZE) with 274432; lia|]. set (nb' := blocks_after nb (off + r)) in *.
  destruct (readi_ok h i p st D W k ip' Hdev1 bs' V' B nb' off r t1) as (t2 & Hs2 & Hf2 & Hin2); try done; try lia.
  - rewrite Es. change BSIZE with 1024 in *. lia.
  - rewrite Es in Hs2. destruct (Z.gtb_spec off (Z.max (i_size ip) (off + r))) as [|_]; [lia|].
    rewrite (proj2 (Z.leb_gt _ _)) in Hs2 by lia. cbn [orb] in Hs2. rewrite Z.min_l in Hs2 by lia.
    assert (fbytes ip' V' off r = take (Z.to_nat r) l) as El.
    { rewrite <- Elen at 1. apply fbytes_exact. intros j Hj. rewrite (sd_byte _ _ _ _ _ _ _ _ _ Hsd) by (change (MAXFILE * BSIZE) with 274432; lia).
      rewrite decide_True by lia. by replace (Z.to_nat (off + Z.of_nat j - off)) with j by lia. }
    rewrite El in Hs2. exists r, t1, t2, bs', ip', V'. split_and!; try done.
    + destruct Hend as [|[Hfull _]]; [by left|]. destruct (decide (r = n)); [by left|right]. split; [lia|done].
    + destruct Hend as [|(_ & Hn & _)]; [done|]. unfold hole in Hn. case_decide; lia.
    + split; try done; [by rewrite (lframe_sb _ _ Hf2)|by rewrite (lframe_itable _ _ Hf2)].
    + by rewrite (lframe_itable _ _ Hf2).
Qed.

(** A new file without blocks, on a disk whose blocks from 46 on are free. *)
Definition new_inode (type : Z) : inode := mkInode ROOTDEV 18 1 1 type 0 0 1 0 (replicate 13 0).
Definition new_table (type : Z) : list inode := <[3%nat := new_inode type]> (replicate NINODE zero_inode).

Lemma new_file_addr type k : (k < MAXB)%nat -> file_addr (new_inode type) demo_blocks k = Some 0.
Proof.
  intros Hk. unfold file_addr. destruct (Nat.ltb_spec k NDIRECT); [|reflexivity].
  apply lookup_replicate_2. unfold NDIRECT in *. lia.
Qed.

Lemma demo_ready type :
  exists t, ready (disk_idle := fun _ => True) (boot_hart (Some 0%nat)) 0 disk_proc 2 demo_disk [] demo_sb 3 ∅ t [45] (new_inode type) demo_blocks
    /\ itable t = new_table type.
Proof.
  destruct demo_txn as (t & Hin & Hsb & _). exists (t <| itable := new_table type |>). split; [|done].
  split; [by apply (@txn_itable sync_disk _ sync_disk_ok)|exact Hsb|reflexivity|reflexivity|..].
  - split; [reflexivity|..].
    + intros a [= <-]. by left.
    + intros k Hk. exists 0. split; [by apply new_file_addr|by left].
    + intros k k' a Hk _ Ha _ Hnz. rewrite new_file_addr in Ha by done. congruence.
    + intros k a Hk Ha Hnz. rewrite new_file_addr in Ha by done. congruence.
  - split; [apply demo_bitmap_ok|split; [reflexivity|by rewrite demo_used]|intros; apply lookup_empty..].
Qed.

Lemma demo_home type : - 2 ^ 15 <= type < 2 ^ 15 -> home 2 demo_sb ∅ (new_inode type) demo_blocks.
Proof.
  intros Ht. assert (IBLOCK (i_inum (new_inode type)) demo_sb = 34) as E by done. split; rewrite ?E.
  - split; unfold new_inode; simpl; first [lia | reflexivity | repeat (apply Forall_cons; split; [lia|]); constructor].
  - simpl. lia.
  - unfold in_log, LOGBLOCKS. lia.
  - unfold demo_blocks. rewrite lookup_insert_ne, demo_disk_at by lia. by eexists.
  - apply lookup_empty.
  - split; [simpl; lia|by rewrite demo_used| |discriminate|].
    + intros (b & Hb & Eb). rewrite demo_BBLOCK in Eb by (simpl in Hb; lia). done.
    + intros k Hk. rewrite new_file_addr by done. discriminate.
Qed.

Lemma demo_nfree : nfree demo_sb demo_blocks = 54%nat.
Proof.
  unfold nfree. transitivity (length (List.filter (fun b => negb (b <? 46)) (seqZ 0 100))); [|reflexivity].
  refine (f_equal length _). apply List.filter_ext_in. intros b [Hb ?]%list_elem_of_In%elem_of_seqZ. by rewrite demo_used by lia.
Qed.

Lemma writei_readi_roundtrip_witness :
  exists t t1 t2, @writei demo_link 0%nat sync_disk 3 (inr (replicate 1100 7)) 0 1100 t = Ret 1100 t1
    /\ @readi demo_link 0%nat sync_disk 3 None 0 1100 t1 = Ret (1100, replicate 1100 7) t2.
Proof.
  destruct (demo_ready T_FILE) as (t & Hst & _).
  destruct (@writei_readi_roundtrip demo_link 0%nat sync_disk _ sync_disk_ok _ _ _ _ _ _ _ _ _ t _ _ _ 0 0 (replicate 1100 7) Hst)
    as (r & t1 & t2 & bs' & ip' & V' & Hw & Hr & _ & Hn & _).
  - apply demo_home. unfold T_FILE. lia.
  - rewrite MAXB_eq. lia.
  - vm_compute. discriminate.
  - intros j Hj. lia.
  - vm_compute. split; discriminate.
  - vm_compute. discriminate.
  - apply Nat.leb_le. vm_compute. reflexivity.
  - rewrite map_size_empty. apply Nat.ltb_lt. vm_compute. reflexivity.
  - assert (r = 1100) as ->; [apply Hn; rewrite demo_nfree; apply Nat.ltb_lt; vm_compute; reflexivity|].
    exists t, t1, t2. split; [exact Hw|exact Hr].
Defined.
