(* ===== verification/DirSpec.v ===== *)
(** * Directories

    [dirlookup] returns the first live entry with the name, [dirlink] puts a new
    entry into the first free slot, in a block it allocates when it has to, and
    what [dirlink] entered [dirlookup] finds. *)

From stdpp Require Import base numbers gmap sets strings option functions list.
From S2P Require Import Prelude Machine Spinlock CString Printf Kalloc Vm Proc ProcSpec.
From S2P Require Import Sleeplock SleeplockSpec Bio BlockData Cache CacheSpec Log LogSpec Crash Txn Fs FsSpec FileData FileWrite.

(** ** Names *)

Lemma zero_loop_below n m s x : x < s -> zero_loop n m s x = m x.
Proof.
  revert m s. induction n as [|n IH]; intros m s Hx; [done|]. cbn [zero_loop]. rewrite IH by lia. apply store8_ne. lia.
Qed.
Lemma strncpy_loop_below n m s t x : x < s -> strncpy_loop n m s t x = m x.
Proof.
  revert m s t. induction n as [|n IH]; intros m s t Hx; [done|]. cbn [strncpy_loop].
  destruct (t 0 =? 0); rewrite ?zero_loop_below, ?IH by lia; apply store8_ne; lia.
Qed.

(** Up to the first NUL [strncpy] copies the characters. *)
Lemma strncpy_loop_at n m s t i :
  (forall j, 0 <= t j < 256) -> 0 <= i < Z.of_nat n -> nonul t i -> strncpy_loop n m s t (s + i) = t i.
Proof.
  revert m s t i. induction n as [|n IH]; intros m s t i Hb Hi Hn; [lia|]. cbn [strncpy_loop].
  destruct (decide (i = 0)) as [->|Hne].
  - rewrite Z.add_0_r. destruct (t 0 =? 0); rewrite ?zero_loop_below, ?strncpy_loop_below, store8_eq by lia; apply u8_small, Hb.
  - rewrite (proj2 (Z.eqb_neq _ _)) by (apply Hn; lia). replace (s + i) with (s + 1 + (i - 1)) by lia.
    rewrite IH; [unfold adv; f_equal; lia|intros j; apply Hb|lia|]. intros j Hj. unfold adv. apply Hn. lia.
Qed.

Lemma length_read_bytes n m a : length (read_bytes n m a) = n.
Proof. revert a. induction n as [|n IH]; intros a; [done|]. simpl. by rewrite IH. Qed.
Lemma nth_read_bytes n m a j : (j < n)%nat -> nth j (read_bytes n m a) 0 = m (a + Z.of_nat j).
Proof.
  revert a j. induction n as [|n IH]; intros a j Hj; [lia|]. destruct j as [|j]; [by rewrite Z.add_0_r|]. simpl.
  rewrite IH by lia. f_equal. lia.
Qed.

(** A name of bytes. *)
Definition name_ok (name : list Z) : Prop := Forall (fun c => 0 <= c < 256) name.

Lemma chars_byte name j : name_ok name -> 0 <= chars name j < 256.
Proof.
  intros Hn. unfold chars. destruct (j <? 0); [lia|]. rewrite nth_lookup. destruct (name !! Z.to_nat j) as [c|] eqn:E; [|simpl; lia].
  by apply (Forall_lookup_1 _ _ _ _ Hn E).
Qed.

(** A name compares equal to its own entry. *)
Lemma namecmp_dirent name : name_ok name -> namecmp name (dirent_name name) = 0.
Proof.
  intros Hn. apply strncmp_zero. intros i Hi Hnul. unfold dirent_name, strncpy.
  assert (chars (read_bytes DIRSIZ (strncpy_loop (Z.to_nat (Z.of_nat DIRSIZ)) (fun _ => 0) 0 (chars name)) 0) i
    = strncpy_loop (Z.to_nat (Z.of_nat DIRSIZ)) (fun _ => 0) 0 (chars name) (0 + i)) as ->.
  { unfold chars at 1. rewrite (proj2 (Z.ltb_ge _ _)) by lia. rewrite nth_read_bytes by lia. f_equal. lia. }
  rewrite Nat2Z.id. symmetry. apply strncpy_loop_at; [|done|done]. intros j. by apply chars_byte.
Qed.

Lemma dirent_inum inum name : 0 <= inum < 2 ^ 16 -> de_inum (dirent_bytes inum name) = inum.
Proof.
  intros Hi. unfold de_inum, dirent_bytes, get16, get_le. rewrite drop_0, take_app_length' by (by rewrite length_le_bytes).
  rewrite le_val_bytes. apply Z.mod_small. done.
Qed.
Lemma dirent_length inum name : length (dirent_bytes inum name) = Z.to_nat DIRENT_SIZE.
Proof. unfold dirent_bytes, dirent_name. by rewrite length_app, length_le_bytes, length_read_bytes. Qed.

(** ** What a directory holds *)

Definition entry (ip : inode) (V : gmap Z (list Z)) (j : nat) : list Z := fbytes ip V (DIRENT_SIZE * Z.of_nat j) DIRENT_SIZE.
Definition entries (ip : inode) : nat := Z.to_nat (i_size ip / DIRENT_SIZE).
Definition is_entry (name de : list Z) : bool := negb (de_inum de =? 0) && (namecmp name (de_name de) =? 0).
(** The first live entry with the name, and the first free slot. *)
Definition dir_find (ip : inode) (V : gmap Z (list Z)) (name : list Z) : option nat :=
  List.find (fun j => is_entry name (entry ip V j)) (seq 0 (entries ip)).
Definition dir_slot (ip : inode) (V : gmap Z (list Z)) : nat :=
  default (entries ip) (List.find (fun j => de_inum (entry ip V j) =? 0) (seq 0 (entries ip))).

(** The table after [iget]. *)
Definition iget_table (dev inum : Z) (tab : list inode) : option (nat * list inode) :=
  match iget_scan dev inum tab 0 None with
  | inl m => Some (m, alter (fun ip => ip <| i_ref ::= fun n => n + 1 |>) m tab)
  | inr (Some m) => Some (m, alter (fun ip => ip <| i_dev := dev |> <| i_inum := inum |> <| i_ref := 1 |> <| i_valid := 0 |>) m tab)
  | inr None => None
  end.

Section dir.
Context `{Link, Patience, Disk} {disk_idle : kernel -> Prop} `{!DiskOk disk_idle}.
Context (h : hart) (i : nat) (p : proc) (st : Z) (D : gmap Z (list Z)) (W : list (Z * list Z)).
Local Abbreviation txn := (in_txn (disk_idle := disk_idle) h i p st D W).

Lemma iget_ok bs V B t dev inum :
  txn bs V B t ->
  match iget_table dev inum (itable t) with
  | Some (m, tab) => iget dev inum t = Ret m (t <| itable := tab |>)
  | None => iget dev inum t = Panic "iget: no inodes"
  end.
Proof.
  intros Hin. pose proof (txn_env h i p st D W _ _ _ _ Hin) as He. unfold iget, iget_table.
  pose proof (env_hw _ _ _ He) as Eh.
  assert (forall f m, (inode_upd m f;; release LkItable;; mret m) (t <| hw := acquired h ({[LkItable]} ∪ ∅) |>)
    = Ret m (t <| itable := alter f m (itable t) |>)) as Hend.
  { intros f m. unfold inode_upd. msimpl.
    mapply (env_release_last h ∅) by first [done | set_solver | (apply (env_upd _ _ (t <| hw := acquired h ({[LkItable]} ∪ ∅) |>)); [by apply (env_add h ∅)|done])].
    msimpl. f_equal. clear -Eh. destruct t. simpl in Eh. subst. reflexivity. }
  destruct (iget_scan dev inum (itable t) 0 None) as [m|[m|]] eqn:Es.
  all: mapply (env_acquire h ∅) by first [done | set_solver]; msimpl; change (itable (t <| hw := ?a |>)) with (itable t); rewrite Es.
  - apply Hend.
  - apply Hend.
  - done.
Qed.

(** A table entry in use for the inode. *)
Definition holds (dev inum : Z) (q : inode) : Prop := 0 < i_ref q /\ i_dev q = dev /\ i_inum q = inum.

Lemma iget_scan_found dev inum tab : forall m e, (exists j q, tab !! j = Some q /\ holds dev inum q) ->
  exists j q, iget_scan dev inum tab m e = inl (m + j)%nat /\ tab !! j = Some q /\ holds dev inum q.
Proof.
  induction tab as [|q tab IH]; intros m e (j & x & Hj & Hx); [done|]. cbn [iget_scan].
  destruct ((i_ref q >? 0) && (i_dev q =? dev) && (i_inum q =? inum)) eqn:E.
  - exists 0%nat, q. rewrite Nat.add_0_r. split_and!; [done..|]. apply andb_prop in E as [[E1 E2]%andb_prop E3]. unfold holds. lia.
  - destruct j as [|j].
    + exfalso. injection Hj as ->. destruct Hx as (Hr & Hv & Hm).
      rewrite (proj2 (Z.gtb_lt _ _)), (proj2 (Z.eqb_eq _ _)), (proj2 (Z.eqb_eq _ _)) in E by (done || lia). done.
    + destruct (IH (S m) (match e with None => if i_ref q =? 0 then Some m else None | Some e => Some e end)) as (j' & x' & Hs & Hj' & Hx'); [by exists j, x|].
      exists (S j'), x'. rewrite Hs. split; [f_equal; lia|done].
Qed.

Lemma iget_scan_spec dev inum tab : forall m e,
  match iget_scan dev inum tab m e with
  | inl r => exists j q, r = (m + j)%nat /\ tab !! j = Some q /\ holds dev inum q
  | inr (Some r) => e = Some r \/ exists j q, r = (m + j)%nat /\ tab !! j = Some q /\ i_ref q = 0
  | inr None => True
  end.
Proof.
  induction tab as [|q tab IH]; intros m e; cbn [iget_scan]; [destruct e; auto|].
  destruct ((i_ref q >? 0) && (i_dev q =? dev) && (i_inum q =? inum)) eqn:E.
  - exists 0%nat, q. apply andb_prop in E as [[E1 E2]%andb_prop E3]. unfold holds. split_and!; (done || lia).
  - set (e' := match e with None => _ | Some _ => _ end). specialize (IH (S m) e'). destruct (iget_scan dev inum tab (S m) e') as [r|[r|]]; [..|done].
    + destruct IH as (j & x & -> & Hj & Hx). exists (S j), x. split; [lia|done].
    + destruct IH as [He|(j & x & -> & Hj & Hx)]; [|right; exists (S j), x; split; [lia|done] ].
      unfold e' in He. destruct e as [e|]; [by left|]. destruct (Z.eqb_spec (i_ref q) 0); [|done]. injection He as <-. right. exists 0%nat, q. split; [lia|done].
Qed.

(** [iput] of a reference that is not the last one of a valid inode. *)
Lemma iput_plain bs V B t m q :
  txn bs V B t -> itable t !! m = Some q -> i_ref q <> 1 \/ i_valid q = 0 ->
  iput m t = Ret tt (t <| itable := alter (fun ip => ip <| i_ref ::= fun n => n - 1 |>) m (itable t) |>).
Proof.
  intros Hin Hq Hnot. pose proof (txn_env h i p st D W _ _ _ _ Hin) as He. pose proof (env_hw _ _ _ He) as Eh. unfold iput.
  mapply (env_acquire h ∅) by first [done | set_solver]. mapply inode_get_ok by exact Hq.
  assert ((i_ref q =? 1) && negb (i_valid q =? 0) && (i_nlink q =? 0) = false) as ->.
  { destruct Hnot as [Hn|Hn]; [by rewrite (proj2 (Z.eqb_neq _ _) Hn)|by rewrite Hn, andb_false_r]. }
  cbn [when]. unfold inode_upd. msimpl.
  rewrite (env_release_last h ∅) by first [done | set_solver | (apply (env_upd _ _ (t <| hw := acquired h ({[LkItable]} ∪ ∅) |>)); [by apply (env_add h ∅)|done])].
  f_equal. clear -Eh. destruct t. simpl in Eh. subst. reflexivity.
Qed.

(** The reference that [iget] took is given back: the entry was in use before,
    or it is new. *)
Lemma iput_after bs V B t dev inum m tab :
  txn bs V B t -> iget_table dev inum (itable t) = Some (m, tab) ->
  exists tab', iput m (t <| itable := tab |>) = Ret tt (t <| itable := tab' |>) /\ i_ref <$> tab' = i_ref <$> itable t.
Proof.
  intros Hin Hg. unfold iget_table in Hg. pose proof (iget_scan_spec dev inum (itable t) 0 None) as Hs.
  assert (forall f q, itable t !! m = Some q -> i_ref (f q) - 1 = i_ref q -> i_ref (f q) <> 1 \/ i_valid (f q) = 0 -> tab = alter f m (itable t) ->
    exists tab', iput m (t <| itable := tab |>) = Ret tt (t <| itable := tab' |>) /\ i_ref <$> tab' = i_ref <$> itable t) as Hput.
  { intros f q Hq Href Hnot ->. exists (alter (fun ip => ip <| i_ref ::= fun n => n - 1 |>) m (alter f m (itable t))). split.
    - rewrite (iput_plain bs V B _ m (f q)); [done|by apply txn_itable| |done]. simpl. by rewrite list_lookup_alter_eq, Hq.
    - apply list_eq. intros j. rewrite !list_lookup_fmap. destruct (decide (j = m)) as [->|]; [|by rewrite !list_lookup_alter_ne].
      rewrite !list_lookup_alter_eq, Hq. simpl. by f_equal. }
  destruct (iget_scan dev inum (itable t) 0 None) as [r|[r|]]; [..|done]; injection Hg as -> <-.
  - destruct Hs as (j & q & -> & Hj & Hh & _). simpl in *. eapply Hput; [exact Hj| | |reflexivity]; simpl; [lia|left; lia].
  - destruct Hs as [|(j & q & -> & Hj & Hz)]; [done|]. simpl in *. eapply Hput; [exact Hj| | |reflexivity]; simpl; [lia|by right].
Qed.

Context (k : nat) (ip : inode) (Hdev : i_dev ip = ROOTDEV).

(** The directory: allocated as far as its size, which is a number of entries. *)
Record dir_ok (V : gmap Z (list Z)) (B : gmap Z nat) (nb : nat) : Prop := {
  do_type : i_type ip = T_DIR;
  do_mapped : mapped ip V B nb;
  do_size : 0 <= i_size ip <= Z.of_nat nb * BSIZE;
  do_whole : i_size ip mod DIRENT_SIZE = 0
}.

Lemma entries_size V B nb : dir_ok V B nb -> DIRENT_SIZE * Z.of_nat (entries ip) = i_size ip /\ i_size ip < 2 ^ 31.
Proof.
  intros [_ Hm Hs Hw]. unfold entries. pose proof (Z.div_pos (i_size ip) DIRENT_SIZE ltac:(lia) ltac:(done)).
  pose proof (Z.div_mod (i_size ip) DIRENT_SIZE ltac:(done)). pose proof (mp_nb _ _ _ _ Hm) as Hnb. change MAXFILE with 268 in Hnb.
  change BSIZE with 1024 in Hs. change DIRENT_SIZE with 16 in *. lia.
Qed.

Lemma read_entry bs V B nb t j :
  txn bs V B t -> itable t !! k = Some ip -> dir_ok V B nb -> (length bs + size B < NBUF)%nat -> (j < entries ip)%nat ->
  exists t', readi k None (DIRENT_SIZE * Z.of_nat j) DIRENT_SIZE t = Ret (DIRENT_SIZE, entry ip V j) t' /\ lframe t t' /\ txn bs V B t'.
Proof.
  intros Hin Hk Hd Hroom Hj. destruct (entries_size _ _ _ Hd) as [Es Hs]. change DIRENT_SIZE with 16 in *.
  destruct (readi_ok h i p st D W k ip Hdev bs V B nb (16 * Z.of_nat j) 16 t) as (t' & Hr & Hf & Hin'); try done; try apply Hd; [lia|].
  exists t'. split; [|done]. rewrite Hr. rewrite (proj2 (Z.leb_gt _ _)) by lia.
  destruct (Z.gtb_spec (16 * Z.of_nat j) (i_size ip)) as [|_]; [lia|]. cbn [orb]. rewrite Z.min_l by lia. done.
Qed.

(** ** Lookup *)

Definition lookup_turn (name : list Z) (off : Z) : K (Z + option (nat * Z)) :=
  ip ← inode_get k;
  if off <? i_size ip then
    '(r, de) ← readi k None off DIRENT_SIZE;
    if negb (r =? DIRENT_SIZE) then panic "dirlookup read"
    else if de_inum de =? 0 then mret (inl (off + DIRENT_SIZE))
    else if namecmp name (de_name de) =? 0 then
      i ← iget (i_dev ip) (de_inum de);
      mret (inr (Some (i, off)))
    else mret (inl (off + DIRENT_SIZE))
  else mret (inr None).

Lemma next_entry j : DIRENT_SIZE * Z.of_nat j + DIRENT_SIZE = DIRENT_SIZE * Z.of_nat (S j).
Proof. change DIRENT_SIZE with 16. lia. Qed.

Section scan.
Context (bs : list Z) (V : gmap Z (list Z)) (B : gmap Z nat) (nb : nat) (Hd : dir_ok V B nb) (Hroom : (length bs + size B < NBUF)%nat).

(** A turn on an entry, and past the last one. *)
Lemma lookup_turn_entry name t j :
  txn bs V B t -> itable t !! k = Some ip -> (j < entries ip)%nat ->
  exists t', lframe t t' /\ txn bs V B t' /\ lookup_turn name (DIRENT_SIZE * Z.of_nat j) t =
    if is_entry name (entry ip V j)
    then (m ← iget ROOTDEV (de_inum (entry ip V j)); mret (inr (Some (m, DIRENT_SIZE * Z.of_nat j)))) t'
    else Ret (inl (DIRENT_SIZE * Z.of_nat (S j))) t'.
Proof.
  intros Hin Hk Hj. destruct (entries_size _ _ _ Hd) as [Es Hs].
  destruct (read_entry bs V B nb t j Hin Hk Hd Hroom Hj) as (t' & Hr & Hf & Hin'). exists t'. split; [done|]. split; [done|].
  unfold lookup_turn. mapply inode_get_ok by exact Hk. rewrite (proj2 (Z.ltb_lt _ _)) by (change DIRENT_SIZE with 16 in *; lia).
  mstep Hr. change (negb (DIRENT_SIZE =? DIRENT_SIZE)) with false. cbv iota. unfold is_entry. rewrite next_entry, Hdev.
  destruct (de_inum (entry ip V j) =? 0); [done|]. by destruct (namecmp name (de_name (entry ip V j)) =? 0).
Qed.
Lemma lookup_turn_end name t : itable t !! k = Some ip -> lookup_turn name (DIRENT_SIZE * Z.of_nat (entries ip)) t = Ret (inr None) t.
Proof.
  intros Hk. destruct (entries_size _ _ _ Hd) as [Es Hs]. unfold lookup_turn. mapply inode_get_ok by exact Hk.
  by rewrite (proj2 (Z.ltb_ge _ _)) by lia.
Qed.

(** What a lookup comes to, when it starts in state [t] and finds entry [r]. *)
Definition lookup_result (r : option nat) (t : kernel) (o : outcome kernel (option (nat * Z))) : Prop :=
  match r with
  | None => exists t', o = Ret None t' /\ lframe t t' /\ txn bs V B t'
  | Some j =>
      exists t1, lframe t t1 /\ txn bs V B t1 /\
      match iget_table ROOTDEV (de_inum (entry ip V j)) (itable t) with
      | Some (m, tab) => o = Ret (Some (m, DIRENT_SIZE * Z.of_nat j)) (t1 <| itable := tab |>)
      | None => o = Panic "iget: no inodes"
      end
  end.

Lemma lookup_loop name c : forall j fuel t, txn bs V B t -> itable t !! k = Some ip -> (j + c = entries ip)%nat -> (c < fuel)%nat ->
  lookup_result (List.find (fun j => is_entry name (entry ip V j)) (seq j c)) t
    (iterM fuel (lookup_turn name) (DIRENT_SIZE * Z.of_nat j) t).
Proof.
  induction c as [|c IH]; intros j fuel t Hin Hk Hj Hf; (destruct fuel as [|fuel]; [lia|]).
  - assert (j = entries ip) as -> by lia. simpl seq. cbn [List.find]. exists t. split; [|done]. apply iterM_ends. by apply lookup_turn_end.
  - destruct (lookup_turn_entry name t j Hin Hk ltac:(lia)) as (t1 & Hf1 & Hin1 & E). cbn [seq List.find].
    assert (itable t1 = itable t) as Et by (by apply lframe_itable).
    destruct (is_entry name (entry ip V j)) eqn:Em.
    + exists t1. split; [done|]. split; [done|]. pose proof (iget_ok bs V B t1 ROOTDEV (de_inum (entry ip V j)) Hin1) as Hg.
      rewrite Et in Hg. cbn [iterM]. destruct (iget_table _ _ _) as [[m tab]|].
      * rewrite (bind_Ret (lookup_turn name _) _ t (inr (Some (m, DIRENT_SIZE * Z.of_nat j))) (t1 <| itable := tab |>)); [done|].
        rewrite E. by mstep Hg.
      * apply bind_Panic. rewrite E. by apply bind_Panic.
    + rewrite (iterM_again _ _ _ _ _ _ E). pose proof (IH (S j) fuel t1 Hin1 ltac:(by rewrite Et) ltac:(lia) ltac:(lia)) as Hres.
      revert Hres. unfold lookup_result. rewrite Et. destruct (List.find _ _) as [j'|].
      * intros (t2 & Hf2 & Hrest). exists t2. split; [exact (transitivity Hf1 Hf2)|exact Hrest].
      * intros (t2 & E2 & Hf2 & Hin2). exists t2. split; [exact E2|]. split; [exact (transitivity Hf1 Hf2)|exact Hin2].
Qed.

Lemma dirlookup_ok name t :
  txn bs V B t -> itable t !! k = Some ip -> lookup_result (dir_find ip V name) t (dirlookup k name t).
Proof.
  intros Hin Hk. assert (dirlookup k name t = iterM (Z.to_nat (i_size ip / DIRENT_SIZE) + 2) (lookup_turn name) (DIRENT_SIZE * Z.of_nat 0) t) as ->.
  { unfold dirlookup. mapply inode_get_ok by exact Hk. rewrite (do_type _ _ _ Hd). reflexivity. }
  apply lookup_loop; [done|done|done|unfold entries; lia].
Qed.

(** ** The first free slot *)

Definition slot_turn (off : Z) : K (Z + Z) :=
  ip ← inode_get k;
  if off <? i_size ip then
    '(r, de) ← readi k None off DIRENT_SIZE;
    if negb (r =? DIRENT_SIZE) then panic "dirlink read"
    else if de_inum de =? 0 then mret (inr off)
    else mret (inl (off + DIRENT_SIZE))
  else mret (inr off).

Lemma slot_turn_entry t j :
  txn bs V B t -> itable t !! k = Some ip -> (j < entries ip)%nat ->
  exists t', lframe t t' /\ txn bs V B t' /\ slot_turn (DIRENT_SIZE * Z.of_nat j) t =
    Ret (if de_inum (entry ip V j) =? 0 then inr (DIRENT_SIZE * Z.of_nat j) else inl (DIRENT_SIZE * Z.of_nat (S j))) t'.
Proof.
  intros Hin Hk Hj. destruct (entries_size _ _ _ Hd) as [Es Hs].
  destruct (read_entry bs V B nb t j Hin Hk Hd Hroom Hj) as (t' & Hr & Hf & Hin'). exists t'. split; [done|]. split; [done|].
  unfold slot_turn. mapply inode_get_ok by exact Hk. rewrite (proj2 (Z.ltb_lt _ _)) by (change DIRENT_SIZE with 16 in *; lia).
  mstep Hr. change (negb (DIRENT_SIZE =? DIRENT_SIZE)) with false. cbv iota. rewrite next_entry.
  by destruct (de_inum (entry ip V j) =? 0).
Qed.

Lemma slot_loop c : forall j fuel t, txn bs V B t -> itable t !! k = Some ip -> (j + c = entries ip)%nat -> (c < fuel)%nat ->
  exists t', iterM fuel slot_turn (DIRENT_SIZE * Z.of_nat j) t
    = Ret (DIRENT_SIZE * Z.of_nat (default (entries ip) (List.find (fun j => de_inum (entry ip V j) =? 0) (seq j c)))) t'
    /\ lframe t t' /\ txn bs V B t'.
Proof.
  induction c as [|c IH]; intros j fuel t Hin Hk Hj Hf; (destruct fuel as [|fuel]; [lia|]).
  - assert (j = entries ip) as -> by lia. simpl seq. cbn [List.find default]. exists t. split; [|by split]. apply iterM_ends.
    destruct (entries_size _ _ _ Hd) as [Es Hs]. unfold slot_turn. mapply inode_get_ok by exact Hk. by rewrite (proj2 (Z.ltb_ge _ _)) by lia.
  - destruct (slot_turn_entry t j Hin Hk ltac:(lia)) as (t1 & Hf1 & Hin1 & E). cbn [seq List.find].
    destruct (de_inum (entry ip V j) =? 0).
    + exists t1. split; [by apply iterM_ends|by split].
    + rewrite (iterM_again _ _ _ _ _ _ E).
      destruct (IH (S j) fuel t1 Hin1 ltac:(by rewrite (lframe_itable _ _ Hf1)) ltac:(lia) ltac:(lia)) as (t2 & E2 & Hf2 & Hin2).
      exists t2. split; [exact E2|]. split; [exact (transitivity Hf1 Hf2)|exact Hin2].
Qed.

Lemma find_slot_ok t :
  txn bs V B t -> itable t !! k = Some ip ->
  exists t', find_slot k t = Ret (DIRENT_SIZE * Z.of_nat (dir_slot ip V)) t' /\ lframe t t' /\ txn bs V B t'.
Proof.
  intros Hin Hk. unfold find_slot. mapply inode_get_ok by exact Hk.
  destruct (slot_loop (entries ip) 0 (Z.to_nat (i_size ip / DIRENT_SIZE) + 2) t Hin Hk) as (t' & E & Hf); [done|unfold entries; lia|].
  by exists t'.
Qed.
End scan.

(** ** A new entry *)

Lemma dir_slot_le V : (dir_slot ip V <= entries ip)%nat.
Proof.
  unfold dir_slot. destruct (List.find _ _) as [j|] eqn:E; [|done]. apply find_some in E as [Hj _]. apply in_seq in Hj. simpl. lia.
Qed.

(** An entry never crosses a block. *)
Lemma turns_entry j : turns_left (DIRENT_SIZE * Z.of_nat j) DIRENT_SIZE = 1.
Proof.
  unfold turns_left. change (DIRENT_SIZE <=? 0) with false. cbv iota.
  change BSIZE with (DIRENT_SIZE * 64). rewrite Z.mul_mod_distr_l by done.
  pose proof (Z.mod_pos_bound (Z.of_nat j) 64 ltac:(lia)). change DIRENT_SIZE with 16.
  symmetry. apply (Z.div_unique _ _ 1 (16 * (Z.of_nat j `mod` 64) + 15)); lia.
Qed.
Lemma short_entry j r : 0 <= r < DIRENT_SIZE -> (DIRENT_SIZE * Z.of_nat j + r) mod BSIZE = 0 -> r = 0.
Proof.
  intros Hr Hz. change BSIZE with 1024 in Hz. change DIRENT_SIZE with 16 in *. pose proof (Z.div_mod (16 * Z.of_nat j + r) 1024 ltac:(done)). lia.
Qed.

(** [dirlink] of a new name: the entry is stored in the free slot, or nothing is,
    on a full disk. *)
Lemma dirlink_ok sb0 bs V B nb name inum t :
  ready (disk_idle := disk_idle) h i p st D W sb0 k B t bs ip V -> home st sb0 B ip V -> dir_ok V B nb ->
  dir_find ip V name = None -> let slot := dir_slot ip V in let off := DIRENT_SIZE * Z.of_nat slot in
  off + DIRENT_SIZE <= MAXFILE * BSIZE -> (length bs + 7 <= LOGBLOCKS)%nat -> (length bs + 7 + size B <= NBUF)%nat ->
  exists c l t' bs' ip' V', dirlink k name inum t = Ret c t' /\ ready (disk_idle := disk_idle) h i p st D W sb0 k B t' bs' ip' V'
    /\ itable t' = <[k := ip']> (itable t) /\ (length bs' <= length bs + 7)%nat
    /\ stored st sb0 off l B ip V ip' V' /\ covered ip' V' off (Z.of_nat (length l))
    /\ ((c = 0 /\ l = dirent_bytes inum name) \/ (c = -1 /\ l = [] /\ full sb0 V' /\ (nfree sb0 V < 2)%nat)).
Proof.
  intros Hst Hhm Hd Hfind slot off Hfit Hlog Hbuf. pose proof Hst as [Hin Hsb Hk _ Hfo Hao].
  pose proof (dirlookup_ok bs V B nb Hd ltac:(lia) name t Hin Hk) as Hl. rewrite Hfind in Hl. destruct Hl as (t1 & Hs1 & Hf1 & Hin1).
  assert (itable t1 !! k = Some ip) as Hk1 by (by rewrite (lframe_itable _ _ Hf1)).
  destruct (find_slot_ok bs V B nb Hd ltac:(lia) t1 Hin1 Hk1) as (t2 & Hs2 & Hf2 & Hin2).
  pose proof (transitivity Hf1 Hf2) as Hf. assert (Z.of_nat (length (dirent_bytes inum name)) = DIRENT_SIZE) as Hlen by (by rewrite dirent_length).
  destruct (entries_size _ _ _ Hd) as [Es _]. pose proof (dir_slot_le V) as Hle. fold slot in Hle.
  assert (log_need off DIRENT_SIZE = 6%nat) as Hneed by (unfold log_need, off; by rewrite turns_entry).
  assert (ready (disk_idle := disk_idle) h i p st D W sb0 k B t2 bs ip V) as Hst2
    by (split; try done; [by rewrite (lframe_sb _ _ Hf)|by rewrite (lframe_itable _ _ Hf)]).
  destruct (writei_ok h i p st D W sb0 k B t2 bs ip V off (dirent_bytes inum name) Hst2 Hhm)
    as (r & t3 & bs' & ip' & V' & Hs3 & Hst3 & Htab & Hbs & Hsd & Hr & Hcov & Hend); rewrite ?Hlen, ?Hneed in *; try lia.
  { unfold off. change DIRENT_SIZE with 16 in *. lia. }
  rewrite (lframe_itable _ _ Hf) in Htab.
  assert (dirlink k name inum t = Ret (if r =? DIRENT_SIZE then 0 else -1) t3) as Hs.
  { unfold dirlink. mstep Hs1. mstep Hs2. mstep Hs3. reflexivity. }
  assert (r = DIRENT_SIZE \/ (r = 0 /\ full sb0 V' /\ (nfree sb0 V < 2)%nat)) as [->|(-> & Hfull & Hn)].
  { destruct Hend as [->|(Hfull & Hn & Hz)]; [by left|]. destruct (decide (r = DIRENT_SIZE)) as [->|Hne]; [by left|right].
    split; [destruct Hz as [|Hz]; [done|apply (short_entry slot); [lia|exact Hz] ]|]. split; [done|].
    unfold off in Hn. rewrite turns_entry in Hn. unfold hole in Hn. case_decide; change (Z.to_nat 1) with 1%nat in Hn; lia. }
  - rewrite Z.eqb_refl in Hs. rewrite take_ge in Hsd by (rewrite dirent_length; lia).
    exists 0, (dirent_bytes inum name), t3, bs', ip', V'. rewrite Hlen. split_and!; try done; [lia|by left].
  - exists (-1), [], t3, bs', ip', V'. split_and!; try done; [lia|by right].
Qed.
End dir.

(** ** What the new entry changes *)

Lemma find_seq_first (f : nat -> bool) m n : forall a, (a <= m < a + n)%nat -> f m = true -> (forall j, (a <= j < m)%nat -> f j = false) ->
  List.find f (seq a n) = Some m.
Proof.
  induction n as [|n IH]; intros a Ha Hm Hlow; [lia|]. cbn [seq List.find]. destruct (decide (a = m)) as [->|]; [by rewrite Hm|].
  rewrite Hlow by lia. apply IH; [lia|done|]. intros j Hj. apply Hlow. lia.
Qed.

Section link.
Context (st : Z) (sb0 : superblock) (B : gmap Z nat) (ip ip' : inode) (V V' : gmap Z (list Z)) (slot : nat).

(** Other entries, when at most the bytes of the slot were stored. *)
Lemma link_other l j :
  stored st sb0 (DIRENT_SIZE * Z.of_nat slot) l B ip V ip' V' -> (length l <= Z.to_nat DIRENT_SIZE)%nat ->
  DIRENT_SIZE * Z.of_nat (S j) <= MAXFILE * BSIZE -> j <> slot \/ l = [] -> entry ip' V' j = entry ip V j.
Proof.
  intros Hsd Hl Hj Hne. unfold entry, fbytes. apply map_ext_in. intros q Hq%in_seq. change DIRENT_SIZE with 16 in *. change (Z.to_nat 16) with 16%nat in *.
  rewrite (sd_byte _ _ _ _ _ _ _ _ _ Hsd) by lia. destruct Hne as [Hne| -> ]; rewrite decide_False by (simpl; lia); done.
Qed.

Context (inum : Z) (name : list Z) (Hsd : stored st sb0 (DIRENT_SIZE * Z.of_nat slot) (dirent_bytes inum name) B ip V ip' V').
Context (Hfit : DIRENT_SIZE * Z.of_nat slot + DIRENT_SIZE <= MAXFILE * BSIZE).

Lemma link_slot : entry ip' V' slot = dirent_bytes inum name.
Proof.
  assert (Z.of_nat (length (dirent_bytes inum name)) = DIRENT_SIZE) as Hlen by (by rewrite dirent_length).
  unfold entry. rewrite <- Hlen at 2. apply fbytes_exact. intros j Hj. change DIRENT_SIZE with 16 in *.
  rewrite (sd_byte _ _ _ _ _ _ _ _ _ Hsd) by lia. rewrite decide_True by lia. f_equal. lia.
Qed.

Lemma link_find : 0 < inum < 2 ^ 16 -> name_ok name -> (slot <= entries ip)%nat -> i_size ip = DIRENT_SIZE * Z.of_nat (entries ip) ->
  dir_find ip V name = None -> dir_find ip' V' name = Some slot.
Proof.
  intros Hi Hn Hs Hsz Hf. pose proof (sd_inode _ _ _ _ _ _ _ _ _ Hsd) as Ei. rewrite dirent_length in Ei.
  change (Z.of_nat (Z.to_nat DIRENT_SIZE)) with DIRENT_SIZE in Ei. unfold dir_find. apply find_seq_first.
  - assert (entries ip' = Nat.max (entries ip) (S slot)) as ->; [|lia].
    unfold entries at 1. rewrite Ei. change (i_size (ip <| i_addrs := _ |> <| i_size := ?x |>)) with x. rewrite Hsz.
    change DIRENT_SIZE with 16. replace (Z.max _ _) with (Z.of_nat (Nat.max (entries ip) (S slot)) * 16) by lia.
    rewrite Z.div_mul by done. lia.
  - rewrite link_slot. unfold is_entry. rewrite dirent_inum by lia. rewrite (proj2 (Z.eqb_neq _ _)) by lia.
    change (de_name (dirent_bytes inum name)) with (dirent_name name). rewrite namecmp_dirent by done. done.
  - intros j Hj. rewrite (link_other _ j Hsd) by (rewrite ?dirent_length; change DIRENT_SIZE with 16 in *; first [done | lia | left; lia]).
    apply (find_none _ _ Hf). apply in_seq. lia.
Qed.

Lemma link_dir_ok nb : file_ok st sb0 ip V B -> file_ok st sb0 ip' V' B -> covered ip' V' (DIRENT_SIZE * Z.of_nat slot) DIRENT_SIZE ->
  dir_ok ip V B nb -> (slot <= entries ip)%nat -> exists nb', dir_ok ip' V' B nb'.
Proof.
  intros Hfo Hfo' Hcov Hd Hs. destruct (entries_size _ _ _ _ Hd) as [Es _]. destruct Hd as [Ht Hm Hsz Hwh].
  pose proof (mp_nb _ _ _ _ Hm) as Hnb. change MAXFILE with 268 in Hnb. pose proof (sd_inode _ _ _ _ _ _ _ _ _ Hsd) as Ei. rewrite dirent_length in Ei.
  change (Z.of_nat (Z.to_nat DIRENT_SIZE)) with DIRENT_SIZE in Ei.
  destruct (stored_mapped st sb0 B ip V ip' V' _ _ nb DIRENT_SIZE Hfo Hfo' Hsd Hcov) as (Hm' & Hfit' & [Hle _] & _); try done.
  - rewrite MAXB_eq. lia.
  - intros j Hj E. destruct (mp_data _ _ _ _ Hm j Hj) as (a & Ea & Ha & _). congruence.
  - change DIRENT_SIZE with 16 in *. lia.
  - assert (i_size ip' = Z.max (i_size ip) (DIRENT_SIZE * Z.of_nat slot + DIRENT_SIZE)) as Es' by (by rewrite Ei).
    exists (blocks_after nb (DIRENT_SIZE * Z.of_nat slot + DIRENT_SIZE)). split; [by rewrite Ei|done|rewrite Es'; change BSIZE with 1024 in *; lia|].
    rewrite Es'. change DIRENT_SIZE with 16 in *. destruct (Z.max_spec (i_size ip) (16 * Z.of_nat slot + 16)) as [[_ ->]|[_ ->]]; [|done].
    replace (16 * Z.of_nat slot + 16) with (Z.of_nat (S slot) * 16) by lia. apply Z.mod_mul. done.
Qed.
End link.

(** [dirlink] refuses a name that the directory has: it returns -1 with the disk
    as it was and every reference count of the inode table too; it panics when
    the table has no room for the inode that has the name. *)
Lemma dirlink_existing `{Link, Patience, Disk} disk_idle `{!DiskOk disk_idle} h i p st D W bs V B t k ip nb name inum j :
  in_txn (disk_idle := disk_idle) h i p st D W bs V B t -> itable t !! k = Some ip -> i_dev ip = ROOTDEV ->
  dir_ok ip V B nb -> (length bs + size B < NBUF)%nat -> dir_find ip V name = Some j ->
  match iget_table ROOTDEV (de_inum (entry ip V j)) (itable t) with
  | Some _ => exists t', dirlink k name inum t = Ret (-1) t' /\ in_txn (disk_idle := disk_idle) h i p st D W bs V B t'
      /\ i_ref <$> itable t' = i_ref <$> itable t
  | None => dirlink k name inum t = Panic "iget: no inodes"
  end.
Proof.
  intros Hin Hk Hdev Hd Hroom Hfind. pose proof (dirlookup_ok h i p st D W k ip Hdev bs V B nb Hd Hroom name t Hin Hk) as Hl.
  rewrite Hfind in Hl. destruct Hl as (t1 & Hf1 & Hin1 & Hl). pose proof (lframe_itable _ _ Hf1) as Et.
  pose proof (iput_after h i p st D W bs V B t1 ROOTDEV (de_inum (entry ip V j))) as Hput. rewrite Et in Hput.
  destruct (iget_table _ _ _) as [[m tab]|].
  - destruct (Hput m tab Hin1 eq_refl) as (tab' & Hp & Href). exists (t1 <| itable := tab' |>).
    split; [|split; [by apply txn_itable|done] ]. unfold dirlink. mstep Hl. by mstep Hp.
  - unfold dirlink. by apply bind_Panic.
Qed.

(** ** Properties *)

(** C16: [dirlookup] finds the first live entry of the directory with the name, and
    leaves the blocks as they were: it returns the slot of the inode table that
    [iget] gives for the number in that entry and the offset of the entry, panics
    when the inode table is full, and returns 0 when there is no such entry. *)
Theorem dirlookup_correct `{Link, Patience, Disk} disk_idle `{!DiskOk disk_idle} h i p st D W bs V B t k ip nb name :
  in_txn (disk_idle := disk_idle) h i p st D W bs V B t -> itable t !! k = Some ip -> i_dev ip = ROOTDEV ->
  dir_ok ip V B nb -> (length bs + size B < NBUF)%nat ->
  exists t', lframe t t' /\ in_txn (disk_idle := disk_idle) h i p st D W bs V B t' /\
    match dir_find ip V name with
    | None => dirlookup k name t = Ret None t'
    | Some j =>
        match iget_table ROOTDEV (de_inum (entry ip V j)) (itable t) with
        | Some (m, tab) => dirlookup k name t = Ret (Some (m, DIRENT_SIZE * Z.of_nat j)) (t' <| itable := tab |>)
        | None => dirlookup k name t = Panic "iget: no inodes"
        end
    end.
Proof.
  intros Hin Hk Hdev Hd Hroom. pose proof (dirlookup_ok h i p st D W k ip Hdev bs V B nb Hd Hroom name t Hin Hk) as Hl.
  unfold lookup_result in Hl. destruct (dir_find ip V name) as [j|]; [exact Hl|]. destruct Hl as (t' & Hs & Hf & Hin'). by exists t'.
Qed.

(** C6: What [dirlink] enters [dirlookup] finds.  For a name that is not in the
    directory and an inode that is in the inode table, [dirlink] returns 0 with
    the entry in the first free slot, or in a new one at the end, whose block it
    allocates when it is missing; [dirlookup] of the name then returns the table
    slot of that inode and the offset of the entry.  It returns -1 when the disk
    is full, and then the directory is as it was.  Either way the other entries
    stay, and so do the blocks of other files.  For a name that the directory
    has, [dirlink] returns -1 with the disk and every reference count of the
    inode table as they were, or panics when the inode that has the name is not
    in the table and the table is full. *)
Theorem dirlink_dirlookup_roundtrip `{Link, Patience, Disk} disk_idle `{!DiskOk disk_idle} h i p st D W sb0 k B t bs ip V nb name inum :
  ready (disk_idle := disk_idle) h i p st D W sb0 k B t bs ip V -> home st sb0 B ip V -> dir_ok ip V B nb ->
  name_ok name -> 0 < inum < 2 ^ 16 -> (exists j q, itable t !! j = Some q /\ holds ROOTDEV inum q) ->
  let slot := dir_slot ip V in let off := DIRENT_SIZE * Z.of_nat slot in
  off + DIRENT_SIZE <= MAXFILE * BSIZE -> (length bs + 7 <= LOGBLOCKS)%nat -> (length bs + 7 + size B < NBUF)%nat ->
  match dir_find ip V name with
  | Some j =>
      match iget_table ROOTDEV (de_inum (entry ip V j)) (itable t) with
      | Some _ => exists t', dirlink k name inum t = Ret (-1) t' /\ in_txn (disk_idle := disk_idle) h i p st D W bs V B t'
          /\ i_ref <$> itable t' = i_ref <$> itable t
      | None => dirlink k name inum t = Panic "iget: no inodes"
      end
  | None =>
    exists c t1 bs' ip' V', dirlink k name inum t = Ret c t1
    /\ ready (disk_idle := disk_idle) h i p st D W sb0 k B t1 bs' ip' V' /\ itable t1 = <[k := ip']> (itable t)
    /\ (forall j, (j < entries ip)%nat -> j <> slot -> entry ip' V' j = entry ip V j)
    /\ (forall x, foreign sb0 ip V x -> x <> IBLOCK (i_inum ip) sb0 -> V' !! x = V !! x)
    /\ ((1 < nfree sb0 V)%nat -> c = 0)
    /\ ((c = 0 /\ exists m q t2, dirlookup k name t1 = Ret (Some (m, off)) t2 /\ itable t1 !! m = Some q /\ holds ROOTDEV inum q
            /\ itable t2 = <[m := q <| i_ref := i_ref q + 1 |>]> (itable t1))
        \/ (c = -1 /\ full sb0 V' /\ i_size ip' = i_size ip /\ forall j, (j < entries ip)%nat -> entry ip' V' j = entry ip V j))
  end.
Proof.
  intros Hst Hhm Hd Hname Hinum Htable slot off Hfit Hlog Hbuf. pose proof (sr_dev _ _ _ _ _ _ _ _ _ _ _ _ _ Hst) as Hdev.
  destruct (dir_find ip V name) as [j|] eqn:Hfind.
  { apply (dirlink_existing disk_idle h i p st D W bs V B t k ip nb name inum j); try done; [apply Hst|apply Hst|lia]. }
  destruct (dirlink_ok h i p st D W k ip Hdev sb0 bs V B nb name inum t Hst Hhm Hd Hfind Hfit) as (c & l & t1 & bs' & ip' & V' & Hs & Hst1 & Htab & Hbs & Hsd & Hcov & Hres);
    [lia|lia|]. fold slot off in Hsd, Hcov.
  destruct (entries_size _ _ _ _ Hd) as [Es Hsm]. pose proof (dir_slot_le ip V) as Hle. fold slot in Hle.
  pose proof (do_size _ _ _ _ Hd) as Hsz. pose proof (mp_nb _ _ _ _ (do_mapped _ _ _ _ Hd)) as Hnb.
  assert (length l <= Z.to_nat DIRENT_SIZE)%nat as Hl.
  { destruct Hres as [[_ ->]|(_ & -> & _)]; [by rewrite dirent_length|simpl; lia]. }
  assert (forall j, (j < entries ip)%nat -> DIRENT_SIZE * Z.of_nat (S j) <= MAXFILE * BSIZE) as Hin.
  { intros j Hj. change MAXFILE with 268 in *. change BSIZE with 1024 in *. change DIRENT_SIZE with 16 in *. lia. }
  exists c, t1, bs', ip', V'. split; [exact Hs|]. split; [exact Hst1|]. split; [exact Htab|].
  split; [intros j Hj Hne; by apply (link_other st sb0 B ip ip' V V' slot l); auto|].
  split; [intros x Hx Hne; by apply (sd_other _ _ _ _ _ _ _ _ _ Hsd)|].
  destruct Hres as [[-> ->]|(-> & -> & Hfull & Hn)].
  2: { split; [lia|right]. split; [done|]. split; [done|]. split; [|intros j Hj; by apply (link_other st sb0 B ip ip' V V' slot []); auto].
       rewrite (sd_inode _ _ _ _ _ _ _ _ _ Hsd). change (Z.max (i_size ip) (off + 0) = i_size ip). unfold off. change DIRENT_SIZE with 16 in *. lia. }
  split; [done|left]. split; [done|].
  assert (dir_find ip' V' name = Some slot) as Hfound by (by apply (link_find st sb0 B ip ip' V V' slot inum name)).
  rewrite dirent_length in Hcov. destruct (link_dir_ok st sb0 B ip ip' V V' slot inum name Hsd Hfit nb) as [nb' Hd'];
    [apply Hst|apply Hst1|done|done|done|].
  pose proof (dirlookup_ok h i p st D W k ip' (sr_dev _ _ _ _ _ _ _ _ _ _ _ _ _ Hst1) bs' V' B nb' Hd' ltac:(lia) name t1
    (sr_txn _ _ _ _ _ _ _ _ _ _ _ _ _ Hst1) (sr_slot _ _ _ _ _ _ _ _ _ _ _ _ _ Hst1)) as Hlk.
  rewrite Hfound in Hlk. destruct Hlk as (t2 & Hf2 & _ & Hlk). rewrite (link_slot st sb0 B ip ip' V V' slot inum name Hsd Hfit), dirent_inum in Hlk by lia.
  destruct (iget_scan_found ROOTDEV inum (itable t1) 0 None) as (m & q & Hscan & Hq & Hh).
  { destruct Htable as (j & q & Hj & Hq). rewrite Htab. destruct (decide (j = k)) as [->|Hne]; [|by exists j, q; rewrite list_lookup_insert_ne].
    exists k, ip'. rewrite list_lookup_insert_eq by (by eapply lookup_lt_Some). split; [done|].
    rewrite (sr_slot _ _ _ _ _ _ _ _ _ _ _ _ _ Hst) in Hj. injection Hj as <-. by rewrite (sd_inode _ _ _ _ _ _ _ _ _ Hsd). }
  unfold iget_table in Hlk. rewrite Hscan in Hlk. exists m, q. eexists. split; [exact Hlk|]. split; [done|]. split; [done|].
  simpl. apply list_eq. intros j. destruct (decide (j = m)) as [->|]; [|by rewrite list_lookup_alter_ne, list_lookup_insert_ne].
  rewrite list_lookup_alter_eq, Hq, list_lookup_insert_eq by (by eapply lookup_lt_Some). done.
Qed.

(** A directory with an entry for itself and a free slot, in block 46. *)
Definition demo_dir : inode := mkInode ROOTDEV 18 1 1 T_DIR 0 0 1 32 (46 :: 47 :: replicate 11 0).
Definition demo_entries : list Z := dirent_bytes 18 [46] ++ replicate 1008 0.
Definition demo_dir_blocks : gmap Z (list Z) := <[46 := demo_entries]> demo_blocks.
Definition demo_table : list inode := <[3%nat := demo_dir]> (replicate NINODE zero_inode).

Lemma demo_dir_txn :
  exists t, @in_txn (fun _ => True) (boot_hart (Some 0%nat)) 0 disk_proc 2 demo_disk [] (log_add 46 [45]) demo_dir_blocks ∅ t
    /\ sb t = demo_sb /\ itable t = demo_table.
Proof.
  destruct demo_txn as (t & Hin & Hsb & _).
  destruct (@bread_txn 0%nat sync_disk _ sync_disk_ok _ _ _ _ _ _ _ _ _ t 46 (block_of 0) Hin) as (b & t2 & _ & Hf2 & Hin2);
    [done|unfold demo_blocks; rewrite lookup_insert_ne by lia; apply demo_disk_at; lia|rewrite map_size_empty; unfold NBUF; simpl; lia|].
  destruct (@put_block_txn sync_disk _ sync_disk_ok _ _ _ _ _ _ _ _ ∅ _ 46 b demo_entries Hin2)
    as (u1 & u2 & t3 & _ & _ & _ & Hf3 & Hin3); [done|reflexivity|lia|unfold in_log, LOGBLOCKS; lia|unfold LOGBLOCKS; simpl; lia|].
  exists (t3 <| itable := demo_table |>). split; [by apply (@txn_itable sync_disk _ sync_disk_ok)|].
  split; [|done]. change (sb t3 = demo_sb). by rewrite (lframe_sb _ _ Hf3), (lframe_sb _ _ Hf2).
Qed.

Lemma demo_dir_ok : dir_ok demo_dir demo_dir_blocks ∅ 2.
Proof.
  split; [done| |vm_compute; split; discriminate|done].
  destruct (mapped_insert demo_inode demo_blocks ∅ 2 46 demo_entries) as [M1 M2 M3]; [|apply demo_mapped|by split].
  intros j Hj. unfold file_addr. by destruct j as [|[|]]; [..|lia].
Qed.

Lemma dirlookup_correct_witness :
  exists t t', @dirlookup demo_link 0%nat sync_disk 3 [46] t = Ret (Some (3%nat, 0)) t'.
Proof.
  destruct demo_dir_txn as (t & Hin & Hsb & Hit).
  destruct (@dirlookup_correct demo_link 0%nat sync_disk _ sync_disk_ok _ _ _ _ _ _ _ _ _ t 3 demo_dir 2 [46] Hin) as (t' & _ & _ & Hl).
  - rewrite Hit. reflexivity.
  - reflexivity.
  - apply demo_dir_ok.
  - rewrite map_size_empty. unfold NBUF. vm_compute. lia.
  - assert (dir_find demo_dir demo_dir_blocks [46] = Some 0%nat) as E by (vm_compute; reflexivity). rewrite E in Hl.
    rewrite Hit in Hl. assert (de_inum (entry demo_dir demo_dir_blocks 0) = 18) as E2 by (vm_compute; reflexivity). rewrite E2 in Hl.
    exists t. eexists. exact Hl.
Defined.


(** The first entry of a new directory, for itself. *)
Lemma dirlink_dirlookup_roundtrip_witness :
  exists t t1 t2 m, @dirlink demo_link 0%nat sync_disk 3 [46] 18 t = Ret 0 t1
    /\ @dirlookup demo_link 0%nat sync_disk 3 [46] t1 = Ret (Some (m, 0)) t2.
Proof.
  destruct (demo_ready T_DIR) as (t & Hst & Hit).
  pose proof (@dirlink_dirlookup_roundtrip demo_link 0%nat sync_disk _ sync_disk_ok _ _ _ _ _ _ _ _ _ t _ _ _ 0 [46] 18 Hst) as Hrt.
  assert (dir_find (new_inode T_DIR) demo_blocks [46] = None) as E by reflexivity. rewrite E in Hrt.
  destruct Hrt as (c & t1 & bs' & ip' & V' & Hl & _ & _ & _ & _ & Hc & Hres).
  - apply demo_home. unfold T_DIR. lia.
  - split; [reflexivity| |simpl; lia|reflexivity].
    split; [vm_compute; discriminate|intros Hlt; lia|intros j Hj; lia].
  - apply Forall_cons. split; [lia|constructor].
  - lia.
  - rewrite Hit. exists 3%nat, (new_inode T_DIR). split; [reflexivity|]. unfold holds. simpl. lia.
  - vm_compute. discriminate.
  - apply Nat.leb_le. vm_compute. reflexivity.
  - rewrite map_size_empty. apply Nat.ltb_lt. vm_compute. reflexivity.
  - assert (c = 0) as -> by (apply Hc; rewrite demo_nfree; lia).
    destruct Hres as [[_ (m & q & t2 & Hd & _)]|[Hbad _]]; [|discriminate].
    exists t, t1, t2, m. split; [exact Hl|exact Hd].
Defined.
