(* ===== verification/File.v ===== *)
(** * Open files

    [kernel/file.c], and [pipealloc] of [kernel/pipe.c].  A [struct file *] is
    an index into [ftable]; the only device functions are the console's. *)

From stdpp Require Import base numbers gmap sets strings option list.
From S2P Require Import Prelude Machine Spinlock CString Kalloc Vm Proc Console Pipe Sleeplock Bio Log Fs.

Definition file_get (f : nat) : K file := t ← gets ftable; deref (t !! f).
Definition file_upd (f : nat) (g : file -> file) : K () := modify (fun s => s <| ftable ::= alter g f |>).

Definition fileinit : K () := initlock LkFtable.

Definition filealloc : K (option nat) :=
  acquire LkFtable;;
  r ← forM_until (seq 0 NFILE) (fun f =>
    x ← file_get f;
    if f_ref x =? 0 then
      file_upd f (fun x => x <| f_ref := 1 |>);;
      release LkFtable;;
      mret (Some f)
    else mret None);
  match r with
  | Some f => mret (Some f)
  | None => release LkFtable;; mret None
  end.

Definition filedup (f : nat) : K nat :=
  acquire LkFtable;;
  x ← file_get f;
  if f_ref x <? 1 then panic "filedup"
  else
    file_upd f (fun x => x <| f_ref ::= fun n => n + 1 |>);;
    release LkFtable;;
    mret f.

Section ops.
Context `{Link, Patience, Disk}.

Definition fileclose (f : nat) : K () :=
  acquire LkFtable;;
  x ← file_get f;
  if f_ref x <? 1 then panic "fileclose"
  else
    file_upd f (fun x => x <| f_ref ::= fun n => n - 1 |>);;
    ff ← file_get f;
    if f_ref ff >? 0 then release LkFtable
    else
      file_upd f (fun x => x <| f_ref := 0 |> <| f_type := FD_NONE |>);;
      release LkFtable;;
      match f_type ff with
      | FD_PIPE => pipeclose (f_pipe ff) (negb (writable ff =? 0))
      | FD_INODE | FD_DEVICE => i ← deref (f_ip ff); begin_op;; iput i;; end_op
      | FD_NONE => mret tt
      end.

(** The bytes of [struct stat]; [pad] is what the stack holds in the padding. *)
Definition stat_bytes (st : Z * Z * Z * Z * Z) (pad : list Z) : list Z :=
  let '(dev, ino, type, nlink, size) := st in
  le_bytes 4 dev ++ le_bytes 4 ino ++ le_bytes 2 type ++ le_bytes 2 nlink ++ take 4 pad ++ le_bytes 8 size.

Definition filestat (pad : list Z) (f : nat) (addr : Z) : K Z :=
  i ← myproc; i ← deref i; p ← proc_get i;
  x ← file_get f;
  match f_type x with
  | FD_INODE | FD_DEVICE =>
      ip ← deref (f_ip x);
      ilock ip;;
      st ← stati ip;
      iunlock ip;;
      r ← copyout (pagetable p) addr (stat_bytes st pad);
      mret (if r <? 0 then -1 else 0)
  | _ => mret (-1)
  end.

(** [f->major] names a device whose functions are installed. *)
Definition dev_ready (major : Z) : K bool :=
  d ← gets devsw;
  mret (negb ((major <? 0) || (major >=? NDEV)) && default false (d !! Z.to_nat major)).

Definition fileread (f : nat) (addr n : Z) : K Z :=
  x ← file_get f;
  if readable x =? 0 then mret (-1)
  else
    match f_type x with
    | FD_PIPE => piperead (f_pipe x) addr n
    | FD_DEVICE =>
        ok ← dev_ready (f_major x);
        if negb ok then mret (-1)
        else '(r, _) ← consoleread (Some addr) n; mret r
    | FD_INODE =>
        ip ← deref (f_ip x);
        ilock ip;;
        x ← file_get f;
        '(r, _) ← readi ip (Some addr) (f_off x) (u32 n);
        when (r >? 0) (file_upd f (fun x => x <| f_off ::= fun o => u32 (o + r) |>));;
        iunlock ip;;
        mret r
    | FD_NONE => panic "fileread"
    end.

(** The largest write of one transaction. *)
Definition max_write : Z := ((Z.of_nat MAXOPBLOCKS - 1 - 1 - 2) / 2) * BSIZE.

Definition filewrite (f : nat) (addr n : Z) : K Z :=
  x ← file_get f;
  if writable x =? 0 then mret (-1)
  else
    match f_type x with
    | FD_PIPE => pipewrite (f_pipe x) addr n
    | FD_DEVICE =>
        ok ← dev_ready (f_major x);
        if negb ok then mret (-1) else consolewrite (inl addr) n
    | FD_INODE =>
        ip ← deref (f_ip x);
        i ← iterM (Z.to_nat (n / max_write) + 2) (fun i : Z =>
          if i <? n then
            let n1 := Z.min (n - i) max_write in
            begin_op;;
            ilock ip;;
            x ← file_get f;
            r ← writei ip (inl (u64 (addr + i))) (f_off x) n1;
            when (r >? 0) (file_upd f (fun x => x <| f_off ::= fun o => u32 (o + r) |>));;
            iunlock ip;;
            end_op;;
            if negb (r =? n1) then mret (inr i) else mret (inl (i + r))
          else mret (inr i)) 0;
        mret (if i =? n then n else -1)
    | FD_NONE => panic "filewrite"
    end.

(** The new [struct pipe] in a fresh page: [data] is whatever the page holds
    after the 24 bytes of the lock. *)
Definition new_pipe (m : memory) (pi : Z) : pipe :=
  mkPipe (read_bytes (Z.to_nat PIPESIZE) m (pi + 24)) 0 0 1 1 [0; 0] 0.

(** The read end and the write end, or none and nothing allocated. *)
Definition pipealloc : K (option (nat * nat)) :=
  f0 ← filealloc;
  match f0 with
  | None => mret None
  | Some f0 =>
      f1 ← filealloc;
      match f1 with
      | None => fileclose f0;; mret None
      | Some f1 =>
          pi ← kalloc;
          if pi =? 0 then fileclose f0;; fileclose f1;; mret None
          else
            modify (fun s => s <| pipes ::= <[pi := new_pipe (mem s) pi]> |>);;
            initlock (LkPipe (Z.to_nat pi));;
            file_upd f0 (fun x => x <| f_type := FD_PIPE |> <| readable := 1 |> <| writable := 0 |>
                                    <| f_pipe := pi |>);;
            file_upd f1 (fun x => x <| f_type := FD_PIPE |> <| readable := 0 |> <| writable := 1 |>
                                    <| f_pipe := pi |>);;
            mret (Some (f0, f1))
      end
  end.
End ops.
