(* ===== verification/Exec.v ===== *)
(** * Program loading

    [kernel/exec.c].  The [goto bad] paths are the [inl] results of the stages
    of [kexec]: each carries the size [sz] that [bad] frees. *)

From stdpp Require Import base numbers gmap sets strings option list.
From S2P Require Import Prelude Machine Spinlock CString Kalloc Vm Proc Sleeplock Bio Log Fs.

Definition ELF_MAGIC : Z := 0x464C457F.
Definition ELF_PROG_LOAD : Z := 1.
Definition ELFHDR_SIZE : Z := 64.
Definition PROGHDR_SIZE : Z := 56.
Notation get64 := (get_le 8).

(** [struct elfhdr] *)
Definition elf_magic (h : list Z) : Z := get32 h 0.
Definition elf_entry (h : list Z) : Z := get64 h 24.
Definition elf_phoff (h : list Z) : Z := get64 h 32.
Definition elf_phnum (h : list Z) : Z := get16 h 56.
(** [struct proghdr] *)
Definition ph_type (h : list Z) : Z := get32 h 0.
Definition ph_flags (h : list Z) : Z := get32 h 4.
Definition ph_off (h : list Z) : Z := get64 h 8.
Definition ph_vaddr (h : list Z) : Z := get64 h 16.
Definition ph_filesz (h : list Z) : Z := get64 h 32.
Definition ph_memsz (h : list Z) : Z := get64 h 40.

Definition flags2perm (flags : Z) : Z :=
  let perm := if negb (Z.land flags 1 =? 0) then PTE_X else 0 in
  if negb (Z.land flags 2 =? 0) then Z.lor perm PTE_W else perm.

(** [safestrcpy(name, t, 16)] on the bytes of [name]. *)
Definition name_cpy (name t : list Z) : list Z :=
  read_bytes 16 (safestrcpy (write_bytes (fun _ => 0) 0 name) 0 (chars t) 16) 0.

(** What follows the last slash of the path. *)
Fixpoint last_elem (last s : list Z) : list Z :=
  match s with
  | [] => last
  | c :: s => last_elem (if is_slash c then s else last) s
  end.

Section ops.
Context `{Link, Patience, Disk}.

Fixpoint loadseg_loop (fuel : nat) (pagetable va : Z) (ip : nat) (offset sz i : Z) : K Z :=
  match fuel with
  | O => hangs HFuel
  | S fuel =>
      if i <? sz then
        pa ← walkaddr pagetable (u64 (va + i));
        if pa =? 0 then panic "loadseg: address should exist"
        else
          let n := if sz - i <? PGSIZE then sz - i else PGSIZE in
          '(r, bs) ← readi ip None (u32 (offset + i)) n;
          modify (fun s => s <| mem ::= fun m => write_bytes m pa bs |>);;
          if negb (u32 r =? n) then mret (-1)
          else loadseg_loop fuel pagetable va ip offset sz (u32 (i + PGSIZE))
      else mret 0
  end.
Definition loadseg (pagetable va : Z) (ip : nat) (offset sz : Z) : K Z :=
  loadseg_loop (Z.to_nat (sz / PGSIZE) + 2) pagetable va ip offset sz 0.

(** The loop over the program headers: [n] are left, [off] is the next. *)
Fixpoint load_program (n : nat) (pagetable : Z) (ip : nat) (off sz : Z) : K (Z + Z) :=
  match n with
  | O => mret (inr sz)
  | S n =>
      '(r, ph) ← readi ip None (u32 off) PROGHDR_SIZE;
      if negb (r =? PROGHDR_SIZE) then mret (inl sz)
      else if negb (ph_type ph =? ELF_PROG_LOAD) then load_program n pagetable ip (i32 (off + PROGHDR_SIZE)) sz
      else if ph_memsz ph <? ph_filesz ph then mret (inl sz)
      else if u64 (ph_vaddr ph + ph_memsz ph) <? ph_vaddr ph then mret (inl sz)
      else if negb (ph_vaddr ph mod PGSIZE =? 0) then mret (inl sz)
      else
        sz1 ← uvmalloc pagetable sz (u64 (ph_vaddr ph + ph_memsz ph)) (flags2perm (ph_flags ph));
        if sz1 =? 0 then mret (inl sz)
        else
          r ← loadseg pagetable (ph_vaddr ph) ip (u32 (ph_off ph)) (u32 (ph_filesz ph));
          if r <? 0 then mret (inl sz1)
          else load_program n pagetable ip (i32 (off + PROGHDR_SIZE)) sz1
  end.

(** Copy the strings; the stack pointer and the addresses pushed so far. *)
Fixpoint push_args (pagetable stackbase sp : Z) (argv : list (list Z)) (ustack : list Z)
    : K (option (Z * list Z)) :=
  match argv with
  | [] => mret (Some (sp, ustack))
  | a :: argv =>
      if (MAXARG <=? length ustack)%nat then mret None
      else
        let sp := u64 (sp - (Z.of_nat (length a) + 1)) in
        let sp := u64 (sp - sp mod 16) in
        if sp <? stackbase then mret None
        else
          r ← copyout pagetable sp (a ++ [0]);
          if r <? 0 then mret None
          else push_args pagetable stackbase sp argv (ustack ++ [sp])
  end.

(** The user stack above [sz0]: [inl] the size to free, or the new size, the
    stack pointer and [argc]. *)
Definition build_stack (pagetable sz0 : Z) (argv : list (list Z)) : K (Z + Z * Z * Z) :=
  let sz := PGROUNDUP sz0 in
  sz1 ← uvmalloc pagetable sz (u64 (sz + (USERSTACK + 1) * PGSIZE)) PTE_W;
  if sz1 =? 0 then mret (inl sz)
  else
    let sz := sz1 in
    uvmclear pagetable (u64 (sz - (USERSTACK + 1) * PGSIZE));;
    let stackbase := u64 (sz - USERSTACK * PGSIZE) in
    r ← push_args pagetable stackbase sz argv [];
    match r with
    | None => mret (inl sz)
    | Some (sp, ustack) =>
        let argc := Z.of_nat (length ustack) in
        if (MAXARG <=? length ustack)%nat then hangs HWild
        else
          let sp := u64 (sp - (argc + 1) * 8) in
          let sp := u64 (sp - sp mod 16) in
          if sp <? stackbase then mret (inl sz)
          else
            r ← copyout pagetable sp (flat_map (le_bytes 8) (ustack ++ [0]));
            if r <? 0 then mret (inl sz) else mret (inr (sz, sp, argc))
    end.

(** The label [bad]. *)
Definition exec_bad (pagetable sz : Z) (ip : option nat) : K Z :=
  when (negb (pagetable =? 0)) (proc_freepagetable pagetable sz);;
  match ip with
  | Some i => iunlockput i;; end_op;; mret (-1)
  | None => mret (-1)
  end.

Definition kexec (path : list Z) (argv : list (list Z)) : K Z :=
  p ← myproc; p ← deref p;
  begin_op;;
  ip ← namei path;
  match ip with
  | None => end_op;; mret (-1)
  | Some ip =>
      ilock ip;;
      '(r, elf) ← readi ip None 0 ELFHDR_SIZE;
      if negb (r =? ELFHDR_SIZE) then exec_bad 0 0 (Some ip)
      else if negb (elf_magic elf =? ELF_MAGIC) then exec_bad 0 0 (Some ip)
      else
        pt ← proc_pagetable p;
        if pt =? 0 then exec_bad 0 0 (Some ip)
        else
          r ← load_program (Z.to_nat (elf_phnum elf)) pt ip (i32 (elf_phoff elf)) 0;
          match r with
          | inl sz => exec_bad pt sz (Some ip)
          | inr sz =>
              iunlockput ip;;
              end_op;;
              pr ← proc_get p;
              let oldsz := Machine.sz pr in
              r ← build_stack pt sz argv;
              match r with
              | inl sz => exec_bad pt sz None
              | inr (sz, sp, argc) =>
                  tf_store p TF_a1 sp;;
                  proc_upd p (fun q => q <| name ::= fun n => name_cpy n (last_elem path path) |>);;
                  pr ← proc_get p;
                  let oldpagetable := pagetable pr in
                  proc_upd p (fun q => q <| pagetable := pt |>);;
                  proc_upd p (fun q => q <| Machine.sz := sz |>);;
                  tf_store p TF_epc (elf_entry elf);;
                  tf_store p TF_sp sp;;
                  proc_freepagetable oldpagetable oldsz;;
                  mret argc
              end
          end
  end.
End ops.
