(* ===== verification/Lifecycle.v ===== *)
(** * Process creation, exit and wait

    The functions of [kernel/proc.c] that use the file system: [userinit],
    [kfork], [kexit] and [kwait]. *)

From stdpp Require Import base numbers gmap sets strings option list.
From S2P Require Import Prelude Machine Spinlock CString Printf Kalloc Vm Proc Sleeplock Bio Log Fs File Exec.

Section ops.
Context `{Link, Patience, Disk}.

Definition userinit : K () :=
  p ← allocproc;
  modify (fun s => s <| initproc := p |>);;
  p ← deref p;
  c ← namei (str "/");
  proc_upd p (fun q => q <| cwd := c |>);;
  proc_upd p (fun q => q <| state := RUNNABLE |>);;
  release (LkProc p).

Definition kfork : K Z :=
  p ← myproc; p ← deref p;
  np ← allocproc;
  match np with
  | None => mret (-1)
  | Some np =>
      x ← proc_get p; nx ← proc_get np;
      r ← uvmcopy (pagetable x) (pagetable nx) (sz x);
      if r <? 0 then freeproc np;; release (LkProc np);; mret (-1)
      else
        proc_upd np (fun q => q <| sz := sz x |>);;
        modify (fun s => s <| mem ::= fun m =>
          write_bytes m (trapframe nx) (read_bytes (Z.to_nat TF_size) m (trapframe x)) |>);;
        tf_store np TF_a0 0;;
        forM (seq 0 NOFILE) (fun i =>
          x ← proc_get p;
          f ← deref (ofile x !! i);
          match f with
          | Some f => f ← filedup f; proc_upd np (fun q => q <| ofile ::= <[i := Some f]> |>)
          | None => mret tt
          end);;
        c ← deref (cwd x);
        c ← idup c;
        proc_upd np (fun q => q <| cwd := Some c |>);;
        proc_upd np (fun q => q <| name ::= fun n => name_cpy n (name x) |>);;
        nx ← proc_get np;
        let pid := pid nx in
        release (LkProc np);;
        acquire LkWait;;
        proc_upd np (fun q => q <| parent := Some p |>);;
        release LkWait;;
        acquire (LkProc np);;
        proc_upd np (fun q => q <| state := RUNNABLE |>);;
        release (LkProc np);;
        mret pid
  end.

(** [wakeup(p->parent)] is a wakeup of nobody when there is no parent. *)
Definition kexit (status : Z) : K () :=
  p ← myproc; p ← deref p;
  ip ← gets initproc;
  if decide (ip = Some p) then panic "init exiting"
  else
    forM (seq 0 NOFILE) (fun fd =>
      x ← proc_get p;
      f ← deref (ofile x !! fd);
      match f with
      | Some f => fileclose f;; proc_upd p (fun q => q <| ofile ::= <[fd := None]> |>)
      | None => mret tt
      end);;
    begin_op;;
    x ← proc_get p;
    c ← deref (cwd x);
    iput c;;
    end_op;;
    proc_upd p (fun q => q <| cwd := None |>);;
    acquire LkWait;;
    reparent p;;
    x ← proc_get p;
    match parent x with Some j => wakeup (ChProc j) | None => mret tt end;;
    acquire (LkProc p);;
    proc_upd p (fun q => q <| xstate := status |>);;
    proc_upd p (fun q => q <| state := ZOMBIE |>);;
    release LkWait;;
    sched;;
    panic "zombie exit".

(** The scan of the table: the result of [kwait], or whether there are children. *)
Fixpoint kwait_scan (p : nat) (addr : Z) (l : list nat) (havekids : bool) : K (Z + bool) :=
  match l with
  | [] => mret (inr havekids)
  | i :: l =>
      pp ← proc_get i;
      if decide (parent pp = Some p) then
        acquire (LkProc i);;
        pp ← proc_get i;
        if decide (state pp = ZOMBIE) then
          printf "schedstats: pid=%d waiting_tick=%d\n" [VInt (pid pp); VInt (waiting_tick pp)];;
          let pid := pid pp in
          x ← proc_get p;
          bad ← (if addr =? 0 then mret false
                 else r ← copyout (pagetable x) addr (le_bytes 4 (xstate pp)); mret (r <? 0));
          if bad : bool then release (LkProc i);; release LkWait;; mret (inl (-1))
          else freeproc i;; release (LkProc i);; release LkWait;; mret (inl pid)
        else release (LkProc i);; kwait_scan p addr l true
      else kwait_scan p addr l havekids
  end.

Definition kwait (addr : Z) : K Z :=
  p ← myproc; p ← deref p;
  acquire LkWait;;
  iterM (S patience) (fun _ : () =>
    r ← kwait_scan p addr (seq 0 NPROC) false;
    match r with
    | inl res => mret (inr res)
    | inr havekids =>
        stop ← (if negb havekids then mret true else k ← killed p; mret (negb (k =? 0)));
        if stop : bool then release LkWait;; mret (inr (-1))
        else sleep (ChProc p) LkWait;; mret (inl tt)
    end) tt.
End ops.
