(* ===== verification/Args.v ===== *)
(** * System call arguments

    The argument-fetching functions of [kernel/syscall.c] and [argfd],
    [fdalloc] of [kernel/sysfile.c].  [fetchstr] also returns the bytes it put
    in the caller's buffer, the NUL included. *)

From stdpp Require Import base numbers gmap sets strings option list.
From S2P Require Import Prelude Machine Spinlock CString Kalloc Vm Proc Bio.

Section ops.
Context `{Link}.

Definition fetchaddr (addr : Z) : K (Z * Z) :=
  i ← myproc; i ← deref i; p ← proc_get i;
  if (addr >=? sz p) || (u64 (addr + 8) >? sz p) then mret (-1, 0)
  else
    '(r, bs) ← copyin (pagetable p) addr 8;
    if negb (r =? 0) then mret (-1, 0) else mret (0, le_val bs).

Definition fetchstr (addr max : Z) : K (Z * list Z) :=
  i ← myproc; i ← deref i; p ← proc_get i;
  '(r, bs) ← copyinstr (pagetable p) addr max;
  if r <? 0 then mret (-1, bs) else mret (Z.of_nat (length (cstr bs)), bs).

Definition argraw (n : nat) : K Z :=
  i ← myproc; i ← deref i;
  if (n <=? 5)%nat then tf_load i (TF_a0 + 8 * Z.of_nat n) else panic "argraw".

Definition argint (n : nat) : K Z := x ← argraw n; mret (i32 x).
Definition argaddr (n : nat) : K Z := argraw n.
(** The string itself instead of its length, none for an error. *)
Definition argstr (n : nat) (max : Z) : K (option (list Z)) :=
  a ← argaddr n;
  '(r, bs) ← fetchstr a max;
  mret (if r <? 0 then None else Some (cstr bs)).

(** The descriptor and its file. *)
Definition argfd (n : nat) : K (option (Z * nat)) :=
  fd ← argint n;
  if (fd <? 0) || (fd >=? Z.of_nat NOFILE) then mret None
  else
    i ← myproc; i ← deref i; p ← proc_get i;
    f ← deref (ofile p !! Z.to_nat fd);
    mret ((fun f => (fd, f)) <$> f).

Definition fdalloc (f : nat) : K Z :=
  i ← myproc; i ← deref i;
  r ← forM_until (seq 0 NOFILE) (fun fd =>
    p ← proc_get i;
    o ← deref (ofile p !! fd);
    match o with
    | None => proc_upd i (fun p => p <| ofile ::= <[fd := Some f]> |>);; mret (Some (Z.of_nat fd))
    | Some _ => mret None
    end);
  mret (default (-1) r).
End ops.
