(* ===== verification/Sysfile.v ===== *)
(** * File system calls

    [kernel/sysfile.c].  The results are the C return values before their
    conversion to [uint64]. *)

From stdpp Require Import base numbers gmap sets strings option list.
From S2P Require Import Prelude Machine Spinlock CString Printf Kalloc Vm Proc Sleeplock Bio Log Fs File Exec Args.

Definition O_RDONLY : Z := 0.
Definition O_WRONLY : Z := 1.
Definition O_RDWR : Z := 2.
Definition O_CREATE : Z := 0x200.
Definition O_TRUNC : Z := 0x400.

(** The local [char name[DIRSIZ]]. *)
Definition name_buf : list Z := replicate DIRSIZ 0.
Definition PATHLEN : Z := Z.of_nat MAXPATH.

Section ops.
Context `{Link, Patience, Disk}.

Definition sys_dup : K Z :=
  r ← argfd 0;
  match r with
  | None => mret (-1)
  | Some (_, f) =>
      fd ← fdalloc f;
      if fd <? 0 then mret (-1) else filedup f;; mret fd
  end.

Definition sys_read : K Z :=
  p ← argaddr 1;
  n ← argint 2;
  r ← argfd 0;
  match r with None => mret (-1) | Some (_, f) => fileread f p n end.

Definition sys_write : K Z :=
  p ← argaddr 1;
  n ← argint 2;
  r ← argfd 0;
  match r with None => mret (-1) | Some (_, f) => filewrite f p n end.

Definition sys_close : K Z :=
  r ← argfd 0;
  match r with
  | None => mret (-1)
  | Some (fd, f) =>
      i ← myproc; i ← deref i;
      proc_upd i (fun p => p <| ofile ::= <[Z.to_nat fd := None]> |>);;
      fileclose f;;
      mret 0
  end.

Definition sys_fstat (pad : list Z) : K Z :=
  st ← argaddr 1;
  r ← argfd 0;
  match r with None => mret (-1) | Some (_, f) => filestat pad f st end.

(** The label [bad] of [sys_link]. *)
Definition link_bad (ip : nat) : K Z :=
  ilock ip;;
  inode_upd ip (fun x => x <| i_nlink ::= fun n => i16 (n - 1) |>);;
  iupdate ip;;
  iunlockput ip;;
  end_op;;
  mret (-1).

Definition sys_link : K Z :=
  old ← argstr 0 PATHLEN;
  match old with
  | None => mret (-1)
  | Some old =>
  new ← argstr 1 PATHLEN;
  match new with
  | None => mret (-1)
  | Some new =>
  begin_op;;
  ip ← namei old;
  match ip with
  | None => end_op;; mret (-1)
  | Some ip =>
      ilock ip;;
      x ← inode_get ip;
      if i_type x =? T_DIR then iunlockput ip;; end_op;; mret (-1)
      else
        inode_upd ip (fun x => x <| i_nlink ::= fun n => i16 (n + 1) |>);;
        iupdate ip;;
        iunlock ip;;
        '(dp, name) ← nameiparent new name_buf;
        match dp with
        | None => link_bad ip
        | Some dp =>
            ilock dp;;
            d ← inode_get dp;
            x ← inode_get ip;
            r ← (if negb (i_dev d =? i_dev x) then mret (-1) else dirlink dp name (i_inum x));
            if r <? 0 then iunlockput dp;; link_bad ip
            else iunlockput dp;; iput ip;; end_op;; mret 0
        end
  end end end.

Definition isdirempty (dp : nat) : K bool :=
  ip ← inode_get dp;
  iterM (Z.to_nat (i_size ip / DIRENT_SIZE) + 2) (fun off : Z =>
    ip ← inode_get dp;
    if off <? i_size ip then
      '(r, de) ← readi dp None off DIRENT_SIZE;
      if negb (r =? DIRENT_SIZE) then panic "isdirempty: readi"
      else if negb (de_inum de =? 0) then mret (inr false)
      else mret (inl (off + DIRENT_SIZE))
    else mret (inr true)) (2 * DIRENT_SIZE).

(** The label [bad] of [sys_unlink]. *)
Definition unlink_bad (dp : nat) : K Z := iunlockput dp;; end_op;; mret (-1).

Definition sys_unlink : K Z :=
  path ← argstr 0 PATHLEN;
  match path with
  | None => mret (-1)
  | Some path =>
  begin_op;;
  '(dp, name) ← nameiparent path name_buf;
  match dp with
  | None => end_op;; mret (-1)
  | Some dp =>
      ilock dp;;
      if (namecmp name (str ".") =? 0) || (namecmp name (str "..") =? 0) then unlink_bad dp
      else
        r ← dirlookup dp name;
        match r with
        | None => unlink_bad dp
        | Some (ip, off) =>
            ilock ip;;
            x ← inode_get ip;
            if i_nlink x <? 1 then panic "unlink: nlink < 1"
            else
              stop ← (if i_type x =? T_DIR then e ← isdirempty ip; mret (negb e) else mret false);
              if stop : bool then iunlockput ip;; unlink_bad dp
              else
                r ← writei dp (inr (replicate (Z.to_nat DIRENT_SIZE) 0)) off DIRENT_SIZE;
                if negb (r =? DIRENT_SIZE) then panic "unlink: writei"
                else
                  x ← inode_get ip;
                  when (i_type x =? T_DIR)
                    (inode_upd dp (fun x => x <| i_nlink ::= fun n => i16 (n - 1) |>);;
                     iupdate dp);;
                  iunlockput dp;;
                  inode_upd ip (fun x => x <| i_nlink ::= fun n => i16 (n - 1) |>);;
                  iupdate ip;;
                  iunlockput ip;;
                  end_op;;
                  mret 0
        end
  end end.

(** The label [fail] of [create]. *)
Definition create_fail (ip dp : nat) : K (option nat) :=
  inode_upd ip (fun x => x <| i_nlink := 0 |>);;
  iupdate ip;;
  iunlockput ip;;
  iunlockput dp;;
  mret None.

(** The new or existing inode, locked. *)
Definition create (path : list Z) (type major minor : Z) : K (option nat) :=
  '(dp, name) ← nameiparent path name_buf;
  match dp with
  | None => mret None
  | Some dp =>
      ilock dp;;
      r ← dirlookup dp name;
      match r with
      | Some (ip, _) =>
          iunlockput dp;;
          ilock ip;;
          x ← inode_get ip;
          if (type =? T_FILE) && ((i_type x =? T_FILE) || (i_type x =? T_DEVICE)) then mret (Some ip)
          else iunlockput ip;; mret None
      | None =>
          d ← inode_get dp;
          ip ← ialloc (i_dev d) type;
          match ip with
          | None => iunlockput dp;; mret None
          | Some ip =>
              ilock ip;;
              inode_upd ip (fun x => x <| i_major := i16 major |>);;
              inode_upd ip (fun x => x <| i_minor := i16 minor |>);;
              inode_upd ip (fun x => x <| i_nlink := 1 |>);;
              iupdate ip;;
              x ← inode_get ip;
              r ← (if type =? T_DIR then
                     r ← dirlink ip (str ".") (i_inum x);
                     if r <? 0 then mret r else dirlink ip (str "..") (i_inum d)
                   else mret 0);
              if r <? 0 then create_fail ip dp
              else
                r ← dirlink dp name (i_inum x);
                if r <? 0 then create_fail ip dp
                else
                  when (type =? T_DIR)
                    (inode_upd dp (fun x => x <| i_nlink ::= fun n => i16 (n + 1) |>);;
                     iupdate dp);;
                  iunlockput dp;;
                  mret (Some ip)
          end
      end
  end.

(** The first half of [sys_open]: the locked inode of the path. *)
Definition open_inode (path : list Z) (omode : Z) : K (option nat) :=
  if negb (Z.land omode O_CREATE =? 0) then
    ip ← create path T_FILE 0 0;
    match ip with
    | None => end_op;; mret None
    | Some ip => mret (Some ip)
    end
  else
    ip ← namei path;
    match ip with
    | None => end_op;; mret None
    | Some ip =>
        ilock ip;;
        x ← inode_get ip;
        if (i_type x =? T_DIR) && negb (omode =? O_RDONLY) then iunlockput ip;; end_op;; mret None
        else mret (Some ip)
    end.

Definition b2z (b : bool) : Z := if b then 1 else 0.

Definition sys_open : K Z :=
  omode ← argint 1;
  path ← argstr 0 PATHLEN;
  match path with
  | None => mret (-1)
  | Some path =>
  begin_op;;
  ip ← open_inode path omode;
  match ip with
  | None => mret (-1)
  | Some ip =>
      x ← inode_get ip;
      if (i_type x =? T_DEVICE) && ((i_major x <? 0) || (i_major x >=? NDEV)) then
        iunlockput ip;; end_op;; mret (-1)
      else
        f ← filealloc;
        fd ← (match f with None => mret (-1) | Some f => fdalloc f end);
        match f with
        | Some f =>
            if fd <? 0 then fileclose f;; iunlockput ip;; end_op;; mret (-1)
            else
              (if i_type x =? T_DEVICE then
                 file_upd f (fun y => y <| f_type := FD_DEVICE |> <| f_major := i_major x |>)
               else file_upd f (fun y => y <| f_type := FD_INODE |> <| f_off := 0 |>));;
              file_upd f (fun y => y <| f_ip := Some ip |>
                <| readable := b2z (Z.land omode O_WRONLY =? 0) |>
                <| writable := b2z (negb (Z.land omode O_WRONLY =? 0) || negb (Z.land omode O_RDWR =? 0)) |>);;
              when (negb (Z.land omode O_TRUNC =? 0) && (i_type x =? T_FILE)) (itrunc ip);;
              iunlock ip;;
              end_op;;
              mret fd
        | None => iunlockput ip;; end_op;; mret (-1)
        end
  end end.

Definition sys_mkdir : K Z :=
  begin_op;;
  path ← argstr 0 PATHLEN;
  ip ← (match path with None => mret None | Some path => create path T_DIR 0 0 end);
  match ip with
  | None => end_op;; mret (-1)
  | Some ip => iunlockput ip;; end_op;; mret 0
  end.

Definition sys_mknod : K Z :=
  begin_op;;
  major ← argint 1;
  minor ← argint 2;
  path ← argstr 0 PATHLEN;
  ip ← (match path with
        | None => mret None
        | Some path => create path T_DEVICE (i16 major) (i16 minor)
        end);
  match ip with
  | None => end_op;; mret (-1)
  | Some ip => iunlockput ip;; end_op;; mret 0
  end.

Definition sys_chdir : K Z :=
  p ← myproc; p ← deref p;
  begin_op;;
  path ← argstr 0 PATHLEN;
  ip ← (match path with None => mret None | Some path => namei path end);
  match ip with
  | None => end_op;; mret (-1)
  | Some ip =>
      ilock ip;;
      x ← inode_get ip;
      if negb (i_type x =? T_DIR) then iunlockput ip;; end_op;; mret (-1)
      else
        iunlock ip;;
        q ← proc_get p;
        c ← deref (cwd q);
        iput c;;
        end_op;;
        proc_upd p (fun q => q <| cwd := Some ip |>);;
        mret 0
  end.

(** The loop that fetches [argv]: the pages allocated so far with the strings
    in them, and whether the list ended with a null pointer. *)
Fixpoint fetch_argv (n : nat) (uargv : Z) (argv : list (Z * list Z)) : K (bool * list (Z * list Z)) :=
  match n with
  | O => mret (false, argv)
  | S n =>
      '(r, uarg) ← fetchaddr (u64 (uargv + 8 * Z.of_nat (length argv)));
      if r <? 0 then mret (false, argv)
      else if uarg =? 0 then mret (true, argv)
      else
        pa ← kalloc;
        if pa =? 0 then mret (false, argv)
        else
          '(r, bs) ← fetchstr uarg PGSIZE;
          modify (fun s => s <| mem ::= fun m => write_bytes m pa bs |>);;
          if r <? 0 then mret (false, argv ++ [(pa, [])])
          else fetch_argv n uargv (argv ++ [(pa, cstr bs)])
  end.

Definition sys_exec : K Z :=
  uargv ← argaddr 1;
  path ← argstr 0 PATHLEN;
  match path with
  | None => mret (-1)
  | Some path =>
      '(ok, argv) ← fetch_argv MAXARG uargv [];
      ret ← (if ok : bool then kexec path argv.*2 else mret (-1));
      forM argv.*1 kfree;;
      mret ret
  end.

Definition sys_pipe : K Z :=
  p ← myproc; p ← deref p;
  fdarray ← argaddr 0;
  r ← pipealloc;
  match r with
  | None => mret (-1)
  | Some (rf, wf) =>
      fd0 ← fdalloc rf;
      fd1 ← (if fd0 <? 0 then mret (-1) else fdalloc wf);
      if (fd0 <? 0) || (fd1 <? 0) then
        when (fd0 >=? 0) (proc_upd p (fun q => q <| ofile ::= <[Z.to_nat fd0 := None]> |>));;
        fileclose rf;;
        fileclose wf;;
        mret (-1)
      else
        q ← proc_get p;
        r ← copyout (pagetable q) fdarray (le_bytes 4 fd0);
        r ← (if r <? 0 then mret r else copyout (pagetable q) (u64 (fdarray + 4)) (le_bytes 4 fd1));
        if r <? 0 then
          proc_upd p (fun q => q <| ofile ::= <[Z.to_nat fd0 := None]> |>);;
          proc_upd p (fun q => q <| ofile ::= <[Z.to_nat fd1 := None]> |>);;
          fileclose rf;;
          fileclose wf;;
          mret (-1)
        else mret 0
  end.
End ops.
