(* ===== verification/Syscall.v ===== *)
(** * System calls

    [kernel/sysproc.c] and the dispatch of [kernel/syscall.c]. *)

From stdpp Require Import base numbers gmap sets strings option list.
From S2P Require Import Prelude Machine Spinlock CString Printf Kalloc Vm Proc Sleeplock Bio Log Fs File Exec.
From S2P Require Import Lifecycle Args Sysfile.

Definition SBRK_EAGER : Z := 1.
Definition SBRK_LAZY : Z := 2.

Section ops.
Context `{Link, Patience, Disk}.

(** [char buf[4]] *)
Definition sys_kps : K Z :=
  a ← argstr 0 4;
  match a with
  | None => mret (-1)
  | Some a => kps (Some a)
  end.

Definition sys_exit : K Z :=
  n ← argint 0;
  kexit n;;
  mret 0.

Definition sys_getpid : K Z := i ← myproc; i ← deref i; p ← proc_get i; mret (pid p).
Definition sys_fork : K Z := kfork.
Definition sys_wait : K Z := p ← argaddr 0; kwait p.

Definition sys_sbrk : K Z :=
  n ← argint 0;
  t ← argint 1;
  i ← myproc; i ← deref i; p ← proc_get i;
  let addr := sz p in
  if (t =? SBRK_EAGER) || (n <? 0) then
    r ← growproc n;
    mret (if r <? 0 then -1 else addr)
  else if u64 (addr + n) <? addr then mret (-1)
  else if u64 (addr + n) >? TRAPFRAME then mret (-1)
  else
    i ← myproc; i ← deref i;
    proc_upd i (fun p => p <| sz ::= fun z => u64 (z + n) |>);;
    mret addr.

Definition sys_pause : K Z :=
  n ← argint 0;
  let n := if n <? 0 then 0 else n in
  acquire LkTicks;;
  ticks0 ← gets ticks;
  iterM (S patience) (fun _ : () =>
    t ← gets ticks;
    if u32 (t - ticks0) <? n then
      i ← myproc; i ← deref i;
      k ← killed i;
      if negb (k =? 0) then release LkTicks;; mret (inr (-1))
      else sleep ChTicks LkTicks;; mret (inl tt)
    else release LkTicks;; mret (inr 0)) tt.

Definition sys_kill : K Z := pid ← argint 0; kkill pid.

Definition sys_uptime : K Z :=
  acquire LkTicks;;
  xticks ← gets ticks;
  release LkTicks;;
  mret xticks.

Definition sys_setquota : K Z :=
  i ← myproc; i ← deref i;
  quota ← argint 0;
  if quota <=? 0 then mret (-1)
  else
    acquire (LkProc i);;
    proc_upd i (fun p => p <| cpu_quota := quota |>);;
    p ← proc_get i;
    when (cpu_used_in_window p <? cpu_quota p) (proc_upd i (fun p => p <| throttled := 0 |>));;
    release (LkProc i);;
    mret 0.

(** The table [syscalls]; [pad] is the stack padding that [sys_fstat] copies out. *)
Definition syscalls (pad : list Z) (num : Z) : option (K Z) :=
  match num with
  | 1 => Some sys_fork
  | 2 => Some sys_exit
  | 3 => Some sys_wait
  | 4 => Some sys_pipe
  | 5 => Some sys_read
  | 6 => Some sys_kill
  | 7 => Some sys_exec
  | 8 => Some (sys_fstat pad)
  | 9 => Some sys_chdir
  | 10 => Some sys_dup
  | 11 => Some sys_getpid
  | 12 => Some sys_sbrk
  | 13 => Some sys_pause
  | 14 => Some sys_uptime
  | 15 => Some sys_open
  | 16 => Some sys_write
  | 17 => Some sys_mknod
  | 18 => Some sys_unlink
  | 19 => Some sys_link
  | 20 => Some sys_mkdir
  | 21 => Some sys_close
  | 22 => Some sys_kps
  | 23 => Some sys_setquota
  | _ => None
  end.

Definition syscall (pad : list Z) : K () :=
  i ← myproc; i ← deref i;
  a7 ← tf_load i TF_a7;
  let num := i32 a7 in
  match syscalls pad num with
  | Some f => r ← f; tf_store i TF_a0 r
  | None =>
      p ← proc_get i;
      printf "%d %s: unknown sys call %d\n" [VInt (pid p); VStr (Some (cstr (name p))); VInt num];;
      tf_store i TF_a0 (-1)
  end.
End ops.
