(* ===== verification/Trap.v ===== *)
(** * Traps and interrupts

    [kernel/trap.c] and [kernel/plic.c].  [irqs] is what the PLIC answers to
    the next claims. *)

From stdpp Require Import base numbers gmap sets strings option list.
From S2P Require Import Prelude Machine Spinlock CString Printf Kalloc Vm Proc Console Sleeplock Bio Log Fs File.
From S2P Require Import Exec Lifecycle Args Sysfile Syscall Virtio.

Definition UART0_IRQ : Z := 10.
Definition VIRTIO0_IRQ : Z := 1.
Definition PLIC_SENABLE (hart : Z) : Z := PLIC + 0x2080 + hart * 0x100.
Definition PLIC_SPRIORITY (hart : Z) : Z := PLIC + 0x201000 + hart * 0x2000.
Definition PLIC_SCLAIM (hart : Z) : Z := PLIC + 0x201004 + hart * 0x2000.

Definition plicinit : K () :=
  mmio_write (PLIC + UART0_IRQ * 4) 1;;
  mmio_write (PLIC + VIRTIO0_IRQ * 4) 1.

Definition plicinithart : K () :=
  hart ← cpuid;
  mmio_write (PLIC_SENABLE (Z.of_nat hart)) (Z.lor (Z.shiftl 1 UART0_IRQ) (Z.shiftl 1 VIRTIO0_IRQ));;
  mmio_write (PLIC_SPRIORITY (Z.of_nat hart)) 0.

(** The claim register reads 0 when nothing is pending. *)
Definition plic_claim : K Z :=
  l ← gets irqs;
  match l with
  | [] => mret 0
  | irq :: l => modify (fun s => s <| irqs := l |>);; mret irq
  end.

Definition plic_complete (irq : Z) : K () :=
  hart ← cpuid;
  mmio_write (PLIC_SCLAIM (Z.of_nat hart)) irq.

Definition csr_upd (f : csrs -> csrs) : K () := modify (fun s => s <| csr ::= f |>).

Definition trapinit : K () := initlock LkTicks.
Definition trapinithart `{Link} : K () := csr_upd (fun c => c <| stvec := kernelvec |>).

Definition MAKE_SATP (pagetable : Z) : Z := Z.lor (Z.shiftl 8 60) (Z.shiftr pagetable 12).

Definition clockintr : K () :=
  id ← cpuid;
  when (id =? 0)%nat
    (acquire LkTicks;;
     modify (fun s => s <| ticks ::= fun t => u32 (t + 1) |>);;
     wakeup ChTicks;;
     release LkTicks);;
  csr_upd (fun c => c <| stimecmp := u64 (time c + 1000000) |>).

Section ops.
Context `{Link, Patience, Disk} (rd : list (Z * Z) -> Z -> Z).

Definition devintr : K Z :=
  c ← gets csr;
  if scause c =? 0x8000000000000009 then
    irq ← plic_claim;
    (if irq =? UART0_IRQ then uartintr
     else if irq =? VIRTIO0_IRQ then virtio_disk_intr rd
     else when (negb (irq =? 0)) (printf "unexpected interrupt irq=%d\n" [VInt irq]));;
    when (negb (irq =? 0)) (plic_complete irq);;
    mret 1
  else if scause c =? 0x8000000000000005 then clockintr;; mret 2
  else mret 0.

Definition prepare_return : K () :=
  i ← myproc; i ← deref i;
  zoom hw intr_off;;
  csr_upd (fun c => c <| stvec := u64 (TRAMPOLINE + (uservec - trampoline)) |>);;
  c ← gets csr;
  tf_store i TF_kernel_satp (satp c);;
  p ← proc_get i;
  tf_store i TF_kernel_sp (kstack p + PGSIZE);;
  tf_store i TF_kernel_trap usertrap_addr;;
  id ← cpuid;
  tf_store i TF_kernel_hartid (Z.of_nat id);;
  csr_upd (fun c => c <| spp := false |> <| spie := true |>);;
  epc ← tf_load i TF_epc;
  csr_upd (fun c => c <| sepc := epc |>).

(** The quota accounting of a timer interrupt. *)
Definition charge_tick (i : nat) : K () :=
  eco ← gets eco_mode;
  when (eco =? ECO_QUOTA)
    (acquire (LkProc i);;
     p ← proc_get i;
     when (bool_decide (state p = RUNNING))
       (proc_upd i (fun p => p <| cpu_used_in_window ::= fun n => i32 (n + 1) |>);;
        p ← proc_get i;
        when ((cpu_used_in_window p >=? cpu_quota p) && (throttled p =? 0))
          (proc_upd i (fun p => p <| throttled := 1 |>);;
           proc_upd i (fun p => p <| quota_violations ::= fun n => i32 (n + 1) |>);;
           p ← proc_get i;
           printf "PID %d throttled at %d ticks\n" [VInt (pid p); VInt (cpu_used_in_window p)]));;
     release (LkProc i)).

Definition usertrap (pad : list Z) : K Z :=
  c ← gets csr;
  if spp c then panic "usertrap: not from user mode"
  else
    csr_upd (fun c => c <| stvec := kernelvec |>);;
    i ← myproc; i ← deref i;
    tf_store i TF_epc (sepc c);;
    which_dev ←
      (if scause c =? 8 then
         k ← killed i;
         when (negb (k =? 0)) (kexit (-1));;
         epc ← tf_load i TF_epc;
         tf_store i TF_epc (epc + 4);;
         zoom hw intr_on;;
         syscall pad;;
         mret 0
       else
         w ← devintr;
         if negb (w =? 0) then mret w
         else
           c ← gets csr;
           p ← proc_get i;
           r ← (if (scause c =? 15) || (scause c =? 13) then vmfault (pagetable p) (stval c) else mret 0);
           if negb (r =? 0) then mret 0
           else
             printf "usertrap(): unexpected scause 0x%lx pid=%d\n" [VInt (scause c); VInt (pid p)];;
             printf "            sepc=0x%lx stval=0x%lx\n" [VInt (sepc c); VInt (stval c)];;
             setkilled i;;
             mret 0);
    k ← killed i;
    when (negb (k =? 0)) (kexit (-1));;
    when (which_dev =? 2) (charge_tick i;; yield);;
    prepare_return;;
    p ← proc_get i;
    mret (MAKE_SATP (pagetable p)).

Definition kerneltrap : K () :=
  c ← gets csr;
  let sepc0 := sepc c in
  let spp0 := spp c in
  let spie0 := spie c in
  if negb (spp c) then panic "kerneltrap: not from supervisor mode"
  else
    on ← intr_get;
    if on : bool then panic "kerneltrap: interrupts enabled"
    else
      which_dev ← devintr;
      if which_dev =? 0 then
        c' ← gets csr;
        printf "scause=0x%lx sepc=0x%lx stval=0x%lx\n" [VInt (scause c); VInt (sepc c'); VInt (stval c')];;
        panic "kerneltrap"
      else
        me ← myproc;
        when ((which_dev =? 2) && bool_decide (me <> None)) yield;;
        csr_upd (fun c => c <| sepc := sepc0 |>);;
        zoom hw intr_off;;
        csr_upd (fun c => c <| spp := spp0 |> <| spie := spie0 |>).
End ops.
