(* ===== verification/Quota.v ===== *)
(** * Enforcement of the CPU quotas

    The accounting of timer interrupts ([usertrap] of [kernel/trap.c]), the
    system call [setquota], and the window and the dispatch of the scheduler
    together: the run of one process as a sequence of these operations. *)

From stdpp Require Import base numbers gmap sets strings option relations list.
From S2P Require Import Prelude Machine Spinlock CString Printf Kalloc Vm Proc ProcSpec Sched.
From S2P Require Import Args Syscall Trap.

(** A charged tick. *)
Definition charge (p : proc) : proc :=
  let p := p <| cpu_used_in_window ::= fun n => i32 (n + 1) |> in
  if (cpu_used_in_window p >=? cpu_quota p) && (throttled p =? 0)
  then p <| throttled := 1 |> <| quota_violations ::= fun n => i32 (n + 1) |> else p.

(** What a timer interrupt does to the running process. *)
Definition ticked (eco : Z) (p : proc) : proc :=
  if (eco =? ECO_QUOTA) && bool_decide (state p = RUNNING) then charge p else p.

Section charge.
Context (h : hart) (X : gset lockid) (HX : no_plock X) (Hpr : LkPr ∉ X).

Lemma charge_tick_ok i p s :
  env h X s -> procs s !! i = Some p -> (i < NPROC)%nat ->
  exists o, charge_tick i s
    = Ret tt (s <| procs := <[i := ticked (eco_mode s) p]> (procs s) |> <| out ::= fun x => x ++ o |>).
Proof.
  intros He Hp Hi. pose proof (HX i) as HXi. unfold charge_tick, ticked. msimpl.
  assert (forall s, s = s <| out ::= fun x => x ++ [] |>) as Hnil
    by (intros []; ksimpl; by rewrite app_nil_r).
  destruct (eco_mode s =? ECO_QUOTA); simpl andb; unfold when at 1.
  2: { exists []. rewrite <- Hnil. rewrite list_insert_id by done. by rewrite procs_id. }
  mapply (env_acquire h X) by plocktac. mapply proc_get_ok by done.
  case_bool_decide as Hrun; unfold when at 1.
  2: { exists []. msimpl. rewrite (env_release_last h X) by plocktac. rewrite <- Hnil.
       rewrite list_insert_id by done. f_equal. destruct He. kext s. }
  set (t := s <| hw := acquired h ({[LkProc i]} ∪ X) |>).
  assert (procs t !! i = Some p) as Hpt by done.
  assert (env h ({[LkProc i]} ∪ X) t) as Het by solve_env.
  assert (s = t <| hw := acquired h X |>) as Hst by (symmetry; apply (env_hw_id h X s He)).
  clearbody t. subst s. change (procs (upd hw _ t)) with (procs t) in *.
  rewrite ?bind_assoc, bind_proc_upd. mapply proc_get_ok by (by apply slot_alter).
  destruct (_ && _) eqn:Hcond; unfold when; rewrite ?bind_assoc.
  - do 2 rewrite ?bind_assoc, bind_proc_upd. rewrite !alter_alter. mapply proc_get_ok by (by apply slot_alter).
    match goal with |- context [(printf ?f ?a ≫= _) ?t] =>
      destruct (printf_total h ({[LkProc i]} ∪ X) f a [VInt 0; VInt 0] t) as [o Ho] end.
    { solve_env. } { set_solver. } { vm_compute. discriminate. } { by repeat constructor. }
    exists o. mstep Ho. rewrite (env_release_last h X) by plocktac. clear Ho.
    rewrite (alter_insert _ i p) by done.
    unfold charge. by rewrite Hcond.
  - exists []. msimpl. rewrite (env_release_last h X) by plocktac. rewrite <- Hnil.
    rewrite !(alter_insert _ i p) by done. unfold charge. by rewrite Hcond.
Qed.

(** ** [setquota] *)

Definition with_quota (q : Z) (p : proc) : proc :=
  let p := p <| cpu_quota := q |> in
  if cpu_used_in_window p <? cpu_quota p then p <| throttled := 0 |> else p.

Lemma tf_load_ok i p off s :
  procs s !! i = Some p -> trapframe p <> 0 ->
  tf_load i off s = Ret (load64 (mem s) (trapframe p + off)) s.
Proof.
  intros Hp Ht. unfold tf_load. mapply proc_get_ok by done.
  by rewrite (proj2 (Z.eqb_neq _ _) Ht).
Qed.

Lemma argint_ok n i p s :
  env h X s -> curproc h = Some i -> procs s !! i = Some p -> trapframe p <> 0 -> (n <= 5)%nat ->
  argint n s = Ret (i32 (load64 (mem s) (trapframe p + (TF_a0 + 8 * Z.of_nat n)))) s.
Proof.
  intros He Hc Hp Ht Hn. unfold argint, argraw. rewrite bind_assoc.
  mapply (env_myproc h X) by done. rewrite Hc. msimpl.
  rewrite (proj2 (Nat.leb_le _ _) Hn). by mapply tf_load_ok by done.
Qed.

(** The first argument of the system call. *)
Definition arg0 (s : kernel) (p : proc) : Z := i32 (load64 (mem s) (trapframe p + TF_a0)).

Lemma sys_setquota_ok i p s :
  env h X s -> curproc h = Some i -> procs s !! i = Some p -> trapframe p <> 0 -> (i < NPROC)%nat ->
  sys_setquota s = if arg0 s p <=? 0 then Ret (-1) s
                   else Ret 0 (s <| procs := <[i := with_quota (arg0 s p) p]> (procs s) |>).
Proof.
  intros He Hc Hp Ht Hi. pose proof (HX i) as HXi. unfold sys_setquota.
  mapply (env_myproc h X) by done. rewrite Hc. msimpl.
  mapply (argint_ok 0 i p) by first [done | lia].
  replace (TF_a0 + 8 * Z.of_nat 0) with TF_a0 by done. fold (arg0 s p). destruct (arg0 s p <=? 0); [done|].
  generalize (arg0 s p). intros q.
  mapply (env_acquire h X) by plocktac.
  set (t := s <| hw := acquired h ({[LkProc i]} ∪ X) |>).
  assert (procs t !! i = Some p) as Hpt by done.
  assert (env h ({[LkProc i]} ∪ X) t) as Het by solve_env.
  assert (s = t <| hw := acquired h X |>) as Hst by (symmetry; apply (env_hw_id h X s He)).
  clearbody t. subst s. change (procs (upd hw _ t)) with (procs t) in *.
  rewrite bind_proc_upd. mapply proc_get_ok by (by apply slot_alter).
  rewrite <- bind_assoc. erewrite bind_Ret.
  2: { apply (locked_tail h X HX _ _ i (p <| cpu_quota := q |>)); [solve_env|by apply slot_alter|done]. }
  unfold mret, M_ret. f_equal. rewrite (alter_insert _ i p) by done.
  unfold with_quota. simpl. by rewrite list_insert_insert_eq.
Qed.
End charge.

(** ** The life of one process under quotas *)

(** The process of slot [i]: the ticks it was charged in the current window, the
    largest quota it had in that window, whether it is between the charge of a
    timer interrupt and the [yield] that follows it, and the kernel. *)
Record qstate := mkQ { q_ticks : nat; q_top : Z; q_leaving : bool; q_kernel : kernel }.

(** What the kernel does, on any hart: the tail of [usertrap] for a timer
    interrupt in two steps, the window check and the dispatch of the scheduler,
    [setquota] of the process itself, and everything else, which leaves the
    quota fields alone and makes nobody [RUNNING]. *)
Inductive quota_step (i : nat) : qstate -> qstate -> Prop :=
| qs_charge h X n m s s' p :
    env h X s -> no_plock X -> LkPr ∉ X -> procs s !! i = Some p -> state p = RUNNING ->
    charge_tick i s = Ret tt s' -> quota_step i (mkQ n m false s) (mkQ (S n) m true s')
| qs_yield h n m b s s' k :
    env h ∅ s -> curproc h = Some i -> yield s = Switch s' k -> quota_step i (mkQ n m b s) (mkQ n m false s')
| qs_window h X n m b s s' p :
    env h X s -> no_plock X -> LkPr ∉ X -> LkTicks ∉ X -> table_ok s -> procs s !! i = Some p ->
    check_and_reset_quota_window s = Ret tt s' ->
    quota_step i (mkQ n m b s) (if window_over s then mkQ 0 (cpu_quota p) b s' else mkQ n m b s')
| qs_refused h c n m b s s' :
    env h ∅ s -> table_ok s -> (c < NPROC)%nat -> run_chosen c s = Ret tt s' -> quota_step i (mkQ n m b s) (mkQ n m b s')
| qs_dispatch h c n m b s s' k :
    env h ∅ s -> table_ok s -> (c < NPROC)%nat -> run_chosen c s = Switch s' k -> quota_step i (mkQ n m b s) (mkQ n m b s')
| qs_setquota h X n m b s s' r p :
    env h X s -> no_plock X -> curproc h = Some i -> procs s !! i = Some p -> trapframe p <> 0 ->
    sys_setquota s = Ret r s' -> quota_step i (mkQ n m b s) (mkQ n (if r =? 0 then Z.max m (arg0 s p) else m) b s')
| qs_other n m b s s' p p' :
    procs s !! i = Some p -> procs s' !! i = Some p' -> state p' <> UNUSED -> (state p' = RUNNING -> state p = RUNNING) ->
    cpu_used_in_window p' = cpu_used_in_window p -> throttled p' = throttled p ->
    cpu_quota p' = cpu_quota p -> eco_mode s' = eco_mode s ->
    quota_step i (mkQ n m b s) (mkQ n m b s').

(** The usage counts the ticks of the window, and a process that runs and has
    not just been charged is not throttled. *)
Record within_quota (n : nat) (m : Z) (b : bool) (p : proc) : Prop := {
  wq_state : state p <> UNUSED;
  wq_used : cpu_used_in_window p = Z.of_nat n;
  wq_quota : 0 < cpu_quota p <= m;
  wq_top : m < 2 ^ 31;
  wq_open : throttled p = 0 -> Z.of_nat n < m;
  wq_shut : throttled p <> 0 -> cpu_quota p <= Z.of_nat n <= m;
  wq_runs : state p = RUNNING -> b = false -> throttled p = 0
}.
Definition quota_inv (i : nat) (y : qstate) : Prop :=
  exists p, procs (q_kernel y) !! i = Some p /\ eco_mode (q_kernel y) = ECO_QUOTA /\ within_quota (q_ticks y) (q_top y) (q_leaving y) p.

Lemma within_charge n m p : state p = RUNNING -> within_quota n m false p -> within_quota (S n) m true (charge p).
Proof.
  intros Hrun [W1 W2 W3 W4 W5 W6 W7]. pose proof (W7 Hrun eq_refl) as Ht. specialize (W5 Ht). unfold charge. cbv zeta.
  assert (i32 (cpu_used_in_window p + 1) = Z.of_nat (S n)) as E by (rewrite W2, i32_small; lia).
  change (cpu_used_in_window (p <| cpu_used_in_window ::= ?f |>)) with (f (cpu_used_in_window p)).
  change (throttled (p <| cpu_used_in_window ::= ?f |>)) with (throttled p).
  change (cpu_quota (p <| cpu_used_in_window ::= ?f |>)) with (cpu_quota p).
  cbv beta. rewrite E, Ht. destruct (Z.geb_spec (Z.of_nat (S n)) (cpu_quota p)); simpl andb; cbv iota; split; simpl; try done; lia.
Qed.
Lemma within_setquota n m b q p : 0 < q < 2 ^ 31 -> within_quota n m b p -> within_quota n (Z.max m q) b (with_quota q p).
Proof.
  intros Hq [W1 W2 W3 W4 W5 W6 W7]. unfold with_quota. cbv zeta.
  change (cpu_used_in_window (p <| cpu_quota := q |>)) with (cpu_used_in_window p). change (cpu_quota (p <| cpu_quota := q |>)) with q.
  destruct (Z.ltb_spec (cpu_used_in_window p) q); split; simpl; try done; try lia; auto.
Qed.
Lemma within_window n m b p : within_quota n m b p -> within_quota 0 (cpu_quota p) b (reset_quota p).
Proof. intros [W1 W2 W3 W4 W5 W6 W7]. unfold reset_quota. rewrite bool_decide_eq_true_2 by done. split; simpl; try done; lia. Qed.

Lemma quota_step_inv i y y' : (i < NPROC)%nat -> quota_step i y y' -> quota_inv i y -> quota_inv i y'.
Proof.
  intros Hi Hstep (p & Hp & Heco & Hw).
  destruct Hstep as [h X n m s s' p0 He HX Hpr Hp0 Hrun Hs|h n m b s s' k He Hc Hs|h X n m b s s' p0 He HX Hpr Hti Htab Hp0 Hs
    |h c n m b s s' He Htab Hc Hs|h c n m b s s' k He Htab Hc Hs|h X n m b s s' r p0 He HX Hc Hp0 Htf Hs
    |n m b s s' p0 p' Hp0 Hp' Hst Hrun Hu Ht Hq Hec]; simpl in *.
  - simplify_eq. destruct (charge_tick_ok h X HX Hpr i p0 s He Hp0 Hi) as [o Ho]. rewrite Ho in Hs. injection Hs as <-.
    exists (charge p0). split; [|split; [done|by apply within_charge] ]. simpl. unfold ticked. rewrite Heco, Hrun. simpl.
    apply list_lookup_insert_eq. by eapply lookup_lt_Some.
  - destruct (yield_ok h i Hi Hc p s He Hp) as (k' & Hy & _). rewrite Hy in Hs. injection Hs as <- _.
    exists (p <| state := RUNNABLE |>). split; [apply list_lookup_insert_eq; by eapply lookup_lt_Some|]. split; [done|].
    destruct Hw. by split.
  - simplify_eq. rewrite (check_window_ok h X HX Hpr s He Htab Hti) in Hs. injection Hs as <-. unfold after_window.
    destruct (window_over s); [|by exists p0]. exists (reset_quota p0). split; [by simpl; rewrite list_lookup_fmap, Hp0|].
    split; [done|by eapply within_window].
  - destruct (lookup_lt_is_Some_2 (procs s) c) as [pc Hpc]; [by rewrite Htab|]. destruct (eligible (eco_mode s) pc) eqn:Hel.
    + destruct (run_chosen_ok h c pc s He Hpc Hc Hel) as (k & Hr & _). rewrite Hr in Hs. done.
    + rewrite (run_chosen_refused h c pc s He Hpc Hc Hel) in Hs. injection Hs as <-. by exists p.
  - destruct (lookup_lt_is_Some_2 (procs s) c) as [pc Hpc]; [by rewrite Htab|]. destruct (eligible (eco_mode s) pc) eqn:Hel;
      [|rewrite (run_chosen_refused h c pc s He Hpc Hc Hel) in Hs; done].
    destruct (run_chosen_ok h c pc s He Hpc Hc Hel) as (k' & Hr & _). rewrite Hr in Hs. injection Hs as <- _.
    destruct (decide (c = i)) as [->|Hne]; [|exists p; simpl; by rewrite list_lookup_insert_ne].
    simplify_eq. exists (p <| state := RUNNING |>). split; [apply list_lookup_insert_eq; by eapply lookup_lt_Some|]. split; [done|].
    unfold eligible in Hel. rewrite Heco in Hel. apply andb_prop in Hel as [_ Hel]. destruct Hw. split; simpl; try done. intros _ _. simpl in Hel. lia.
  - simplify_eq. rewrite (sys_setquota_ok h X HX i p0 s He Hc Hp0 Htf Hi) in Hs. destruct (Z.leb_spec (arg0 s p0) 0) as [|Hpos]; injection Hs as <- <-.
    + by exists p0.
    + exists (with_quota (arg0 s p0) p0). split; [apply list_lookup_insert_eq; by eapply lookup_lt_Some|]. split; [done|].
      apply within_setquota; [|done]. pose proof (i32_range (load64 (mem s) (trapframe p0 + TF_a0))). unfold arg0 in *. lia.
  - simplify_eq. exists p'. split; [done|]. split; [by simpl; rewrite Hec|]. destruct Hw. split; rewrite ?Hu, ?Ht, ?Hq; auto.
Qed.

(** C20: In quota mode the scheduler enforces the quotas.  Whatever the order of timer
    interrupts, window checks, dispatches, [setquota] calls and other activity
    on any hart, the usage of a process counts exactly the ticks it was charged
    in the current window; these never exceed the largest quota it had in the
    window, which is its quota when it does not change it; it is throttled only
    when it has used up its quota; and a throttled process does not run, but
    for the way from the charge to the [yield] that follows. *)
Theorem quota_enforced i s0 p0 y :
  (i < NPROC)%nat -> procs s0 !! i = Some p0 -> state p0 <> UNUSED -> 0 < cpu_quota p0 < 2 ^ 31 ->
  cpu_used_in_window p0 = 0 -> throttled p0 = 0 -> eco_mode s0 = ECO_QUOTA ->
  rtc (quota_step i) (mkQ 0 (cpu_quota p0) false s0) y ->
  exists p, procs (q_kernel y) !! i = Some p /\ cpu_used_in_window p = Z.of_nat (q_ticks y)
    /\ Z.of_nat (q_ticks y) <= q_top y /\ cpu_quota p <= q_top y
    /\ (throttled p <> 0 -> cpu_quota p <= Z.of_nat (q_ticks y))
    /\ (throttled p <> 0 -> state p = RUNNING -> q_leaving y = true).
Proof.
  intros Hi Hp Hst Hq Hu Ht Heco Hr.
  assert (quota_inv i y) as (p & Hpy & _ & [W1 W2 W3 W4 W5 W6 W7]).
  { eapply (rtc_ind_r (quota_inv i) (mkQ 0 (cpu_quota p0) false s0)); [| |exact Hr].
    - exists p0. split; [done|]. split; [done|]. split; simpl; try done; lia.
    - intros a b _ Hab. by apply quota_step_inv. }
  exists p. split; [done|]. split; [done|]. split; [destruct (decide (throttled p = 0)); [specialize (W5 e)|specialize (W6 n)]; lia|].
  split; [lia|]. split; [intros Hn; apply W6, Hn|]. intros Hn Hrun. destruct (q_leaving y); [done|]. by destruct Hn; apply W7.
Qed.

(** C34: [setquota] refuses a quota that is not positive and then changes nothing;
    otherwise it stores the quota and lifts the throttling exactly when the
    ticks already used are below it. *)
Theorem sys_setquota_correct h X i p s :
  env h X s -> no_plock X -> curproc h = Some i -> (i < NPROC)%nat ->
  procs s !! i = Some p -> trapframe p <> 0 ->
  (arg0 s p <= 0 /\ sys_setquota s = Ret (-1) s)
  \/ (0 < arg0 s p /\ exists s' p', sys_setquota s = Ret 0 s' /\ procs s' = <[i := p']> (procs s)
        /\ cpu_quota p' = arg0 s p /\ cpu_used_in_window p' = cpu_used_in_window p
        /\ throttled p' = (if cpu_used_in_window p <? arg0 s p then 0 else throttled p)).
Proof.
  intros He HX Hc Hi Hp Ht. rewrite (sys_setquota_ok h X HX i p s He Hc Hp Ht Hi).
  destruct (Z.leb_spec (arg0 s p) 0); [by left|right]. split; [done|].
  do 2 eexists. split; [done|]. split; [done|]. unfold with_quota. cbv zeta.
  change (cpu_used_in_window (p <| cpu_quota := ?q |>)) with (cpu_used_in_window p).
  change (cpu_quota (p <| cpu_quota := ?q |>)) with q. by destruct (_ <? _).
Qed.

(** A running process with a quota of one tick, already inside the kernel. *)
Definition quota_proc : proc :=
  zero_proc <| state := RUNNING |> <| pid := 7 |> <| cpu_quota := 1 |> <| trapframe := PHYSTOP - PGSIZE |>.
Definition quota_kernel : kernel :=
  table_kernel (Some 0%nat) ∅ (<[0%nat := quota_proc]> (replicate NPROC zero_proc)).

(** Its first tick uses up the quota, and it leaves the CPU. *)
Lemma quota_enforced_witness :
  exists s1 s2 k p, charge_tick 0 quota_kernel = Ret tt s1 /\ yield s1 = Switch s2 k /\ procs s2 !! 0%nat = Some p
    /\ cpu_used_in_window p = 1 /\ cpu_quota p <= 1.
Proof.
  destruct (charge_tick_ok (boot_hart (Some 0%nat)) ∅ no_plock_empty ltac:(set_solver) 0 quota_proc quota_kernel)
    as [o Ho]; [apply table_kernel_env|reflexivity|unfold NPROC; lia|].
  set (p1 := ticked (eco_mode quota_kernel) quota_proc) in Ho.
  set (s1 := quota_kernel <| procs := <[0%nat := p1]> (procs quota_kernel) |> <| out ::= fun x => x ++ o |>).
  change (charge_tick 0 quota_kernel = Ret tt s1) in Ho.
  assert (env (boot_hart (Some 0%nat)) ∅ s1) as He1 by (apply (env_upd _ _ quota_kernel); [apply table_kernel_env|reflexivity]).
  destruct (yield_ok (boot_hart (Some 0%nat)) 0 ltac:(unfold NPROC; lia) eq_refl p1 s1 He1 eq_refl) as (k & Hy & _).
  match type of Hy with _ = Switch ?t _ => set (s2 := t) in Hy end.
  destruct (quota_enforced 0 quota_kernel quota_proc (mkQ 1 1 false s2)) as (p & Hp & Hu & _ & Hq & _).
  - unfold NPROC. lia.
  - reflexivity.
  - discriminate.
  - simpl. lia.
  - reflexivity.
  - reflexivity.
  - reflexivity.
  - eapply rtc_l; [apply (qs_charge 0 (boot_hart (Some 0%nat)) ∅ 0 1 quota_kernel s1 quota_proc); [apply table_kernel_env
      |apply no_plock_empty|apply not_elem_of_empty|reflexivity|reflexivity|exact Ho] |].
    apply rtc_once. apply (qs_yield 0 (boot_hart (Some 0%nat)) 1 1 true s1 s2 k); [exact He1|reflexivity|exact Hy].
  - exists s1, s2, k, p. split; [exact Ho|]. split; [exact Hy|]. split; [exact Hp|]. split; [exact Hu|exact Hq].
Defined.

(** The process asks for a quota of 5 ticks. *)
Definition asking_kernel : kernel := quota_kernel <| mem := store64 (mem quota_kernel) (trapframe quota_proc + TF_a0) 5 |>.

Lemma sys_setquota_correct_witness :
  exists s' p', sys_setquota asking_kernel = Ret 0 s' /\ procs s' !! 0%nat = Some p' /\ cpu_quota p' = 5 /\ throttled p' = 0.
Proof.
  assert (arg0 asking_kernel quota_proc = 5) as E by (vm_compute; reflexivity).
  destruct (sys_setquota_correct (boot_hart (Some 0%nat)) ∅ 0 quota_proc asking_kernel) as [[Hneg _]|[_ (s' & p' & Hs & Hp & Hq & _ & Ht)] ].
  - apply (env_upd _ _ quota_kernel); [apply table_kernel_env|reflexivity].
  - apply no_plock_empty.
  - reflexivity.
  - unfold NPROC. lia.
  - reflexivity.
  - unfold quota_proc. discriminate.
  - rewrite E in Hneg. lia.
  - rewrite E in Hq, Ht. exists s', p'. split; [exact Hs|]. split; [rewrite Hp; reflexivity|]. split; [exact Hq|exact Ht].
Defined.
