(* ===== verification/Boot.v ===== *)
(** * Boot

    [kernel/start.c] in machine mode, [kernel/main.c], [forkret] of
    [kernel/proc.c] and [printfinit], [kvminithart]. *)

From stdpp Require Import base numbers gmap sets strings option list.
From S2P Require Import Prelude Machine Spinlock CString Printf Kalloc Vm Proc Console Sleeplock Bio Virtio Log Fs.
From S2P Require Import File Exec Lifecycle Args Sysfile Syscall Trap.

(** ** Machine mode *)

(** The registers [start] and [timerinit] read and write. *)
Record mregs := mkMregs {
  m_mstatus : Z; m_mepc : Z; m_satp : Z; m_medeleg : Z; m_mideleg : Z; m_sie : Z;
  m_pmpaddr0 : Z; m_pmpcfg0 : Z; m_mie : Z; m_menvcfg : Z; m_mcounteren : Z;
  m_stimecmp : Z; m_time : Z; m_mhartid : Z; m_tp : Z }.

Definition MSTATUS_MPP_MASK : Z := Z.shiftl 3 11.
Definition MSTATUS_MPP_S : Z := Z.shiftl 1 11.
Definition SIE_SEIE : Z := Z.shiftl 1 9.
Definition SIE_STIE : Z := Z.shiftl 1 5.
Definition MIE_STIE : Z := Z.shiftl 1 5.

Definition timerinit (r : mregs) : mregs :=
  mkMregs (m_mstatus r) (m_mepc r) (m_satp r) (m_medeleg r) (m_mideleg r) (m_sie r)
    (m_pmpaddr0 r) (m_pmpcfg0 r) (Z.lor (m_mie r) MIE_STIE)
    (Z.lor (m_menvcfg r) (Z.shiftl 1 63)) (Z.lor (m_mcounteren r) 2)
    (u64 (m_time r + 1000000)) (m_time r) (m_mhartid r) (m_tp r).

(** The state in which [mret] jumps to [main]. *)
Definition start (main_addr : Z) (r : mregs) : mregs :=
  let r := mkMregs
    (Z.lor (Z.land (m_mstatus r) (Z.lnot MSTATUS_MPP_MASK)) MSTATUS_MPP_S)
    main_addr 0 0xffff 0xffff (Z.lor (Z.lor (m_sie r) SIE_SEIE) SIE_STIE)
    0x3fffffffffffff 0xf (m_mie r) (m_menvcfg r) (m_mcounteren r)
    (m_stimecmp r) (m_time r) (m_mhartid r) (m_tp r) in
  let r := timerinit r in
  mkMregs (m_mstatus r) (m_mepc r) (m_satp r) (m_medeleg r) (m_mideleg r) (m_sie r)
    (m_pmpaddr0 r) (m_pmpcfg0 r) (m_mie r) (m_menvcfg r) (m_mcounteren r)
    (m_stimecmp r) (m_time r) (m_mhartid r) (m_mhartid r).

(** ** Supervisor mode *)

Definition printfinit : K () := initlock LkPr.
Definition kvminithart : K () :=
  pt ← gets kpagetable; csr_upd (fun c => c <| satp := MAKE_SATP pt |>).

Section ops.
Context `{Link, Patience, Disk} (rd : list (Z * Z) -> Z -> Z).

(** The jump to [userret] in the trampoline: its address and the [satp] argument. *)
Definition forkret : K (Z * Z) :=
  i ← myproc; i ← deref i;
  release (LkProc i);;
  f ← gets first;
  when (negb (f =? 0))
    (fsinit ROOTDEV;;
     modify (fun s => s <| first := 0 |>);;
     r ← kexec (str "/init") [str "/init"];
     tf_store i TF_a0 r;;
     a0 ← tf_load i TF_a0;
     when (a0 =? u64 (-1)) (panic "exec"));;
  prepare_return;;
  p ← proc_get i;
  mret (u64 (TRAMPOLINE + (userret - trampoline)), MAKE_SATP (pagetable p)).

(** [main] up to the [turns]th turn of the scheduler. *)
Definition main (turns : nat) : K () :=
  id ← cpuid;
  (if (id =? 0)%nat then
     consoleinit;;
     printfinit;;
     printf "\n" [];;
     printf "xv6 kernel is booting\n" [];;
     printf "\n" [];;
     kinit;;
     kvminit;;
     kvminithart;;
     procinit;;
     trapinit;;
     trapinithart;;
     plicinit;;
     plicinithart;;
     binit;;
     iinit;;
     fileinit;;
     virtio_disk_init rd;;
     userinit;;
     modify (fun s => s <| started := 1 |>)
   else
     st ← gets started;
     if st =? 0 then hangs HSpin
     else
       id ← cpuid;
       printf "hart %d starting\n" [VInt (Z.of_nat id)];;
       kvminithart;;
       trapinithart;;
       plicinithart);;
  scheduler turns.
End ops.
