(* ===== verification/User.v ===== *)
(** * User programs

    A user program is a tree of system calls: it returns, exits, or makes one
    of the calls of [user/user.h] and continues with the result.  Nothing is
    said here about what the kernel answers; [fork] returns its pid, and the
    tree of the child is the branch of the result 0.  A C string is the list
    of its bytes before the nul.

    The second part runs a program that only reads one stream and writes
    others: [read] hands out the input in pieces of any size, which is what a
    file, a pipe or the console may do. *)

From stdpp Require Import base numbers gmap sets strings option list.
From Stdlib Require Import FunctionalExtensionality.
From S2P Require Import Prelude Machine CString Printf.

(** What [fstat] reports. *)
Record ustat := mkUstat { st_dev : Z; st_ino : Z; st_type : Z; st_nlink : Z; st_size : Z }.

(** The calls of [user.h]; [exit] is a constructor of the tree.  What a call leaves in
    memory, such as the status of [wait], is part of its result.  The last ones take
    addresses instead of the bytes at them, and [CLoad] and [CStore] are accesses of
    the program itself to such an address; they may fault, which ends the process. *)
Inductive call : Type -> Type :=
| CFork : call Z
| CWait : call (Z * Z)
| CPipe : call (Z * (Z * Z))
| CWrite (fd : Z) (l : list Z) : call Z
| CRead (fd n : Z) : call (Z * list Z)
| CClose (fd : Z) : call Z
| CKill (pid : Z) : call Z
| CExec (path : list Z) (argv : list (list Z)) : call Z
| COpen (path : list Z) (mode : Z) : call Z
| CMknod (path : list Z) (major minor : Z) : call Z
| CUnlink (path : list Z) : call Z
| CFstat (fd : Z) : call (Z * ustat)
| CLink (old new : list Z) : call Z
| CMkdir (path : list Z) : call Z
| CChdir (path : list Z) : call Z
| CDup (fd : Z) : call Z
| CGetpid : call Z
| CSbrk (n how : Z) : call Z
| CPause (n : Z) : call Z
| CUptime : call Z
| CKps (arg : list Z) : call Z
| CSetquota (n : Z) : call Z
(* a pointer the program made up itself *)
| CWriteAt (fd addr n : Z) : call Z
| CReadAt (fd addr n : Z) : call Z
| CPipeAt (addr : Z) : call Z
| COpenAt (addr mode : Z) : call Z
| CUnlinkAt (addr : Z) : call Z
| CLinkAt (old new : list Z + Z) : call Z
| CExecAt (path : list Z + Z) (argv : list (list Z + Z)) : call Z
| CLoad (width addr : Z) : call Z
| CStore (width addr v : Z) : call ().

(** [UStuck] is undefined behaviour, or a loop cut off by the bound the model
    gave it. *)
Inductive uprog (A : Type) :=
| URet (a : A)
| UExit (status : Z)
| UCall {R : Type} (c : call R) (k : R -> uprog A)
| UStuck.
Arguments URet {A} a.
Arguments UExit {A} status.
Arguments UCall {A R} c k.
Arguments UStuck {A}.

#[export] Instance uprog_ret : MRet uprog := @URet.
#[export] Instance uprog_bind : MBind uprog := fun A B (f : A -> uprog B) =>
  fix go (m : uprog A) : uprog B :=
    match m with
    | URet a => f a
    | UExit n => UExit n
    | UCall c k => UCall c (fun r => go (k r))
    | UStuck => UStuck
    end.

Definition ucall {R} (c : call R) : uprog R := UCall c URet.
Definition uexit {A} (n : Z) : uprog A := UExit n.
Definition uwhen (b : bool) (m : uprog ()) : uprog () := if b then m else mret tt.

Fixpoint uforM {A} (l : list A) (f : A -> uprog ()) : uprog () :=
  match l with
  | [] => mret tt
  | a :: l => f a;; uforM l f
  end.

(** [wait(0)], and calls whose result the program ignores. *)
Definition uwait : uprog Z := r ← ucall CWait; mret (fst r).
Definition uwrite (fd : Z) (l : list Z) : uprog () := ucall (CWrite fd l);; mret tt.
Definition uclose (fd : Z) : uprog () := ucall (CClose fd);; mret tt.

Lemma ubind_assoc {A B C} (m : uprog A) (f : A -> uprog B) (g : B -> uprog C) :
  (m ≫= f) ≫= g = m ≫= (fun a => f a ≫= g).
Proof.
  induction m as [a|n|R c k IH|]; [done..| |done]. change (UCall c (fun r => (k r ≫= f) ≫= g) = UCall c (fun r => k r ≫= (fun a => f a ≫= g))).
  f_equal. extensionality r. apply IH.
Qed.

(** ** Programs that read a stream *)

(** The input not read yet, how much the next calls of [read] hand out, and
    what was written to each descriptor. *)
Record stream := mkStream {
  s_in : list Z;
  s_sizes : list nat;
  s_out : gmap Z (list Z)
}.

(** A [read] of a positive number of bytes returns at least one unless the input
    is at its end. *)
Definition s_read (n : Z) (w : stream) : list Z * stream :=
  let k := Nat.max 1 (hd 1%nat (s_sizes w)) in
  let m := Nat.min k (Z.to_nat n) in
  (take m (s_in w), mkStream (drop m (s_in w)) (tl (s_sizes w)) (s_out w)).
Definition s_write (fd : Z) (l : list Z) (w : stream) : stream :=
  mkStream (s_in w) (s_sizes w) (<[fd := default [] (s_out w !! fd) ++ l]> (s_out w)).

(** How a program ends. *)
Inductive uend (A : Type) := Ended (a : A) | Exited (status : Z) | Stuck.
Arguments Ended {A} a.
Arguments Exited {A} status.
Arguments Stuck {A}.

(** The answers to [read] from descriptor [fd] and to [write]; other calls are not answered. *)
Definition s_call (fd : Z) {R} (c : call R) (w : stream) : option (R * stream) :=
  match c in call R return option (R * stream) with
  | CRead fd' n =>
      if fd' =? fd then let '(l, w) := s_read n w in Some ((Z.of_nat (length l), l), w) else None
  | CWrite fd' l => Some (Z.of_nat (length l), s_write fd' l w)
  | _ => None
  end.

Fixpoint s_run {A} (fd : Z) (m : uprog A) (w : stream) : uend A * stream :=
  match m with
  | URet a => (Ended a, w)
  | UExit n => (Exited n, w)
  | UCall c k =>
      match s_call fd c w with
      | Some (r, w) => s_run fd (k r) w
      | None => (Stuck, w)
      end
  | UStuck => (Stuck, w)
  end.

Lemma s_run_bind {A B} fd (m : uprog A) (f : A -> uprog B) w :
  s_run fd (m ≫= f) w =
    match s_run fd m w with
    | (Ended a, w) => s_run fd (f a) w
    | (Exited n, w) => (Exited n, w)
    | (Stuck, w) => (Stuck, w)
    end.
Proof.
  revert w. induction m as [a|n|R c k IH|]; intros w; [done..| |done]. simpl.
  destruct (s_call fd c w) as [[r w']|]; [apply IH|done].
Qed.

(** A [read] splits the input. *)
Lemma s_read_spec fd n w : 0 < n ->
  exists l w', s_run fd (ucall (CRead fd n)) w = (Ended (Z.of_nat (length l), l), w')
    /\ s_in w = l ++ s_in w' /\ s_out w' = s_out w /\ (l = [] -> s_in w' = []).
Proof.
  intros Hn. unfold ucall. cbn [s_run s_call]. rewrite Z.eqb_refl. unfold s_read. cbn [fst snd].
  set (m := Nat.min _ _). assert (0 < m)%nat as Hm by lia. clearbody m. exists (take m (s_in w)).
  eexists. split; [reflexivity|]. simpl. split; [by rewrite take_drop|]. split; [done|].
  destruct m; [lia|]. by destruct (s_in w).
Qed.
