(* ===== verification/Ulib.v ===== *)
(** * The user library

    [user/ulib.c] and [user/printf.c].  The functions on memory work on the
    byte memory of [CString], the others on system call trees.  A loop over a
    string takes a bound on the characters it looks at; [None] is a string
    that has no nul within the bound. *)

From stdpp Require Import base numbers gmap sets strings option list.
From Stdlib Require Import Ascii.
From S2P Require Import Prelude Machine CString Printf Sysfile Syscall User.

(** ** ulib.c *)

Definition SBRK_ERROR : Z := -1.

Definition ustart (main : uprog Z) : uprog () := r ← main; uexit r.

Fixpoint ustrcpy (fuel : nat) (m : memory) (s t : Z) : option memory :=
  match fuel with
  | O => None
  | S fuel =>
      let m := store8 m s (m t) in
      if m s =? 0 then Some m else ustrcpy fuel m (s + 1) (t + 1)
  end.

Fixpoint ustrcmp (fuel : nat) (p q : cptr) : option Z :=
  match fuel with
  | O => None
  | S fuel =>
      if negb (p 0 =? 0) && (p 0 =? q 0) then ustrcmp fuel (adv p 1) (adv q 1)
      else Some (p 0 - q 0)
  end.

Fixpoint ustrlen (fuel : nat) (s : cptr) (n : Z) : option Z :=
  match fuel with
  | O => None
  | S fuel => if s n =? 0 then Some n else ustrlen fuel s (n + 1)
  end.

Fixpoint umemset_loop (n : nat) (i : Z) (m : memory) (cdst c : Z) : memory :=
  match n with
  | O => m
  | S n => umemset_loop n (i + 1) (store8 m (cdst + i) c) cdst c
  end.
Definition umemset (m : memory) (dst c n : Z) : memory := umemset_loop (Z.to_nat n) 0 m dst c.

(** On a C string: the rest of it from the first [c] on. *)
Fixpoint ustrchr (s : list Z) (c : Z) : option (list Z) :=
  match s with
  | [] => None
  | x :: s' => if x =? 0 then None else if x =? c then Some s else ustrchr s' c
  end.

(** [gets] is bounded by [max]; the result is the string without its nul. *)
Fixpoint ugets_loop (n : nat) (buf : list Z) : uprog (list Z) :=
  match n with
  | O => mret buf
  | S n =>
      '(cc, c) ← ucall (CRead 0 1);
      if cc <? 1 then mret buf
      else
        let c := hd 0 c in
        if (c =? 10) || (c =? 13) then mret (buf ++ [c]) else ugets_loop n (buf ++ [c])
  end.
Definition ugets (max : Z) : uprog (list Z) := ugets_loop (Z.to_nat (max - 1)) [].

(** The result of [fstat] is left in [st] only when the file was opened. *)
Definition ustat_path (n : list Z) : uprog (Z * option ustat) :=
  fd ← ucall (COpen n O_RDONLY);
  if fd <? 0 then mret (-1, None)
  else
    '(r, st) ← ucall (CFstat fd);
    uclose fd;;
    mret (r, Some st).

Fixpoint uatoi_loop (s : list Z) (n : Z) : Z :=
  match s with
  | c :: s => if (ch "0" <=? c) && (c <=? ch "9") then uatoi_loop s (i32 (n * 10 + c - ch "0")) else n
  | [] => n
  end.
Definition uatoi (s : list Z) : Z := uatoi_loop s 0.

Fixpoint umemmove_up (n : nat) (m : memory) (d s : Z) : memory :=
  match n with
  | O => m
  | S n => umemmove_up n (store8 m d (m s)) (d + 1) (s + 1)
  end.
Fixpoint umemmove_down (n : nat) (m : memory) (d s : Z) : memory :=
  match n with
  | O => m
  | S n => umemmove_down n (store8 m (d - 1) (m (s - 1))) (d - 1) (s - 1)
  end.
Definition umemmove (m : memory) (vdst vsrc n : Z) : memory :=
  if vsrc >? vdst then umemmove_up (Z.to_nat n) m vdst vsrc
  else umemmove_down (Z.to_nat n) m (vdst + n) (vsrc + n).
Definition umemcpy (m : memory) (dst src n : Z) : memory := umemmove m dst src n.

Fixpoint umemcmp_loop (n : nat) (p1 p2 : cptr) : Z :=
  match n with
  | O => 0
  | S n => if negb (p1 0 =? p2 0) then p1 0 - p2 0 else umemcmp_loop n (adv p1 1) (adv p2 1)
  end.
Definition umemcmp (s1 s2 : cptr) (n : Z) : Z := umemcmp_loop (Z.to_nat n) s1 s2.

Definition usbrk (n : Z) : uprog Z := ucall (CSbrk n SBRK_EAGER).
Definition usbrklazy (n : Z) : uprog Z := ucall (CSbrk n SBRK_LAZY).

(** ** printf.c *)

Definition uputc (fd c : Z) : uprog () := uwrite fd [u8 c].

Definition udigits : list Z := Eval cbv in str "0123456789ABCDEF".

(** [buf], least significant digit first; it has 20 bytes. *)
Fixpoint udigit_loop (fuel : nat) (x base : Z) : option (list Z) :=
  match fuel with
  | O => None
  | S fuel =>
      let d := nth (Z.to_nat (x mod base)) udigits 0 in
      let x := x / base in
      if negb (x =? 0) then cons d <$> udigit_loop fuel x base else Some [d]
  end.
Definition uprintint (xx base : Z) (sgn : bool) : option (list Z) :=
  let neg := sgn && (xx <? 0) in
  let x := if neg then u64 (- xx) else u64 xx in
  buf ← udigit_loop BUFLEN x base;
  let buf := if neg then buf ++ [ch "-"] else buf in
  guard (length buf <= BUFLEN)%nat;;
  Some (rev buf).

Fixpoint uprintptr_loop (n : nat) (x : Z) : list Z :=
  match n with
  | O => []
  | S n => nth (Z.to_nat (Z.shiftr x 60)) udigits 0 :: uprintptr_loop n (u64 (Z.shiftl x 4))
  end.
Definition uprintptr (x : Z) : list Z := ch "0" :: ch "x" :: uprintptr_loop 16 (u64 x).

(** What one conversion prints. *)
Definition uprint_arg (cv : conv) (a : varg) : option (list Z) :=
  match cv, a with
  | CvInt, VInt z => uprintint (i32 z) 10 true
  | CvLong, VInt z => uprintint (i64 z) 10 true
  | CvUint, VInt z => uprintint (u32 z) 10 false
  | CvUlong, VInt z => uprintint (i64 z) 10 false
  | CvHex, VInt z => uprintint (u32 z) 16 false
  | CvHexlong, VInt z => uprintint (i64 z) 16 false
  | CvPtr, VInt z => Some (uprintptr z)
  | CvChar, VInt z => Some [u8 z]
  | CvStr, VStr (Some s) => Some s
  | CvStr, VStr None => Some (str "(null)")
  | _, _ => None
  end.

(** The characters [vprintf] puts out.  [directive] of [Printf] has the same
    cases as the user's [vprintf]; a [%] at the end of [fmt] prints nothing. *)
Fixpoint uformat (fuel : nat) (fmt : list Z) (ap : list varg) : option (list Z) :=
  match fuel, fmt with
  | O, _ | _, [] => Some []
  | S fuel, c :: fmt =>
      if negb (c =? ch "%") then cons c <$> uformat fuel fmt ap
      else
        match fmt with
        | [] => Some []
        | c0 :: rest =>
            let c1 := nth 0 rest 0 in let c2 := nth 1 rest 0 in
            match directive c0 c1 c2 with
            | Some (n, cv) =>
                match ap with
                | a :: ap => bs ← uprint_arg cv a; app bs <$> uformat fuel (drop n fmt) ap
                | [] => None
                end
            | None =>
                if c0 =? ch "%" then cons (ch "%") <$> uformat fuel rest ap
                else app [ch "%"; c0] <$> uformat fuel rest ap
            end
        end
  end.

Definition uvprintf (fd : Z) (fmt : list Z) (ap : list varg) : uprog () :=
  match uformat (length fmt) fmt ap with
  | Some cs => uforM cs (uputc fd)
  | None => UStuck
  end.
Definition ufprintf (fd : Z) (fmt : string) (ap : list varg) : uprog () := uvprintf fd (str fmt) ap.
Definition uprintf (fmt : string) (ap : list varg) : uprog () := uvprintf 1 (str fmt) ap.
