(* ===== verification/Grep.v ===== *)
(** * grep

    [user/grep.c]: the matcher, the loop over the lines of a buffer and the
    loop that fills it.  The matcher is compared with a declarative semantics
    of the patterns, and the whole program with its effect on a stream that is
    read in pieces of any size. *)

From stdpp Require Import base numbers gmap sets strings option list.
From Stdlib Require Import Ascii.
From S2P Require Import Prelude Machine CString Printf Sysfile User Ulib.

(** ** The matcher *)

(** Both recursions follow the pattern; the loop of [matchstar] follows the text. *)
Fixpoint matchhere (re text : list Z) {struct re} : bool :=
  match re with
  | [] => true
  | c :: re1 =>
      match re1 with
      | 42 :: re2 =>
          (fix matchstar (text : list Z) : bool :=
             matchhere re2 text ||
             match text with
             | [] => false
             | t :: text => ((t =? c) || (c =? ch ".")) && matchstar text
             end) text
      | _ =>
          if (c =? ch "$") && match re1 with [] => true | _ => false end
          then match text with [] => true | _ => false end
          else match text with
               | [] => false
               | t :: text => ((c =? ch ".") || (c =? t)) && matchhere re1 text
               end
      end
  end.

Fixpoint matchstar (c : Z) (re text : list Z) : bool :=
  matchhere re text ||
  match text with
  | [] => false
  | t :: text => ((t =? c) || (c =? ch ".")) && matchstar c re text
  end.

Fixpoint match_loop (re text : list Z) : bool :=
  matchhere re text || match text with [] => false | _ :: text => match_loop re text end.
Definition grep_match (re text : list Z) : bool :=
  match re with
  | c :: re1 => if c =? ch "^" then matchhere re1 text else match_loop re text
  | [] => match_loop re text
  end.

(** ** The lines of a buffer *)

(** The bytes [buf, buf+m) that follow [p]; [strchr] stops at a nul. *)
Fixpoint grep_lines (fuel : nat) (pattern p : list Z) : uprog (list Z) :=
  match fuel with
  | O => UStuck
  | S fuel =>
      match ustrchr p 10 with
      | Some q =>
          let line := take (length p - length q) p in
          uwhen (grep_match pattern line) (uwrite 1 (line ++ [10]));;
          grep_lines fuel pattern (tl q)
      | None => mret p
      end
  end.

Definition GREPBUF : Z := 1024.

Fixpoint grep_loop (fuel : nat) (pattern : list Z) (fd : Z) (buf : list Z) : uprog () :=
  match fuel with
  | O => UStuck
  | S fuel =>
      '(n, l) ← ucall (CRead fd (GREPBUF - Z.of_nat (length buf) - 1));
      if n >? 0 then
        p ← grep_lines (S (length (buf ++ l))) pattern (buf ++ l);
        grep_loop fuel pattern fd p
      else mret tt
  end.
Definition grep (fuel : nat) (pattern : list Z) (fd : Z) : uprog () := grep_loop fuel pattern fd [].

Fixpoint grep_files (fuel : nat) (pattern : list Z) (files : list (list Z)) : uprog () :=
  match files with
  | [] => uexit 0
  | f :: files =>
      fd ← ucall (COpen f O_RDONLY);
      if fd <? 0 then uprintf "grep: cannot open %s\n" [VStr (Some f)];; uexit 1
      else
        grep fuel pattern fd;;
        uclose fd;;
        grep_files fuel pattern files
  end.
Definition grep_main (fuel : nat) (argv : list (list Z)) : uprog () :=
  match argv with
  | [] | [_] => ufprintf 2 "usage: grep pattern [file ...]\n" [];; uexit 1
  | [_; pattern] => grep fuel pattern 0;; uexit 0
  | _ :: pattern :: files => grep_files fuel pattern files
  end.

(** ** What patterns mean *)

Inductive atom := Lit (c : Z) | Any.
Inductive item := One (a : atom) | Star (a : atom) | Eot.

Definition atom_of (c : Z) : atom := if c =? ch "." then Any else Lit c.
Definition fits_atom (a : atom) (c : Z) : Prop := match a with Lit c' => c = c' | Any => True end.

(** A pattern as a list of items: [x*], a final [$], and single characters. *)
Fixpoint compile (re : list Z) : list item :=
  match re with
  | [] => []
  | c :: re1 =>
      match re1 with
      | 42 :: re2 => Star (atom_of c) :: compile re2
      | [] => if c =? ch "$" then [Eot] else [One (atom_of c)]
      | _ => One (atom_of c) :: compile re1
      end
  end.

(** Some prefix of the text is matched by the items, and all of it when the last is [Eot]. *)
Inductive matches : list item -> list Z -> Prop :=
| m_nil t : matches [] t
| m_one a c l t : fits_atom a c -> matches l t -> matches (One a :: l) (c :: t)
| m_star a u l t : Forall (fits_atom a) u -> matches l t -> matches (Star a :: l) (u ++ t)
| m_eot : matches [Eot] [].

Lemma matchhere_star c re text : matchhere (c :: 42 :: re) text = matchstar c re text.
Proof. by induction text as [|t text IH]; simpl in *; [|rewrite IH]. Qed.

Lemma atom_fits c t : (t =? c) || (c =? ch ".") = true <-> fits_atom (atom_of c) t.
Proof.
  unfold atom_of. destruct (Z.eqb_spec c (ch ".")); simpl; [by rewrite orb_true_r|].
  by rewrite orb_false_r, Z.eqb_eq.
Qed.

Lemma matchstar_spec c re l text :
  (forall t, matchhere re t = true <-> matches l t) ->
  matchstar c re text = true <-> exists u t, text = u ++ t /\ Forall (fits_atom (atom_of c)) u /\ matches l t.
Proof.
  intros Hre. induction text as [|x text IH]; simpl; rewrite orb_true_iff, Hre.
  - split; [intros [?|?]; [by exists [], []|done]|]. intros (u & t & E & _ & Hm). destruct u, t; try done. by left.
  - rewrite andb_true_iff, atom_fits, IH. split.
    + intros [Hm|[Hx (u & t & -> & Hu & Hm)]]; [by exists [], (x :: text)|].
      exists (x :: u), t. split; [done|]. split; [by constructor|done].
    + intros ([|y u] & t & E & Hu & Hm); simpl in E; [by subst; left|]. injection E as -> ->.
      apply Forall_cons in Hu as [? ?]. right. split; [done|]. by exists u, t.
Qed.

(** Cases of a pattern, as the matcher distinguishes them. *)
Lemma pattern_ind (P : list Z -> Prop) :
  P [] -> (forall c re, P re -> P (c :: 42 :: re)) -> (forall c, P [c]) ->
  (forall c d re, d <> 42 -> P (d :: re) -> P (c :: d :: re)) -> forall re, P re.
Proof.
  intros H0 Hs H1 Hc re. remember (length re) as n eqn:En. revert re En. induction n as [n IH] using lt_wf_ind. intros re ->.
  destruct re as [|c [|d re]]; [done..|]. destruct (decide (d = 42)) as [->|].
  - apply Hs, (IH (length re)); simpl; [lia|done].
  - apply Hc; [done|]. apply (IH (S (length re))); simpl; [lia|done].
Qed.

Lemma matchhere_one c d re text : d <> 42 ->
  matchhere (c :: d :: re) text = match text with [] => false | t :: text => ((c =? ch ".") || (c =? t)) && matchhere (d :: re) text end.
Proof.
  intros Hd. simpl. rewrite andb_false_r.
  do 7 (destruct d as [|d|d]; try done; try (destruct d as [d|d|]; try done)).
Qed.

Lemma compile_one c d re : d <> 42 -> compile (c :: d :: re) = One (atom_of c) :: compile (d :: re).
Proof.
  intros Hd. simpl. do 7 (destruct d as [|d|d]; try done; try (destruct d as [d|d|]; try done)).
Qed.

Lemma one_spec c re l text :
  (forall t, matchhere re t = true <-> matches l t) ->
  match text with [] => false | t :: text => ((c =? ch ".") || (c =? t)) && matchhere re text end = true
  <-> matches (One (atom_of c) :: l) text.
Proof.
  intros Hre. split.
  - destruct text as [|t text]; [done|]. rewrite andb_true_iff, Hre. intros [Hc Hm]. constructor; [|done].
    apply atom_fits. by rewrite orb_comm, (Z.eqb_sym t).
  - inversion 1 as [|a x l' t Ha Hm| |]; subst. rewrite andb_true_iff, Hre. split; [|done].
    apply atom_fits in Ha. by rewrite orb_comm, (Z.eqb_sym c x).
Qed.

Lemma matchhere_spec re : forall text, matchhere re text = true <-> matches (compile re) text.
Proof.
  induction re as [|c re IH|c|c d re Hd IH] using pattern_ind; intros text.
  - split; [constructor|done].
  - rewrite matchhere_star, (matchstar_spec c re _ text IH). change (compile (c :: 42 :: re)) with (Star (atom_of c) :: compile re). split.
    + intros (u & t & -> & Hu & Hm). by constructor.
    + inversion 1; subst. by do 2 eexists.
  - simpl. destruct (c =? ch "$"); simpl.
    + destruct text; split; try done; [intros _; constructor|by inversion 1].
    + rewrite <- (one_spec c [] [] text) by (intros t; split; [constructor|done]). simpl. done.
  - rewrite matchhere_one, compile_one by done. by apply one_spec.
Qed.

Lemma match_loop_spec re text :
  match_loop re text = true <-> exists pre post, text = pre ++ post /\ matches (compile re) post.
Proof.
  induction text as [|t text IH]; simpl; rewrite orb_true_iff, matchhere_spec.
  - split; [intros [?|?]; [by exists [], []|done]|]. intros (pre & post & E & Hm). destruct pre, post; try done. by left.
  - rewrite IH. split.
    + intros [Hm|(pre & post & -> & Hm)]; [by exists [], (t :: text)|by exists (t :: pre), post].
    + intros ([|x pre] & post & E & Hm); simpl in E; [by subst; left|]. injection E as -> ->. right. by exists pre, post.
Qed.

(** C24: [match] finds the pattern exactly when some part of the text matches it: any part, or, after
    a caret, one at the beginning. *)
Theorem grep_match_correct re text :
  grep_match re text = true <->
    match re with
    | 94 :: re => matches (compile re) text
    | _ => exists pre post, text = pre ++ post /\ matches (compile re) post
    end.
Proof.
  destruct re as [|c re]; [apply match_loop_spec|]. unfold grep_match. destruct (Z.eqb_spec c (ch "^")) as [->|Hc].
  - apply matchhere_spec.
  - rewrite match_loop_spec. unfold ch in Hc. simpl in Hc.
    do 7 (destruct c as [|c|c]; try done; try (destruct c as [c|c|]; try done)).
Qed.

(** ** What grep prints *)

(** The output for a line, and the scan of some data after the unfinished line [cur]. *)
Definition line_out (pattern line : list Z) : list Z := if grep_match pattern line then line ++ [10] else [].
Fixpoint scan (pattern cur data : list Z) : list Z * list Z :=
  match data with
  | [] => ([], cur)
  | c :: data =>
      if c =? 10 then let '(o, r) := scan pattern [] data in (line_out pattern cur ++ o, r)
      else scan pattern (cur ++ [c]) data
  end.

(** Every line, finished or not, leaves room in the buffer for the next byte and the nul. *)
Fixpoint lines_fit (cur data : list Z) : Prop :=
  match data with
  | [] => Z.of_nat (length cur) + 1 < GREPBUF
  | c :: data => Z.of_nat (length cur) + 1 < GREPBUF /\ lines_fit (if c =? 10 then [] else cur ++ [c]) data
  end.

Lemma scan_app pattern l data : forall cur,
  scan pattern cur (l ++ data) =
    let '(o, r) := scan pattern cur l in let '(o', r') := scan pattern r data in (o ++ o', r').
Proof.
  induction l as [|c l IH]; intros cur; simpl; [by destruct (scan pattern cur data)|].
  destruct (c =? 10); [|apply IH]. rewrite IH. destruct (scan pattern [] l) as [o r]. destruct (scan pattern r data) as [o' r'].
  by rewrite app_assoc.
Qed.
Lemma scan_line pattern line data : forall cur, Forall (fun c => c <> 10) line ->
  scan pattern cur (line ++ data) = scan pattern (cur ++ line) data.
Proof.
  induction line as [|c line IH]; intros cur Hl; simpl; [by rewrite app_nil_r|]. apply Forall_cons in Hl as [Hc Hl].
  rewrite (proj2 (Z.eqb_neq c 10)) by done. rewrite IH by done. by rewrite <- app_assoc.
Qed.
Lemma lines_fit_len cur data : lines_fit cur data -> Z.of_nat (length cur) + 1 < GREPBUF.
Proof. destruct data; simpl; tauto. Qed.
Lemma lines_fit_app pattern l data : forall cur, lines_fit cur (l ++ data) -> lines_fit (snd (scan pattern cur l)) data.
Proof.
  induction l as [|c l IH]; intros cur; simpl; [done|]. intros [_ Hf]. destruct (c =? 10); [|by apply IH].
  specialize (IH [] Hf). by destruct (scan pattern [] l).
Qed.
Lemma scan_rest pattern data : forall cur, Forall (fun c => c <> 10) cur -> Forall (fun c => c <> 10) (snd (scan pattern cur data)).
Proof.
  induction data as [|c data IH]; intros cur Hc; simpl; [done|]. destruct (Z.eqb_spec c 10).
  - specialize (IH [] ltac:(constructor)). by destruct (scan pattern [] data).
  - apply IH. apply Forall_app. split; [done|]. by constructor.
Qed.
Lemma scan_rest_P (P : Z -> Prop) pattern data : forall cur,
  Forall P cur -> Forall P data -> Forall P (snd (scan pattern cur data)).
Proof.
  induction data as [|c data IH]; intros cur Hc Hd; simpl; [done|]. apply Forall_cons in Hd as [? Hd]. destruct (c =? 10).
  - specialize (IH [] ltac:(constructor) Hd). by destruct (scan pattern [] data).
  - apply IH; [|done]. apply Forall_app. split; [done|]. by constructor.
Qed.

(** [strchr] for the newline. *)
Lemma strchr_spec p : Forall (fun c => c <> 0) p ->
  match ustrchr p 10 with
  | Some q => exists line q', p = line ++ q /\ q = 10 :: q' /\ Forall (fun c => c <> 10) line
  | None => Forall (fun c => c <> 10) p
  end.
Proof.
  induction p as [|c p IH]; simpl; [by constructor|]. intros [Hc Hp]%Forall_cons. rewrite (proj2 (Z.eqb_neq c 0)) by done.
  destruct (Z.eqb_spec c 10) as [->|Hn]; [by exists [], p|]. specialize (IH Hp).
  destruct (ustrchr p 10) as [q|]; [|by constructor]. destruct IH as (line & q' & -> & -> & Hl).
  exists (c :: line), q'. split; [done|]. split; [done|]. by constructor.
Qed.

(** The input side of a stream is left alone and [o] is written to descriptor 1. *)
Definition wrote1 (o : list Z) (w w' : stream) : Prop :=
  s_in w' = s_in w /\ s_sizes w' = s_sizes w /\ default [] (s_out w' !! 1) = default [] (s_out w !! 1) ++ o.

Lemma wrote1_trans o o' w1 w2 w3 : wrote1 o w1 w2 -> wrote1 o' w2 w3 -> wrote1 (o ++ o') w1 w3.
Proof.
  intros (E1 & E2 & E3) (F1 & F2 & F3). split; [congruence|]. split; [congruence|]. by rewrite F3, E3, app_assoc.
Qed.

Lemma grep_lines_run pattern fd fuel : forall p w,
  Forall (fun c => c <> 0) p -> (length p < fuel)%nat ->
  exists w', s_run fd (grep_lines fuel pattern p) w = (Ended (snd (scan pattern [] p)), w') /\ wrote1 (fst (scan pattern [] p)) w w'.
Proof.
  induction fuel as [|fuel IH]; intros p w Hp Hfu; [lia|]. cbn [grep_lines]. pose proof (strchr_spec p Hp) as Hs.
  destruct (ustrchr p 10) as [q|].
  - destruct Hs as (line & q' & -> & -> & Hl). rewrite length_app in *. simpl in Hfu.
    replace (length line + length (10%Z :: q') - length (10%Z :: q'))%nat with (length line) by lia. rewrite take_app_length.
    rewrite scan_line by done. simpl. apply Forall_app in Hp as [_ Hp]. apply Forall_cons in Hp as [_ Hp].
    rewrite s_run_bind.
    assert (exists w1, s_run fd (uwhen (grep_match pattern line) (uwrite 1 (line ++ [10]))) w = (Ended tt, w1)
      /\ wrote1 (line_out pattern line) w w1) as (w1 & -> & Hw1).
    { unfold line_out. destruct (grep_match pattern line); simpl; eexists; (split; [reflexivity|]).
      - split; [done|]. split; [done|]. simpl. by rewrite lookup_insert_eq.
      - split; [done|]. split; [done|]. by rewrite app_nil_r. }
    destruct (IH q' w1 Hp ltac:(lia)) as (w2 & -> & Hw2). destruct (scan pattern [] q') as [o r]. simpl in *.
    exists w2. split; [done|]. by eapply wrote1_trans.
  - exists w. rewrite <- (app_nil_r p) at 2 3. rewrite scan_line by done. simpl. split; [done|].
    split; [done|]. split; [done|]. by rewrite app_nil_r.
Qed.

Lemma grep_loop_run pattern fd fuel : forall buf w,
  Forall (fun c => c <> 0) buf -> Forall (fun c => c <> 10) buf -> Forall (fun c => c <> 0) (s_in w) ->
  lines_fit buf (s_in w) -> (length (s_in w) < fuel)%nat ->
  exists w', s_run fd (grep_loop fuel pattern fd buf) w = (Ended tt, w')
    /\ s_in w' = [] /\ default [] (s_out w' !! 1) = default [] (s_out w !! 1) ++ fst (scan pattern buf (s_in w)).
Proof.
  induction fuel as [|fuel IH]; intros buf w Hb0 Hb10 Hd Hfit Hfu; [lia|]. cbn [grep_loop].
  pose proof (lines_fit_len _ _ Hfit) as Hlen.
  destruct (s_read_spec fd (GREPBUF - Z.of_nat (length buf) - 1) w ltac:(lia)) as (l & w1 & Hrd & Hin & Hout & Hne).
  rewrite s_run_bind, Hrd. cbv iota beta. rewrite Hin in *. destruct (decide (l = [])) as [->|Hl].
  { simpl. exists w1. rewrite Hne in * by done. simpl. by rewrite app_nil_r, Hout. }
  assert (0 < length l)%nat as Hll by (destruct l; [done|simpl; lia]). rewrite length_app in Hfu.
  rewrite (proj2 (Z.gtb_lt _ 0)) by lia. apply Forall_app in Hd as [Hl0 Hd].
  rewrite s_run_bind. destruct (grep_lines_run pattern fd (S (length (buf ++ l))) (buf ++ l) w1) as (w2 & -> & E1 & E2 & E3);
    [by apply Forall_app|lia|].
  rewrite (scan_line pattern buf l []) in * by done. simpl app in *.
  pose proof (lines_fit_app pattern l _ _ Hfit) as Hfit'. pose proof (scan_rest pattern l buf Hb10) as Hr10.
  pose proof (scan_rest_P _ pattern l buf Hb0 Hl0) as Hr0. rewrite scan_app.
  destruct (scan pattern buf l) as [o r]. simpl in *.
  destruct (IH r w2 Hr0 Hr10) as (w3 & -> & E4 & E5); rewrite ?E1; [done|done|lia|].
  exists w3. split; [done|]. split; [done|]. rewrite E1 in E5. destruct (scan pattern r (s_in w1)) as [o' r']. simpl in *.
  by rewrite E5, E3, Hout, app_assoc.
Qed.

(** C25: [grep] reads its input in pieces of any size and writes, in order, the lines that
    match the pattern.  A line without a newline at the end of the input is not
    looked at, and every line has to fit into the buffer. *)
Theorem grep_correct pattern fd data sizes out fuel :
  Forall (fun c => c <> 0) data -> lines_fit [] data -> (length data < fuel)%nat ->
  exists w', s_run fd (grep fuel pattern fd) (mkStream data sizes out) = (Ended tt, w')
    /\ s_in w' = [] /\ default [] (s_out w' !! 1) = default [] (out !! 1) ++ fst (scan pattern [] data).
Proof.
  intros Hd Hfit Hfu. apply (grep_loop_run pattern fd fuel [] (mkStream data sizes out)); by first [constructor | done].
Qed.

Lemma grep_correct_witness :
  exists w', s_run 0 (grep 100 (str "^ab*c$") 0) (mkStream (str "abbc\nabcd\nac\nxac\nab") [3; 5; 1; 9]%nat ∅) = (Ended tt, w')
    /\ s_in w' = [] /\ default [] (s_out w' !! 1) = str "abbc\nac\n".
Proof.
  destruct (grep_correct (str "^ab*c$") 0 (str "abbc\nabcd\nac\nxac\nab") [3; 5; 1; 9]%nat ∅ 100) as (w' & Hr & Hi & Ho).
  - apply (bool_decide_unpack _). vm_compute. exact I.
  - vm_compute. repeat split.
  - vm_compute. lia.
  - exists w'. split; [exact Hr|]. split; [exact Hi|]. rewrite Ho. vm_compute. reflexivity.
Defined.
