(* ===== verification/Utils.v ===== *)
(** * Small user programs

    [cat], [wc], [echo], [kill], [ln], [mkdir], [rm], [ls], [init] and the
    demonstration programs, each as a tree of system calls.  A loop that ends
    only when a call says so takes a bound on its turns. *)

From stdpp Require Import base numbers gmap sets strings option list.
From Stdlib Require Import Ascii.
From S2P Require Import Prelude Machine CString Printf Console Bio Fs Sysfile User Ulib.

(** ** cat.c *)

Fixpoint cat (fuel : nat) (fd : Z) : uprog () :=
  match fuel with
  | O => UStuck
  | S fuel =>
      '(n, buf) ← ucall (CRead fd 512);
      if n >? 0 then
        r ← ucall (CWrite 1 buf);
        if negb (r =? n) then ufprintf 2 "cat: write error\n" [];; uexit 1
        else cat fuel fd
      else if n <? 0 then ufprintf 2 "cat: read error\n" [];; uexit 1
      else mret tt
  end.

(** The loop over the file arguments of [cat] and [wc]. *)
Fixpoint cat_files (fuel : nat) (files : list (list Z)) : uprog () :=
  match files with
  | [] => uexit 0
  | f :: files =>
      fd ← ucall (COpen f O_RDONLY);
      if fd <? 0 then ufprintf 2 "cat: cannot open %s\n" [VStr (Some f)];; uexit 1
      else cat fuel fd;; uclose fd;; cat_files fuel files
  end.
Definition cat_main (fuel : nat) (argv : list (list Z)) : uprog () :=
  match argv with
  | [] | [_] => cat fuel 0;; uexit 0
  | _ :: files => cat_files fuel files
  end.

(** ** wc.c *)

(** [strchr(" \r\t\n\v", c)] *)
Definition wc_blank (c : Z) : bool := match ustrchr [32; 13; 9; 10; 11] c with Some _ => true | None => false end.

Record counts := mkCounts { wc_l : Z; wc_w : Z; wc_c : Z; wc_in : bool }.

Definition wc_step (k : counts) (b : Z) : counts :=
  let '(mkCounts l w c inword) := k in
  let c := c + 1 in
  let l := if b =? 10 then l + 1 else l in
  if wc_blank b then mkCounts l w c false
  else if negb inword then mkCounts l (w + 1) c true
  else mkCounts l w c inword.

Fixpoint wc_loop (fuel : nat) (fd : Z) (k : counts) : uprog (Z * counts) :=
  match fuel with
  | O => UStuck
  | S fuel =>
      '(n, buf) ← ucall (CRead fd 512);
      if n >? 0 then wc_loop fuel fd (foldl wc_step k buf) else mret (n, k)
  end.

Definition wc (fuel : nat) (fd : Z) (name : list Z) : uprog () :=
  '(n, k) ← wc_loop fuel fd (mkCounts 0 0 0 false);
  if n <? 0 then uprintf "wc: read error\n" [];; uexit 1
  else uprintf "%d %d %d %s\n" [VInt (wc_l k); VInt (wc_w k); VInt (wc_c k); VStr (Some name)].

Fixpoint wc_files (fuel : nat) (files : list (list Z)) : uprog () :=
  match files with
  | [] => uexit 0
  | f :: files =>
      fd ← ucall (COpen f O_RDONLY);
      if fd <? 0 then uprintf "wc: cannot open %s\n" [VStr (Some f)];; uexit 1
      else wc fuel fd f;; uclose fd;; wc_files fuel files
  end.
Definition wc_main (fuel : nat) (argv : list (list Z)) : uprog () :=
  match argv with
  | [] | [_] => wc fuel 0 [];; uexit 0
  | _ :: files => wc_files fuel files
  end.

(** ** echo.c, kill.c, ln.c, mkdir.c, rm.c *)

Fixpoint echo_args (args : list (list Z)) : uprog () :=
  match args with
  | [] => uexit 0
  | a :: args =>
      uwrite 1 a;;
      (match args with [] => uwrite 1 (str "\n") | _ => uwrite 1 (str " ") end);;
      echo_args args
  end.
Definition echo_main (argv : list (list Z)) : uprog () := echo_args (tl argv).

Definition kill_main (argv : list (list Z)) : uprog () :=
  match argv with
  | _ :: (_ :: _) as args => uforM args (fun a => ucall (CKill (uatoi a));; mret tt);; uexit 0
  | _ => ufprintf 2 "usage: kill pid...\n" [];; uexit 1
  end.

Definition ln_main (argv : list (list Z)) : uprog () :=
  match argv with
  | [_; old; new] =>
      r ← ucall (CLink old new);
      uwhen (r <? 0) (ufprintf 2 "link %s %s: failed\n" [VStr (Some old); VStr (Some new)]);;
      uexit 0
  | _ => ufprintf 2 "Usage: ln old new\n" [];; uexit 1
  end.

Fixpoint mkdir_args (args : list (list Z)) : uprog () :=
  match args with
  | [] => mret tt
  | a :: args =>
      r ← ucall (CMkdir a);
      if r <? 0 then ufprintf 2 "mkdir: %s failed to create\n" [VStr (Some a)] else mkdir_args args
  end.
Definition mkdir_main (argv : list (list Z)) : uprog () :=
  match argv with
  | _ :: (_ :: _) as args => mkdir_args args;; uexit 0
  | _ => ufprintf 2 "Usage: mkdir files...\n" [];; uexit 1
  end.

Fixpoint rm_args (args : list (list Z)) : uprog () :=
  match args with
  | [] => mret tt
  | a :: args =>
      r ← ucall (CUnlink a);
      if r <? 0 then ufprintf 2 "rm: %s failed to delete\n" [VStr (Some a)] else rm_args args
  end.
Definition rm_main (argv : list (list Z)) : uprog () :=
  match argv with
  | _ :: (_ :: _) as args => rm_args args;; uexit 0
  | _ => ufprintf 2 "Usage: rm files...\n" [];; uexit 1
  end.

(** ** ls.c *)

(** The part of the path after the last slash. *)
Fixpoint after_slash (path : list Z) : list Z :=
  match path with
  | [] => []
  | c :: rest => if existsb (Z.eqb (ch "/")) path then after_slash rest else path
  end.
Definition fmtname (path : list Z) : list Z :=
  let p := after_slash path in
  if (Nat.leb DIRSIZ (length p)) then p else p ++ replicate (DIRSIZ - length p) 32.

(** The bytes before the first nul. *)
Fixpoint c_string (l : list Z) : list Z :=
  match l with
  | [] => []
  | c :: l => if c =? 0 then [] else c :: c_string l
  end.

Definition ls_line (name : list Z) (st : ustat) : uprog () :=
  uprintf "%s %d %d %d\n" [VStr (Some name); VInt (st_type st); VInt (st_ino st); VInt (i32 (st_size st))].

Fixpoint ls_dir (fuel : nat) (fd : Z) (path : list Z) : uprog () :=
  match fuel with
  | O => UStuck
  | S fuel =>
      '(n, de) ← ucall (CRead fd 16);
      if negb (n =? 16) then mret tt
      else if get16 de 0 =? 0 then ls_dir fuel fd path
      else
        let name := path ++ [ch "/"] ++ c_string (take DIRSIZ (drop 2 de)) in
        '(r, st) ← ustat_path name;
        match (if r <? 0 then None else st) with
        | None => uprintf "ls: cannot stat %s\n" [VStr (Some name)];; ls_dir fuel fd path
        | Some st => ls_line (fmtname name) st;; ls_dir fuel fd path
        end
  end.

Definition ls (fuel : nat) (path : list Z) : uprog () :=
  fd ← ucall (COpen path O_RDONLY);
  if fd <? 0 then ufprintf 2 "ls: cannot open %s\n" [VStr (Some path)]
  else
    '(r, st) ← ucall (CFstat fd);
    if r <? 0 then ufprintf 2 "ls: cannot stat %s\n" [VStr (Some path)];; uclose fd
    else
      (if (st_type st =? T_DEVICE) || (st_type st =? T_FILE) then ls_line (fmtname path) st
       else if st_type st =? T_DIR then
         (if Nat.ltb 512 (length path + 1 + DIRSIZ + 1) then uprintf "ls: path too long\n" []
          else ls_dir fuel fd path)
       else mret tt);;
      uclose fd.

Definition ls_main (fuel : nat) (argv : list (list Z)) : uprog () :=
  match argv with
  | [] | [_] => ls fuel (str ".");; uexit 0
  | _ :: paths => uforM paths (ls fuel);; uexit 0
  end.

(** ** init.c *)

(** The loop that waits for the shell: [true] when it exited, [false] on an error. *)
Fixpoint init_wait (fuel : nat) (pid : Z) : uprog () :=
  match fuel with
  | O => UStuck
  | S fuel =>
      wpid ← uwait;
      if wpid =? pid then mret tt
      else if wpid <? 0 then uprintf "init: wait returned an error\n" [];; uexit 1
      else init_wait fuel pid
  end.

(** [turns] shells are started. *)
Fixpoint init_loop (turns fuel : nat) : uprog () :=
  match turns with
  | O => UStuck
  | S turns =>
      uprintf "init: starting sh\n" [];;
      pid ← ucall CFork;
      if pid <? 0 then uprintf "init: fork failed\n" [];; uexit 1
      else if pid =? 0 then
        ucall (CExec (str "sh") [str "sh"]);;
        uprintf "init: exec sh failed\n" [];;
        uexit 1
      else
        init_wait fuel pid;;
        init_loop turns fuel
  end.

Definition init_main (turns fuel : nat) : uprog () :=
  fd ← ucall (COpen (str "console") O_RDWR);
  uwhen (fd <? 0)
    (ucall (CMknod (str "console") (Z.of_nat CONSOLE) 0);;
     ucall (COpen (str "console") O_RDWR);;
     mret tt);;
  ucall (CDup 0);;
  ucall (CDup 0);;
  init_loop turns fuel.

(** ** zombie.c, ps.c, quota_test.c, good_pipe.c *)

Definition zombie_main : uprog () :=
  pid ← ucall CFork;
  uwhen (pid >? 0) (ucall (CPause 5);; mret tt);;
  uexit 0.

Definition ps_main (argv : list (list Z)) : uprog () :=
  match argv with
  | [_; a] =>
      r ← ucall (CKps a);
      if r <? 0 then uexit 1 else uexit 0
  | _ => uprintf "Usage: ps [-o | -l]\n" [];; uexit 1
  end.

(** The busy loop at the end never returns. *)
Definition quota_test_main (argv : list (list Z)) : uprog () :=
  let q := match argv with _ :: a :: _ => uatoi a | _ => 10 end in
  r ← ucall (CSetquota q);
  if r <? 0 then uprintf "setquota failed\n" [];; uexit 1
  else
    uprintf "quota_test: quota set to %d\n" [VInt q];;
    UStuck.

Fixpoint pipe_copy (fuel : nat) (fd : Z) : uprog () :=
  match fuel with
  | O => UStuck
  | S fuel =>
      '(n, buf) ← ucall (CRead fd 64);
      if n >? 0 then uwrite 1 buf;; pipe_copy fuel fd else mret tt
  end.

Definition haiku : list Z := Eval cbv in str "This is my Haiku\nI am writing poetry\nThis is my good pipe\n".

Definition good_pipe_main (fuel : nat) : uprog () :=
  '(r, (p0, p1)) ← ucall CPipe;
  if r <? 0 then ufprintf 2 "pipe failed\n" [];; uexit 1
  else
    pid ← ucall CFork;
    if pid <? 0 then ufprintf 2 "fork failed\n" [];; uexit 1
    else if pid =? 0 then
      uclose p1;;
      pipe_copy fuel p0;;
      uclose p0;;
      uexit 0
    else
      uclose p0;;
      uwrite p1 haiku;;
      uclose p1;;
      uwait;;
      uexit 0.

(** ** schedtest.c *)

Definition burst_table_inc : list Z := [1; 2; 3; 4; 5].
Definition get_burst_for_child (child_id : Z) : Z :=
  let child_id := if child_id <? 1 then 1 else child_id in
  let child_id := if child_id >? 5 then 5 else child_id in
  nth (Z.to_nat (child_id - 1)) burst_table_inc 0.

(** Busy until [uptime] has advanced by ten times [iterations]. *)
Fixpoint burst_loop (fuel : nat) (start iterations : Z) : uprog () :=
  match fuel with
  | O => UStuck
  | S fuel =>
      t ← ucall CUptime;
      if i32 (t - start) <? i32 (iterations * 10) then burst_loop fuel start iterations else mret tt
  end.
Definition cpu_burst (fuel : nat) (iterations : Z) : uprog () :=
  start ← ucall CUptime;
  burst_loop fuel start iterations.

Definition child_process (fuel : nat) (child_id : Z) : uprog () :=
  let base := get_burst_for_child child_id in
  uforM (seq 0 3) (fun _ =>
    pid ← ucall CGetpid;
    cpu_burst fuel (i32 ((1 + pid) * base))).

Definition schedtest_main (fuel : nat) : uprog () :=
  uforM (seq 0 5) (fun k =>
    let i := Z.of_nat k in
    pid ← ucall CFork;
    if pid <? 0 then uprintf "Fork failed for child %d\n" [VInt i];; uexit 1
    else if pid =? 0 then child_process fuel (i + 1);; uexit 0
    else uprintf "Parent: Forked child %d with PID %d\n" [VInt (i + 1); VInt pid]);;
  uforM (seq 0 5) (fun _ => uwait;; mret tt);;
  uexit 0.

(** ** forktest.c *)

Definition FORKS : nat := 1000.
Definition print (s : list Z) : uprog () := uwrite 1 s.

(** How many children were forked before [fork] failed. *)
Fixpoint fork_loop (todo n : nat) : uprog nat :=
  match todo with
  | O => mret n
  | S todo =>
      pid ← ucall CFork;
      if pid <? 0 then mret n
      else if pid =? 0 then uexit 0
      else fork_loop todo (S n)
  end.
Definition forktest : uprog () :=
  print (str "fork test\n");;
  n ← fork_loop FORKS 0;
  uwhen (Nat.eqb n FORKS) (print (str "fork claimed to work N times!\n");; uexit 1);;
  uforM (seq 0 n) (fun _ =>
    r ← uwait;
    uwhen (r <? 0) (print (str "wait stopped early\n");; uexit 1));;
  r ← uwait;
  uwhen (negb (r =? -1)) (print (str "wait got too many\n");; uexit 1);;
  print (str "fork test OK\n").
Definition forktest_main : uprog () := forktest;; uexit 0.

(** ** What wc counts *)

(** The maximal runs of bytes that are not blank, [cur] being the run under way. *)
Fixpoint tokens (cur l : list Z) : list (list Z) :=
  match l with
  | [] => match cur with [] => [] | _ => [cur] end
  | b :: l =>
      if wc_blank b then match cur with [] => tokens [] l | _ => cur :: tokens [] l end
      else tokens (cur ++ [b]) l
  end.
Definition lines_in (l : list Z) : Z := Z.of_nat (length (List.filter (Z.eqb 10) l)).

(** Words counted where they begin. *)
Fixpoint words_from (inword : bool) (l : list Z) : Z :=
  match l with
  | [] => 0
  | b :: l => (if negb (wc_blank b) && negb inword then 1 else 0) + words_from (negb (wc_blank b)) l
  end.

Lemma words_tokens l : forall cur, Z.of_nat (length (tokens cur l)) =
  match cur with [] => words_from false l | _ => 1 + words_from true l end.
Proof.
  induction l as [|b l IH]; intros cur; simpl; [by destruct cur|]. destruct (wc_blank b); simpl.
  - destruct cur; simpl; [rewrite IH; done|]. pose proof (IH []) as E. simpl in E. lia.
  - rewrite IH. destruct cur; simpl; lia.
Qed.

Lemma wc_fold l : forall k, foldl wc_step k l =
  mkCounts (wc_l k + lines_in l) (wc_w k + words_from (wc_in k) l) (wc_c k + Z.of_nat (length l))
    (foldl (fun _ b => negb (wc_blank b)) (wc_in k) l).
Proof.
  unfold lines_in. induction l as [|b l IH]; intros [n w c i]; [simpl; f_equal; lia|].
  cbn [foldl List.filter words_from length]. rewrite IH, (Z.eqb_sym 10 b). unfold wc_step.
  destruct (wc_blank b), (b =? 10), i; cbn [negb andb wc_l wc_w wc_c wc_in length]; f_equal; lia.
Qed.

Lemma wc_loop_run fd fuel : forall k w, (length (s_in w) < fuel)%nat ->
  exists w', s_run fd (wc_loop fuel fd k) w = (Ended (0, foldl wc_step k (s_in w)), w') /\ s_in w' = [] /\ s_out w' = s_out w.
Proof.
  induction fuel as [|fuel IH]; intros k w Hfu; [lia|]. cbn [wc_loop].
  destruct (s_read_spec fd 512 w ltac:(lia)) as (l & w1 & Hrd & Hin & Hout & Hne).
  rewrite s_run_bind, Hrd. cbv iota beta. rewrite Hin in *. destruct (decide (l = [])) as [->|Hl].
  { exists w1. simpl. rewrite Hne by done. done. }
  assert (0 < length l)%nat by (destruct l; [done|simpl; lia]). rewrite length_app in Hfu.
  rewrite (proj2 (Z.gtb_lt _ 0)) by lia. destruct (IH (foldl wc_step k l) w1) as (w2 & -> & ? & E); [lia|].
  exists w2. rewrite foldl_app. split; [done|]. split; [done|]. by rewrite E.
Qed.

(** Character by character output. *)
Lemma puts_run fd fd' cs : forall w, exists w',
  s_run fd (uforM cs (uputc fd')) w = (Ended tt, w') /\ s_in w' = s_in w
    /\ default [] (s_out w' !! fd') = default [] (s_out w !! fd') ++ map u8 cs.
Proof.
  induction cs as [|c cs IH]; intros w; simpl; [exists w; by rewrite app_nil_r|].
  destruct (IH (s_write fd' [u8 c] w)) as (w' & Hr & Hi & Ho). exists w'. split; [exact Hr|]. split; [done|].
  rewrite Ho. simpl. rewrite lookup_insert_eq. simpl. by rewrite <- app_assoc.
Qed.

(** [wc] counts the newlines, words and bytes of its input, in whatever pieces it reads
    it, and prints the three numbers and the name. *)
Theorem wc_correct fd name data sizes out fuel cs :
  (length data < fuel)%nat ->
  uformat 12 (str "%d %d %d %s\n")
    [VInt (lines_in data); VInt (Z.of_nat (length (tokens [] data))); VInt (Z.of_nat (length data)); VStr (Some name)] = Some cs ->
  exists w', s_run fd (wc fuel fd name) (mkStream data sizes out) = (Ended tt, w')
    /\ s_in w' = [] /\ default [] (s_out w' !! 1) = default [] (out !! 1) ++ map u8 cs.
Proof.
  intros Hfu Hcs. unfold wc.
  destruct (wc_loop_run fd fuel (mkCounts 0 0 0 false) (mkStream data sizes out) Hfu) as (w1 & Hs & Hin & Hout).
  rewrite s_run_bind, Hs. cbv iota beta. rewrite wc_fold. change (0 <? 0) with false. cbv iota.
  unfold uprintf, uvprintf. cbn [wc_l wc_w wc_c wc_in s_in]. rewrite !Z.add_0_l.
  rewrite words_tokens in Hcs.
  change (length (str "%d %d %d %s\n")) with 12%nat. rewrite Hcs.
  destruct (puts_run fd 1 cs w1) as (w2 & -> & Hi & Ho). exists w2. split; [done|]. split; [congruence|]. by rewrite Ho, Hout.
Qed.

Lemma wc_correct_witness :
  exists w', s_run 3 (wc 100 3 (str "README")) (mkStream (str "one two\n three\n") [4; 1; 7]%nat ∅) = (Ended tt, w')
    /\ s_in w' = [] /\ default [] (s_out w' !! 1) = str "2 3 15 README\n".
Proof.
  destruct (wc_correct 3 (str "README") (str "one two\n three\n") [4; 1; 7]%nat ∅ 100 (str "2 3 15 README\n")) as (w' & Hr & Hi & Ho).
  - vm_compute. lia.
  - vm_compute. reflexivity.
  - exists w'. split; [exact Hr|]. split; [exact Hi|]. rewrite Ho. vm_compute. reflexivity.
Defined.
