(* ===== verification/Stress.v ===== *)
(** * Stress tests and the demonstration program

    [grind], [stressfs], [logstress], [forphan], [dorphan] and [hello_world]
    as trees of system calls.  Loops that never end take a number of turns.
    The generator of random numbers of [grind] is compared with the recurrence
    of Park and Miller it implements without overflow. *)

From stdpp Require Import base numbers gmap sets strings option list.
From Stdlib Require Import Ascii.
From S2P Require Import Prelude Machine CString Printf Sysfile User Ulib Utils.

(** ** grind.c *)

(** The new [*ctx], which is also the result. *)
Definition do_rand (ctx : Z) : Z :=
  let x := ctx mod 0x7ffffffe + 1 in
  let hi := x / 127773 in
  let lo := x mod 127773 in
  let x := 16807 * lo - 2836 * hi in
  let x := if x <? 0 then x + 0x7fffffff else x in
  x - 1.

(** What a child of [grind] carries from turn to turn: [fd], [buf] and [rand_next]. *)
Record grindst := mkGrind { g_fd : Z; g_buf : list Z; g_rand : Z }.

Definition o_crw : Z := Z.lor O_CREATE O_RDWR.
Definition u_unlink (p : list Z) : uprog () := ucall (CUnlink p);; mret tt.
Definition u_mkdir (p : list Z) : uprog () := ucall (CMkdir p);; mret tt.
Definition u_chdir (p : list Z) : uprog () := ucall (CChdir p);; mret tt.
Definition u_fork : uprog () := ucall CFork;; mret tt.
Definition close_open (p : list Z) (mode : Z) : uprog () := fd ← ucall (COpen p mode); uclose fd.
Definition grind_fail {A} (msg : string) (status : Z) : uprog A := uprintf msg [];; uexit status.
Definition grind_err {A} (msg : string) (status : Z) : uprog A := ufprintf 2 msg [];; uexit status.

(** [fork], the child running [m] and exiting, the parent the rest. *)
Definition with_child (m : uprog ()) (k : Z -> uprog ()) : uprog () :=
  pid ← ucall CFork;
  if pid =? 0 then m;; uexit 0
  else if pid <? 0 then grind_fail "grind: fork failed\n" 1
  else k pid.

(** Cases 1 to 12: files and directories. *)
Definition go_files (what : Z) (g : grindst) : uprog grindst :=
  match what with
  | 1 => close_open (str "grindir/../a") o_crw;; mret g
  | 2 => close_open (str "grindir/../grindir/../b") o_crw;; mret g
  | 3 => u_unlink (str "grindir/../a");; mret g
  | 4 =>
      r ← ucall (CChdir (str "grindir"));
      if negb (r =? 0) then grind_fail "grind: chdir grindir failed\n" 1
      else u_unlink (str "../b");; u_chdir (str "/");; mret g
  | 5 => uclose (g_fd g);; fd ← ucall (COpen (str "/grindir/../a") o_crw); mret (mkGrind fd (g_buf g) (g_rand g))
  | 6 => uclose (g_fd g);; fd ← ucall (COpen (str "/./grindir/./../b") o_crw); mret (mkGrind fd (g_buf g) (g_rand g))
  | 7 => uwrite (g_fd g) (g_buf g);; mret g
  | 8 =>
      '(_, l) ← ucall (CRead (g_fd g) 999);
      mret (mkGrind (g_fd g) (l ++ drop (length l) (g_buf g)) (g_rand g))
  | 9 =>
      u_mkdir (str "grindir/../a");;
      close_open (str "a/../a/./a") o_crw;;
      u_unlink (str "a/a");; mret g
  | 10 =>
      u_mkdir (str "/../b");;
      close_open (str "grindir/../b/b") o_crw;;
      u_unlink (str "b/b");; mret g
  | 11 =>
      u_unlink (str "b");;
      ucall (CLink (str "../grindir/./../a") (str "../b"));; mret g
  | _ =>
      u_unlink (str "../grindir/../a");;
      ucall (CLink (str ".././b") (str "/grindir/../a"));; mret g
  end.

(** Cases 13 to 18: processes and the break. *)
Definition go_procs (break0 what : Z) : uprog () :=
  match what with
  | 13 => with_child (mret tt) (fun _ => uwait;; mret tt)
  | 14 => with_child (u_fork;; u_fork) (fun _ => uwait;; mret tt)
  | 15 => usbrk 6011;; mret tt
  | 16 =>
      b ← usbrk 0;
      uwhen (b >? break0) (b ← usbrk 0; usbrk (i32 (- (b - break0)));; mret tt)
  | 17 =>
      with_child (close_open (str "a") o_crw) (fun pid =>
        r ← ucall (CChdir (str "../grindir/.."));
        if negb (r =? 0) then grind_fail "grind: chdir failed\n" 1
        else ucall (CKill pid);; uwait;; mret tt)
  | _ => with_child (pid ← ucall CGetpid; ucall (CKill pid);; mret tt) (fun _ => uwait;; mret tt)
  end.

(** Case 20: the child removes the directory it is in. *)
Definition go_dir : uprog () :=
  with_child
    (u_unlink (str "a");; u_mkdir (str "a");; u_chdir (str "a");; u_unlink (str "../a");;
     ucall (COpen (str "x") o_crw);; u_unlink (str "x"))
    (fun _ => uwait;; mret tt).

(** Case 19: a pipe shared by several processes. *)
Definition go_pipe : uprog () :=
  '(r, (f0, f1)) ← ucall CPipe;
  if r <? 0 then grind_fail "grind: pipe failed\n" 1
  else
    with_child
      (u_fork;; u_fork;;
       n ← ucall (CWrite f1 (str "x"));
       uwhen (negb (n =? 1)) (uprintf "grind: pipe write failed\n" []);;
       '(n, _) ← ucall (CRead f0 1);
       uwhen (negb (n =? 1)) (uprintf "grind: pipe read failed\n" []))
      (fun _ => uclose f0;; uclose f1;; uwait;; mret tt).

(** Case 21: a file can be made, written and inspected. *)
Definition go_create : uprog () :=
  u_unlink (str "c");;
  fd1 ← ucall (COpen (str "c") o_crw);
  if fd1 <? 0 then grind_fail "grind: create c failed\n" 1
  else
    n ← ucall (CWrite fd1 (str "x"));
    if negb (n =? 1) then grind_fail "grind: write c failed\n" 1
    else
      '(r, st) ← ucall (CFstat fd1);
      if negb (r =? 0) then grind_fail "grind: fstat failed\n" 1
      else if negb (st_size st =? 1) then
        uprintf "grind: fstat reports wrong size %d\n" [VInt (i32 (st_size st))];; uexit 1
      else if st_ino st >? 200 then
        uprintf "grind: fstat reports crazy i-number %d\n" [VInt (st_ino st)];; uexit 1
      else uclose fd1;; u_unlink (str "c").

(** Case 22: [echo hi | cat] with the output read back. *)
Definition pipe_echo (a0 a1 b0 b1 : Z) : uprog () :=
  uclose b0;; uclose b1;; uclose a0;; uclose 1;;
  r ← ucall (CDup a1);
  if negb (r =? 1) then grind_err "grind: dup failed\n" 1
  else
    uclose a1;;
    ucall (CExec (str "grindir/../echo") [str "echo"; str "hi"]);;
    grind_err "grind: echo: not found\n" 2.
Definition pipe_cat (a0 a1 b0 b1 : Z) : uprog () :=
  uclose a1;; uclose b0;; uclose 0;;
  r ← ucall (CDup a0);
  if negb (r =? 0) then grind_err "grind: dup failed\n" 4
  else
    uclose a0;; uclose 1;;
    r ← ucall (CDup b1);
    if negb (r =? 1) then grind_err "grind: dup failed\n" 5
    else
      uclose b1;;
      ucall (CExec (str "/cat") [str "cat"]);;
      grind_err "grind: cat: not found\n" 6.
(** One byte of [buf], 0 when nothing was read. *)
Definition read_byte (fd : Z) : uprog Z := '(_, l) ← ucall (CRead fd 1); mret (hd 0 l).
Definition pipe_check (a0 a1 b0 b1 : Z) : uprog () :=
  uclose a0;; uclose a1;; uclose b1;;
  c0 ← read_byte b0; c1 ← read_byte b0; c2 ← read_byte b0;
  uclose b0;;
  '(_, st1) ← ucall CWait;
  '(_, st2) ← ucall CWait;
  let buf := c_string [c0; c1; c2] in
  uwhen (negb (st1 =? 0) || negb (st2 =? 0) || negb (bool_decide (buf = str "hi\n")))
    (uforM (str "grind: exec pipeline failed ") (uputc 1);;
     uprintf "%d %d " [VInt st1; VInt st2];;
     uforM ([34] ++ buf ++ [34; 10]) (uputc 1);; uexit 1).
Definition go_pipeline : uprog () :=
  '(r, (a0, a1)) ← ucall CPipe;
  if r <? 0 then grind_err "grind: pipe failed\n" 1
  else
    '(r, (b0, b1)) ← ucall CPipe;
    if r <? 0 then grind_err "grind: pipe failed\n" 1
    else
      pid1 ← ucall CFork;
      if pid1 =? 0 then pipe_echo a0 a1 b0 b1
      else if pid1 <? 0 then grind_err "grind: fork failed\n" 3
      else
        pid2 ← ucall CFork;
        if pid2 =? 0 then pipe_cat a0 a1 b0 b1
        else if pid2 <? 0 then grind_err "grind: fork failed\n" 7
        else pipe_check a0 a1 b0 b1.

Definition go_case (break0 what : Z) (g : grindst) : uprog grindst :=
  if (1 <=? what) && (what <=? 12) then go_files what g
  else if (13 <=? what) && (what <=? 18) then go_procs break0 what;; mret g
  else if what =? 19 then go_pipe;; mret g
  else if what =? 20 then go_dir;; mret g
  else if what =? 21 then go_create;; mret g
  else if what =? 22 then go_pipeline;; mret g
  else mret g.

Fixpoint go_loop (turns : nat) (which_child : bool) (break0 iters : Z) (g : grindst) : uprog () :=
  match turns with
  | O => UStuck
  | S turns =>
      let iters := u64 (iters + 1) in
      uwhen (iters mod 500 =? 0) (uwrite 1 (if which_child then str "B" else str "A"));;
      let x := do_rand (g_rand g) in
      g ← go_case break0 (x mod 23) (mkGrind (g_fd g) (g_buf g) x);
      go_loop turns which_child break0 iters g
  end.
Definition go (turns : nat) (which_child : bool) (rand_next : Z) : uprog () :=
  break0 ← usbrk 0;
  u_mkdir (str "grindir");;
  r ← ucall (CChdir (str "grindir"));
  if negb (r =? 0) then grind_fail "grind: chdir grindir failed\n" 1
  else
    u_chdir (str "/");;
    go_loop turns which_child break0 0 (mkGrind (-1) (replicate 999 0) rand_next).

Definition iter (turns : nat) (rand_next : Z) : uprog () :=
  u_unlink (str "a");;
  u_unlink (str "b");;
  pid1 ← ucall CFork;
  if pid1 <? 0 then grind_fail "grind: fork failed\n" 1
  else if pid1 =? 0 then go turns false (Z.lxor rand_next 31);; uexit 0
  else
    pid2 ← ucall CFork;
    if pid2 <? 0 then grind_fail "grind: fork failed\n" 1
    else if pid2 =? 0 then go turns true (Z.lxor rand_next 7177);; uexit 0
    else
      '(w, st) ← ucall CWait;
      let st1 := if w <? 0 then -1 else st in
      uwhen (negb (st1 =? 0)) (ucall (CKill pid1);; ucall (CKill pid2);; mret tt);;
      uwait;;
      uexit 0.

Fixpoint grind_main (rounds turns : nat) (rand_next : Z) : uprog () :=
  match rounds with
  | O => UStuck
  | S rounds =>
      pid ← ucall CFork;
      if pid =? 0 then iter turns rand_next
      else
        uwhen (pid >? 0) (uwait;; mret tt);;
        ucall (CPause 20);;
        grind_main rounds turns (u64 (rand_next + 1))
  end.

(** ** stressfs.c, logstress.c *)

(** How many children were forked by the process that goes on: each child forks the next. *)
Fixpoint fork_chain (todo i : nat) : uprog nat :=
  match todo with
  | O => mret i
  | S todo =>
      pid ← ucall CFork;
      if pid >? 0 then mret i else fork_chain todo (S i)
  end.

Definition stressfs_main : uprog () :=
  uprintf "stressfs starting\n" [];;
  i ← fork_chain 4 0;
  uprintf "write %d\n" [VInt (Z.of_nat i)];;
  let path := str "stressfs" ++ [ch "0" + Z.of_nat i] in
  fd ← ucall (COpen path o_crw);
  uforM (seq 0 20) (fun _ => uwrite fd (replicate 512 (ch "a")));;
  uclose fd;;
  uprintf "read\n" [];;
  fd ← ucall (COpen path O_RDONLY);
  uforM (seq 0 20) (fun _ => ucall (CRead fd 512);; mret tt);;
  uclose fd;;
  uwait;;
  uexit 0.

(** [memset] fills 2000 bytes from the start of the 500 bytes of [buf], and the
    same 2000 bytes are written. *)
Definition logstress_child (name file : list Z) (i : Z) : uprog () :=
  fd ← ucall (COpen file o_crw);
  if fd <? 0 then uprintf "%s: create %s failed\n" [VStr (Some name); VStr (Some file)];; uexit 1
  else
    uforM (seq 0 250) (fun _ =>
      n ← ucall (CWrite fd (replicate 2000 (u8 (ch "0" + i))));
      uwhen (negb (n =? 2000)) (uprintf "write failed %d\n" [VInt n];; uexit 1));;
    uexit 0.

Definition logstress_main (argv : list (list Z)) : uprog () :=
  let name := hd [] argv in
  uforM (zip (seq 1 (length argv - 1)) (tl argv)) (fun '(i, file) =>
    pid1 ← ucall CFork;
    if pid1 <? 0 then uprintf "%s: fork failed\n" [VStr (Some name)];; uexit 1
    else if pid1 =? 0 then logstress_child name file (Z.of_nat i)
    else mret tt);;
  uforM (tl argv) (fun _ =>
    '(_, xstatus) ← ucall CWait;
    uwhen (negb (xstatus =? 0)) (uexit xstatus)).

(** ** forphan.c, dorphan.c *)

Fixpoint pause_loop (turns : nat) : uprog () :=
  match turns with
  | O => UStuck
  | S turns => ucall (CPause 1000);; pause_loop turns
  end.

Definition forphan_main (turns : nat) (argv : list (list Z)) : uprog () :=
  let s := VStr (Some (hd [] argv)) in
  let ff := str "file0" in
  fd ← ucall (COpen ff (Z.lor O_CREATE O_WRONLY));
  if fd <? 0 then uprintf "%s: open failed\n" [s];; uexit 1
  else
    '(r, st) ← ucall (CFstat fd);
    if r <? 0 then ufprintf 2 "%s: cannot stat %s\n" [s; VStr (Some (str "ff"))];; uexit 1
    else
      r ← ucall (CUnlink ff);
      if r <? 0 then uprintf "%s: unlink failed\n" [s];; uexit 1
      else
        r ← ucall (COpen ff O_RDONLY);
        if negb (r =? -1) then uprintf "%s: open successed\n" [s];; uexit 1
        else
          uprintf "wait for kill and reclaim %d\n" [VInt (st_ino st)];;
          pause_loop turns.

Definition dorphan_main (turns : nat) (argv : list (list Z)) : uprog () :=
  let s := VStr (Some (hd [] argv)) in
  r ← ucall (CMkdir (str "dd"));
  if negb (r =? 0) then uprintf "%s: mkdir dd failed\n" [s];; uexit 1
  else
    r ← ucall (CChdir (str "dd"));
    if negb (r =? 0) then uprintf "%s: chdir dd failed\n" [s];; uexit 1
    else
      r ← ucall (CUnlink (str "../dd"));
      if r <? 0 then uprintf "%s: unlink failed\n" [s];; uexit 1
      else
        uprintf "wait for kill and reclaim\n" [];;
        pause_loop turns.

(** ** hello_world.c *)

Definition demo_variables : uprog () :=
  uprintf "\n=== Variables and Types ===\n" [];;
  uprintf "Integer x = %d\n" [VInt 42];;
  uprintf "Character c = %c\n" [VInt (ch "A")].

Definition add_numbers (a b : Z) : Z := i32 (a + b).
Definition multiply (a b : Z) : Z := i32 (a * b).

Definition demo_functions : uprog () :=
  uprintf "\n=== Functions ===\n" [];;
  uprintf "10 + 20 = %d\n" [VInt (add_numbers 10 20)];;
  uprintf "5 * 7 = %d\n" [VInt (multiply 5 7)].

Definition demo_arrays : uprog () :=
  uprintf "\n=== Arrays ===\n" [];;
  let numbers := [10; 20; 30; 40; 50] in
  uprintf "Array elements:\n" [];;
  uforM (zip (seq 0 5) numbers) (fun '(i, n) => uprintf "  numbers[%d] = %d\n" [VInt (Z.of_nat i); VInt n]);;
  uprintf "Sum of array = %d\n" [VInt (foldl Z.add 0 numbers)].

Definition demo_structs : uprog () :=
  uprintf "\n=== Structures ===\n" [];;
  uprintf "Point: (%d, %d)\n" [VInt 100; VInt 200];;
  uprintf "Person: age=%d, id=%d\n" [VInt 20; VInt 12345].

Definition demo_strings : uprog () :=
  uprintf "\n=== Strings ===\n" [];;
  let name := str "xv6" in
  uprintf "Greeting: %s\n" [VStr (Some (str "Hello"))];;
  uprintf "Name: %s\n" [VStr (Some name)];;
  uprintf "Length of '%s' = %d\n" [VStr (Some name); VInt (Z.of_nat (length name))];;
  uprintf "Message: %s\n" [VStr (Some (str "Welcome to " ++ name))].

(** The addresses of the locals [a] and [p] are arguments. *)
Definition demo_pointers (addr_a addr_p : Z) : uprog () :=
  uprintf "\n=== Pointers ===\n" [];;
  uprintf "a = %d\n" [VInt 5];;
  uprintf "p = %p (address of a)\n" [VInt addr_a];;
  uprintf "*p = %d (value at address p)\n" [VInt 5];;
  uprintf "After *p = 6:\n" [];;
  uprintf "a = %d (changed via pointer)\n" [VInt 6];;
  uprintf "x = %p (address of p)\n" [VInt addr_p];;
  uprintf "*x = %p (value at x, which is address of a)\n" [VInt addr_a];;
  uprintf "**x = %d (value at address stored in p)\n" [VInt 6].

Fixpoint copy_out (fuel : nat) (fd : Z) : uprog () :=
  match fuel with
  | O => UStuck
  | S fuel =>
      '(n, buf) ← ucall (CRead fd 512);
      if n >? 0 then uwrite 1 buf;; copy_out fuel fd else mret tt
  end.
Definition demo_file_read (fuel : nat) (filename : list Z) : uprog () :=
  uprintf "\n=== File Reading ===\n" [];;
  fd ← ucall (COpen filename 0);
  if fd <? 0 then uprintf "Error: cannot open %s\n" [VStr (Some filename)]
  else
    uprintf "Reading from %s:\n" [VStr (Some filename)];;
    copy_out fuel fd;;
    uclose fd;;
    uprintf "\n" [].

Definition hello_world_main (fuel : nat) (addr_a addr_p : Z) (argv : list (list Z)) : uprog () :=
  uprintf "=== Basic C Programming Examples ===\n" [];;
  demo_variables;; demo_functions;; demo_arrays;; demo_structs;; demo_strings;;
  demo_pointers addr_a addr_p;;
  match argv with
  | _ :: filename :: _ =>
      demo_file_read fuel filename;;
      uprintf "\n=== All demos complete! ===\n" [];;
      uexit 0
  | _ => uprintf "Usage: hello_world <filename>\n" [];; uexit 1
  end.

(** ** The random numbers of grind *)

(** [do_rand] is one step of the generator x := 7^5 x mod (2^31 - 1) of Park and
    Miller, on the numbers shifted by one: the difference it computes instead of
    the product fits 32 bits, and the result is between 0 and 2^31 - 3. *)
Theorem do_rand_correct ctx : 0 <= ctx < 2 ^ 64 ->
  do_rand ctx = 16807 * (ctx mod (2 ^ 31 - 2) + 1) mod (2 ^ 31 - 1) - 1
  /\ 0 <= do_rand ctx <= 2 ^ 31 - 3
  /\ let x := ctx mod (2 ^ 31 - 2) + 1 in - 2 ^ 31 < 16807 * (x mod 127773) - 2836 * (x / 127773) < 2 ^ 31.
Proof.
  intros Hc. unfold do_rand. change 0x7ffffffe with (2 ^ 31 - 2). change 0x7fffffff with (2 ^ 31 - 1).
  pose proof (Z.mod_pos_bound ctx (2 ^ 31 - 2) ltac:(lia)) as Hm. cbv zeta. set (x := ctx mod (2 ^ 31 - 2) + 1).
  assert (1 <= x <= 2 ^ 31 - 2) as Hx by lia. clearbody x. clear Hm Hc ctx.
  pose proof (Z.div_mod x 127773 ltac:(lia)) as Hd. pose proof (Z.mod_pos_bound x 127773 ltac:(lia)) as Hl.
  set (hi := x / 127773) in *. set (lo := x mod 127773) in *. assert (0 <= hi <= 16807) as Hh by lia.
  set (y := 16807 * lo - 2836 * hi).
  assert (- 2 ^ 31 < y < 2 ^ 31 - 1) as Hy by lia.
  assert (16807 * x = hi * (2 ^ 31 - 1) + y) as E by lia.
  assert (16807 * x mod (2 ^ 31 - 1) = if y <? 0 then y + (2 ^ 31 - 1) else y) as Em.
  { destruct (Z.ltb_spec y 0); [symmetry; apply (Z.mod_unique_pos _ _ (hi - 1)); lia|symmetry; apply (Z.mod_unique_pos _ _ hi); lia]. }
  assert (16807 * x mod (2 ^ 31 - 1) <> 0) as Hnz.
  { rewrite Em. destruct (Z.ltb_spec y 0); [lia|]. intros E0. assert (y = 0) by lia.
    assert (lo = 0 \/ 2836 <= lo \/ (0 < lo < 2836)) as [?|[?|?]] by lia; [lia|lia|]. lia. }
  pose proof (Z.mod_pos_bound (16807 * x) (2 ^ 31 - 1) ltac:(lia)) as Hb. rewrite <- Em. split; [done|]. split; [lia|].
  cbv zeta. fold hi lo y. lia.
Qed.

Lemma do_rand_correct_witness :
  do_rand 1 = 33613 /\ 16807 * (1 mod (2 ^ 31 - 2) + 1) mod (2 ^ 31 - 1) - 1 = 33613.
Proof.
  pose proof (do_rand_correct 1 ltac:(lia)) as (E & _). split; [vm_compute; reflexivity|].
  rewrite <- E. vm_compute. reflexivity.
Defined.
