(* ===== verification/Sh.v ===== *)
(** * The shell

    [user/sh.c].  The parser works on the command line in place; a [char *]
    into the line is the suffix of the line it points to, or its offset once
    it is stored in a command.  [nulterminate] then ends the strings of the
    commands inside the line.  A command is a value of [cmd], and the parser
    either returns, panics with a message, or runs out of the bound on its
    recursion; [parsecmd_terminates] says that the last does not happen. *)

From stdpp Require Import base numbers gmap sets strings option list.
From Stdlib Require Import Ascii.
From S2P Require Import Prelude Machine CString Printf Sysfile User Ulib Utils.

Definition MAXARGS : nat := 10.

(** Strings are given by the offsets of their first byte and of the byte after
    their last. *)
Inductive cmd :=
| EXEC (argv : list (nat * nat))
| REDIR (c : cmd) (file efile : nat) (mode fd : Z)
| PIPE (left right : cmd)
| LIST (left right : cmd)
| BACK (c : cmd).

(** ** Tokens *)

Definition whitespace : list Z := Eval cbv in [32; 9; 13; 10; 11].
Definition symbols : list Z := Eval cbv in str "<|>&;()".

(** [strchr] used as a test; it does not find the nul. *)
Definition is_in (set : list Z) (c : Z) : bool := match ustrchr set c with Some _ => true | None => false end.

Fixpoint skip_ws (s : list Z) : list Z :=
  match s with
  | c :: s' => if is_in whitespace c then skip_ws s' else s
  | [] => []
  end.
Fixpoint skip_word (s : list Z) : list Z :=
  match s with
  | c :: s' => if negb (is_in whitespace c) && negb (is_in symbols c) then skip_word s' else s
  | [] => []
  end.

(** The token, its first byte, the byte after it, and where the parser goes on. *)
Record token := mkToken { t_ret : Z; t_q : list Z; t_eq : list Z; t_rest : list Z }.

Definition gettoken (s : list Z) : token :=
  let s := skip_ws s in
  let '(ret, e) :=
    match s with
    | [] => (0, s)
    | c :: s1 =>
        if existsb (Z.eqb c) (str "|();&<") then (c, s1)
        else if c =? ch ">" then
          match s1 with
          | c1 :: s2 => if c1 =? ch ">" then (ch "+", s2) else (c, s1)
          | [] => (c, s1)
          end
        else (ch "a", skip_word s)
    end in
  mkToken ret s e (skip_ws e).

Definition peek (s toks : list Z) : bool * list Z :=
  let s := skip_ws s in
  (match s with c :: _ => is_in toks c | [] => false end, s).

(** ** The parser *)

Inductive pres (A : Type) := POk (a : A) (s : list Z) | PPanic (msg : list Z) | PFuel.
Arguments POk {A} a s.
Arguments PPanic {A} msg.
Arguments PFuel {A}.

Definition parser (A : Type) := list Z -> pres A.
#[export] Instance parser_ret : MRet parser := fun A a s => POk a s.
#[export] Instance parser_bind : MBind parser := fun A B f m s =>
  match m s with
  | POk a s => f a s
  | PPanic msg => PPanic msg
  | PFuel => PFuel
  end.
Definition ppanic {A} (msg : string) : parser A := fun _ => PPanic (str msg).
Definition pfuel {A} : parser A := fun _ => PFuel.
Definition ppeek (toks : string) : parser bool := fun s => let '(b, s) := peek s (str toks) in POk b s.
Definition ptoken : parser token := fun s => let t := gettoken s in POk t (t_rest t).

Section parser.
(** The length of the line; a suffix is at the offset that is missing to it. *)
Context (len : nat).
Definition off (s : list Z) : nat := len - length s.

Fixpoint parseredirs (fuel : nat) (c : cmd) : parser cmd :=
  match fuel with
  | O => pfuel
  | S fuel =>
      b ← ppeek "<>";
      if b : bool then
        tok ← ptoken;
        w ← ptoken;
        if negb (t_ret w =? ch "a") then ppanic "missing file for redirection"
        else
          let q := off (t_q w) in let eq := off (t_eq w) in
          let c :=
            if t_ret tok =? ch "<" then REDIR c q eq O_RDONLY 0
            else if t_ret tok =? ch ">" then REDIR c q eq (Z.lor (Z.lor O_WRONLY O_CREATE) O_TRUNC) 1
            else if t_ret tok =? ch "+" then REDIR c q eq (Z.lor O_WRONLY O_CREATE) 1
            else c in
          parseredirs fuel c
      else mret c
  end.

Fixpoint back_loop (fuel : nat) (c : cmd) : parser cmd :=
  match fuel with
  | O => pfuel
  | S fuel =>
      b ← ppeek "&";
      if b : bool then ptoken;; back_loop fuel (BACK c) else mret c
  end.

(** [parseredirs] wraps the command whose arguments are still being read, so
    the arguments are put into place at the end. *)
Fixpoint set_argv (argv : list (nat * nat)) (c : cmd) : cmd :=
  match c with
  | EXEC _ => EXEC argv
  | REDIR c f ef mode fd => REDIR (set_argv argv c) f ef mode fd
  | _ => c
  end.

Fixpoint arg_loop (fuel : nat) (argv : list (nat * nat)) (ret : cmd) : parser cmd :=
  match fuel with
  | O => pfuel
  | S fuel =>
      b ← ppeek "|)&;";
      if b : bool then mret (set_argv argv ret)
      else
        tok ← ptoken;
        if t_ret tok =? 0 then mret (set_argv argv ret)
        else if negb (t_ret tok =? ch "a") then ppanic "syntax"
        else
          let argv := argv ++ [(off (t_q tok), off (t_eq tok))] in
          if Nat.leb MAXARGS (length argv) then ppanic "too many args"
          else
            ret ← parseredirs fuel ret;
            arg_loop fuel argv ret
  end.

Fixpoint parseline (fuel : nat) : parser cmd :=
  match fuel with
  | O => pfuel
  | S fuel =>
      c ← parsepipe fuel;
      c ← back_loop fuel c;
      b ← ppeek ";";
      if b : bool then
        ptoken;;
        r ← parseline fuel;
        mret (LIST c r)
      else mret c
  end
with parsepipe (fuel : nat) : parser cmd :=
  match fuel with
  | O => pfuel
  | S fuel =>
      c ← parseexec fuel;
      b ← ppeek "|";
      if b : bool then
        ptoken;;
        r ← parsepipe fuel;
        mret (PIPE c r)
      else mret c
  end
with parseexec (fuel : nat) : parser cmd :=
  match fuel with
  | O => pfuel
  | S fuel =>
      b ← ppeek "(";
      if b : bool then parseblock fuel
      else
        ret ← parseredirs fuel (EXEC []);
        arg_loop fuel [] ret
  end
with parseblock (fuel : nat) : parser cmd :=
  match fuel with
  | O => pfuel
  | S fuel =>
      b ← ppeek "(";
      if negb b then ppanic "parseblock"
      else
        ptoken;;
        c ← parseline fuel;
        b ← ppeek ")";
        if negb b then ppanic "syntax - missing )"
        else
          ptoken;;
          parseredirs fuel c
  end.
End parser.

(** The line with the byte after each string of the command set to nul. *)
Definition put_nul (p : nat) (line : list Z) : list Z := <[p := 0]> line.
Fixpoint nulterminate (c : cmd) (line : list Z) : list Z :=
  match c with
  | EXEC argv => foldl (fun line a => put_nul (snd a) line) line argv
  | REDIR c _ efile _ _ => put_nul efile (nulterminate c line)
  | PIPE l r => nulterminate r (nulterminate l line)
  | LIST l r => nulterminate r (nulterminate l line)
  | BACK c => nulterminate c line
  end.

Definition upanic {A} (s : list Z) : uprog A := ufprintf 2 "%s\n" [VStr (Some s)];; uexit 1.

(** Enough for the depth of the recursion on a line of length [n]. *)
Definition parse_fuel (n : nat) : nat := 4 * n + 4.

(** The command and the line its strings are in. *)
Definition parse_result (s : list Z) : pres (cmd * list Z) :=
  match parseline (length s) (parse_fuel (length s)) s with
  | POk c rest => POk (c, nulterminate c (s ++ [0])) (skip_ws rest)
  | PPanic msg => PPanic msg
  | PFuel => PFuel
  end.
Definition parsecmd (s : list Z) : uprog (cmd * list Z) :=
  match parse_result s with
  | POk r [] => mret r
  | POk _ rest => ufprintf 2 "leftovers: %s\n" [VStr (Some rest)];; upanic (str "syntax")
  | PPanic msg => upanic msg
  | PFuel => UStuck
  end.

(** ** Running commands *)

Definition fork1 : uprog Z :=
  pid ← ucall CFork;
  if pid =? -1 then upanic (str "fork") else mret pid.

(** The C string at an offset of the line. *)
Definition str_at (line : list Z) (p : nat) : list Z := c_string (drop p line).

Fixpoint runcmd (line : list Z) (c : cmd) : uprog () :=
  match c with
  | EXEC [] => uexit 1
  | EXEC ((q, _) :: _ as argv) =>
      ucall (CExec (str_at line q) (map (fun a => str_at line (fst a)) argv));;
      ufprintf 2 "exec %s failed\n" [VStr (Some (str_at line q))];;
      uexit 0
  | REDIR c file _ mode fd =>
      uclose fd;;
      r ← ucall (COpen (str_at line file) mode);
      if r <? 0 then ufprintf 2 "open %s failed\n" [VStr (Some (str_at line file))];; uexit 1
      else runcmd line c
  | LIST l r =>
      pid ← fork1;
      if pid =? 0 then runcmd line l
      else
        uwait;;
        runcmd line r
  | PIPE l r =>
      '(n, (p0, p1)) ← ucall CPipe;
      if n <? 0 then upanic (str "pipe")
      else
        pid ← fork1;
        if pid =? 0 then
          uclose 1;; ucall (CDup p1);; uclose p0;; uclose p1;;
          runcmd line l
        else
          pid ← fork1;
          if pid =? 0 then
            uclose 0;; ucall (CDup p0);; uclose p0;; uclose p1;;
            runcmd line r
          else
            uclose p0;; uclose p1;;
            uwait;; uwait;;
            uexit 0
  | BACK c =>
      pid ← fork1;
      if pid =? 0 then runcmd line c else uexit 0
  end.

(** ** The main loop *)

Definition NCMD : Z := 100.

(** [None] is the end of the input. *)
Definition getcmd : uprog (option (list Z)) :=
  uwrite 2 (str "$ ");;
  l ← ugets NCMD;
  let buf := c_string l in
  match buf with
  | [] => mret None
  | _ => mret (Some buf)
  end.

(** Descriptors are opened until one is above 2 or [open] fails. *)
Fixpoint open_console (fuel : nat) : uprog () :=
  match fuel with
  | O => UStuck
  | S fuel =>
      fd ← ucall (COpen (str "console") O_RDWR);
      if fd >=? 0 then (if fd >=? 3 then uclose fd else open_console fuel) else mret tt
  end.

Fixpoint skip_blanks (l : list Z) : list Z :=
  match l with
  | c :: l' => if (c =? 32) || (c =? 9) then skip_blanks l' else l
  | [] => []
  end.

Fixpoint sh_loop (turns : nat) : uprog () :=
  match turns with
  | O => UStuck
  | S turns =>
      r ← getcmd;
      match r with
      | None => uexit 0
      | Some buf =>
          let c := skip_blanks buf in
          match c with
          | 10 :: _ => sh_loop turns
          | 99 :: 100 :: 32 :: _ =>
              let dir := drop 3 (take (length c - 1) c) in
              r ← ucall (CChdir dir);
              uwhen (r <? 0) (ufprintf 2 "cannot cd %s\n" [VStr (Some dir)]);;
              sh_loop turns
          | _ =>
              pid ← fork1;
              if pid =? 0 then
                '(t, line) ← parsecmd c;
                runcmd line t
              else
                uwait;;
                sh_loop turns
          end
      end
  end.
Definition sh_main (turns fuel : nat) : uprog () := open_console fuel;; sh_loop turns.

(** ** What the parser does *)

Definition word_char (c : Z) : bool := negb (is_in whitespace c) && negb (is_in symbols c).

(** The strings of a command. *)
Fixpoint cmd_strings (c : cmd) : list (nat * nat) :=
  match c with
  | EXEC argv => argv
  | REDIR c f ef _ _ => cmd_strings c ++ [(f, ef)]
  | PIPE l r | LIST l r => cmd_strings l ++ cmd_strings r
  | BACK c => cmd_strings c
  end.

(** Argument vectors leave room for the null pointer at their end. *)
Fixpoint argv_ok (c : cmd) : Prop :=
  match c with
  | EXEC argv => (length argv < MAXARGS)%nat
  | REDIR c _ _ _ _ | BACK c => argv_ok c
  | PIPE l r | LIST l r => argv_ok l /\ argv_ok r
  end.

(** [(q, e)] is a maximal word of the line from [q] on. *)
Definition word_at (line : list Z) (a : nat * nat) : Prop :=
  let '(q, e) := a in
  (q < e <= length line)%nat
  /\ (forall j, (q <= j < e)%nat -> exists c, line !! j = Some c /\ word_char c = true)
  /\ forall c, line !! e = Some c -> word_char c = false.

Definition cmd_ok (line : list Z) (c : cmd) : Prop := Forall (word_at line) (cmd_strings c) /\ argv_ok c.

Lemma skip_ws_suffix s : skip_ws s `suffix_of` s.
Proof. induction s as [|c s IH]; simpl; [done|]. destruct (is_in whitespace c); [by apply suffix_cons_r|done]. Qed.
Lemma skip_ws_head s c s' : skip_ws s = c :: s' -> is_in whitespace c = false.
Proof.
  induction s as [|x s IH]; simpl; [done|]. destruct (is_in whitespace x) eqn:E; [done|]. by intros [= -> ->].
Qed.
Lemma skip_word_suffix s : skip_word s `suffix_of` s.
Proof. induction s as [|c s IH]; simpl; [done|]. destruct (_ && _); [by apply suffix_cons_r|done]. Qed.

Lemma skip_word_spec s : exists w, s = w ++ skip_word s /\ Forall (fun c => word_char c = true) w
  /\ forall c r, skip_word s = c :: r -> word_char c = false.
Proof.
  induction s as [|c s (w & Hw & Hall & Hc)]; simpl; [exists []; split_and!; try done|]. fold (word_char c).
  destruct (word_char c) eqn:E.
  - exists (c :: w). simpl. rewrite <- Hw. split; [done|]. split; [by constructor|done].
  - exists []. split; [done|]. split; [constructor|]. by intros ? ? [= <- <-].
Qed.

Lemma is_in_spec set c : is_in set c = true -> c <> 0 /\ existsb (Z.eqb c) set = true.
Proof.
  unfold is_in. induction set as [|x set IH]; simpl; [done|]. destruct (Z.eqb_spec x 0); [done|].
  destruct (Z.eqb_spec x c) as [->|]; [by rewrite Z.eqb_refl|]. intros Hin. destruct (IH Hin) as [? ->]. by rewrite orb_true_r.
Qed.

Lemma symbol_cases c : is_in symbols c = true -> existsb (Z.eqb c) (str "|();&<") = true \/ c = ch ">".
Proof.
  intros [_ Hin]%is_in_spec. apply existsb_exists in Hin as (x & Hx & ->%Z.eqb_eq).
  repeat (destruct Hx as [<-|Hx]; [first [left; reflexivity | right; reflexivity]|]). done.
Qed.

Lemma skip_ws_idem s : skip_ws (skip_ws s) = skip_ws s.
Proof. induction s as [|c s IH]; simpl; [done|]. destruct (is_in whitespace c) eqn:E; [done|]. simpl. by rewrite E. Qed.

Lemma gettoken_ret s c s' : skip_ws s = c :: s' -> c <> 0 -> t_ret (gettoken s) <> 0.
Proof.
  intros E Hc. unfold gettoken. rewrite E. destruct (existsb _ _); [done|]. destruct (c =? ch ">"); [|done].
  destruct s' as [|c1 s']; [done|]. by destruct (c1 =? ch ">").
Qed.

Lemma gettoken_spec s :
  let t := gettoken s in
  t_q t `suffix_of` s /\ t_eq t `suffix_of` t_q t /\ t_rest t `suffix_of` t_eq t
  /\ (t_ret t <> 0 -> (length (t_eq t) < length s)%nat)
  /\ (t_ret t = ch "a" -> t_eq t = skip_word (t_q t) /\ (length (t_eq t) < length (t_q t))%nat).
Proof.
  unfold gettoken. pose proof (skip_ws_suffix s) as Hs. pose proof (suffix_length _ _ Hs) as Hl.
  destruct (skip_ws s) as [|c s1] eqn:E; [simpl; split_and!; try done; apply suffix_nil|].
  pose proof (skip_ws_head _ _ _ E) as Hws. simpl in Hl.
  destruct (existsb (Z.eqb c) (str "|();&<")) eqn:Es; cbn [t_q t_eq t_rest t_ret].
  { split_and!; [done|by apply suffix_cons_r|apply skip_ws_suffix|intros _; simpl in *; lia|]. intros ->. by vm_compute in Es. }
  destruct (Z.eqb_spec c (ch ">")) as [->|Hgt].
  { destruct s1 as [|c1 s2]; [|destruct (c1 =? ch ">")]; cbn [t_q t_eq t_rest t_ret];
      (split_and!; [done|first [by apply suffix_cons_r | by do 2 apply suffix_cons_r]|apply skip_ws_suffix|intros _; simpl in *; lia|done]). }
  assert (word_char c = true) as Hc.
  { unfold word_char. rewrite Hws. destruct (is_in symbols c) eqn:Ei; [|done].
    apply symbol_cases in Ei as [Ei|Ei]; [by rewrite Ei in Es|done]. }
  unfold word_char in Hc. cbn [t_q t_eq t_rest t_ret]. cbn [skip_word]. rewrite Hc.
  pose proof (suffix_length _ _ (skip_word_suffix s1)) as Hlw. simpl.
  split_and!; [done|apply suffix_cons_r, skip_word_suffix|apply skip_ws_suffix|intros _; lia|]. intros _. split; [done|lia].
Qed.

Section correct.
Context (line : list Z).
Abbreviation len := (length line).

(** A parser that starts on a suffix of the line returns on a suffix of that, with a
    result that satisfies [P], or panics. *)
Definition fine {A} (P : A -> Prop) (s : list Z) (r : pres A) : Prop :=
  match r with
  | POk a s' => s' `suffix_of` s /\ P a
  | PPanic _ => True
  | PFuel => False
  end.

Lemma fine_bind {A B} (P : A -> Prop) (Q : B -> Prop) (m : parser A) (f : A -> parser B) s :
  fine P s (m s) -> (forall a s', s' `suffix_of` s -> P a -> fine Q s' (f a s')) -> fine Q s ((m ≫= f) s).
Proof.
  unfold mbind, parser_bind. destruct (m s) as [a s'|msg|]; simpl; [|done..]. intros [Hs Ha] Hf.
  specialize (Hf a s' Hs Ha). destruct (f a s') as [b s''|msg|]; simpl in *; [|done..].
  destruct Hf as [Hs' Hb]. split; [by etrans|done].
Qed.

Lemma fine_suffix {A} (P : A -> Prop) s' s r : s' `suffix_of` s -> fine P s' r -> fine P s r.
Proof. destruct r as [a s''|msg|]; simpl; [|done..]. intros Hs [? ?]. split; [by etrans|done]. Qed.

Lemma fine_peek toks s : fine (fun b => b = true -> exists c s', skip_ws s = c :: s') s (ppeek toks s).
Proof.
  unfold ppeek, peek. simpl. split; [apply skip_ws_suffix|]. destruct (skip_ws s) as [|c s']; [done|]. by eexists _, _.
Qed.

(** Peek at a token that is there, and read it. *)
Lemma fine_peek_token {B} toks (Q : B -> Prop) (f : token -> parser B) (g : parser B) s :
  (forall t s', s' `suffix_of` s -> (length s' < length s)%nat -> fine Q s' (f t s')) ->
  (forall s', s' `suffix_of` s -> fine Q s' (g s')) ->
  fine Q s ((b ← ppeek toks; if b : bool then t ← ptoken; f t else g) s).
Proof.
  intros Hf Hg. unfold mbind, parser_bind, ppeek, peek, ptoken. pose proof (skip_ws_suffix s) as Hs.
  pose proof (skip_ws_idem s) as Hi. destruct (skip_ws s) as [|c s1] eqn:E.
  - apply (fine_suffix _ [] s _ Hs), Hg, Hs.
  - destruct (is_in (str toks) c) eqn:Ei; [|by apply (fine_suffix _ (c :: s1) s _ Hs), Hg].
    apply is_in_spec in Ei as [Hc _]. destruct (gettoken_spec (c :: s1)) as (H1 & H2 & H3 & H4 & _).
    pose proof (gettoken_ret (c :: s1) c s1 Hi Hc) as Hne. set (t := gettoken (c :: s1)) in *.
    assert (t_rest t `suffix_of` s) as Ht by (by etrans; [|etrans; [|etrans; [|done]]]).
    apply (fine_suffix _ (t_rest t) s _ Ht), Hf; [done|].
    pose proof (suffix_length _ _ H3). pose proof (suffix_length _ _ Hs). specialize (H4 Hne). lia.
Qed.

Lemma word_token s : s `suffix_of` line -> t_ret (gettoken s) = ch "a" ->
  word_at line (off len (t_q (gettoken s)), off len (t_eq (gettoken s))).
Proof.
  intros Hs Ha. destruct (gettoken_spec s) as (H1 & H2 & _ & _ & H5). destruct (H5 Ha) as [Hw Hlt].
  set (t := gettoken s) in *. destruct (skip_word_spec (t_q t)) as (w & Eq & Hall & Hend). rewrite <- Hw in Eq, Hend.
  assert (t_q t `suffix_of` line) as [pre Hpre] by (by etrans). rewrite Eq in Hpre. unfold off.
  assert (len = (length pre + length w + length (t_eq t))%nat) as Hlen by (rewrite Hpre, !length_app; lia).
  assert (length (t_q t) = (length w + length (t_eq t))%nat) as Hlq by (rewrite Eq at 1; apply length_app).
  rewrite Hlq, Hlen. replace (length pre + length w + length (t_eq t) - (length w + length (t_eq t)))%nat with (length pre) by lia.
  replace (length pre + length w + length (t_eq t) - length (t_eq t))%nat with (length pre + length w)%nat by lia.
  split_and!; [lia|lia| |].
  - intros j Hj. rewrite Hpre, lookup_app_r, lookup_app_l by lia.
    destruct (lookup_lt_is_Some_2 w (j - length pre)) as [c Hc]; [lia|]. exists c. split; [done|].
    rewrite Forall_lookup in Hall. by eapply Hall.
  - intros c. rewrite Hpre, !lookup_app_r by lia. replace (length pre + length w - length pre - length w)%nat with 0%nat by lia.
    destruct (t_eq t) as [|c' r] eqn:E; [done|]. intros [= ->]. by eapply Hend.
Qed.

Lemma fine_ptoken {B} (Q : B -> Prop) (f : token -> parser B) s :
  s `suffix_of` line ->
  (forall t s', s' `suffix_of` s -> (t_ret t <> 0 -> (length s' < length s)%nat) ->
    (t_ret t = ch "a" -> word_at line (off len (t_q t), off len (t_eq t))) -> fine Q s' (f t s')) ->
  fine Q s ((t ← ptoken; f t) s).
Proof.
  intros Hs Hf. unfold mbind, parser_bind, ptoken. destruct (gettoken_spec s) as (H1 & H2 & H3 & H4 & _).
  assert (t_rest (gettoken s) `suffix_of` s) as Ht by (by etrans; [|etrans]).
  apply (fine_suffix _ _ s _ Ht), Hf; [done| |by apply word_token].
  intros Hne. pose proof (suffix_length _ _ H3). specialize (H4 Hne). lia.
Qed.

Lemma cmd_ok_redir c q e mode fd : cmd_ok line c -> word_at line (q, e) -> cmd_ok line (REDIR c q e mode fd).
Proof. intros [Hs Ha] Hw. split; [|done]. simpl. apply Forall_app. split; [done|]. by constructor. Qed.

Lemma parseredirs_fine (P : cmd -> Prop) fuel :
  (forall c q e mode fd, P c -> word_at line (q, e) -> P (REDIR c q e mode fd)) -> forall c s,
  s `suffix_of` line -> (length s < fuel)%nat -> P c -> fine P s (parseredirs len fuel c s).
Proof.
  intros HP. induction fuel as [|fuel IH]; intros c s Hs Hfu Hc; [lia|]. cbn [parseredirs]. apply fine_peek_token.
  - intros tok s1 Hs1 Hl1. apply fine_ptoken; [by etrans|]. intros w s2 Hs2 _ Hw.
    destruct (Z.eqb_spec (t_ret w) (ch "a")) as [Ha|]; simpl negb; cbv iota; [|done]. specialize (Hw Ha).
    pose proof (suffix_length _ _ Hs2). apply IH; [by do 2 (etrans; [eassumption|])|lia|].
    repeat match goal with |- context [if ?b then _ else _] => destruct b end; try done; by apply HP.
  - intros s1 Hs1. by split.
Qed.

Lemma back_loop_fine fuel : forall c s, s `suffix_of` line -> (length s < fuel)%nat -> cmd_ok line c -> fine (cmd_ok line) s (back_loop fuel c s).
Proof.
  induction fuel as [|fuel IH]; intros c s Hs Hfu Hc; [lia|]. cbn [back_loop]. apply (fine_peek_token _ _ (fun _ => back_loop fuel (BACK c))).
  - intros tok s1 Hs1 Hl1. apply IH; [by etrans|lia|done].
  - intros s1 Hs1. by split.
Qed.

(** The command being built: redirections around an argument vector that is not in place yet. *)
Fixpoint redirs_only (c : cmd) : Prop :=
  match c with
  | EXEC argv => argv = []
  | REDIR c q e _ _ => redirs_only c /\ word_at line (q, e)
  | _ => False
  end.
Lemma redirs_only_ok argv c : redirs_only c -> Forall (word_at line) argv -> (length argv < MAXARGS)%nat -> cmd_ok line (set_argv argv c).
Proof.
  intros Hc Ha Hl. induction c as [argv'|c IH q e mode fd| | |]; simpl in *; try done.
  destruct Hc as [Hc Hw]. by apply cmd_ok_redir; [apply IH|].
Qed.


Lemma arg_loop_fine fuel : forall argv c s,
  s `suffix_of` line -> (length s < fuel)%nat -> redirs_only c -> Forall (word_at line) argv -> (length argv < MAXARGS)%nat ->
  fine (cmd_ok line) s (arg_loop len fuel argv c s).
Proof.
  induction fuel as [|fuel IH]; intros argv c s Hs Hfu Hc Ha Hl; [lia|]. cbn [arg_loop].
  eapply fine_bind; [apply (fine_peek "|)&;" s)|]. intros b s1 Hs1 _. pose proof (suffix_length _ _ Hs1).
  destruct b; [split; [done|by apply redirs_only_ok]|].
  apply fine_ptoken; [by etrans|]. intros tok s2 Hs2 Hlt Hw. destruct (Z.eqb_spec (t_ret tok) 0); [split; [done|by apply redirs_only_ok]|].
  destruct (Z.eqb_spec (t_ret tok) (ch "a")) as [Hta|]; simpl negb; cbv iota; [|done]. cbv zeta.
  destruct (Nat.leb_spec MAXARGS (length (argv ++ [(off len (t_q tok), off len (t_eq tok))]))) as [|Hl']; [done|].
  assert (s2 `suffix_of` line) as Hs2' by (by do 2 (etrans; [eassumption|])). specialize (Hlt ltac:(done)).
  eapply fine_bind; [apply (parseredirs_fine redirs_only fuel); [done|done|lia|done]|].
  intros c' s3 Hs3 Hc'. pose proof (suffix_length _ _ Hs3). apply IH; [by etrans|lia|done| |done].
  apply Forall_app. split; [done|]. constructor; [by apply Hw|done].
Qed.

Lemma parser_fine fuel : forall s, s `suffix_of` line ->
  ((4 * length s + 4 <= fuel)%nat -> fine (cmd_ok line) s (parseline len fuel s))
  /\ ((4 * length s + 3 <= fuel)%nat -> fine (cmd_ok line) s (parsepipe len fuel s))
  /\ ((4 * length s + 2 <= fuel)%nat -> fine (cmd_ok line) s (parseexec len fuel s))
  /\ ((4 * length s + 1 <= fuel)%nat -> fine (cmd_ok line) s (parseblock len fuel s)).
Proof.
  induction fuel as [|fuel IH]; intros s Hs; [split_and!; lia|]. split_and!; intros Hfu.
  - cbn [parseline]. eapply fine_bind; [apply IH; [done|lia]|]. intros c s1 Hs1 Hc. pose proof (suffix_length _ _ Hs1).
    eapply fine_bind; [apply back_loop_fine; [by etrans|lia|done]|]. intros c' s2 Hs2 Hc'. pose proof (suffix_length _ _ Hs2).
    assert (s2 `suffix_of` line) as Hs2' by (by do 2 (etrans; [eassumption|])).
    apply (fine_peek_token ";" _ (fun _ => r ← parseline len fuel; mret (LIST c' r))); [|intros s3 ?; by split].
    intros _ s3 Hs3 Hl3. eapply fine_bind; [apply IH; [by etrans|lia]|]. intros r s4 Hs4 [Hr1 Hr2]. split; [done|].
    destruct Hc'. split; [by apply Forall_app|done].
  - cbn [parsepipe]. eapply fine_bind; [apply IH; [done|lia]|]. intros c s1 Hs1 Hc. pose proof (suffix_length _ _ Hs1).
    apply (fine_peek_token "|" _ (fun _ => r ← parsepipe len fuel; mret (PIPE c r))); [|intros s3 ?; by split].
    intros _ s3 Hs3 Hl3. eapply fine_bind; [apply IH; [by do 2 (etrans; [eassumption|])|lia]|].
    intros r s4 Hs4 [Hr1 Hr2]. split; [done|]. destruct Hc. split; [by apply Forall_app|done].
  - cbn [parseexec]. eapply fine_bind; [apply (fine_peek "(" s)|]. intros b s1 Hs1 _. pose proof (suffix_length _ _ Hs1).
    assert (s1 `suffix_of` line) as Hs1' by (by etrans). destruct b; [apply IH; [done|lia]|].
    eapply fine_bind; [apply (parseredirs_fine redirs_only fuel); [done|done|lia|done]|]. intros c s2 Hs2 Hc.
    pose proof (suffix_length _ _ Hs2). apply arg_loop_fine; [by etrans|lia|done|constructor|unfold MAXARGS; simpl; lia].
  - cbn [parseblock].
    assert (forall m : parser cmd, (b ← ppeek "("; if negb b then ppanic "parseblock" else m) s
      = (b ← ppeek "("; if b : bool then m else ppanic "parseblock") s) as ->.
    { intros m. unfold mbind, parser_bind. by destruct (ppeek "(" s) as [[]| |]. }
    apply (fine_peek_token "(" _ (fun _ => _)); [|done]. intros _ s1 Hs1 Hl1. assert (s1 `suffix_of` line) as Hs1' by (by etrans).
    eapply fine_bind; [apply IH; [done|lia]|]. intros c s2 Hs2 Hc. pose proof (suffix_length _ _ Hs2).
    eapply fine_bind; [apply (fine_peek ")" s2)|]. intros b s3 Hs3 _. destruct b; [|done]. pose proof (suffix_length _ _ Hs3).
    simpl negb. cbv iota. assert (s3 `suffix_of` line) as Hs3' by (by do 2 (etrans; [eassumption|])).
    apply fine_ptoken; [done|]. intros t s4 Hs4 _ _. pose proof (suffix_length _ _ Hs4).
    apply parseredirs_fine; [intros; by apply cmd_ok_redir|by etrans|lia|done].
Qed.
End correct.

(** C18: On every line the parser returns a command or panics: the bound on its
    recursion is never reached. *)
Theorem parsecmd_terminates s : parse_result s <> PFuel.
Proof.
  unfold parse_result. destruct (parser_fine s (parse_fuel (length s)) s) as [Hf _]; [done|].
  specialize (Hf ltac:(unfold parse_fuel; lia)). by destruct (parseline _ _ _).
Qed.

(** ** The strings of a command *)

Lemma put_nul_lookup p line j : (p < length line)%nat -> put_nul p line !! j = if decide (j = p) then Some 0 else line !! j.
Proof.
  intros Hp. unfold put_nul. case_decide; [subst; by apply list_lookup_insert_eq|by apply list_lookup_insert_ne].
Qed.
Lemma length_put_nul p line : length (put_nul p line) = length line.
Proof. apply length_insert. Qed.

Lemma put_nuls_lookup argv j : forall line, Forall (fun a => snd a < length line)%nat argv ->
  length (foldl (fun line a => put_nul (snd a) line) line argv) = length line
  /\ foldl (fun line (a : nat * nat) => put_nul (snd a) line) line argv !! j = if decide (j ∈ argv.*2) then Some 0 else line !! j.
Proof.
  induction argv as [|[q e] argv IH]; intros line Hl; [split; [done|]; case_decide as Hd; [by apply not_elem_of_nil in Hd|done]|].
  cbn [foldl snd].
  apply Forall_cons in Hl as [He Hl]. simpl in He. destruct (IH (put_nul e line)) as [E1 E2]; [by rewrite length_put_nul|].
  rewrite E1, length_put_nul, E2, put_nul_lookup by done. split; [done|].
  repeat case_decide; try done; set_solver.
Qed.

(** [nulterminate] changes the line exactly at the ends of the strings. *)
Lemma nulterminate_lookup c j : forall line, Forall (fun a => snd a < length line)%nat (cmd_strings c) ->
  length (nulterminate c line) = length line
  /\ nulterminate c line !! j = if decide (j ∈ (cmd_strings c).*2) then Some 0 else line !! j.
Proof.
  induction c as [argv|c IH q e mode fd|l IHl r IHr|l IHl r IHr|c IH]; intros line; cbn [nulterminate cmd_strings].
  - apply put_nuls_lookup.
  - intros [Hc He]%Forall_app. apply Forall_cons in He as [He _]. simpl in He. destruct (IH line Hc) as [E1 E2].
    rewrite length_put_nul, put_nul_lookup, E1, E2 by lia. split; [done|]. rewrite fmap_app. simpl. repeat case_decide; try done; set_solver.
  - intros [Hl Hr]%Forall_app. destruct (IHl line Hl) as [E1 E2]. rewrite <- E1 in Hr.
    destruct (IHr (nulterminate l line) Hr) as [E3 E4]. rewrite E3, E4, E1, E2. split; [done|].
    rewrite fmap_app. repeat case_decide; try done; set_solver.
  - intros [Hl Hr]%Forall_app. destruct (IHl line Hl) as [E1 E2]. rewrite <- E1 in Hr.
    destruct (IHr (nulterminate l line) Hr) as [E3 E4]. rewrite E3, E4, E1, E2. split; [done|].
    rewrite fmap_app. repeat case_decide; try done; set_solver.
  - apply IH.
Qed.

Lemma c_string_spec n : forall l, (forall j, (j < n)%nat -> exists c, l !! j = Some c /\ c <> 0) -> l !! n = Some 0 -> c_string l = take n l.
Proof.
  induction n as [|n IH]; intros l Hl Hn.
  - destruct l as [|c l]; [done|]. injection Hn as ->. done.
  - destruct (Hl 0%nat ltac:(lia)) as (c & Hc & Hne). destruct l as [|c' l]; [done|]. injection Hc as ->. simpl.
    rewrite (proj2 (Z.eqb_neq c 0)) by done. f_equal. apply IH; [|done]. intros j Hj. exact (Hl (S j) ltac:(lia)).
Qed.

(** C17: Every string of a parsed command is a word of the line, and after [nulterminate] it
    reads as exactly that word; argument vectors keep their terminator. *)
Theorem parsecmd_strings s c line rest :
  Forall (fun x => x <> 0) s -> parse_result s = POk (c, line) rest ->
  argv_ok c /\ Forall (fun '(q, e) => (q < e <= length s)%nat /\ str_at line q = take (e - q) (drop q s)
    /\ Forall (fun x => word_char x = true) (str_at line q)) (cmd_strings c).
Proof.
  intros Hnz Hp. unfold parse_result in Hp. destruct (parser_fine s (parse_fuel (length s)) s) as [Hf _]; [done|].
  specialize (Hf ltac:(unfold parse_fuel; lia)). destruct (parseline (length s) (parse_fuel (length s)) s) as [c' s'|msg|]; [|done..].
  destruct Hf as [_ [Hst Har]]. injection Hp as -> <- _. split; [done|].
  assert (Forall (fun a => snd a < length (s ++ [0%Z]))%nat (cmd_strings c)) as Hb.
  { eapply Forall_impl; [exact Hst|]. intros [q e] [? _]. rewrite length_app. simpl. lia. }
  assert (forall j, nulterminate c (s ++ [0]) !! j = if decide (j ∈ (cmd_strings c).*2) then Some 0 else (s ++ [0]) !! j) as Hlk
    by (intros j; by apply nulterminate_lookup).
  apply Forall_forall. intros [q e] Hin. pose proof (proj1 (Forall_forall _ _) Hst _ Hin) as (Hr & Hw & He). cbv iota.
  assert (forall j, (q <= j < e)%nat -> exists x, nulterminate c (s ++ [0]) !! j = Some x /\ s !! j = Some x /\ word_char x = true) as Hin'.
  { intros j Hj. destruct (Hw j Hj) as (x & Hx & Hwx). exists x. rewrite Hlk, decide_False; [by rewrite lookup_app_l by lia|].
    intros ([q' e'] & -> & Hin')%list_elem_of_fmap. pose proof (proj1 (Forall_forall _ _) Hst _ Hin') as (_ & _ & He').
    simpl in Hx. specialize (He' x Hx). congruence. }
  assert (str_at (nulterminate c (s ++ [0])) q = take (e - q) (drop q s)) as E.
  { unfold str_at. rewrite (c_string_spec (e - q)).
    - apply list_eq. intros j. destruct (decide (j < e - q)%nat); [|by rewrite !lookup_take_ge by lia].
      rewrite !lookup_take_lt, !lookup_drop by done. destruct (Hin' (q + j)%nat) as (x & -> & -> & _); [lia|done].
    - intros j Hj. rewrite lookup_drop. destruct (Hin' (q + j)%nat) as (x & -> & Hx & _); [lia|]. exists x. split; [done|].
      rewrite Forall_lookup in Hnz. by eapply Hnz.
    - rewrite lookup_drop, Hlk. replace (q + (e - q))%nat with e by lia. rewrite decide_True; [done|].
      apply list_elem_of_fmap. by exists (q, e). }
  split; [done|]. split; [done|]. rewrite E. apply Forall_lookup. intros j x. rewrite lookup_take_Some, lookup_drop. intros [Hx Hj].
  destruct (Hin' (q + j)%nat) as (y & _ & Hy & ?); [lia|]. congruence.
Qed.

Lemma parsecmd_strings_witness :
  exists c line, parse_result (str "ls -l|(grep x<f; wc)>>out &") = POk (c, line) []
    /\ c = BACK (PIPE (EXEC [(0, 2); (3, 5)]%nat)
         (REDIR (LIST (REDIR (EXEC [(7, 11); (12, 13)]%nat) 14 15 O_RDONLY 0) (EXEC [(17, 19)]%nat)) 22 25 513 1))
    /\ str_at line 12 = str "x" /\ argv_ok c.
Proof.
  destruct (parse_result (str "ls -l|(grep x<f; wc)>>out &")) as [[c line] rest|msg|] eqn:E; [|vm_compute in E; discriminate..].
  destruct (parsecmd_strings (str "ls -l|(grep x<f; wc)>>out &") c line rest) as [Ha Hs].
  - apply (bool_decide_unpack _). vm_compute. exact I.
  - exact E.
  - vm_compute in E. injection E as <- <- <-. eexists _, _. split; [reflexivity|]. split; [reflexivity|]. split; [|exact Ha].
    vm_compute. reflexivity.
Defined.
