(* ===== verification/Umalloc.v ===== *)
(** * The user memory allocator

    [user/umalloc.c].  Addresses are counted in headers of 16 bytes, so a
    [Header *] is an integer and [p + 1] is the next header.  The memory maps
    an address to the two fields of the header there.  The free blocks form a
    ring in the order of their addresses that starts and ends at the static
    header [base]. *)

From stdpp Require Import base numbers gmap sets strings option list.
From Stdlib Require Import FunctionalExtensionality.
From S2P Require Import Prelude Machine User Ulib.

Definition HEADER : Z := 16.

Record header := mkHeader { h_ptr : Z; h_size : Z }.

(** Memory, and [freep]; the null pointer is 0. *)
Record heap := mkHeap { h_mem : Z -> header; h_freep : Z }.

Definition hput (a : Z) (x : header) (m : Z -> header) : Z -> header := fun b => if b =? a then x else m b.
Definition set_ptr (a v : Z) (m : Z -> header) : Z -> header := hput a (mkHeader v (h_size (m a))) m.
Definition set_size (a v : Z) (m : Z -> header) : Z -> header := hput a (mkHeader (h_ptr (m a)) v) m.

Section alloc.
(** The address of the static header. *)
Context (base : Z).

(** ** free *)

(** [bp > p && bp < p->s.ptr], or [p] is the last block and [bp] lies beyond either end. *)
Definition free_here (m : Z -> header) (bp p : Z) : bool :=
  let nx := h_ptr (m p) in
  ((bp >? p) && (bp <? nx)) || ((p >=? nx) && ((bp >? p) || (bp <? nx))).

Fixpoint free_find (fuel : nat) (m : Z -> header) (bp p : Z) : option Z :=
  match fuel with
  | O => None
  | S fuel => if free_here m bp p then Some p else free_find fuel m bp (h_ptr (m p))
  end.

Definition free (fuel : nat) (ap : Z) (h : heap) : option heap :=
  let bp := ap - 1 in
  let m := h_mem h in
  p ← free_find fuel m bp (h_freep h);
  let nx := h_ptr (m p) in
  let m :=
    if bp + h_size (m bp) =? nx
    then set_ptr bp (h_ptr (m nx)) (set_size bp (h_size (m bp) + h_size (m nx)) m)
    else set_ptr bp nx m in
  let m :=
    if p + h_size (m p) =? bp
    then set_ptr p (h_ptr (m bp)) (set_size p (h_size (m p) + h_size (m bp)) m)
    else set_ptr p bp m in
  Some (mkHeap m p).

(** ** malloc *)

Definition morecore (fuel : nat) (nu : Z) (h : heap) : uprog (Z * heap) :=
  let nu := if nu <? 4096 then 4096 else nu in
  p ← usbrk (i32 (nu * HEADER));
  if p =? SBRK_ERROR then mret (0, h)
  else
    let hp := p / HEADER in
    match free fuel (hp + 1) (mkHeap (set_size hp nu (h_mem h)) (h_freep h)) with
    | Some h => mret (h_freep h, h)
    | None => UStuck
    end.

(** The block [p] is unlinked, or its tail is cut off. *)
Definition carve (nunits prevp p : Z) (h : heap) : Z * heap :=
  let m := h_mem h in
  if h_size (m p) =? nunits then (p + 1, mkHeap (set_ptr prevp (h_ptr (m p)) m) prevp)
  else
    let m := set_size p (h_size (m p) - nunits) m in
    let p := p + h_size (m p) in
    (p + 1, mkHeap (set_size p nunits m) prevp).

Fixpoint malloc_loop (fuel : nat) (nunits prevp p : Z) (h : heap) : uprog (Z * heap) :=
  match fuel with
  | O => UStuck
  | S fuel =>
      let m := h_mem h in
      if h_size (m p) >=? nunits then mret (carve nunits prevp p h)
      else if p =? h_freep h then
        '(p, h) ← morecore fuel nunits h;
        if p =? 0 then mret (0, h) else malloc_loop fuel nunits p (h_ptr (h_mem h p)) h
      else malloc_loop fuel nunits p (h_ptr (m p)) h
  end.

Definition malloc (fuel : nat) (nbytes : Z) (h : heap) : uprog (Z * heap) :=
  let nunits := (nbytes + HEADER - 1) / HEADER + 1 in
  let h := if h_freep h =? 0 then mkHeap (hput base (mkHeader base 0) (h_mem h)) base else h in
  malloc_loop fuel nunits (h_freep h) (h_ptr (h_mem h (h_freep h))) h.

(** ** The ring of free blocks *)

(** A block: its header and its size in headers. *)
Abbreviation block := (Z * Z)%type.
Definition first (l : list block) (z : Z) : Z := match l with [] => z | (a, _) :: _ => a end.

(** The blocks [l] are linked one after the other, the last to [z]. *)
Fixpoint seg (m : Z -> header) (l : list block) (z : Z) : Prop :=
  match l with
  | [] => True
  | (a, s) :: l => m a = mkHeader (first l z) s /\ seg m l z
  end.

(** Blocks in the order of their addresses, from [lo] on, that do not overlap. *)
Fixpoint sorted (lo : Z) (l : list block) : Prop :=
  match l with
  | [] => True
  | (a, s) :: l => lo <= a /\ 0 < s /\ sorted (a + s) l
  end.

(** Unit [u] belongs to one of the blocks. *)
Definition unit_of (l : list block) (u : Z) : Prop := exists a s, (a, s) ∈ l /\ a <= u < a + s.

Record ring (h : heap) (l : list block) : Prop := {
  rg_base : 0 < base;
  rg_seg : seg (h_mem h) ((base, 0) :: l) base;
  rg_sorted : sorted (base + 1) l;
  rg_freep : exists s, (h_freep h, s) ∈ (base, 0) :: l
}.

Lemma first_app l1 l2 z : first (l1 ++ l2) z = first l1 (first l2 z).
Proof. by destruct l1 as [|[]]. Qed.

Lemma seg_app m l1 l2 z : seg m (l1 ++ l2) z <-> seg m l1 (first l2 z) /\ seg m l2 z.
Proof. induction l1 as [|[a s] l1 IH]; simpl; [tauto|]. rewrite IH, first_app. tauto. Qed.

Lemma seg_hput m a x l z : a ∉ l.*1 -> seg (hput a x m) l z <-> seg m l z.
Proof.
  induction l as [|[b s] l IH]; simpl; [done|]. intros Ha. rewrite IH by set_solver.
  unfold hput at 1. rewrite (proj2 (Z.eqb_neq b a)) by set_solver. done.
Qed.

Lemma hput_eq a x m : hput a x m a = x.
Proof. unfold hput. by rewrite Z.eqb_refl. Qed.
Lemma hput_ne a x m b : b <> a -> hput a x m b = m b.
Proof. intros. unfold hput. by rewrite (proj2 (Z.eqb_neq b a)). Qed.

Lemma sorted_weaken lo lo' l : lo' <= lo -> sorted lo l -> sorted lo' l.
Proof. destruct l as [|[]]; simpl; [done|]. intros ? (? & ? & ?). split; [lia|done]. Qed.
Lemma sorted_bound lo l a s : sorted lo l -> (a, s) ∈ l -> lo <= a /\ 0 < s.
Proof.
  revert lo. induction l as [|[b t] l IH]; intros lo; [by intros _ ?%not_elem_of_nil|]. simpl.
  intros (? & ? & Hs) [[= -> ->]|Hin]%elem_of_cons; [done|]. destruct (IH _ Hs Hin). lia.
Qed.
(** All blocks end at [hi] or before. *)
Definition below (hi : Z) (l : list block) : Prop := Forall (fun '(a, s) => a + s <= hi) l.
Lemma sorted_app lo l1 l2 : sorted lo (l1 ++ l2) <->
  sorted lo l1 /\ exists hi, lo <= hi /\ below hi l1 /\ sorted hi l2.
Proof.
  revert lo. induction l1 as [|[a s] l1 IH]; intros lo; simpl.
  - split; [intros H; split; [done|]; exists lo; split; [lia|]; split; [constructor|done]|].
    intros [_ (hi & ? & _ & ?)]. by apply (sorted_weaken hi).
  - rewrite IH. split.
    + intros (? & ? & Hs & hi & ? & Hb & ?). split; [done|]. exists hi. split; [lia|]. split; [|done]. constructor; [lia|done].
    + intros [(? & ? & ?) (hi & ? & Hb & ?)]. apply Forall_cons in Hb as [? ?]. do 3 (split; [done|]). exists hi. done.
Qed.

(** Addresses increase along the ring. *)
Lemma sorted_lt lo l1 a s l2 b t l3 : sorted lo (l1 ++ (a, s) :: l2 ++ (b, t) :: l3) -> a + s <= b.
Proof.
  intros (_ & hi & _ & _ & Hs)%sorted_app. simpl in Hs. destruct Hs as (_ & _ & (_ & hi' & ? & _ & Hs)%sorted_app).
  simpl in Hs. lia.
Qed.

Lemma ring_lt l l1 a s l2 b t l3 :
  sorted (base + 1) l -> (base, 0) :: l = l1 ++ (a, s) :: l2 ++ (b, t) :: l3 -> a < b.
Proof.
  intros Hs E. destruct l1 as [|x l1]; simpl in E.
  - injection E as <- <- ->. destruct (sorted_bound _ _ b t Hs); [set_solver|lia].
  - injection E as _ ->. pose proof (sorted_lt _ _ _ _ _ _ _ _ Hs). destruct (sorted_bound _ _ a s Hs); [set_solver|lia].
Qed.

Lemma ring_ge l a s : sorted (base + 1) l -> (a, s) ∈ (base, 0) :: l -> base <= a.
Proof. intros Hs [[= -> ->]|Hin]%elem_of_cons; [lia|]. destruct (sorted_bound _ _ a s Hs Hin). lia. Qed.

Lemma seg_at m l a s l2 z : seg m (l ++ (a, s) :: l2) z -> m a = mkHeader (first l2 z) s.
Proof. intros [_ Hs]%seg_app. apply Hs. Qed.
Lemma seg_size m l a s z : seg m l z -> (a, s) ∈ l -> h_size (m a) = s.
Proof. intros Hs (l1 & l2 & ->)%list_elem_of_split. by rewrite (seg_at _ _ _ _ _ _ Hs). Qed.

(** The blocks before [bp] and those behind the block that starts there. *)
Lemma split_blocks lo l bp s : sorted lo l -> (forall a t, (a, t) ∈ l -> bp + s <= a \/ a + t <= bp) ->
  exists k1 k2, l = k1 ++ k2 /\ below bp k1 /\ sorted (bp + s) k2.
Proof.
  revert lo. induction l as [|[a t] l IH]; intros lo Hs Hd; [exists [], []; split_and!; done || constructor|].
  simpl in Hs. destruct Hs as (? & ? & Hs). destruct (Z_le_gt_dec (a + t) bp).
  - destruct (IH _ Hs) as (k1 & k2 & -> & ? & ?); [intros; apply Hd; by right|]. exists ((a, t) :: k1), k2. split; [done|]. split; [by constructor|done].
  - exists [], ((a, t) :: l). split; [done|]. split; [constructor|]. destruct (Hd a t ltac:(by left)); [|lia].
    simpl. done.
Qed.

Section find.
Context (m : Z -> header) (l : list block) (bp : Z).
Context (Hseg : seg m ((base, 0) :: l) base) (Hsort : sorted (base + 1) l) (Hbp : base < bp).
Context (l1 : list block) (p ps : Z) (k2 : list block).
Context (HL : (base, 0) :: l = l1 ++ (p, ps) :: k2) (Hp : p < bp) (Hk2 : forall a t, (a, t) ∈ k2 -> bp < a).

Lemma free_here_yes : free_here m bp p = true.
Proof.
  unfold free_here. rewrite HL in Hseg. rewrite (seg_at _ _ _ _ _ _ Hseg). simpl.
  assert (base <= p) as Hb by (apply (ring_ge l p ps Hsort); rewrite HL; set_solver).
  destruct k2 as [|[a t] k2']; simpl.
  - apply orb_true_iff. right. apply andb_true_iff. split; [apply Z.geb_le; lia|]. apply orb_true_iff. left. apply Z.gtb_lt. lia.
  - apply orb_true_iff. left. apply andb_true_iff. specialize (Hk2 a t ltac:(set_solver)). split; [apply Z.gtb_lt|apply Z.ltb_lt]; lia.
Qed.

Lemma free_here_no e s : (e, s) ∈ (base, 0) :: l -> e <> p -> free_here m bp e = false.
Proof.
  intros Hin Hne. pose proof (ring_ge l e s Hsort Hin) as Hb. unfold free_here.
  assert (forall nx, h_ptr (m e) = nx -> (e < nx /\ nx <= p) \/ (bp < e /\ (e < nx \/ nx = base)) ->
    (bp >? e) && (bp <? nx) || (e >=? nx) && ((bp >? e) || (bp <? nx)) = false) as Hcase.
  { intros nx _ Hnx. apply orb_false_iff. rewrite !andb_false_iff, orb_false_iff, Z.ltb_ge, Z.geb_leb, Z.gtb_ltb, Z.ltb_ge, Z.leb_gt. lia. }
  apply Hcase; [done|]. rewrite HL in Hin, Hseg. apply elem_of_app in Hin as [Hin|[[= -> ->]|Hin]%elem_of_cons]; [|done|].
  - left. apply list_elem_of_split in Hin as (a & b & ->). rewrite <- app_assoc in Hseg, HL. simpl in Hseg, HL.
    rewrite (seg_at _ _ _ _ _ _ Hseg). simpl. destruct b as [|[f t] b]; simpl in *.
    + split; [|lia]. apply (ring_lt l a e s [] p ps k2 Hsort). done.
    + split; [apply (ring_lt l a e s [] f t (b ++ (p, ps) :: k2) Hsort); done|].
      pose proof (ring_lt l (a ++ [(e, s)]) f t b p ps k2 Hsort) as Hlt. rewrite <- app_assoc in Hlt. specialize (Hlt HL). lia.
  - right. split; [by apply (Hk2 e s)|]. apply list_elem_of_split in Hin as (a & b & Ek). rewrite Ek in Hseg, HL.
    rewrite app_comm_cons, app_assoc in Hseg, HL. rewrite (seg_at _ _ _ _ _ _ Hseg). simpl.
    destruct b as [|[f t] b]; simpl; [by right|left]. apply (ring_lt l _ e s [] f t b Hsort HL).
Qed.

Lemma find_walk r1 r2 : forall z,
  seg m (r1 ++ (p, ps) :: r2) z -> (forall e s, (e, s) ∈ r1 -> (e, s) ∈ (base, 0) :: l /\ e <> p) ->
  free_find (S (length r1)) m bp (first (r1 ++ (p, ps) :: r2) z) = Some p.
Proof.
  induction r1 as [|[e s] r1 IH]; intros z Hs Hr; [cbn [free_find app first length]; by rewrite free_here_yes|].
  destruct (Hr e s ltac:(set_solver)) as [Hin Hne]. cbn [length free_find app first].
  rewrite (free_here_no e s Hin Hne). simpl in Hs. destruct Hs as [-> Hs]. cbn [h_ptr].
  apply (IH z Hs). intros; apply Hr; set_solver.
Qed.

Lemma free_find_ok f sf fuel : (f, sf) ∈ (base, 0) :: l -> (S (length l) <= fuel)%nat -> free_find fuel m bp f = Some p.
Proof.
  intros (a & b & E)%list_elem_of_split Hfu.
  assert (seg m ((f, sf) :: b ++ a) f) as Hrot.
  { rewrite E in Hseg. apply seg_app in Hseg as [Ha Hb]. change ((f, sf) :: b ++ a) with (((f, sf) :: b) ++ a). apply seg_app.
    assert (first (a ++ (f, sf) :: b) base = base) as Ef by (by rewrite <- E).
    split; [|exact Ha]. destruct a as [|[x xs] a]; simpl in Ef; [simpl; by subst|]. subst x. exact Hb. }
  assert ((p, ps) ∈ (f, sf) :: b ++ a) as Hin.
  { assert ((p, ps) ∈ (base, 0) :: l) as Hin by (rewrite HL; set_solver). rewrite E in Hin. set_solver. }
  apply list_elem_of_split_l in Hin as (r1 & r2 & Er & Hn).
  assert (length ((base, 0) :: l) = length ((f, sf) :: b ++ a)) as Hlen by (rewrite E; simpl; rewrite !length_app; simpl; lia).
  rewrite Er, length_app in Hlen. simpl in Hlen.
  assert (forall n k q, free_find n m bp q = Some k -> (n <= fuel)%nat -> free_find fuel m bp q = Some k) as Hmono.
  { clear. intros n. revert fuel. induction n as [|n IH]; intros fuel k q Hq Hle; [done|]. destruct fuel as [|fuel]; [lia|].
    simpl in *. destruct (free_here m bp q); [done|]. apply IH; [done|lia]. }
  apply (Hmono (S (length r1))); [|lia]. replace f with (first (r1 ++ (p, ps) :: r2) f) by (by rewrite <- Er).
  rewrite Er in Hrot. apply (find_walk r1 r2 f Hrot). intros e s He.
  assert ((e, s) ∈ (base, 0) :: l) as HeL.
  { assert ((e, s) ∈ (f, sf) :: b ++ a) as H' by (rewrite Er; set_solver). rewrite E. set_solver. }
  split; [done|]. intros ->. apply Hn. pose proof (seg_size _ _ _ _ _ Hseg HeL) as E1.
  assert ((p, ps) ∈ (base, 0) :: l) as HpL by (rewrite HL; set_solver).
  pose proof (seg_size _ _ _ _ _ Hseg HpL) as E2. by rewrite <- E2, E1.
Qed.
End find.

(** ** free keeps the ring *)

Lemma unit_of_cons a s l u : unit_of ((a, s) :: l) u <-> a <= u < a + s \/ unit_of l u.
Proof.
  unfold unit_of. split.
  - intros (b & t & [[= -> ->]|Hin]%elem_of_cons & Hu); [by left|right]. by exists b, t.
  - intros [Hu|(b & t & Hin & Hu)]; [exists a, s|exists b, t]; (split; [set_solver|done]).
Qed.
Lemma unit_of_nil u : unit_of [] u <-> False.
Proof. split; [|done]. by intros (a & s & ?%not_elem_of_nil & _). Qed.
Lemma unit_of_app l1 l2 u : unit_of (l1 ++ l2) u <-> unit_of l1 u \/ unit_of l2 u.
Proof. induction l1 as [|[a s] l1 IH]; simpl; [rewrite unit_of_nil; tauto|]. rewrite !unit_of_cons, IH. tauto. Qed.

Lemma hput_hput a x y m : hput a x (hput a y m) = hput a x m.
Proof. extensionality b. unfold hput. by destruct (b =? a). Qed.

(** The freed block joined with the one behind it, and the one before with the result. *)
Definition join_right (bp s : Z) (k : list block) : list block :=
  match k with
  | (a, t) :: k' => if bp + s =? a then (bp, s + t) :: k' else (bp, s) :: k
  | [] => [(bp, s)]
  end.
Definition join_left (p ps : Z) (k : list block) : list block :=
  match k with
  | (bp, bs) :: k' => if p + ps =? bp then (p, ps + bs) :: k' else (p, ps) :: k
  | [] => [(p, ps)]
  end.

Lemma join_right_cons bp s k : exists bs k', join_right bp s k = (bp, bs) :: k' /\ (forall a t, (a, t) ∈ k' -> (a, t) ∈ k).
Proof.
  destruct k as [|[a t] k]; simpl; [by exists s, []|]. destruct (bp + s =? a); [|by exists s, ((a, t) :: k)].
  exists (s + t), k. split; [done|]. set_solver.
Qed.

Lemma join_right_sorted bp s k : 0 < s -> sorted (bp + s) k -> sorted bp (join_right bp s k).
Proof.
  intros Hs Hk. destruct k as [|[a t] k]; simpl in *; [lia|]. destruct Hk as (? & ? & Hk).
  destruct (Z.eqb_spec (bp + s) a) as [<-|]; simpl; [|done]. split; [lia|]. split; [lia|]. by rewrite Z.add_assoc.
Qed.
Lemma join_right_units bp s k u : 0 < s -> sorted (bp + s) k -> unit_of (join_right bp s k) u <-> bp <= u < bp + s \/ unit_of k u.
Proof.
  intros Hs Hk. destruct k as [|[a t] k]; simpl in *; [by rewrite unit_of_cons|]. destruct Hk as (? & ? & _).
  destruct (Z.eqb_spec (bp + s) a) as [<-|]; rewrite !unit_of_cons; [|tauto].
  split; [intros [?|?]|intros [?|[?|?]]]; try tauto; try (left; lia). destruct (Z_lt_le_dec u (bp + s)); [left|right; left]; lia.
Qed.
Lemma join_left_sorted p ps k lo : lo <= p -> 0 < ps -> sorted (p + ps) k -> sorted lo (join_left p ps k).
Proof.
  intros Hp Hps Hk. destruct k as [|[a t] k]; simpl in *; [lia|]. destruct Hk as (? & ? & Hk).
  destruct (Z.eqb_spec (p + ps) a) as [<-|]; simpl; [|done]. split; [lia|]. split; [lia|]. by rewrite Z.add_assoc.
Qed.
Lemma join_left_units p ps k u : 0 <= ps -> sorted (p + ps) k -> unit_of (join_left p ps k) u <-> p <= u < p + ps \/ unit_of k u.
Proof.
  intros Hps Hk. destruct k as [|[a t] k]; simpl in *; [by rewrite unit_of_cons|]. destruct Hk as (? & ? & _).
  destruct (Z.eqb_spec (p + ps) a) as [<-|]; rewrite !unit_of_cons; [|tauto].
  split; [intros [?|?]|intros [?|[?|?]]]; try tauto; try (left; lia). destruct (Z_lt_le_dec u (p + ps)); [left|right; left]; lia.
Qed.

(** What the stores of [free] do to the links. *)
Lemma free_links m l1 p ps k2 bp s :
  seg m (l1 ++ (p, ps) :: k2) base -> h_size (m bp) = s -> bp ∉ (l1 ++ (p, ps) :: k2).*1 -> NoDup (l1 ++ (p, ps) :: k2).*1 ->
  base < bp -> 0 < s ->
  let nx := h_ptr (m p) in
  let m1 := if bp + h_size (m bp) =? nx then set_ptr bp (h_ptr (m nx)) (set_size bp (h_size (m bp) + h_size (m nx)) m) else set_ptr bp nx m in
  let m2 := if p + h_size (m1 p) =? bp then set_ptr p (h_ptr (m1 bp)) (set_size p (h_size (m1 p) + h_size (m1 bp)) m1) else set_ptr p bp m1 in
  seg m2 (l1 ++ join_left p ps (join_right bp s k2)) base /\ forall a, a <> p -> a <> bp -> m2 a = m a.
Proof.
  intros Hseg Hsz Hbp Hnd Hb Hs. pose proof (seg_at _ _ _ _ _ _ Hseg) as Hmp. cbv zeta. rewrite Hsz, Hmp. cbn [h_ptr].
  destruct (join_right_cons bp s k2) as (bs & k' & Ej & Hk').
  set (m1 := if bp + s =? first k2 base then _ else _).
  assert (m1 = hput bp (mkHeader (first k' base) bs) m /\ seg m k' base) as [Em1 Hk2].
  { apply seg_app in Hseg as [_ [_ Hk]]. unfold m1. destruct k2 as [|[a t] k2]; simpl in Ej, Hk |- *.
    - injection Ej as <- <-. rewrite (proj2 (Z.eqb_neq (bp + s) base)) by lia. unfold set_ptr. by rewrite Hsz.
    - destruct Hk as [Ha Hk]. destruct (bp + s =? a); injection Ej as <- <-.
      + split; [|done]. unfold set_ptr, set_size. rewrite Ha, hput_hput, hput_eq. done.
      + split; [|done]. unfold set_ptr. by rewrite Hsz. }
  clearbody m1. subst m1. rewrite Ej.
  assert (p <> bp) as Hpb by (intros ->; apply Hbp; rewrite fmap_app; set_solver).
  rewrite (hput_ne bp _ _ p), Hmp, hput_eq by done. cbn [h_ptr h_size]. unfold join_left.
  rewrite fmap_app in Hbp, Hnd. cbn [fmap list_fmap map fst] in Hbp, Hnd. apply NoDup_app in Hnd as (_ & Hd & [Hpk _]%NoDup_cons).
  assert (p ∉ l1.*1) as Hp1 by (intros Hin; apply (Hd p Hin); set_solver).
  assert (forall x, seg (hput p x (hput bp (mkHeader (first k' base) bs) m)) l1 p /\
    (seg (hput p x (hput bp (mkHeader (first k' base) bs) m)) k' base)) as Hrest.
  { intros x. apply seg_app in Hseg as [Hl1 _]. cbn [first] in Hl1.
    assert (forall y, y ∉ k2.*1 -> y ∉ k'.*1) as Hsub.
    { intros y Hy ([a t] & -> & Hin)%list_elem_of_fmap. apply Hy, list_elem_of_fmap. exists (a, t). split; [done|]. by apply Hk'. }
    split; rewrite !seg_hput; try done; [set_solver|apply Hsub; set_solver|apply Hsub; set_solver]. }
  assert (first ((bp, bs) :: k') base = bp) as Ef by done.
  destruct (p + ps =? bp); unfold set_ptr, set_size; rewrite ?hput_hput, ?hput_eq; rewrite ?(hput_ne _ _ _ bp), ?hput_eq by done;
    rewrite ?(hput_ne _ _ _ p), ?Hmp by done; cbn [h_ptr h_size];
    (split; [apply seg_app; cbn [first seg]; rewrite hput_eq; (split; [apply Hrest|]); split; [done|]|intros a ? ?; by rewrite !hput_ne]).
  - apply Hrest.
  - rewrite hput_ne, hput_eq by done. split; [done|apply Hrest].
Qed.

Lemma ring_nodup l : sorted (base + 1) l -> NoDup ((base, 0) :: l).*1.
Proof.
  intros Hs. cbn [fmap list_fmap map fst]. apply NoDup_cons. split.
  - intros ([a s] & E & Hin)%list_elem_of_fmap. simpl in E. destruct (sorted_bound _ _ a s Hs Hin). lia.
  - revert Hs. generalize (base + 1). induction l as [|[a s] l IH]; intros lo; simpl; [constructor|]. intros (? & ? & Hs).
    apply NoDup_cons. split; [|by apply (IH (a + s))].
    intros ([b t] & E & Hin)%list_elem_of_fmap. simpl in E. destruct (sorted_bound _ _ b t Hs Hin). lia.
Qed.

Lemma length_join bp s p ps k : (length (join_left p ps (join_right bp s k)) <= S (S (length k)))%nat.
Proof.
  destruct k as [|[a t] k]; simpl; [by destruct (p + ps =? bp); simpl; lia|].
  destruct (bp + s =? a); simpl; destruct (p + ps =? bp); simpl; lia.
Qed.

Lemma join_big bp s p ps k : 0 < s -> 0 <= ps -> sorted (bp + s) k ->
  exists a t, (a, t) ∈ join_left p ps (join_right bp s k) /\ s <= t.
Proof.
  intros Hs Hps Hk. destruct k as [|[a t] k]; simpl in *; [|destruct Hk as (? & ? & _); destruct (bp + s =? a)]; simpl;
    (destruct (p + ps =? bp); [exists p; eexists; (split; [by left|lia])|]);
    exists bp; eexists; (split; [right; by left|lia]).
Qed.

(** [free] of a block that is apart from the free ones adds exactly its units to the
    free blocks, and writes to no other header. *)
Lemma free_ok fuel h l bp s :
  ring h l -> base < bp -> 0 < s -> h_size (h_mem h bp) = s -> (forall a t, (a, t) ∈ l -> bp + s <= a \/ a + t <= bp) ->
  (S (length l) <= fuel)%nat ->
  exists h' l', free fuel (bp + 1) h = Some h' /\ ring h' l' /\ (length l' <= S (length l))%nat
    /\ (forall u, unit_of l' u <-> bp <= u < bp + s \/ unit_of l u)
    /\ (exists a t, (a, t) ∈ l' /\ s <= t)
    /\ forall a, a <> bp -> a ∉ ((base, 0) :: l).*1 -> h_mem h' a = h_mem h a.
Proof.
  intros [H0 Hseg Hsort (sf & Hfp)] Hbp Hs Hsz Hd Hfu.
  destruct (split_blocks _ _ _ _ Hsort Hd) as (k1 & k2 & El & Hk1 & Hk2).
  destruct (exists_last (l := (base, 0) :: k1) ltac:(done)) as (l1 & [p ps] & E1).
  assert ((base, 0) :: l = l1 ++ (p, ps) :: k2) as HL by (rewrite El, app_comm_cons, E1, <- app_assoc; done).
  assert (p < bp /\ p + ps <= bp /\ 0 <= ps) as (Hp & Hps & Hps0).
  { assert ((p, ps) ∈ (base, 0) :: k1) as [[= -> ->]|Hin]%elem_of_cons by (rewrite E1; set_solver); [lia|].
    pose proof (proj1 (Forall_forall _ _) Hk1 _ Hin) as Hle. simpl in Hle.
    destruct (sorted_bound _ _ p ps Hsort); [set_solver|lia]. }
  assert (forall a t, (a, t) ∈ k2 -> bp < a) as Hk2' by (intros a t Hin; destruct (sorted_bound _ _ a t Hk2 Hin); lia).
  assert (bp ∉ ((base, 0) :: l).*1) as Hn.
  { intros ([a t] & E & [[= -> ->]|Hin]%elem_of_cons)%list_elem_of_fmap; simpl in E; [lia|].
    destruct (Hd a t Hin), (sorted_bound _ _ a t Hsort Hin); lia. }
  pose proof (ring_nodup l Hsort) as Hnd.
  pose proof (free_find_ok (h_mem h) l bp Hseg Hsort Hbp l1 p ps k2 HL Hp Hk2' (h_freep h) sf fuel Hfp Hfu) as Hfind.
  rewrite HL in Hseg, Hn, Hnd. pose proof (free_links (h_mem h) l1 p ps k2 bp s Hseg Hsz Hn Hnd Hbp Hs) as Hlinks.
  unfold free. replace (bp + 1 - 1) with bp by lia. rewrite Hfind. cbn [mbind option_bind]. cbv zeta in Hlinks |- *.
  destruct Hlinks as [Hseg' Hframe].
  pose proof (join_right_sorted bp s k2 Hs Hk2) as Hjr.
  assert (sorted (p + ps) (join_right bp s k2)) as Hjr' by (apply (sorted_weaken bp); [lia|done]).
  assert (exists l', l1 ++ join_left p ps (join_right bp s k2) = (base, 0) :: l' /\ sorted (base + 1) l') as (l' & El' & Hsort').
  { destruct l1 as [|x l1]; simpl in E1, HL |- *.
    - injection E1 as <- <- _. destruct (join_right_cons bp s k2) as (bs & k' & Ej & _). unfold join_left. rewrite Ej in *.
      rewrite (proj2 (Z.eqb_neq (base + 0) bp)) by lia. exists ((bp, bs) :: k'). split; [done|]. by apply (sorted_weaken bp); [lia|].
    - injection E1 as <- _. exists (l1 ++ join_left p ps (join_right bp s k2)). split; [done|].
      injection HL as HL. rewrite HL in Hsort. apply sorted_app in Hsort as (Hl1 & hi & ? & Hb & Hp2). apply sorted_app. split; [done|].
      exists hi. split; [done|]. split; [done|]. simpl in Hp2. apply join_left_sorted; [tauto..|done]. }
  assert (forall u, unit_of ((base, 0) :: l') u <-> unit_of l' u) as Hb' by (intros u; rewrite unit_of_cons; split; [intros [?|?]; [lia|done]|by right]).
  eexists _, l'. split; [reflexivity|]. split; [split; cbn [h_mem h_freep]; try done|split; [|split; [|split]]].
  - by rewrite <- El'.
  - assert (exists sp, (p, sp) ∈ join_left p ps (join_right bp s k2)) as [sp Hin].
    { unfold join_left. destruct (join_right bp s k2) as [|[a t] k']; [exists ps; set_solver|].
      destruct (p + ps =? a); eexists; apply elem_of_cons; by left. }
    exists sp. rewrite <- El'. set_solver.
  - pose proof (length_join bp s p ps k2) as Hlj. apply (f_equal length) in El', HL. rewrite length_app in El', HL. simpl in El', HL. lia.
  - intros u. rewrite <- Hb', <- El', unit_of_app, join_left_units, join_right_units by done.
    assert (unit_of l u <-> unit_of ((base, 0) :: l) u) as -> by (rewrite unit_of_cons; split; [by right|intros [?|?]; [lia|done]]).
    rewrite HL, unit_of_app, unit_of_cons. tauto.
  - destruct (join_big bp s p ps k2 Hs Hps0 Hk2) as (a & t & Hin & Ht). exists a, t. split; [|done].
    assert ((a, t) ∈ (base, 0) :: l') as [[= -> ->]|?]%elem_of_cons by (rewrite <- El'; set_solver); [lia|done].
  - intros a Ha Hna. apply Hframe; [|done]. intros ->. apply Hna. rewrite HL, fmap_app. set_solver.
Qed.

(** ** malloc *)

Lemma next_inj m l p e1 s1 e2 s2 :
  seg m ((base, 0) :: l) base -> sorted (base + 1) l -> p <> base ->
  (e1, s1) ∈ (base, 0) :: l -> h_ptr (m e1) = p -> (e2, s2) ∈ (base, 0) :: l -> h_ptr (m e2) = p -> e1 = e2 /\ s1 = s2.
Proof.
  intros Hseg Hsort Hp H1 E1 H2 E2. pose proof (ring_nodup l Hsort) as Hnd.
  assert (forall e s, (e, s) ∈ (base, 0) :: l -> h_ptr (m e) = p ->
    exists k, ((base, 0) :: l) !! k = Some (e, s) /\ ((base, 0) :: l).*1 !! S k = Some p) as Hk.
  { intros e s (a & b & E)%list_elem_of_split Ep. exists (length a). rewrite E in Hseg |- *.
    rewrite (seg_at _ _ _ _ _ _ Hseg) in Ep. simpl in Ep. split; [by rewrite list_lookup_middle|].
    destruct b as [|[f t] b]; simpl in Ep; [done|]. subst f. rewrite list_lookup_fmap, lookup_app_r by lia.
    by replace (S (length a) - length a)%nat with 1%nat by lia. }
  destruct (Hk e1 s1 H1 E1) as (i & Hi & Hi'), (Hk e2 s2 H2 E2) as (j & Hj & Hj').
  pose proof (NoDup_lookup _ _ _ _ Hnd Hi' Hj') as [= ->]. rewrite Hi in Hj. by injection Hj.
Qed.

Lemma below_unit hi l u : below hi l -> unit_of l u -> u < hi.
Proof. intros Hb (a & s & Hin & Hu). pose proof (proj1 (Forall_forall _ _) Hb _ Hin) as Hle. simpl in Hle. lia. Qed.
Lemma sorted_unit lo l u : sorted lo l -> unit_of l u -> lo <= u.
Proof. intros Hs (a & s & Hin & Hu). destruct (sorted_bound _ _ a s Hs Hin). lia. Qed.

Section carve.
Context (h : heap) (l1 l2 k1 : list block) (q qs p sz nunits : Z).
Abbreviation l := (l1 ++ (p, sz) :: l2).
Context (Hring : ring h l) (Ek : (base, 0) :: l1 = k1 ++ [(q, qs)]) (Hn : 0 < nunits <= sz).

Lemma carve_list k : (base, 0) :: l1 ++ k = k1 ++ (q, qs) :: k.
Proof. rewrite app_comm_cons, Ek, <- app_assoc. done. Qed.

Lemma carve_whole : sz = nunits ->
  ring (mkHeap (set_ptr q (h_ptr (h_mem h p)) (h_mem h)) q) (l1 ++ l2) /\ h_size (set_ptr q (h_ptr (h_mem h p)) (h_mem h) p) = nunits.
Proof.
  intros ->. destruct Hring as [H0 Hseg Hsort _]. pose proof (ring_nodup _ Hsort) as Hnd. rewrite carve_list in Hseg, Hnd.
  rewrite !fmap_app in Hnd. cbn [fmap list_fmap map fst] in Hnd. apply NoDup_app in Hnd as (_ & Hd & Hnd).
  apply NoDup_cons in Hnd as [Hq _]. pose proof (seg_at _ _ _ _ _ _ Hseg) as Hmq.
  apply seg_app in Hseg as [Hs1 (_ & Hmp & Hs2)]. cbn [first] in Hs1, Hmq.
  assert (q ∉ k1.*1) as Hq1 by (intros Hin; apply (Hd q Hin); set_solver).
  split; [split; cbn [h_mem h_freep]; try done|].
  - rewrite carve_list, Hmp. cbn [h_ptr]. unfold set_ptr. rewrite Hmq. cbn [h_size]. apply seg_app. cbn [first seg].
    rewrite hput_eq, !seg_hput by set_solver. done.
  - apply sorted_app in Hsort as (Hl1 & hi & ? & Hb & Hp). simpl in Hp. apply sorted_app. split; [done|]. exists hi. split; [done|].
    split; [done|]. apply (sorted_weaken (p + nunits)); [lia|tauto].
  - exists qs. rewrite carve_list. set_solver.
  - unfold set_ptr. rewrite hput_ne, Hmp by set_solver. done.
Qed.

Lemma carve_tail (m' := set_size (p + (sz - nunits)) nunits (set_size p (sz - nunits) (h_mem h))) : nunits < sz ->
  ring (mkHeap m' q) (l1 ++ (p, sz - nunits) :: l2).
Proof.
  intros Hlt. destruct Hring as [H0 Hseg Hsort _]. pose proof (ring_nodup _ Hsort) as Hnd. rewrite carve_list in Hseg, Hnd.
  rewrite !fmap_app in Hnd. cbn [fmap list_fmap map fst] in Hnd. apply NoDup_app in Hnd as (_ & Hd & Hnd).
  apply NoDup_cons in Hnd as [Hq [Hp2 _]%NoDup_cons]. pose proof Hsort as (Hl1 & hi & Hhi & Hb & Hpz & Hsz & Hl2)%sorted_app.
  assert (forall a s, (a, s) ∈ (base, 0) :: l1 -> a < p) as Hlow.
  { intros a s [[= -> ->]|Hin]%elem_of_cons; [lia|]. pose proof (proj1 (Forall_forall _ _) Hb _ Hin) as Hle. simpl in Hle.
    destruct (sorted_bound _ _ a s Hl1 Hin). lia. }
  assert (forall x, p <= x < p + sz -> x ∉ k1.*1 /\ x <> q /\ x ∉ l2.*1) as Hout.
  { intros x Hx. rewrite Ek in Hlow. split_and!.
    - intros ([a s] & -> & Hin)%list_elem_of_fmap. simpl in *. specialize (Hlow a s ltac:(set_solver)). lia.
    - intros ->. specialize (Hlow q qs ltac:(set_solver)). lia.
    - intros ([a s] & -> & Hin)%list_elem_of_fmap. simpl in *. destruct (sorted_bound _ _ a s Hl2 Hin). lia. }
  destruct (Hout p ltac:(lia)) as (Ho1 & Ho2 & Ho3). destruct (Hout (p + (sz - nunits)) ltac:(lia)) as (Ho4 & Ho5 & Ho6).
  apply seg_app in Hseg as [Hs1 (Hmq & Hmp & Hs2)]. cbn [first] in Hs1, Hmq, Hmp.
  split; cbn [h_mem h_freep]; try done.
  - rewrite carve_list. unfold m', set_size. apply seg_app. cbn [first seg]. rewrite !seg_hput by done.
    rewrite !(hput_ne _ _ _ q), (hput_ne _ _ _ p), hput_eq, Hmp by (done || lia). done.
  - apply sorted_app. split; [done|]. exists hi. split; [done|]. split; [done|]. simpl. split; [done|]. split; [lia|].
    apply (sorted_weaken (p + sz)); [lia|done].
  - exists qs. rewrite carve_list. set_solver.
Qed.
End carve.

(** The block found is taken off the ring, or its tail is. *)
Lemma carve_ok nunits q qs p sz h l :
  ring h l -> (q, qs) ∈ (base, 0) :: l -> h_ptr (h_mem h q) = p -> (p, sz) ∈ (base, 0) :: l -> 0 < nunits <= sz ->
  exists a h' l', carve nunits q p h = (a + 1, h') /\ ring h' l' /\ base < a /\ h_size (h_mem h' a) = nunits
    /\ (length l' <= length l)%nat
    /\ (forall u, unit_of l u <-> a <= u < a + nunits \/ unit_of l' u) /\ (forall u, a <= u < a + nunits -> ~ unit_of l' u)
    /\ forall b, b <> a -> b ∉ ((base, 0) :: l).*1 -> h_mem h' b = h_mem h b.
Proof.
  intros [H0 Hseg Hsort Hfp] Hq Eq Hp Hn.
  assert ((p, sz) ∈ l) as Hpl by (apply elem_of_cons in Hp as [[= -> ->]|?]; [lia|done]).
  destruct (sorted_bound _ _ p sz Hsort Hpl) as [Hpb _].
  apply list_elem_of_split in Hpl as (l1 & l2 & El).
  destruct (exists_last (l := (base, 0) :: l1) ltac:(done)) as (k1 & [w ws] & Ek).
  assert ((base, 0) :: l = k1 ++ (w, ws) :: (p, sz) :: l2) as HL by (rewrite El, app_comm_cons, Ek, <- app_assoc; done).
  destruct (next_inj (h_mem h) l p q qs w ws Hseg Hsort ltac:(lia) Hq Eq) as [<- <-].
  { rewrite HL. set_solver. } { rewrite HL in Hseg. by rewrite (seg_at _ _ _ _ _ _ Hseg). }
  assert (forall u, p <= u < p + sz -> ~ unit_of l1 u /\ ~ unit_of l2 u) as Hapart.
  { rewrite El in Hsort. apply sorted_app in Hsort as (Hl1 & hi & ? & Hb & Hpz & _ & Hl2). intros u Hu.
    split; [intros Hu1; pose proof (below_unit _ _ _ Hb Hu1)|intros Hu2; pose proof (sorted_unit _ _ _ Hl2 Hu2)]; lia. }
  pose proof (seg_size _ _ _ _ _ Hseg Hp) as Esz.
  assert (ring h (l1 ++ (p, sz) :: l2)) as Hring by (rewrite <- El; by split).
  unfold carve. rewrite Esz. destruct (Z.eqb_spec sz nunits) as [E|Hne].
  - destruct (carve_whole h l1 l2 k1 q qs p sz nunits Hring Ek Hn E) as [Hr' Hs']. clear Esz. subst sz.
    exists p, (mkHeap (set_ptr q (h_ptr (h_mem h p)) (h_mem h)) q), (l1 ++ l2). cbn [h_mem].
    split_and!; [done|done|lia|done|rewrite El, !length_app; simpl; lia| | |].
    + intros u. rewrite El, !unit_of_app, unit_of_cons. tauto.
    + intros u Hu. rewrite unit_of_app. destruct (Hapart u Hu). tauto.
    + intros b _ Hb. unfold set_ptr. apply hput_ne. intros ->. apply Hb. rewrite HL, fmap_app. set_solver.
  - pose proof (carve_tail h l1 l2 k1 q qs p sz nunits Hring Ek Hn ltac:(lia)) as Hr'.
    cbv zeta. assert (h_size (set_size p (sz - nunits) (h_mem h) p) = sz - nunits) as -> by (unfold set_size; by rewrite hput_eq).
    exists (p + (sz - nunits)), (mkHeap (set_size (p + (sz - nunits)) nunits (set_size p (sz - nunits) (h_mem h))) q), (l1 ++ (p, sz - nunits) :: l2).
    cbn [h_mem]. split_and!; [done|done|lia|unfold set_size at 1; by rewrite hput_eq|rewrite El, !length_app; simpl; lia| | |].
    + intros u. rewrite El, !unit_of_app, !unit_of_cons. split; [intros [?|[?|?]]|intros [?|[?|[?|?]]]]; try tauto; try (right; left; lia).
      destruct (Z_lt_le_dec u (p + (sz - nunits))); [right; right; left|left]; lia.
    + intros u Hu. rewrite unit_of_app, unit_of_cons. destruct (Hapart u ltac:(lia)). intros [?|[?|?]]; try tauto. lia.
    + intros b Hb1 Hb2. unfold set_size. rewrite !hput_ne; [done| |done]. intros ->. apply Hb2. rewrite HL, fmap_app. set_solver.
Qed.

(** The search goes once around the ring from [freep]. *)
Lemma malloc_search nunits h sf fuel : forall r q qs,
  seg (h_mem h) ((q, qs) :: r) (h_freep h) -> h_size (h_mem h (h_freep h)) = sf -> (forall e s, (e, s) ∈ r -> e <> h_freep h) ->
  (exists q' qs' p sz, malloc_loop (S (length r) + fuel) nunits q (first r (h_freep h)) h = mret (carve nunits q' p h)
     /\ (q', qs') ∈ (q, qs) :: r /\ h_ptr (h_mem h q') = p /\ (p, sz) ∈ r ++ [(h_freep h, sf)] /\ nunits <= sz)
  \/ ((forall e s, (e, s) ∈ r ++ [(h_freep h, sf)] -> s < nunits)
      /\ malloc_loop (S (length r) + fuel) nunits q (first r (h_freep h)) h =
         '(p, h) ← morecore fuel nunits h;
         if p =? 0 then mret (0, h) else malloc_loop fuel nunits p (h_ptr (h_mem h p)) h).
Proof.
  induction r as [|[e s] r IH]; intros q qs Hseg Hsf Hne.
  - cbn [length first Nat.add malloc_loop]. rewrite Hsf, Z.eqb_refl. simpl in Hseg. destruct Hseg as [Hq _].
    destruct (Z.geb_spec sf nunits).
    + left. exists q, qs, (h_freep h), sf. split; [done|]. split; [by left|]. rewrite Hq. split; [done|]. split; [by left|lia].
    + right. split; [|done]. intros e s [[= -> ->]|?%not_elem_of_nil]%elem_of_cons; [lia|done].
  - simpl in Hseg. destruct Hseg as [Hq [He Hseg]].
    change (S (length ((e, s) :: r)) + fuel)%nat with (S (S (length r) + fuel)). cbn [first]. cbn [malloc_loop]. rewrite He. cbn [h_size h_ptr].
    destruct (Z.geb_spec s nunits).
    + left. exists q, qs, e, s. rewrite Hq. split; [done|]. split; [by left|]. split; [done|]. split; [by left|lia].
    + rewrite (proj2 (Z.eqb_neq e (h_freep h))) by (apply (Hne e s); by left).
      destruct (IH e s (conj He Hseg) Hsf) as [(q' & qs' & p & sz & E & Hin & Hp & Hsz & ?)|[Hall E]].
      { intros e' s' ?. apply (Hne e' s'). by right. }
      * left. exists q', qs', p, sz. split; [exact E|]. split; [by right|]. split; [done|]. split; [by right|done].
      * right. split; [|exact E]. intros e' s' [[= -> ->]|Hin]%elem_of_cons; [lia|]. by eapply Hall.
Qed.

Lemma malloc_search_ring nunits h l fuel : ring h l -> 0 < nunits ->
  (exists q' qs' p sz, malloc_loop (S (length l) + fuel) nunits (h_freep h) (h_ptr (h_mem h (h_freep h))) h = mret (carve nunits q' p h)
     /\ (q', qs') ∈ (base, 0) :: l /\ h_ptr (h_mem h q') = p /\ (p, sz) ∈ (base, 0) :: l /\ 0 < nunits <= sz)
  \/ ((forall e s, (e, s) ∈ l -> s < nunits)
      /\ malloc_loop (S (length l) + fuel) nunits (h_freep h) (h_ptr (h_mem h (h_freep h))) h =
         '(p, h) ← morecore fuel nunits h;
         if p =? 0 then mret (0, h) else malloc_loop fuel nunits p (h_ptr (h_mem h p)) h).
Proof.
  intros [H0 Hseg Hsort (sf & Hf)] Hn. pose proof (seg_size _ _ _ _ _ Hseg Hf) as Hsf. pose proof (ring_nodup l Hsort) as Hnd.
  apply list_elem_of_split in Hf as (a & b & E). set (f := h_freep h) in *.
  assert (seg (h_mem h) ((f, sf) :: b ++ a) f) as Hrot.
  { rewrite E in Hseg. apply seg_app in Hseg as [Ha Hb]. change ((f, sf) :: b ++ a) with (((f, sf) :: b) ++ a). apply seg_app.
    assert (first (a ++ (f, sf) :: b) base = base) as Ef by (by rewrite <- E).
    split; [|exact Ha]. destruct a as [|[x xs] a]; simpl in Ef; [simpl; by subst|]. subst x. exact Hb. }
  assert (forall e s, (e, s) ∈ b ++ a -> e <> f) as Hne.
  { intros e s Hin ->. rewrite E, fmap_app in Hnd. cbn [fmap list_fmap map fst] in Hnd.
    apply NoDup_app in Hnd as (_ & Hd & [Hfb _]%NoDup_cons).
    apply elem_of_app in Hin as [Hin|Hin]; apply (list_elem_of_fmap_2 fst) in Hin; simpl in Hin; [done|]. apply (Hd f Hin). by left. }
  assert (length l = length (b ++ a)) as Hlen.
  { apply (f_equal length) in E. simpl in E. rewrite length_app in *. simpl in E. lia. }
  assert (forall x, x ∈ (base, 0) :: l <-> x ∈ (f, sf) :: b ++ a) as Hmem
    by (intros x; rewrite E, elem_of_app, !elem_of_cons, elem_of_app; tauto).
  destruct (malloc_search nunits h sf fuel (b ++ a) f sf Hrot Hsf Hne) as [(q' & qs' & p & sz & E1 & Hin & Hp & Hsz & ?)|[Hall E1]].
  - left. exists q', qs', p, sz. rewrite Hlen. split; [|split_and!; try done; [by apply Hmem|apply Hmem]].
    { rewrite <- E1. simpl in Hrot. destruct Hrot as [-> _]. done. }
    apply elem_of_app in Hsz as [?|[->|?%not_elem_of_nil]%elem_of_cons]; [by right|by left|done].
  - right. split; [|rewrite Hlen, <- E1; simpl in Hrot; destruct Hrot as [-> _]; done].
    intros e s Hin. apply (Hall e s). apply elem_of_app.
    assert ((e, s) ∈ (f, sf) :: b ++ a) as [->|?]%elem_of_cons by (apply Hmem; by right); [right; by left|by left].
Qed.

(** ** The heap with its live blocks *)

(** Memory that [sbrk] may grow up to [lim]; it returns the old end or -1. *)
Definition brk_call (lim : Z) {R} (c : call R) (brk : Z) : option (R * Z) :=
  match c in call R return option (R * Z) with
  | CSbrk n _ => if (0 <=? n) && (brk + n <=? lim) then Some (brk, brk + n) else Some (SBRK_ERROR, brk)
  | _ => None
  end.
Fixpoint brk_run {A} (lim : Z) (m : uprog A) (brk : Z) : option (A * Z) :=
  match m with
  | URet a => Some (a, brk)
  | UCall c k => match brk_call lim c brk with Some (r, brk) => brk_run lim (k r) brk | None => None end
  | _ => None
  end.

(** The free blocks [l] and the live blocks [A] below the end of memory: the
    live ones have their size in their header and share no unit with each other
    or with a free one.  Before the first call [freep] is null. *)
Record heap_ok (brk : Z) (h : heap) (l A : list block) : Prop := {
  ho_base : 0 < base /\ base < brk / HEADER /\ brk mod HEADER = 0;
  ho_ring : (h_freep h = 0 /\ l = []) \/ ring h l;
  ho_free : forall u, unit_of l u -> base < u < brk / HEADER;
  ho_live : forall a t, (a, t) ∈ A -> base < a /\ 0 < t /\ a + t <= brk / HEADER /\ h_size (h_mem h a) = t;
  ho_apart : forall a t u, (a, t) ∈ A -> a <= u < a + t -> ~ unit_of l u;
  ho_disj : forall i j a t b s u, A !! i = Some (a, t) -> A !! j = Some (b, s) -> a <= u < a + t -> b <= u < b + s -> i = j
}.

Definition init_heap (h : heap) : heap :=
  if h_freep h =? 0 then mkHeap (hput base (mkHeader base 0) (h_mem h)) base else h.

Lemma init_ring brk h l A : heap_ok brk h l A ->
  ring (init_heap h) l /\ forall a, base < a -> h_mem (init_heap h) a = h_mem h a.
Proof.
  intros [[Hb _] Hr _ _ _ _]. unfold init_heap. destruct Hr as [[E ->]|Hr].
  - rewrite E, Z.eqb_refl. cbn [h_mem]. split; [|intros; apply hput_ne; lia]. split; cbn [h_mem h_freep]; [done| |done|].
    + simpl. by rewrite hput_eq.
    + exists 0. by left.
  - rewrite (proj2 (Z.eqb_neq (h_freep h) 0)); [done|]. destruct Hr as [? _ Hs (sf & Hf)]. pose proof (ring_ge l _ _ Hs Hf). lia.
Qed.

(** A live block has no header in the ring. *)
Lemma live_out brk h l A a t : heap_ok brk h l A -> ring (init_heap h) l -> (a, t) ∈ A -> a ∉ ((base, 0) :: l).*1.
Proof.
  intros Hok [_ _ Hs _] Hin ([b s] & -> & [[= -> ->]|Hb]%elem_of_cons)%list_elem_of_fmap; simpl in *.
  - destruct (ho_live _ _ _ _ Hok base t Hin). lia.
  - destruct (ho_live _ _ _ _ Hok b t Hin) as (_ & ? & _). destruct (sorted_bound _ _ b s Hs Hb).
    apply (ho_apart _ _ _ _ Hok b t b Hin); [lia|]. exists b, s. split; [done|lia].
Qed.

(** A block taken from the free ones joins the live ones. *)
Lemma heap_ok_carve brk h l A nunits q qs p sz :
  heap_ok brk h l A -> h_freep h <> 0 -> (q, qs) ∈ (base, 0) :: l -> h_ptr (h_mem h q) = p -> (p, sz) ∈ (base, 0) :: l ->
  0 < nunits <= sz ->
  exists a h' l', carve nunits q p h = (a + 1, h') /\ heap_ok brk h' l' ((a, nunits) :: A) /\ base < a /\ (length l' <= length l)%nat.
Proof.
  intros Hok Hf Hq Hp Hpz Hn. assert (ring h l) as Hr by (destruct (ho_ring _ _ _ _ Hok) as [[? _]|?]; done).
  destruct (carve_ok nunits q qs p sz h l Hr Hq Hp Hpz Hn) as (a & h' & l' & Hc & Hr' & Ha & Hsz & Hlen & Hu & Hd & Hfr).
  assert (forall x t, (x, t) ∈ A -> x ∉ ((base, 0) :: l).*1) as Hout.
  { intros x t Hin. apply (live_out brk h l A x t Hok); [|done]. unfold init_heap. by rewrite (proj2 (Z.eqb_neq _ 0)). }
  assert (forall x t u, (x, t) ∈ A -> x <= u < x + t -> ~ (a <= u < a + nunits)) as Hapart.
  { intros x t u Hin Hx Hau. apply (ho_apart _ _ _ _ Hok x t u Hin Hx), Hu. by left. }
  exists a, h', l'. split; [done|]. split; [|done]. split.
  - apply Hok.
  - by right.
  - intros u Hul. apply (ho_free _ _ _ _ Hok), Hu. by right.
  - intros x t [[= -> ->]|Hin]%elem_of_cons.
    + pose proof (ho_free _ _ _ _ Hok (a + nunits - 1)) as Hlast. rewrite Hu in Hlast. split; [done|]. split; [lia|].
      split; [specialize (Hlast ltac:(left; lia)); lia|done].
    + destruct (ho_live _ _ _ _ Hok x t Hin) as (? & ? & ? & E). do 3 (split; [done|]). rewrite Hfr; [done| |by apply (Hout x t)].
      intros ->. apply (Hapart a t a Hin); lia.
  - intros x t u [[= -> ->]|Hin]%elem_of_cons Hx Hul; [by apply (Hd u)|]. apply (ho_apart _ _ _ _ Hok x t u Hin Hx), Hu. by right.
  - intros [|i] [|j] x t y s u Hi Hj Hx Hy; simpl in Hi, Hj; simplify_eq; try done.
    + apply list_elem_of_lookup_2 in Hj. by destruct (Hapart y s u Hj Hy).
    + apply list_elem_of_lookup_2 in Hi. by destruct (Hapart x t u Hi Hx).
    + f_equal. by eapply (ho_disj _ _ _ _ Hok i j x t y s u).
Qed.

Lemma ring_freep h l : ring h l -> h_freep h <> 0.
Proof. intros [? _ Hs (sf & Hf)]. pose proof (ring_ge l _ _ Hs Hf). lia. Qed.

Lemma heap_ok_freep brk h l A : heap_ok brk h l A -> h_freep h <> 0 -> ring h l.
Proof. intros Hok Hf. by destruct (ho_ring _ _ _ _ Hok) as [[? _]|?]. Qed.

(** A live block is given back. *)
Lemma heap_ok_free fuel brk h l A1 a s A2 :
  heap_ok brk h l (A1 ++ (a, s) :: A2) -> h_freep h <> 0 -> (S (length l) <= fuel)%nat ->
  exists h' l', free fuel (a + 1) h = Some h' /\ heap_ok brk h' l' (A1 ++ A2) /\ ring h' l' /\ (length l' <= S (length l))%nat
    /\ (forall u, unit_of l' u <-> a <= u < a + s \/ unit_of l u) /\ exists b t, (b, t) ∈ l' /\ s <= t.
Proof.
  intros Hok Hf Hfu. pose proof (heap_ok_freep _ _ _ _ Hok Hf) as Hr.
  assert ((a, s) ∈ A1 ++ (a, s) :: A2) as Hin by set_solver.
  destruct (ho_live _ _ _ _ Hok a s Hin) as (Ha & Hs & Hend & Hsz).
  destruct (free_ok fuel h l a s Hr Ha Hs Hsz) as (h' & l' & Hfree & Hr' & Hlen & Hu & Hbig & Hfr); [|done|].
  { intros b t Hb. destruct (sorted_bound _ _ b t (rg_sorted _ _ Hr) Hb) as [_ Ht].
    destruct (Z_le_gt_dec (a + s) b); [by left|right]. destruct (Z_le_gt_dec (b + t) a); [done|exfalso].
    apply (ho_apart _ _ _ _ Hok a s (Z.max a b) Hin); [lia|]. exists b, t. split; [done|lia]. }
  assert (forall i x t u, (A1 ++ A2) !! i = Some (x, t) -> x <= u < x + t -> ~ (a <= u < a + s)) as Hapart.
  { intros i x t u Hi Hx Hau. assert ((A1 ++ (a, s) :: A2) !! length A1 = Some (a, s)) as Hmid by (by apply list_lookup_middle).
    apply lookup_app_Some in Hi as [Hi|[Hle Hi]].
    - pose proof (lookup_lt_Some _ _ _ Hi). assert (i = length A1); [|lia].
      apply (ho_disj _ _ _ _ Hok i (length A1) x t a s u); [by apply lookup_app_l_Some|done|done|done].
    - assert (S i = length A1); [|lia]. apply (ho_disj _ _ _ _ Hok (S i) (length A1) x t a s u); [|done|done|done].
      rewrite lookup_app_r by lia. by replace (S i - length A1)%nat with (S (i - length A1)) by lia. }
  assert (forall x t, (x, t) ∈ A1 ++ A2 -> (x, t) ∈ A1 ++ (a, s) :: A2) as Hsub by set_solver.
  exists h', l'. split; [done|]. split; [|done]. split.
  - apply Hok.
  - by right.
  - intros u [Hau|Hul]%Hu; [lia|by apply (ho_free _ _ _ _ Hok)].
  - intros x t Hx. destruct (ho_live _ _ _ _ Hok x t (Hsub x t Hx)) as (? & ? & ? & E). do 3 (split; [done|]). rewrite Hfr; [done| |].
    + intros ->. apply list_elem_of_lookup in Hx as [i Hi]. apply (Hapart i a t a Hi); lia.
    + apply (live_out brk h l _ x t Hok); [|by apply Hsub]. unfold init_heap. by rewrite (proj2 (Z.eqb_neq _ 0)).
  - intros x t u Hx Hxu [Hau|Hul]%Hu.
    + apply list_elem_of_lookup in Hx as [i Hi]. by apply (Hapart i x t u).
    + by apply (ho_apart _ _ _ _ Hok x t u (Hsub x t Hx)).
  - assert (forall i x, (A1 ++ A2) !! i = Some x ->
      (A1 ++ (a, s) :: A2) !! (if decide (i < length A1)%nat then i else S i) = Some x) as Hshift.
    { intros i x. case_decide as Hi; [by rewrite !lookup_app_l|]. rewrite !lookup_app_r by lia.
      by replace (S i - length A1)%nat with (S (i - length A1)) by lia. }
    intros i j x t y s' u Hi Hj Hx Hy. apply Hshift in Hi, Hj.
    pose proof (ho_disj _ _ _ _ Hok _ _ _ _ _ _ u Hi Hj Hx Hy) as E. repeat case_decide; lia.
Qed.

(** The memory [sbrk] returned, as a live block. *)
Lemma heap_ok_grow brk h l A nu :
  heap_ok brk h l A -> h_freep h <> 0 -> 0 < nu ->
  heap_ok (brk + nu * HEADER) (mkHeap (set_size (brk / HEADER) nu (h_mem h)) (h_freep h)) l ((brk / HEADER, nu) :: A).
Proof.
  intros Hok Hf Hnu. pose proof (heap_ok_freep _ _ _ _ Hok Hf) as Hr. destruct (ho_base _ _ _ _ Hok) as (? & ? & Hal).
  set (top := brk / HEADER) in *. unfold HEADER in *.
  assert ((brk + nu * 16) / 16 = top + nu) as Etop by (apply Z.div_add; lia).
  assert (top ∉ ((base, 0) :: l).*1) as Hout.
  { intros ([b s] & E & [[= -> ->]|Hb]%elem_of_cons)%list_elem_of_fmap; simpl in E; [lia|].
    destruct (sorted_bound _ _ b s (rg_sorted _ _ Hr) Hb). assert (unit_of l b) as Hub by (exists b, s; split; [done|lia]).
    apply (ho_free _ _ _ _ Hok) in Hub. unfold HEADER in Hub. fold top in Hub. lia. }
  split.
  - unfold HEADER. rewrite Etop, Z.mod_add by lia. split; [done|]. split; [lia|done].
  - right. destruct Hr as [? Hseg ? ?]. split; cbn [h_mem h_freep]; try done. unfold set_size. by apply seg_hput.
  - intros u Hul. apply (ho_free _ _ _ _ Hok) in Hul. unfold HEADER in *. rewrite Etop. fold top in Hul. lia.
  - unfold HEADER. rewrite Etop. cbn [h_mem]. intros x t [[= -> ->]|Hin]%elem_of_cons.
    + split; [done|]. split; [done|]. split; [lia|]. unfold set_size. by rewrite hput_eq.
    + destruct (ho_live _ _ _ _ Hok x t Hin) as (? & ? & Hle & ?). unfold HEADER in Hle. fold top in Hle.
      split; [done|]. split; [done|]. split; [lia|]. unfold set_size. by rewrite hput_ne by lia.
  - intros x t u [[= -> ->]|Hin]%elem_of_cons Hx Hul; [|by apply (ho_apart _ _ _ _ Hok x t u Hin)].
    apply (ho_free _ _ _ _ Hok) in Hul. unfold HEADER in Hul. fold top in Hul. lia.
  - assert (forall x t u, (x, t) ∈ A -> x <= u < x + t -> u < top) as Hlow.
    { intros x t u Hin Hx. destruct (ho_live _ _ _ _ Hok x t Hin) as (_ & _ & Hle & _). unfold HEADER in Hle. fold top in Hle. lia. }
    intros [|i] [|j] x t y s u Hi Hj Hx Hy; simpl in Hi, Hj; simplify_eq; try done.
    + apply list_elem_of_lookup_2 in Hj. pose proof (Hlow y s u Hj Hy). lia.
    + apply list_elem_of_lookup_2 in Hi. pose proof (Hlow x t u Hi Hx). lia.
    + f_equal. by eapply (ho_disj _ _ _ _ Hok i j x t y s u).
Qed.

Lemma heap_ok_init brk h l A : heap_ok brk h l A -> heap_ok brk (init_heap h) l A /\ h_freep (init_heap h) <> 0.
Proof.
  intros Hok. destruct (init_ring _ _ _ _ Hok) as [Hr Hm]. split; [|by apply (ring_freep _ l)].
  destruct Hok as [? _ ? Hl ? ?]. split; try done; [by right|]. intros a t Hin. destruct (Hl a t Hin) as (? & ? & ? & ?).
  do 3 (split; [done|]). by rewrite Hm.
Qed.

Lemma brk_run_bind {X Y} lim (m : uprog X) (f : X -> uprog Y) brk :
  brk_run lim (m ≫= f) brk = match brk_run lim m brk with Some (x, brk) => brk_run lim (f x) brk | None => None end.
Proof.
  revert brk. induction m as [a|n|R c k IH|]; intros brk; [done..| |done]. simpl.
  destruct (brk_call lim c brk) as [[r brk']|]; [apply IH|done].
Qed.

(** How much [morecore] asks for. *)
Definition core_units (nunits : Z) : Z := if nunits <? 4096 then 4096 else nunits.

Lemma morecore_ok fuel lim brk h l A nunits :
  heap_ok brk h l A -> h_freep h <> 0 -> 0 < nunits -> core_units nunits * HEADER < 2 ^ 31 -> (S (length l) <= fuel)%nat ->
  (brk + core_units nunits * HEADER > lim /\ brk_run lim (morecore fuel nunits h) brk = Some ((0, h), brk))
  \/ exists h' l', brk_run lim (morecore fuel nunits h) brk = Some ((h_freep h', h'), brk + core_units nunits * HEADER)
     /\ heap_ok (brk + core_units nunits * HEADER) h' l' A /\ ring h' l' /\ (length l' <= S (length l))%nat
     /\ exists b t, (b, t) ∈ l' /\ nunits <= t.
Proof.
  intros Hok Hf Hn Hlim Hfu. unfold morecore. fold (core_units nunits). set (nu := core_units nunits) in *.
  assert (nunits <= nu /\ 0 < nu) as [Hnu Hnu0] by (unfold nu, core_units; destruct (Z.ltb_spec nunits 4096); lia).
  rewrite i32_small by (unfold HEADER in *; lia). unfold usbrk, ucall. cbn [mbind uprog_bind brk_run brk_call].
  rewrite (proj2 (Z.leb_le 0 _)) by (unfold HEADER in *; lia). cbn [andb].
  destruct (Z.leb_spec (brk + nu * HEADER) lim) as [Hle|Hgt]; [right|left; split; [lia|done]].
  destruct (ho_base _ _ _ _ Hok) as (? & Htop & Hal).
  assert (0 <= brk) as Hb0 by (unfold HEADER in *; pose proof (Z.div_mod brk 16 ltac:(lia)); lia).
  rewrite (proj2 (Z.eqb_neq brk SBRK_ERROR)) by (unfold SBRK_ERROR; lia).
  pose proof (heap_ok_grow brk h l A nu Hok Hf Hnu0) as Hgrow.
  destruct (heap_ok_free fuel _ _ l [] (brk / HEADER) nu A Hgrow Hf Hfu) as (h' & l' & -> & Hok' & Hr' & Hlen & _ & b & t & Hin & Ht).
  exists h', l'. split; [done|]. split; [done|]. split; [done|]. split; [done|]. exists b, t. split; [done|lia].
Qed.

Lemma malloc_ok fuel lim brk h l A nbytes :
  heap_ok brk h l A -> 0 <= nbytes -> core_units ((nbytes + HEADER - 1) / HEADER + 1) * HEADER < 2 ^ 31 -> (2 * length l + 4 <= fuel)%nat ->
  let nunits := (nbytes + HEADER - 1) / HEADER + 1 in
  exists ap h' brk' l', brk_run lim (malloc fuel nbytes h) brk = Some ((ap, h'), brk')
    /\ ((ap = 0 /\ brk' = brk /\ brk + core_units nunits * HEADER > lim /\ l' = l /\ heap_ok brk h' l A
         /\ forall a t, (a, t) ∈ l -> t < nunits)
        \/ (exists a, ap = a + 1 /\ base < a /\ heap_ok brk' h' l' ((a, nunits) :: A))).
Proof.
  intros Hok0 Hnb Hlim Hfu nunits. destruct (heap_ok_init _ _ _ _ Hok0) as [Hok Hf]. pose proof (heap_ok_freep _ _ _ _ Hok Hf) as Hr.
  assert (0 < nunits) as Hn by (unfold nunits, HEADER; pose proof (Z.div_pos (nbytes + 16 - 1) 16 ltac:(lia) ltac:(lia)); lia).
  unfold malloc. fold nunits (init_heap h). set (h0 := init_heap h) in *.
  destruct (Nat.le_exists_sub (S (length l)) fuel ltac:(lia)) as (f' & -> & _). rewrite (Nat.add_comm f').
  destruct (malloc_search_ring nunits h0 l f' Hr Hn) as [(q & qs & p & sz & -> & Hq & Hp & Hpz & Hsz)|[Hsmall ->]].
  { destruct (heap_ok_carve brk h0 l A nunits q qs p sz Hok Hf Hq Hp Hpz Hsz) as (a & h' & l' & -> & Hok' & Ha & _).
    exists (a + 1), h', brk, l'. split; [done|]. right. by exists a. }
  rewrite brk_run_bind.
  destruct (morecore_ok f' lim brk h0 l A nunits Hok Hf Hn Hlim ltac:(lia)) as [[Hgt ->]|(h1 & l1 & -> & Hok1 & Hr1 & Hlen1 & b & t & Hin & Ht)].
  { cbv iota beta. simpl. exists 0, h0, brk, l. split; [done|]. left. done. }
  pose proof (ring_freep _ _ Hr1) as Hf1. cbv iota beta. rewrite (proj2 (Z.eqb_neq (h_freep h1) 0)) by done.
  destruct (Nat.le_exists_sub (S (length l1)) f' ltac:(lia)) as (f'' & -> & _). rewrite (Nat.add_comm f'').
  destruct (malloc_search_ring nunits h1 l1 f'' Hr1 Hn) as [(q & qs & p & sz & -> & Hq & Hp & Hpz & Hsz)|[Hsmall1 _]].
  - destruct (heap_ok_carve _ h1 l1 A nunits q qs p sz Hok1 Hf1 Hq Hp Hpz Hsz) as (a & h' & l' & -> & Hok' & Ha & _).
    exists (a + 1), h', (brk + core_units nunits * HEADER), l'. split; [done|]. right. by exists a.
  - specialize (Hsmall1 b t Hin). lia.
Qed.
End alloc.

(** C13: The allocator keeps its heap: [malloc] returns a block that is large enough, holds its
    size and shares nothing with any free or live block, or null when no free block is large
    enough and [sbrk] refuses; [free] of a live block makes exactly its units free.  The
    request is one for which [morecore] asks [sbrk] for less than 2 GB. *)
Theorem malloc_free_correct base lim brk h l A fuel :
  heap_ok base brk h l A -> (2 * length l + 4 <= fuel)%nat ->
  (forall nbytes (nunits := (nbytes + HEADER - 1) / HEADER + 1), 0 <= nbytes -> core_units nunits * HEADER < 2 ^ 31 ->
     exists ap h' brk' l', brk_run lim (malloc base fuel nbytes h) brk = Some ((ap, h'), brk')
       /\ ((ap = 0 /\ brk' = brk /\ brk + core_units nunits * HEADER > lim /\ heap_ok base brk h' l A
            /\ forall a t, (a, t) ∈ l -> t < nunits)
           \/ (exists a, ap = a + 1 /\ nbytes <= (nunits - 1) * HEADER /\ heap_ok base brk' h' l' ((a, nunits) :: A))))
  /\ (forall A1 a s A2, A = A1 ++ (a, s) :: A2 -> h_freep h <> 0 ->
     exists h' l', free fuel (a + 1) h = Some h' /\ heap_ok base brk h' l' (A1 ++ A2)
       /\ forall u, unit_of l' u <-> a <= u < a + s \/ unit_of l u).
Proof.
  intros Hok Hfu. split.
  - intros nbytes nunits Hnb Hlim. destruct (malloc_ok base fuel lim brk h l A nbytes Hok Hnb Hlim Hfu)
      as (ap & h' & brk' & l' & Hs & [(-> & -> & Hgt & -> & Hok' & Hsmall)|(a & -> & Ha & Hok')]).
    + exists 0, h', brk, l. split; [done|]. by left.
    + exists (a + 1), h', brk', l'. split; [done|]. right. exists a. split; [done|]. split; [|done].
      unfold nunits, HEADER. pose proof (Z.div_mod (nbytes + 16 - 1) 16 ltac:(lia)).
      pose proof (Z.mod_pos_bound (nbytes + 16 - 1) 16 ltac:(lia)). lia.
  - intros A1 a s A2 -> Hf. destruct (heap_ok_free base fuel brk h l A1 a s A2 Hok Hf ltac:(lia)) as (h' & l' & Hs & Hok' & _ & _ & Hu & _).
    by exists h', l'.
Qed.

(** A fresh process with its heap at 0x8000, given 1 MB. *)
Lemma malloc_free_correct_witness :
  exists a h' brk' l', brk_run 0x100000 (malloc 64 10 100 (mkHeap (fun _ => mkHeader 0 0) 0)) 0x8000 = Some ((a + 1, h'), brk')
    /\ heap_ok 64 brk' h' l' [(a, 8)].
Proof.
  destruct (malloc_free_correct 64 0x100000 0x8000 (mkHeap (fun _ => mkHeader 0 0) 0) [] [] 10) as [Hm _].
  - split.
    + vm_compute. done.
    + by left.
    + intros u ?%unit_of_nil. done.
    + intros a t ?%not_elem_of_nil. done.
    + intros a t u ?%not_elem_of_nil. done.
    + intros [|i] j a t b s u; done.
  - simpl. lia.
  - destruct (Hm 100 ltac:(lia) ltac:(vm_compute; reflexivity)) as (ap & h' & brk' & l' & Hs & [(_ & _ & Hgt & _)|(a & -> & _ & Hok)]).
    + vm_compute in Hgt. discriminate.
    + by exists a, h', brk', l'.
Defined.
