(* ===== verification/TestFiles.v ===== *)
(** * The file system tests of [usertests.c]

    The tests of [user/usertests.c] that use files, directories and links, as
    trees of system calls.  A test gets its name for its messages and exits with
    1 when it is not satisfied.  The buffer [buf] is a list of bytes that is
    zero at the start of a test, since every test runs in a process of its
    own.  Loops that end when the kernel says so take a number of turns. *)

From stdpp Require Import base numbers gmap sets strings option list.
From Stdlib Require Import Ascii.
From S2P Require Import Prelude Machine CString Printf Bio Fs Sysfile User Ulib Utils Stress.

Definition BUFSZ : Z := (Z.of_nat MAXOPBLOCKS + 2) * BSIZE.
Definition zero_buf : list Z := replicate (Z.to_nat BUFSZ) 0.

(** A message and [exit(1)]; most messages have the name of the test as their only argument. *)
Definition oops {A} (fmt : string) (ap : list varg) : uprog A := uprintf fmt ap;; uexit 1.
Definition complain {A} (s : list Z) (fmt : string) : uprog A := oops fmt [VStr (Some s)].

Definition u_open (p : string) (mode : Z) : uprog Z := ucall (COpen (str p) mode).
Definition u_write (fd : Z) (l : string) : uprog Z := ucall (CWrite fd (str l)).
Definition u_link (old new : list Z) : uprog () := ucall (CLink old new);; mret tt.
(** [read(fd, buf, n)]: the result and the new [buf]. *)
Definition read_buf (fd n : Z) (buf : list Z) : uprog (Z * list Z) :=
  '(r, l) ← ucall (CRead fd n); mret (r, l ++ drop (length l) buf).
(** [wait(&xstatus)]; [exit(xstatus)]. *)
Definition wait_exit {A} : uprog A := '(_, xstatus) ← ucall CWait; uexit xstatus.
Definition o_ct (mode : Z) : Z := Z.lor (Z.lor O_CREATE mode) O_TRUNC.
Definition o_cw : Z := Z.lor O_CREATE O_WRONLY.

(** ** Truncation *)

Definition truncate1 (s : list Z) : uprog () :=
  let wanted (n k : Z) (fmt : string) := uwhen (negb (n =? k)) (oops fmt [VStr (Some s); VInt n]) in
  let after (msg : string) (fd n : Z) :=
    uwhen (negb (n =? 0))
      (uprintf msg [VInt fd];; oops "%s: read %d bytes, wanted 0\n" [VStr (Some s); VInt n]) in
  u_unlink (str "truncfile");;
  fd1 ← u_open "truncfile" (o_ct O_WRONLY);
  u_write fd1 "abcd";;
  uclose fd1;;
  fd2 ← u_open "truncfile" O_RDONLY;
  '(n, _) ← ucall (CRead fd2 32);
  wanted n 4 "%s: read %d bytes, wanted 4\n"%string;;
  fd1 ← u_open "truncfile" (Z.lor O_WRONLY O_TRUNC);
  fd3 ← u_open "truncfile" O_RDONLY;
  '(n, _) ← ucall (CRead fd3 32);
  after "aaa fd3=%d\n"%string fd3 n;;
  '(n, _) ← ucall (CRead fd2 32);
  after "bbb fd2=%d\n"%string fd2 n;;
  u_write fd1 "abcdef";;
  '(n, _) ← ucall (CRead fd3 32);
  wanted n 6 "%s: read %d bytes, wanted 6\n"%string;;
  '(n, _) ← ucall (CRead fd2 32);
  wanted n 2 "%s: read %d bytes, wanted 2\n"%string;;
  u_unlink (str "truncfile");;
  uclose fd1;; uclose fd2;; uclose fd3.

Definition truncate2 (s : list Z) : uprog () :=
  u_unlink (str "truncfile");;
  fd1 ← u_open "truncfile" (o_ct O_WRONLY);
  u_write fd1 "abcd";;
  fd2 ← u_open "truncfile" (Z.lor O_TRUNC O_WRONLY);
  n ← u_write fd1 "x";
  uwhen (negb (n =? -1)) (oops "%s: write returned %d, expected -1\n" [VStr (Some s); VInt n]);;
  u_unlink (str "truncfile");;
  uclose fd1;; uclose fd2.

Definition truncate3_child (s : list Z) : uprog () :=
  uforM (seq 0 100) (fun _ =>
    fd ← u_open "truncfile" O_WRONLY;
    uwhen (fd <? 0) (complain s "%s: open failed\n");;
    n ← u_write fd "1234567890";
    uwhen (negb (n =? 10)) (oops "%s: write got %d, expected 10\n" [VStr (Some s); VInt n]);;
    uclose fd;;
    fd ← u_open "truncfile" O_RDONLY;
    ucall (CRead fd 32);;
    uclose fd);;
  uexit 0.

Definition truncate3 (s : list Z) : uprog () :=
  close_open (str "truncfile") (o_ct O_WRONLY);;
  pid ← ucall CFork;
  uwhen (pid <? 0) (complain s "%s: fork failed\n");;
  if pid =? 0 then truncate3_child s
  else
    uforM (seq 0 150) (fun _ =>
      fd ← u_open "truncfile" (o_ct O_WRONLY);
      uwhen (fd <? 0) (complain s "%s: open failed\n");;
      n ← u_write fd "xxx";
      uwhen (negb (n =? 3)) (oops "%s: write got %d, expected 3\n" [VStr (Some s); VInt n]);;
      uclose fd);;
    '(_, xstatus) ← ucall CWait;
    u_unlink (str "truncfile");;
    uexit xstatus.

(** ** The inode of the working directory *)

Definition must (m : uprog Z) (bad : Z -> bool) (s : list Z) (fmt : string) : uprog () :=
  r ← m; uwhen (bad r) (complain s fmt).
Definition negative (r : Z) : bool := r <? 0.
Definition nonzero (r : Z) : bool := negb (r =? 0).
Definition zero (r : Z) : bool := r =? 0.
Definition nonneg (r : Z) : bool := r >=? 0.

Definition iputtest (s : list Z) : uprog () :=
  must (ucall (CMkdir (str "iputdir"))) negative s "%s: mkdir failed\n";;
  must (ucall (CChdir (str "iputdir"))) negative s "%s: chdir iputdir failed\n";;
  must (ucall (CUnlink (str "../iputdir"))) negative s "%s: unlink ../iputdir failed\n";;
  must (ucall (CChdir (str "/"))) negative s "%s: chdir / failed\n".

Definition exitiputtest (s : list Z) : uprog () :=
  pid ← ucall CFork;
  uwhen (pid <? 0) (complain s "%s: fork failed\n");;
  if pid =? 0 then
    must (ucall (CMkdir (str "iputdir"))) negative s "%s: mkdir failed\n";;
    must (ucall (CChdir (str "iputdir"))) negative s "%s: child chdir failed\n";;
    must (ucall (CUnlink (str "../iputdir"))) negative s "%s: unlink ../iputdir failed\n";;
    uexit 0
  else wait_exit.

Definition openiputtest (s : list Z) : uprog () :=
  must (ucall (CMkdir (str "oidir"))) negative s "%s: mkdir oidir failed\n";;
  pid ← ucall CFork;
  uwhen (pid <? 0) (complain s "%s: fork failed\n");;
  if pid =? 0 then
    must (u_open "oidir" O_RDWR) nonneg s "%s: open directory for write succeeded\n";;
    uexit 0
  else
    ucall (CPause 1);;
    must (ucall (CUnlink (str "oidir"))) nonzero s "%s: unlink failed\n";;
    wait_exit.

(** ** Reading and writing *)

Definition opentest (s : list Z) : uprog () :=
  fd ← u_open "echo" 0;
  uwhen (fd <? 0) (complain s "%s: open echo failed!\n");;
  uclose fd;;
  must (u_open "doesnotexist" 0) nonneg s "%s: open doesnotexist succeeded!\n".

Definition writetest (s : list Z) : uprog () :=
  fd ← u_open "small" o_crw;
  uwhen (fd <? 0) (complain s "%s: error: creat small failed!\n");;
  uforM (seq 0 100) (fun i =>
    n ← u_write fd "aaaaaaaaaa";
    uwhen (negb (n =? 10)) (oops "%s: error: write aa %d new file failed\n" [VStr (Some s); VInt (Z.of_nat i)]);;
    n ← u_write fd "bbbbbbbbbb";
    uwhen (negb (n =? 10)) (oops "%s: error: write bb %d new file failed\n" [VStr (Some s); VInt (Z.of_nat i)]));;
  uclose fd;;
  fd ← u_open "small" O_RDONLY;
  uwhen (fd <? 0) (complain s "%s: error: open small failed!\n");;
  '(i, _) ← ucall (CRead fd 2000);
  uwhen (negb (i =? 2000)) (complain s "%s: read failed\n");;
  uclose fd;;
  must (ucall (CUnlink (str "small"))) negative s "%s: unlink small failed\n".

(** The blocks of [big] are read until the end; [n] counts them. *)
Fixpoint writebig_read (turns : nat) (s : list Z) (fd n : Z) (buf : list Z) : uprog () :=
  match turns with
  | O => UStuck
  | S turns =>
      '(i, buf) ← read_buf fd BSIZE buf;
      if i =? 0 then uwhen (negb (n =? MAXFILE)) (oops "%s: read only %d blocks from big" [VStr (Some s); VInt n])
      else
        uwhen (negb (i =? BSIZE)) (oops "%s: read failed %d\n" [VStr (Some s); VInt i]);;
        let v := i32 (get_le 4 buf 0) in
        uwhen (negb (v =? n)) (oops "%s: read content of block %d is %d\n" [VStr (Some s); VInt n; VInt v]);;
        writebig_read turns s fd (n + 1) buf
  end.

Definition writebig (turns : nat) (s : list Z) : uprog () :=
  fd ← u_open "big" o_crw;
  uwhen (fd <? 0) (complain s "%s: error: creat big failed!\n");;
  uforM (seq 0 (Z.to_nat MAXFILE)) (fun i =>
    n ← ucall (CWrite fd (take (Z.to_nat BSIZE) (put_le 4 zero_buf 0 (Z.of_nat i))));
    uwhen (negb (n =? BSIZE)) (oops "%s: error: write big file failed i=%d\n" [VStr (Some s); VInt (Z.of_nat i)]));;
  uclose fd;;
  fd ← u_open "big" O_RDONLY;
  uwhen (fd <? 0) (complain s "%s: error: open big failed!\n");;
  writebig_read turns s fd 0 (put_le 4 zero_buf 0 (MAXFILE - 1));;
  uclose fd;;
  must (ucall (CUnlink (str "big"))) negative s "%s: unlink big failed\n".

(** A name of two characters, the second counted from '0'. *)
Definition name2 (c : Z) (i : nat) : list Z := [c; u8 (ch "0" + Z.of_nat i)].

Definition createtest (s : list Z) : uprog () :=
  uforM (seq 0 52) (fun i => close_open (name2 (ch "a") i) o_crw);;
  uforM (seq 0 52) (fun i => u_unlink (name2 (ch "a") i)).

Definition dirtest (s : list Z) : uprog () :=
  must (ucall (CMkdir (str "dir0"))) negative s "%s: mkdir failed\n";;
  must (ucall (CChdir (str "dir0"))) negative s "%s: chdir dir0 failed\n";;
  must (ucall (CChdir (str ".."))) negative s "%s: chdir .. failed\n";;
  must (ucall (CUnlink (str "dir0"))) negative s "%s: unlink dir0 failed\n".

(** [buf] is uninitialised before the read, which gives it its two characters. *)
Definition exectest (s : list Z) : uprog () :=
  u_unlink (str "echo-ok");;
  pid ← ucall CFork;
  uwhen (pid <? 0) (complain s "%s: fork failed\n");;
  uwhen (pid =? 0)
    (uclose 1;;
     fd ← u_open "echo-ok" o_cw;
     uwhen (fd <? 0) (complain s "%s: create failed\n");;
     uwhen (negb (fd =? 1)) (complain s "%s: wrong fd\n");;
     must (ucall (CExec (str "echo") [str "echo"; str "OK"])) negative s "%s: exec echo failed\n");;
  '(w, xstatus) ← ucall CWait;
  uwhen (negb (w =? pid)) (uprintf "%s: wait failed!\n" [VStr (Some s)]);;
  uwhen (negb (xstatus =? 0)) (uexit xstatus);;
  fd ← u_open "echo-ok" O_RDONLY;
  uwhen (fd <? 0) (complain s "%s: open failed\n");;
  '(n, l) ← ucall (CRead fd 2);
  uwhen (negb (n =? 2)) (complain s "%s: read failed\n");;
  u_unlink (str "echo-ok");;
  if bool_decide (l = str "OK") then uexit 0 else complain s "%s: wrong output\n".

(** ** Several writers *)

(** The characters of the file, ten at a time; all of the buffer is counted also
    after a short read. *)
Fixpoint sharedfd_count (turns : nat) (fd nc np : Z) (buf : list Z) : uprog (Z * Z) :=
  match turns with
  | O => UStuck
  | S turns =>
      '(n, buf) ← read_buf fd 10 buf;
      if n >? 0 then
        let count c := Z.of_nat (length (List.filter (Z.eqb c) buf)) in
        sharedfd_count turns fd (nc + count (ch "c")) (np + count (ch "p")) buf
      else mret (nc, np)
  end.

Definition sharedfd (turns : nat) (s : list Z) : uprog () :=
  u_unlink (str "sharedfd");;
  fd ← u_open "sharedfd" o_crw;
  uwhen (fd <? 0) (complain s "%s: cannot open sharedfd for writing");;
  pid ← ucall CFork;
  let buf := replicate 10 (if pid =? 0 then ch "c" else ch "p") in
  uforM (seq 0 1000) (fun _ =>
    n ← ucall (CWrite fd buf);
    uwhen (negb (n =? 10)) (complain s "%s: write sharedfd failed\n"));;
  (if pid =? 0 then uexit 0
   else '(_, xstatus) ← ucall CWait; uwhen (negb (xstatus =? 0)) (uexit xstatus));;
  uclose fd;;
  fd ← u_open "sharedfd" 0;
  uwhen (fd <? 0) (complain s "%s: cannot open sharedfd for reading\n");;
  '(nc, np) ← sharedfd_count turns fd 0 0 buf;
  uclose fd;;
  u_unlink (str "sharedfd");;
  if (nc =? 10000) && (np =? 10000) then uexit 0 else complain s "%s: nc/np test fails\n".

Definition ffname (pi : nat) : list Z := [ch "f"; ch "0" + Z.of_nat pi].

Definition fourfiles_child (s : list Z) (pi : nat) : uprog () :=
  fd ← ucall (COpen (ffname pi) o_crw);
  uwhen (fd <? 0) (complain s "%s: create failed\n");;
  uforM (seq 0 12) (fun _ =>
    n ← ucall (CWrite fd (replicate 500 (ch "0" + Z.of_nat pi)));
    uwhen (negb (n =? 500)) (oops "write failed %d\n" [VInt n]));;
  uexit 0.

Fixpoint fourfiles_read (turns : nat) (s : list Z) (fd c total : Z) : uprog Z :=
  match turns with
  | O => UStuck
  | S turns =>
      '(n, l) ← ucall (CRead fd BUFSZ);
      if n >? 0 then
        uwhen (negb (forallb (Z.eqb c) l)) (complain s "%s: wrong char\n");;
        fourfiles_read turns s fd c (total + n)
      else mret total
  end.

Definition fourfiles (turns : nat) (s : list Z) : uprog () :=
  uforM (seq 0 4) (fun pi =>
    u_unlink (ffname pi);;
    pid ← ucall CFork;
    uwhen (pid <? 0) (complain s "%s: fork failed\n");;
    uwhen (pid =? 0) (fourfiles_child s pi));;
  uforM (seq 0 4) (fun _ => '(_, xstatus) ← ucall CWait; uwhen (negb (xstatus =? 0)) (uexit xstatus));;
  uforM (seq 0 4) (fun i =>
    fd ← ucall (COpen (ffname i) 0);
    total ← fourfiles_read turns s fd (ch "0" + Z.of_nat i) 0;
    uclose fd;;
    uwhen (negb (total =? 6000)) (oops "wrong length %d\n" [VInt total]);;
    u_unlink (ffname i)).

Definition createdelete_child (s : list Z) (pi : nat) : uprog () :=
  let c := ch "p" + Z.of_nat pi in
  uforM (seq 0 20) (fun i =>
    fd ← ucall (COpen (name2 c i) o_crw);
    uwhen (fd <? 0) (complain s "%s: create failed\n");;
    uclose fd;;
    uwhen ((0 <? i)%nat && Nat.even i)
      (must (ucall (CUnlink (name2 c (i / 2)))) negative s "%s: unlink failed\n"));;
  uexit 0.

Definition createdelete (s : list Z) : uprog () :=
  uforM (seq 0 4) (fun pi =>
    pid ← ucall CFork;
    uwhen (pid <? 0) (complain s "%s: fork failed\n");;
    uwhen (pid =? 0) (createdelete_child s pi));;
  uforM (seq 0 4) (fun _ => '(_, xstatus) ← ucall CWait; uwhen (negb (xstatus =? 0)) (uexit 1));;
  uforM (seq 0 20) (fun i =>
    uforM (seq 0 4) (fun pi =>
      let name := name2 (ch "p" + Z.of_nat pi) i in
      fd ← ucall (COpen name 0);
      (if ((i =? 0)%nat || (10 <=? i)%nat) && (fd <? 0) then
         oops "%s: oops createdelete %s didn't exist\n" [VStr (Some s); VStr (Some name)]
       else if ((1 <=? i)%nat && (i <? 10)%nat) && (fd >=? 0) then
         oops "%s: oops createdelete %s did exist\n" [VStr (Some s); VStr (Some name)]
       else mret tt);;
      uwhen (fd >=? 0) (uclose fd)));;
  uforM (seq 0 20) (fun i => uforM (seq 0 4) (fun pi => u_unlink (name2 (ch "p" + Z.of_nat pi) i))).

(** ** Links *)

Definition unlinkread (s : list Z) : uprog () :=
  fd ← u_open "unlinkread" o_crw;
  uwhen (fd <? 0) (complain s "%s: create unlinkread failed\n");;
  u_write fd "hello";;
  uclose fd;;
  fd ← u_open "unlinkread" O_RDWR;
  uwhen (fd <? 0) (complain s "%s: open unlinkread failed\n");;
  must (ucall (CUnlink (str "unlinkread"))) nonzero s "%s: unlink unlinkread failed\n";;
  fd1 ← u_open "unlinkread" o_crw;
  u_write fd1 "yyy";;
  uclose fd1;;
  '(n, buf) ← read_buf fd BUFSZ zero_buf;
  uwhen (negb (n =? 5)) (complain s "%s: unlinkread read failed");;
  uwhen (negb (hd 0 buf =? ch "h")) (complain s "%s: unlinkread wrong data\n");;
  n ← ucall (CWrite fd (take 10 buf));
  uwhen (negb (n =? 10)) (complain s "%s: unlinkread write failed\n");;
  uclose fd;;
  u_unlink (str "unlinkread").

Definition linktest (s : list Z) : uprog () :=
  u_unlink (str "lf1");;
  u_unlink (str "lf2");;
  fd ← u_open "lf1" o_crw;
  uwhen (fd <? 0) (complain s "%s: create lf1 failed\n");;
  n ← u_write fd "hello";
  uwhen (negb (n =? 5)) (complain s "%s: write lf1 failed\n");;
  uclose fd;;
  must (ucall (CLink (str "lf1") (str "lf2"))) negative s "%s: link lf1 lf2 failed\n";;
  u_unlink (str "lf1");;
  must (u_open "lf1" 0) nonneg s "%s: unlinked lf1 but it is still there!\n";;
  fd ← u_open "lf2" 0;
  uwhen (fd <? 0) (complain s "%s: open lf2 failed\n");;
  '(n, _) ← ucall (CRead fd BUFSZ);
  uwhen (negb (n =? 5)) (complain s "%s: read lf2 failed\n");;
  uclose fd;;
  must (ucall (CLink (str "lf2") (str "lf2"))) nonneg s "%s: link lf2 lf2 succeeded! oops\n";;
  u_unlink (str "lf2");;
  must (ucall (CLink (str "lf2") (str "lf1"))) nonneg s "%s: link non-existent succeeded! oops\n";;
  must (ucall (CLink (str ".") (str "lf1"))) nonneg s "%s: link . lf1 succeeded! oops\n".

Definition concreate_create (i : nat) : uprog () :=
  let file := name2 (ch "C") i in
  u_unlink file;;
  pid ← ucall CFork;
  (if negb (pid =? 0) && (i mod 3 =? 1)%nat then u_link (str "C0") file
   else if (pid =? 0) && (i mod 5 =? 1)%nat then u_link (str "C0") file
   else
     fd ← ucall (COpen file o_crw);
     uwhen (fd <? 0) (oops "concreate create %s failed\n" [VStr (Some file)]);;
     uclose fd);;
  if pid =? 0 then uexit 0
  else '(_, xstatus) ← ucall CWait; uwhen (negb (xstatus =? 0)) (uexit 1).

(** The directory is listed: [fa] marks the files found, [n] counts them. *)
Fixpoint concreate_list (turns : nat) (s : list Z) (fd : Z) (fa : list bool) (n : Z) (de : list Z) : uprog Z :=
  match turns with
  | O => UStuck
  | S turns =>
      '(r, de) ← read_buf fd 16 de;
      if r >? 0 then
        if get_le 2 de 0 =? 0 then concreate_list turns s fd fa n de
        else if (get_le 1 de 2 =? ch "C") && (get_le 1 de 4 =? 0) then
          let i := get_le 1 de 3 - ch "0" in
          let name := VStr (Some (c_string (drop 2 de))) in
          uwhen ((i <? 0) || (i >=? 40)) (oops "%s: concreate weird file %s\n" [VStr (Some s); name]);;
          uwhen (default false (fa !! Z.to_nat i)) (oops "%s: concreate duplicate file %s\n" [VStr (Some s); name]);;
          concreate_list turns s fd (<[Z.to_nat i := true]> fa) (n + 1) de
        else concreate_list turns s fd fa n de
      else mret n
  end.

Definition concreate_remove (s : list Z) (i : nat) : uprog () :=
  let file := name2 (ch "C") i in
  pid ← ucall CFork;
  uwhen (pid <? 0) (complain s "%s: fork failed\n");;
  (if ((i mod 3 =? 0)%nat && (pid =? 0)) || ((i mod 3 =? 1)%nat && negb (pid =? 0))
   then uforM (seq 0 6) (fun _ => close_open file 0)
   else uforM (seq 0 6) (fun _ => u_unlink file));;
  if pid =? 0 then uexit 0 else uwait;; mret tt.

Definition concreate (turns : nat) (s : list Z) : uprog () :=
  uforM (seq 0 40) concreate_create;;
  fd ← u_open "." 0;
  n ← concreate_list turns s fd (replicate 40 false) 0 (replicate 16 0);
  uclose fd;;
  uwhen (negb (n =? 40)) (complain s "%s: concreate not enough files in directory listing\n");;
  uforM (seq 0 40) (concreate_remove s).

Fixpoint linkunlink_loop (n : nat) (x : Z) : uprog () :=
  match n with
  | O => mret tt
  | S n =>
      let x := u32 (x * 1103515245 + 12345) in
      (if x mod 3 =? 0 then close_open (str "x") (Z.lor O_RDWR O_CREATE)
       else if x mod 3 =? 1 then u_link (str "cat") (str "x")
       else u_unlink (str "x"));;
      linkunlink_loop n x
  end.
Definition linkunlink (s : list Z) : uprog () :=
  u_unlink (str "x");;
  pid ← ucall CFork;
  uwhen (pid <? 0) (complain s "%s: fork failed\n");;
  linkunlink_loop 100 (if pid =? 0 then 97 else 1);;
  if pid =? 0 then uexit 0 else uwait;; mret tt.

(** ** Directories *)

Definition rmkdir (p : string) : uprog Z := ucall (CMkdir (str p)).
Definition rchdir (p : string) : uprog Z := ucall (CChdir (str p)).
Definition runlink (p : string) : uprog Z := ucall (CUnlink (str p)).
Definition rlink (old new : string) : uprog Z := ucall (CLink (str old) (str new)).

(** A tree of two directories is made and walked, with a link in the inner one. *)
Definition subdir_make (s : list Z) : uprog () :=
  u_unlink (str "ff");;
  must (rmkdir "dd") nonzero s "%s: mkdir dd failed\n";;
  fd ← u_open "dd/ff" o_crw;
  uwhen (fd <? 0) (complain s "%s: create dd/ff failed\n");;
  u_write fd "ff";;
  uclose fd;;
  must (runlink "dd") nonneg s "%s: unlink dd (non-empty dir) succeeded!\n";;
  must (rmkdir "/dd/dd") nonzero s "%s: subdir mkdir dd/dd failed\n";;
  fd ← u_open "dd/dd/ff" o_crw;
  uwhen (fd <? 0) (complain s "%s: create dd/dd/ff failed\n");;
  u_write fd "FF";;
  uclose fd;;
  fd ← u_open "dd/dd/../ff" 0;
  uwhen (fd <? 0) (complain s "%s: open dd/dd/../ff failed\n");;
  '(cc, buf) ← read_buf fd BUFSZ zero_buf;
  uwhen (negb (cc =? 2) || negb (hd 0 buf =? ch "f")) (complain s "%s: dd/dd/../ff wrong content\n");;
  uclose fd;;
  must (rlink "dd/dd/ff" "dd/dd/ffff") nonzero s "%s: link dd/dd/ff dd/dd/ffff failed\n";;
  must (runlink "dd/dd/ff") nonzero s "%s: unlink dd/dd/ff failed\n";;
  must (u_open "dd/dd/ff" O_RDONLY) nonneg s "%s: open (unlinked) dd/dd/ff succeeded\n";;
  must (rchdir "dd") nonzero s "%s: chdir dd failed\n";;
  must (rchdir "dd/../../dd") nonzero s "%s: chdir dd/../../dd failed\n";;
  must (rchdir "dd/../../../dd") nonzero s "%s: chdir dd/../../../dd failed\n";;
  must (rchdir "./..") nonzero s "%s: chdir ./.. failed\n";;
  fd ← u_open "dd/dd/ffff" 0;
  uwhen (fd <? 0) (complain s "%s: open dd/dd/ffff failed\n");;
  '(n, _) ← ucall (CRead fd BUFSZ);
  uwhen (negb (n =? 2)) (complain s "%s: read dd/dd/ffff wrong len\n");;
  uclose fd.

(** What must not work there, and the removal of the tree. *)
Definition subdir_refused (s : list Z) : uprog () :=
  must (u_open "dd/dd/ff" O_RDONLY) nonneg s "%s: open (unlinked) dd/dd/ff succeeded!\n";;
  must (u_open "dd/ff/ff" o_crw) nonneg s "%s: create dd/ff/ff succeeded!\n";;
  must (u_open "dd/xx/ff" o_crw) nonneg s "%s: create dd/xx/ff succeeded!\n";;
  must (u_open "dd" O_CREATE) nonneg s "%s: create dd succeeded!\n";;
  must (u_open "dd" O_RDWR) nonneg s "%s: open dd rdwr succeeded!\n";;
  must (u_open "dd" O_WRONLY) nonneg s "%s: open dd wronly succeeded!\n";;
  must (rlink "dd/ff/ff" "dd/dd/xx") zero s "%s: link dd/ff/ff dd/dd/xx succeeded!\n";;
  must (rlink "dd/xx/ff" "dd/dd/xx") zero s "%s: link dd/xx/ff dd/dd/xx succeeded!\n";;
  must (rlink "dd/ff" "dd/dd/ffff") zero s "%s: link dd/ff dd/dd/ffff succeeded!\n";;
  must (rmkdir "dd/ff/ff") zero s "%s: mkdir dd/ff/ff succeeded!\n";;
  must (rmkdir "dd/xx/ff") zero s "%s: mkdir dd/xx/ff succeeded!\n";;
  must (rmkdir "dd/dd/ffff") zero s "%s: mkdir dd/dd/ffff succeeded!\n";;
  must (runlink "dd/xx/ff") zero s "%s: unlink dd/xx/ff succeeded!\n";;
  must (runlink "dd/ff/ff") zero s "%s: unlink dd/ff/ff succeeded!\n";;
  must (rchdir "dd/ff") zero s "%s: chdir dd/ff succeeded!\n";;
  must (rchdir "dd/xx") zero s "%s: chdir dd/xx succeeded!\n";;
  must (runlink "dd/dd/ffff") nonzero s "%s: unlink dd/dd/ff failed\n";;
  must (runlink "dd/ff") nonzero s "%s: unlink dd/ff failed\n";;
  must (runlink "dd") zero s "%s: unlink non-empty dd succeeded!\n";;
  must (runlink "dd/dd") negative s "%s: unlink dd/dd failed\n";;
  must (runlink "dd") negative s "%s: unlink dd failed\n".
Definition subdir (s : list Z) : uprog () := subdir_make s;; subdir_refused s.

(** [sz] from 499 in steps of 471 while it fits the buffer. *)
Definition bigwrite_sizes : list Z :=
  List.filter (fun sz => sz <? BUFSZ) (map (fun k => 499 + 471 * Z.of_nat k) (seq 0 (Z.to_nat BUFSZ / 471))).
Definition bigwrite (s : list Z) : uprog () :=
  u_unlink (str "bigwrite");;
  uforM bigwrite_sizes (fun sz =>
    fd ← u_open "bigwrite" o_crw;
    uwhen (fd <? 0) (complain s "%s: cannot create bigwrite\n");;
    uforM (seq 0 2) (fun _ =>
      cc ← ucall (CWrite fd (take (Z.to_nat sz) zero_buf));
      uwhen (negb (cc =? sz)) (oops "%s: write(%d) ret %d\n" [VStr (Some s); VInt sz; VInt cc]));;
    uclose fd;;
    u_unlink (str "bigwrite")).

Fixpoint bigfile_read (turns : nat) (s : list Z) (fd i total : Z) (buf : list Z) : uprog Z :=
  match turns with
  | O => UStuck
  | S turns =>
      '(cc, buf) ← read_buf fd 300 buf;
      uwhen (cc <? 0) (complain s "%s: read bigfile failed\n");;
      if cc =? 0 then mret total
      else
        uwhen (negb (cc =? 300)) (complain s "%s: short read bigfile\n");;
        uwhen (negb (get_le 1 buf 0 =? i / 2) || negb (get_le 1 buf 299 =? i / 2))
          (complain s "%s: read bigfile wrong data\n");;
        bigfile_read turns s fd (i + 1) (total + cc) buf
  end.
Definition bigfile (turns : nat) (s : list Z) : uprog () :=
  u_unlink (str "bigfile.dat");;
  fd ← u_open "bigfile.dat" o_crw;
  uwhen (fd <? 0) (complain s "%s: cannot create bigfile");;
  uforM (seq 0 20) (fun i =>
    n ← ucall (CWrite fd (replicate 600 (Z.of_nat i)));
    uwhen (negb (n =? 600)) (complain s "%s: write bigfile failed\n"));;
  uclose fd;;
  fd ← u_open "bigfile.dat" 0;
  uwhen (fd <? 0) (complain s "%s: cannot open bigfile\n");;
  total ← bigfile_read turns s fd 0 0 (replicate 600 19 ++ drop 600 zero_buf);
  uclose fd;;
  uwhen (negb (total =? 12000)) (complain s "%s: read bigfile wrong total\n");;
  u_unlink (str "bigfile.dat").

Definition fourteen (s : list Z) : uprog () :=
  must (rmkdir "12345678901234") nonzero s "%s: mkdir 12345678901234 failed\n";;
  must (rmkdir "12345678901234/123456789012345") nonzero s "%s: mkdir 12345678901234/123456789012345 failed\n";;
  fd ← u_open "123456789012345/123456789012345/123456789012345" O_CREATE;
  uwhen (fd <? 0) (complain s "%s: create 123456789012345/123456789012345/123456789012345 failed\n");;
  uclose fd;;
  fd ← u_open "12345678901234/12345678901234/12345678901234" 0;
  uwhen (fd <? 0) (complain s "%s: open 12345678901234/12345678901234/12345678901234 failed\n");;
  uclose fd;;
  must (rmkdir "12345678901234/12345678901234") zero s "%s: mkdir 12345678901234/12345678901234 succeeded!\n";;
  must (rmkdir "123456789012345/12345678901234") zero s "%s: mkdir 12345678901234/123456789012345 succeeded!\n";;
  u_unlink (str "123456789012345/12345678901234");;
  u_unlink (str "12345678901234/12345678901234");;
  u_unlink (str "12345678901234/12345678901234/12345678901234");;
  u_unlink (str "123456789012345/123456789012345/123456789012345");;
  u_unlink (str "12345678901234/123456789012345");;
  u_unlink (str "12345678901234").

Definition rmdot (s : list Z) : uprog () :=
  must (rmkdir "dots") nonzero s "%s: mkdir dots failed\n";;
  must (rchdir "dots") nonzero s "%s: chdir dots failed\n";;
  must (runlink ".") zero s "%s: rm . worked!\n";;
  must (runlink "..") zero s "%s: rm .. worked!\n";;
  must (rchdir "/") nonzero s "%s: chdir / failed\n";;
  must (runlink "dots/.") zero s "%s: unlink dots/. worked!\n";;
  must (runlink "dots/..") zero s "%s: unlink dots/.. worked!\n";;
  must (runlink "dots") nonzero s "%s: unlink dots failed!\n".

Definition dirfile (s : list Z) : uprog () :=
  fd ← u_open "dirfile" O_CREATE;
  uwhen (fd <? 0) (complain s "%s: create dirfile failed\n");;
  uclose fd;;
  must (rchdir "dirfile") zero s "%s: chdir dirfile succeeded!\n";;
  must (u_open "dirfile/xx" 0) nonneg s "%s: create dirfile/xx succeeded!\n";;
  must (u_open "dirfile/xx" O_CREATE) nonneg s "%s: create dirfile/xx succeeded!\n";;
  must (rmkdir "dirfile/xx") zero s "%s: mkdir dirfile/xx succeeded!\n";;
  must (runlink "dirfile/xx") zero s "%s: unlink dirfile/xx succeeded!\n";;
  must (rlink "README" "dirfile/xx") zero s "%s: link to dirfile/xx succeeded!\n";;
  must (runlink "dirfile") nonzero s "%s: unlink dirfile failed!\n";;
  must (u_open "." O_RDWR) nonneg s "%s: open . for writing succeeded!\n";;
  fd ← u_open "." 0;
  must (u_write fd "x") (fun r => r >? 0) s "%s: write . succeeded!\n";;
  uclose fd.

Definition empty_name : list Z := [].
Definition iref (s : list Z) : uprog () :=
  let close_if fd := uwhen (fd >=? 0) (uclose fd) in
  uforM (seq 0 (NINODE + 1)) (fun _ =>
    must (rmkdir "irefd") nonzero s "%s: mkdir irefd failed\n";;
    must (rchdir "irefd") nonzero s "%s: chdir irefd failed\n";;
    u_mkdir empty_name;;
    u_link (str "README") empty_name;;
    fd ← ucall (COpen empty_name O_CREATE);
    close_if fd;;
    fd ← u_open "xx" O_CREATE;
    close_if fd;;
    u_unlink (str "xx"));;
  uforM (seq 0 (NINODE + 1)) (fun _ => u_chdir (str "..");; u_unlink (str "irefd"));;
  u_chdir (str "/").

(** ** Tests that take long *)

Definition bigdir_name (i : nat) : list Z := [ch "x"; ch "0" + Z.of_nat (i / 64); ch "0" + Z.of_nat (i mod 64)].
Definition bigdir (s : list Z) : uprog () :=
  u_unlink (str "bd");;
  fd ← u_open "bd" O_CREATE;
  uwhen (fd <? 0) (complain s "%s: bigdir create failed\n");;
  uclose fd;;
  uforM (seq 0 500) (fun i =>
    r ← ucall (CLink (str "bd") (bigdir_name i));
    uwhen (negb (r =? 0))
      (oops "%s: bigdir i=%d link(bd, %s) failed\n" [VStr (Some s); VInt (Z.of_nat i); VStr (Some (bigdir_name i))]));;
  u_unlink (str "bd");;
  uforM (seq 0 500) (fun i => must (ucall (CUnlink (bigdir_name i))) nonzero s "%s: bigdir unlink failed").

Definition manywrites_child (s : list Z) (ci : nat) : uprog () :=
  let name := [ch "b"; ch "a" + Z.of_nat ci] in
  u_unlink name;;
  uforM (seq 0 30) (fun _ =>
    uforM (seq 0 (ci + 1)) (fun _ =>
      fd ← ucall (COpen name o_crw);
      uwhen (fd <? 0) (oops "%s: cannot create %s\n" [VStr (Some s); VStr (Some name)]);;
      cc ← ucall (CWrite fd zero_buf);
      uwhen (negb (cc =? BUFSZ)) (oops "%s: write(%d) ret %d\n" [VStr (Some s); VInt BUFSZ; VInt cc]);;
      uclose fd);;
    u_unlink name);;
  u_unlink name;;
  uexit 0.
Definition manywrites (s : list Z) : uprog () :=
  uforM (seq 0 4) (fun ci =>
    pid ← ucall CFork;
    uwhen (pid <? 0) (oops "fork failed\n" []);;
    uwhen (pid =? 0) (manywrites_child s ci));;
  uforM (seq 0 4) (fun _ =>
    '(w, st) ← ucall CWait;
    let st := if w <? 0 then 0 else st in
    uwhen (negb (st =? 0)) (uexit st));;
  uexit 0.

Definition badwrite (s : list Z) : uprog () :=
  u_unlink (str "junk");;
  uforM (seq 0 600) (fun _ =>
    fd ← u_open "junk" o_cw;
    uwhen (fd <? 0) (oops "open junk failed\n" []);;
    ucall (CWriteAt fd 0xffffffffff 1);;
    uclose fd;;
    u_unlink (str "junk"));;
  fd ← u_open "junk" o_cw;
  uwhen (fd <? 0) (oops "open junk failed\n" []);;
  n ← u_write fd "x";
  uwhen (negb (n =? 1)) (oops "write failed\n" []);;
  uclose fd;;
  u_unlink (str "junk");;
  uexit 0.

Definition big_name (i : nat) : list Z := str "big" ++ [ch "0" + Z.of_nat i].
Definition zz_name (i : nat) : list Z := [ch "z"; ch "z"; ch "0" + Z.of_nat (i / 32); ch "0" + Z.of_nat (i mod 32)].

(** At most [n] blocks are written to [fd]; whether a write failed, in which case
    the file is closed here and once more by the caller. *)
Fixpoint fill_file (n : nat) (fd : Z) (block : list Z) : uprog bool :=
  match n with
  | O => mret false
  | S n =>
      r ← ucall (CWrite fd block);
      if negb (r =? BSIZE) then uclose fd;; mret true else fill_file n fd block
  end.
(** Files are filled until something fails; [block] is the uninitialised array of the source. *)
Fixpoint fill_disk (l : list nat) (s block : list Z) : uprog () :=
  match l with
  | [] => mret tt
  | fi :: l =>
      u_unlink (big_name fi);;
      fd ← ucall (COpen (big_name fi) (o_ct O_RDWR));
      if fd <? 0 then uprintf "%s: could not create file %s\n" [VStr (Some s); VStr (Some (big_name fi))]
      else
        full ← fill_file (Z.to_nat MAXFILE) fd block;
        uclose fd;;
        if (full : bool) then mret tt else fill_disk l s block
  end.
(** Empty files are made until one cannot be. *)
Fixpoint make_files (l : list nat) : uprog () :=
  match l with
  | [] => mret tt
  | i :: l =>
      u_unlink (zz_name i);;
      fd ← ucall (COpen (zz_name i) (o_ct O_RDWR));
      if fd <? 0 then mret tt else uclose fd;; make_files l
  end.

(** The characters from '0' to 0176. *)
Definition big_files : list nat := seq 0 (0x7f - 48).
Definition diskfull (block s : list Z) : uprog () :=
  u_unlink (str "diskfulldir");;
  fill_disk big_files s block;;
  make_files (seq 0 128);;
  r ← rmkdir "diskfulldir";
  uwhen (r =? 0) (uprintf "%s: mkdir(diskfulldir) unexpectedly succeeded!\n" [VStr (Some s)]);;
  u_unlink (str "diskfulldir");;
  uforM (seq 0 128) (fun i => u_unlink (zz_name i));;
  uforM big_files (fun i => u_unlink (big_name i)).

Definition outofinodes (s : list Z) : uprog () :=
  make_files (seq 0 1024);;
  uforM (seq 0 1024) (fun i => u_unlink (zz_name i)).

(** ** fsfull, which no list of tests names *)

Definition full_name (n : Z) : list Z :=
  [ch "f"; u8 (ch "0" + n / 1000); ch "0" + (n mod 1000) / 100; ch "0" + (n mod 100) / 10; ch "0" + n mod 10].
(** One file is written until a write is short. *)
Fixpoint full_file (turns : nat) (fd total : Z) : uprog Z :=
  match turns with
  | O => UStuck
  | S turns =>
      cc ← ucall (CWrite fd (take (Z.to_nat BSIZE) zero_buf));
      if cc <? BSIZE then mret total else full_file turns fd (total + cc)
  end.
Fixpoint full_fill (turns : nat) (nfiles : Z) : uprog Z :=
  match turns with
  | O => UStuck
  | S turns =>
      let name := full_name nfiles in
      uprintf "writing %s\n" [VStr (Some name)];;
      fd ← ucall (COpen name o_crw);
      if fd <? 0 then uprintf "open %s failed\n" [VStr (Some name)];; mret nfiles
      else
        total ← full_file turns fd 0;
        uprintf "wrote %d bytes\n" [VInt total];;
        uclose fd;;
        if total =? 0 then mret nfiles else full_fill turns (nfiles + 1)
  end.
Definition fsfull (turns : nat) : uprog () :=
  uprintf "fsfull test\n" [];;
  nfiles ← full_fill turns 0;
  uforM (rev (seq 0 (Z.to_nat (nfiles + 1)))) (fun n => u_unlink (full_name (Z.of_nat n)));;
  uprintf "fsfull test finished\n" [].
