(* ===== verification/TestProcs.v ===== *)
(** * The process tests of [usertests.c]

    The tests of [user/usertests.c] on processes, pipes and the arguments of
    [exec], as trees of system calls.  A loop that only a signal from outside
    ends is [UStuck] after its last call or after its turns. *)

From stdpp Require Import base numbers gmap sets strings option list.
From Stdlib Require Import Ascii.
From S2P Require Import Prelude Machine CString Printf Bio Fs Sysfile Syscall User Ulib Utils Stress Umalloc TestFiles.

(** [for(;;) ;] *)
Definition spin {A} : uprog A := UStuck.

(** ** Pipes *)

(** [SZ] bytes that continue the sequence at [seq]. *)
Definition seq_bytes (from : Z) : list Z := map (fun k => u8 (from + Z.of_nat k)) (seq 0 1033).

Definition pipe1_child (s : list Z) (f0 f1 : Z) : uprog () :=
  uclose f0;;
  uforM (seq 0 5) (fun n =>
    r ← ucall (CWrite f1 (seq_bytes (1033 * Z.of_nat n)));
    uwhen (negb (r =? 1033)) (complain s "%s: pipe1 oops 1\n"));;
  uexit 0.

(** The total, or nothing after a wrong byte. *)
Fixpoint pipe1_read (turns : nat) (s : list Z) (fd from cc total : Z) : uprog (option Z) :=
  match turns with
  | O => UStuck
  | S turns =>
      '(n, l) ← ucall (CRead fd cc);
      if n >? 0 then
        if bool_decide (l = map (fun k => u8 (from + Z.of_nat k)) (seq 0 (length l))) then
          let cc := cc * 2 in
          pipe1_read turns s fd (from + n) (if cc >? BUFSZ then BUFSZ else cc) (total + n)
        else uprintf "%s: pipe1 oops 2\n" [VStr (Some s)];; mret None
      else mret (Some total)
  end.

Definition pipe1 (turns : nat) (s : list Z) : uprog () :=
  '(r, (f0, f1)) ← ucall CPipe;
  uwhen (negb (r =? 0)) (complain s "%s: pipe() failed\n");;
  pid ← ucall CFork;
  if pid =? 0 then pipe1_child s f0 f1
  else if pid >? 0 then
    uclose f1;;
    total ← pipe1_read turns s f0 0 1 0;
    match total with
    | None => mret tt
    | Some total =>
        uwhen (negb (total =? 5165)) (oops "%s: pipe1 oops 3 total %d\n" [VStr (Some s); VInt total]);;
        uclose f0;;
        wait_exit
    end
  else complain s "%s: fork() failed\n".

(** ** Killing *)

Fixpoint getpid_loop (turns : nat) : uprog () :=
  match turns with
  | O => UStuck
  | S turns => ucall CGetpid;; getpid_loop turns
  end.

Definition killstatus (turns : nat) (s : list Z) : uprog () :=
  uforM (seq 0 100) (fun _ =>
    pid1 ← ucall CFork;
    uwhen (pid1 <? 0) (complain s "%s: fork failed\n");;
    uwhen (pid1 =? 0) (getpid_loop turns;; uexit 0);;
    ucall (CPause 1);;
    ucall (CKill pid1);;
    '(_, xst) ← ucall CWait;
    uwhen (negb (xst =? -1)) (complain s "%s: status should be -1\n"));;
  uexit 0.

Definition preempt (s : list Z) : uprog () :=
  pid1 ← ucall CFork;
  uwhen (pid1 <? 0) (complain s "%s: fork failed");;
  uwhen (pid1 =? 0) spin;;
  pid2 ← ucall CFork;
  uwhen (pid2 <? 0) (complain s "%s: fork failed\n");;
  uwhen (pid2 =? 0) spin;;
  '(_, (f0, f1)) ← ucall CPipe;
  pid3 ← ucall CFork;
  uwhen (pid3 <? 0) (complain s "%s: fork failed\n");;
  uwhen (pid3 =? 0)
    (uclose f0;;
     n ← u_write f1 "x";
     uwhen (negb (n =? 1)) (uprintf "%s: preempt write error" [VStr (Some s)]);;
     uclose f1;;
     spin);;
  uclose f1;;
  '(n, _) ← ucall (CRead f0 BUFSZ);
  if negb (n =? 1) then uprintf "%s: preempt read error" [VStr (Some s)]
  else
    uclose f0;;
    uprintf "kill... " [];;
    ucall (CKill pid1);; ucall (CKill pid2);; ucall (CKill pid3);;
    uprintf "wait... " [];;
    uwait;; uwait;; uwait;; mret tt.

(** ** fork, exit and wait *)

Definition exitwait (s : list Z) : uprog () :=
  uforM (seq 0 100) (fun i =>
    pid ← ucall CFork;
    uwhen (pid <? 0) (complain s "%s: fork failed\n");;
    if negb (pid =? 0) then
      '(w, xstate) ← ucall CWait;
      uwhen (negb (w =? pid)) (complain s "%s: wait wrong pid\n");;
      uwhen (negb (Z.of_nat i =? xstate)) (complain s "%s: wait wrong exit status\n")
    else uexit (Z.of_nat i)).

Definition t_reparent (s : list Z) : uprog () :=
  master_pid ← ucall CGetpid;
  uforM (seq 0 200) (fun _ =>
    pid ← ucall CFork;
    uwhen (pid <? 0) (complain s "%s: fork failed\n");;
    if negb (pid =? 0) then
      w ← uwait;
      uwhen (negb (w =? pid)) (complain s "%s: wait wrong pid\n")
    else
      pid2 ← ucall CFork;
      uwhen (pid2 <? 0) (ucall (CKill master_pid);; uexit 1);;
      uexit 0);;
  uexit 0.

Definition twochildren (s : list Z) : uprog () :=
  uforM (seq 0 1000) (fun _ =>
    pid1 ← ucall CFork;
    uwhen (pid1 <? 0) (complain s "%s: fork failed\n");;
    if pid1 =? 0 then uexit 0
    else
      pid2 ← ucall CFork;
      uwhen (pid2 <? 0) (complain s "%s: fork failed\n");;
      if pid2 =? 0 then uexit 0 else uwait;; uwait;; mret tt).

Definition forkfork (s : list Z) : uprog () :=
  uforM (seq 0 2) (fun _ =>
    pid ← ucall CFork;
    uwhen (pid <? 0) (complain s "%s: fork failed");;
    uwhen (pid =? 0)
      (uforM (seq 0 200) (fun _ =>
         pid1 ← ucall CFork;
         uwhen (pid1 <? 0) (uexit 1);;
         uwhen (pid1 =? 0) (uexit 0);;
         uwait;; mret tt);;
       uexit 0));;
  uforM (seq 0 2) (fun _ =>
    '(_, xstatus) ← ucall CWait;
    uwhen (negb (xstatus =? 0)) (complain s "%s: fork in child failed")).

Fixpoint forking (turns : nat) : uprog () :=
  match turns with
  | O => UStuck
  | S turns =>
      fd ← u_open "stopforking" 0;
      uwhen (fd >=? 0) (uexit 0);;
      r ← ucall CFork;
      uwhen (r <? 0) (close_open (str "stopforking") o_crw);;
      forking turns
  end.
Definition forkforkfork (turns : nat) (s : list Z) : uprog () :=
  u_unlink (str "stopforking");;
  pid ← ucall CFork;
  uwhen (pid <? 0) (complain s "%s: fork failed");;
  uwhen (pid =? 0) (forking turns);;
  ucall (CPause 20);;
  close_open (str "stopforking") o_crw;;
  uwait;;
  ucall (CPause 10);; mret tt.

Definition reparent2 (s : list Z) : uprog () :=
  uforM (seq 0 800) (fun _ =>
    pid1 ← ucall CFork;
    uwhen (pid1 <? 0) (oops "fork failed\n" []);;
    uwhen (pid1 =? 0) (u_fork;; u_fork;; uexit 0);;
    uwait;; mret tt);;
  uexit 0.

(** How many children were made before [fork] failed, at most [todo]. *)
Fixpoint t_forktest_fork (todo : nat) (n : Z) : uprog Z :=
  match todo with
  | O => mret n
  | S todo =>
      pid ← ucall CFork;
      if pid <? 0 then mret n
      else uwhen (pid =? 0) (uexit 0);; t_forktest_fork todo (n + 1)
  end.
Definition t_forktest (s : list Z) : uprog () :=
  n ← t_forktest_fork 1000 0;
  uwhen (n =? 0) (complain s "%s: no fork at all!\n");;
  uwhen (n =? 1000) (complain s "%s: fork claimed to work 1000 times!\n");;
  uforM (seq 0 (Z.to_nat n)) (fun _ => must uwait negative s "%s: wait stopped early\n");;
  must uwait (fun r => negb (r =? -1)) s "%s: wait got too many\n".

(** ** Memory of a process *)

Section mem.
Context (base : Z).

(** The blocks are chained through their first pointer. *)
Fixpoint mem_take (turns : nat) (m1 : Z) (h : heap) : uprog (Z * heap) :=
  match turns with
  | O => UStuck
  | S turns' =>
      '(m2, h) ← malloc base turns 10001 h;
      if negb (m2 =? 0) then mem_take turns' m2 (mkHeap (set_ptr m2 m1 (h_mem h)) (h_freep h))
      else mret (m1, h)
  end.
Fixpoint mem_give (turns : nat) (m1 : Z) (h : heap) : uprog heap :=
  match turns with
  | O => UStuck
  | S turns' =>
      if m1 =? 0 then mret h
      else
        let m2 := h_ptr (h_mem h m1) in
        match free turns m1 h with
        | Some h => mem_give turns' m2 h
        | None => UStuck
        end
  end.
Definition t_mem (turns : nat) (h : heap) (s : list Z) : uprog () :=
  pid ← ucall CFork;
  if pid =? 0 then
    '(m1, h) ← mem_take turns 0 h;
    h ← mem_give turns m1 h;
    '(m1, h) ← malloc base turns (1024 * 20) h;
    uwhen (m1 =? 0) (complain s "%s: couldn't allocate mem?!!\n");;
    match free turns m1 h with
    | Some _ => uexit 0
    | None => UStuck
    end
  else
    '(_, xstatus) ← ucall CWait;
    uwhen (xstatus =? -1) (uexit 0);;
    uexit xstatus.
End mem.

(** ** Arguments *)

Definition expect_refused (what : string) (r : Z) (ap : list varg) : uprog () :=
  uwhen (negb (r =? -1)) (oops what ap).

Definition copyinstr2 (s : list Z) : uprog () :=
  let b := replicate MAXPATH (ch "x") in
  ret ← ucall (CUnlink b);
  expect_refused "unlink(%s) returned %d, not -1\n" ret [VStr (Some b); VInt ret];;
  fd ← ucall (COpen b o_cw);
  expect_refused "open(%s) returned %d, not -1\n" fd [VStr (Some b); VInt fd];;
  ret ← ucall (CLink b b);
  expect_refused "link(%s, %s) returned %d, not -1\n" ret [VStr (Some b); VStr (Some b); VInt ret];;
  ret ← ucall (CExec b [str "xx"]);
  expect_refused "exec(%s) returned %d, not -1\n" ret [VStr (Some b); VInt fd];;
  pid ← ucall CFork;
  uwhen (pid <? 0) (oops "fork failed\n" []);;
  uwhen (pid =? 0)
    (let big := replicate (Z.to_nat PGSIZE) (ch "x") in
     ret ← ucall (CExec (str "echo") [big; big; big]);
     expect_refused "exec(echo, BIG) returned %d, not -1\n" ret [VInt fd];;
     uexit 747);;
  '(w, st) ← ucall CWait;
  let st := if w <? 0 then 0 else st in
  uwhen (negb (st =? 747)) (oops "exec(echo, BIG) succeeded, should have failed\n" []).

Definition bigargtest (s : list Z) : uprog () :=
  u_unlink (str "bigarg-ok");;
  pid ← ucall CFork;
  if pid =? 0 then
    ucall (CExec (str "echo") (replicate (MAXARG - 1) (replicate 399 (ch " "))));;
    close_open (str "bigarg-ok") O_CREATE;;
    uexit 0
  else
    uwhen (pid <? 0) (complain s "%s: bigargtest: fork failed\n");;
    '(_, xstatus) ← ucall CWait;
    uwhen (negb (xstatus =? 0)) (uexit xstatus);;
    fd ← u_open "bigarg-ok" 0;
    uwhen (fd <? 0) (complain s "%s: bigarg test failed!\n");;
    uclose fd.
