(* ===== verification/TestMemory.v ===== *)
(** * The memory tests of [usertests.c]

    The tests of [user/usertests.c] that hand made-up pointers to the kernel,
    move the break, and touch memory they have or have not.  Every access
    through a made-up pointer is a step of the tree, [CLoad] or [CStore], which
    ends the process when it faults. *)

From stdpp Require Import base numbers gmap sets strings option list.
From Stdlib Require Import Ascii.
From S2P Require Import Prelude Machine CString Printf Bio Fs Sysfile Syscall User Ulib Utils Stress TestFiles TestProcs.

Definition poke (a v : Z) : uprog () := ucall (CStore 1 a v).
Definition peek8 (a : Z) : uprog Z := ucall (CLoad 1 a).
Definition sbrk_ (n : Z) : uprog () := usbrk n;; mret tt.

(** ** Pointers given to system calls *)

Definition copyin_addrs : list Z := [0x80000000; 0x3fffffe000; 0x3ffffff000; 0x4000000000; 0xffffffffffffffff].
Definition t_copyin (s : list Z) : uprog () :=
  uforM copyin_addrs (fun addr =>
    fd ← u_open "copyin1" o_cw;
    uwhen (fd <? 0) (oops "open(copyin1) failed\n" []);;
    n ← ucall (CWriteAt fd addr 8192);
    uwhen (n >=? 0) (oops "write(fd, %p, 8192) returned %d, not -1\n" [VInt addr; VInt n]);;
    uclose fd;;
    u_unlink (str "copyin1");;
    n ← ucall (CWriteAt 1 addr 8192);
    uwhen (n >? 0) (oops "write(1, %p, 8192) returned %d, not -1 or 0\n" [VInt addr; VInt n]);;
    '(r, (f0, f1)) ← ucall CPipe;
    uwhen (r <? 0) (oops "pipe() failed\n" []);;
    n ← ucall (CWriteAt f1 addr 8192);
    uwhen (n >? 0) (oops "write(pipe, %p, 8192) returned %d, not -1 or 0\n" [VInt addr; VInt n]);;
    uclose f0;;
    uclose f1).

Definition copyout_addrs : list Z := 0 :: copyin_addrs.
Definition t_copyout (s : list Z) : uprog () :=
  uforM copyout_addrs (fun addr =>
    fd ← u_open "README" 0;
    uwhen (fd <? 0) (oops "open(README) failed\n" []);;
    n ← ucall (CReadAt fd addr 8192);
    uwhen (n >? 0) (oops "read(fd, %p, 8192) returned %d, not -1 or 0\n" [VInt addr; VInt n]);;
    uclose fd;;
    '(r, (f0, f1)) ← ucall CPipe;
    uwhen (r <? 0) (oops "pipe() failed\n" []);;
    n ← u_write f1 "x";
    uwhen (negb (n =? 1)) (oops "pipe write failed\n" []);;
    n ← ucall (CReadAt f0 addr 8192);
    uwhen (n >? 0) (oops "read(pipe, %p, 8192) returned %d, not -1 or 0\n" [VInt addr; VInt n]);;
    uclose f0;;
    uclose f1).

Definition copyinstr1 (s : list Z) : uprog () :=
  uforM copyin_addrs (fun addr =>
    fd ← ucall (COpenAt addr o_cw);
    uwhen (fd >=? 0) (oops "open(%p) returned %d, not -1\n" [VInt addr; VInt fd])).

(** The string at [b] is one character that the end of memory cuts off, so a message
    that prints it gets no further. *)
Definition copyinstr3 (s : list Z) : uprog () :=
  sbrk_ 8192;;
  top ← usbrk 0;
  uwhen (negb (u64 top mod PGSIZE =? 0)) (sbrk_ (PGSIZE - u64 top mod PGSIZE));;
  top ← usbrk 0;
  uwhen (negb (u64 top mod PGSIZE =? 0)) (oops "oops\n" []);;
  let b := top - 1 in
  poke b (ch "x");;
  let refused (msg : string) (r : Z) : uprog () :=
    if r =? -1 then mret tt else uprintf msg [];; peek8 (b + 1);; UStuck in
  ret ← ucall (CUnlinkAt b);
  refused "unlink(x" ret;;
  fd ← ucall (COpenAt b o_cw);
  refused "open(x" fd;;
  ret ← ucall (CLinkAt (inr b) (inr b));
  refused "link(x" ret;;
  ret ← ucall (CExecAt (inr b) [inl (str "xx")]);
  refused "exec(x" ret.

Definition rwsbrk (s : list Z) : uprog () :=
  a ← usbrk 8192;
  uwhen (a =? SBRK_ERROR) (oops "sbrk(rwsbrk) failed\n" []);;
  r ← usbrk (-8192);
  uwhen (r =? SBRK_ERROR) (oops "sbrk(rwsbrk) shrink failed\n" []);;
  fd ← u_open "rwsbrk" o_cw;
  uwhen (fd <? 0) (oops "open(rwsbrk) failed\n" []);;
  n ← ucall (CWriteAt fd (a + PGSIZE) 1024);
  uwhen (n >=? 0) (oops "write(fd, %p, 1024) returned %d, not -1\n" [VInt (a + PGSIZE); VInt n]);;
  uclose fd;;
  u_unlink (str "rwsbrk");;
  fd ← u_open "README" O_RDONLY;
  uwhen (fd <? 0) (oops "open(README) failed\n" []);;
  n ← ucall (CReadAt fd (a + PGSIZE) 10);
  uwhen (n >=? 0) (oops "read(fd, %p, 10) returned %d, not -1\n" [VInt (a + PGSIZE); VInt n]);;
  uclose fd;;
  uexit 0.

Definition validatetest (s : list Z) : uprog () :=
  uforM (seq 0 (Z.to_nat (1100 * 1024 / PGSIZE) + 1)) (fun k =>
    must (ucall (CLinkAt (inl (str "nosuchfile")) (inr (PGSIZE * Z.of_nat k)))) (fun r => negb (r =? -1)) s
      "%s: link should not succeed\n").

(** [uninit] is what the static array of that name holds. *)
Definition bsstest (uninit s : list Z) : uprog () :=
  uforM uninit (fun c => uwhen (negb (c =? 0)) (complain s "%s: bss test failed\n")).

Definition argptest (s : list Z) : uprog () :=
  fd ← u_open "init" O_RDONLY;
  uwhen (fd <? 0) (complain s "%s: open failed\n");;
  top ← usbrk 0;
  ucall (CReadAt fd (top - 1) (-1));;
  uclose fd.

Definition pgbug (s : list Z) : uprog () :=
  let big := 0xeaeb0b5b00002f5e in
  ucall (CExecAt (inr big) []);;
  ucall (CPipeAt big);;
  uexit 0.

Definition badarg (s : list Z) : uprog () :=
  uforM (seq 0 (Z.to_nat 50000)) (fun _ => ucall (CExecAt (inl (str "echo")) [inr 0xffffffff]);; mret tt);;
  uexit 0.

(** ** The break *)

(** Every page of [n] from [a] on is touched. *)
Fixpoint touch_pages (n : nat) (a v : Z) : uprog () :=
  match n with
  | O => mret tt
  | S n => poke a v;; touch_pages n (a + PGSIZE) v
  end.

(** [n] single bytes are added; the break is where the last one ended. *)
Fixpoint sbrk_bytes (n : nat) (i : Z) (s : list Z) (a : Z) : uprog Z :=
  match n with
  | O => mret a
  | S n =>
      b ← usbrk 1;
      uwhen (negb (b =? a)) (oops "%s: sbrk test failed %d %p %p\n" [VStr (Some s); VInt i; VInt a; VInt b]);;
      poke b 1;;
      sbrk_bytes n (i + 1) s (b + 1)
  end.

Definition sbrkbasic (s : list Z) : uprog () :=
  let toomuch := 1024 * 1024 * 1024 in
  pid ← ucall CFork;
  uwhen (pid <? 0) (oops "fork failed in sbrkbasic\n" []);;
  uwhen (pid =? 0)
    (a ← usbrk toomuch;
     uwhen (a =? SBRK_ERROR) (uexit 0);;
     touch_pages (Z.to_nat (toomuch / PGSIZE)) a 99;;
     uexit 1);;
  '(_, xstatus) ← ucall CWait;
  uwhen (xstatus =? 1) (complain s "%s: too much memory allocated!\n");;
  a ← usbrk 0;
  a ← sbrk_bytes 5000 0 s a;
  pid ← ucall CFork;
  uwhen (pid <? 0) (complain s "%s: sbrk test fork failed\n");;
  usbrk 1;;
  c ← usbrk 1;
  uwhen (negb (c =? a + 1)) (complain s "%s: sbrk test failed post-fork\n");;
  uwhen (pid =? 0) (uexit 0);;
  wait_exit.

Definition BIG : Z := 100 * 1024 * 1024.
Definition sbrkmuch (s : list Z) : uprog () :=
  oldbrk ← usbrk 0;
  a ← usbrk 0;
  let amt := u64 (BIG - u64 a) in
  p ← usbrk (i32 amt);
  uwhen (negb (p =? a)) (complain s "%s: sbrk test failed to grow big address space; enough phys mem?\n");;
  let lastaddr := BIG - 1 in
  poke lastaddr 99;;
  a ← usbrk 0;
  c ← usbrk (- PGSIZE);
  uwhen (c =? SBRK_ERROR) (complain s "%s: sbrk could not deallocate\n");;
  c ← usbrk 0;
  uwhen (negb (c =? a - PGSIZE))
    (oops "%s: sbrk deallocation produced wrong address, a %p c %p\n" [VStr (Some s); VInt a; VInt c]);;
  a ← usbrk 0;
  c ← usbrk PGSIZE;
  bad ← (if negb (c =? a) then mret true else t ← usbrk 0; mret (negb (t =? a + PGSIZE)));
  uwhen bad (oops "%s: sbrk re-allocation failed, a %p c %p\n" [VStr (Some s); VInt a; VInt c]);;
  v ← peek8 lastaddr;
  uwhen (v =? 99) (complain s "%s: sbrk de-allocation didn't really deallocate\n");;
  a ← usbrk 0;
  t ← usbrk 0;
  c ← usbrk (i32 (- (t - oldbrk)));
  uwhen (negb (c =? a)) (oops "%s: sbrk downsize failed, a %p c %p\n" [VStr (Some s); VInt a; VInt c]).

(** A child of [sbrkfail] and the byte it sends. *)
Definition sbrkfail_child (turns : nat) (f1 : Z) : uprog () :=
  t ← usbrk 0;
  r ← usbrk (i32 (BIG - u64 t));
  (if r =? SBRK_ERROR then u_write f1 "0" else u_write f1 "1");;
  pause_loop turns.
(** The pids and whether an allocation failed; [scratch] keeps its value when a read gives nothing. *)
Fixpoint sbrkfail_fork (n turns : nat) (f0 f1 scratch : Z) (failed : bool) : uprog (list Z * bool) :=
  match n with
  | O => mret ([], failed)
  | S n =>
      pid ← ucall CFork;
      uwhen (pid =? 0) (sbrkfail_child turns f1);;
      '(scratch, failed) ←
        (if negb (pid =? -1) then
           '(_, l) ← ucall (CRead f0 1);
           let scratch := default scratch (head l) in
           mret (scratch, failed || (scratch =? ch "0"))
         else mret (scratch, failed));
      '(pids, failed) ← sbrkfail_fork n turns f0 f1 scratch failed;
      mret (pid :: pids, failed)
  end.
Definition sbrkfail (turns : nat) (scratch : Z) (s : list Z) : uprog () :=
  '(r, (f0, f1)) ← ucall CPipe;
  uwhen (negb (r =? 0)) (complain s "%s: pipe() failed\n");;
  '(pids, failed) ← sbrkfail_fork 10 turns f0 f1 scratch false;
  uwhen (negb failed) (uprintf "%s: no allocation failed; allocate more?\n" [VStr (Some s)]);;
  c ← usbrk PGSIZE;
  uforM pids (fun pid => uwhen (negb (pid =? -1)) (ucall (CKill pid);; uwait;; mret tt));;
  uwhen (c =? SBRK_ERROR) (complain s "%s: failed sbrk leaked memory\n");;
  pid ← ucall CFork;
  uwhen (pid <? 0) (complain s "%s: fork failed\n");;
  uwhen (pid =? 0)
    (a ← usbrk (10 * BIG);
     uwhen (a =? SBRK_ERROR) (uexit 0);;
     oops "%s: allocate a lot of memory succeeded %d\n" [VStr (Some s); VInt (10 * BIG)]);;
  '(_, xstatus) ← ucall CWait;
  uwhen (negb (xstatus =? 0)) (uexit 1).

Definition sbrkarg (s : list Z) : uprog () :=
  a ← usbrk PGSIZE;
  fd ← u_open "sbrk" o_cw;
  u_unlink (str "sbrk");;
  uwhen (fd <? 0) (complain s "%s: open sbrk failed\n");;
  n ← ucall (CWriteAt fd a PGSIZE);
  uwhen (n <? 0) (complain s "%s: write sbrk failed\n");;
  uclose fd;;
  a ← usbrk PGSIZE;
  must (ucall (CPipeAt a)) nonzero s "%s: pipe() failed\n".

Definition sbrkbugs_child (m : uprog ()) : uprog () :=
  pid ← ucall CFork;
  uwhen (pid <? 0) (oops "fork failed\n" []);;
  uwhen (pid =? 0) (m;; uexit 0);;
  uwait;; mret tt.
Definition sbrkbugs (s : list Z) : uprog () :=
  sbrkbugs_child (sz ← usbrk 0; sbrk_ (i32 (- i32 sz)));;
  sbrkbugs_child (sz ← usbrk 0; sbrk_ (i32 (- (i32 sz - 3500))));;
  sbrkbugs_child (t ← usbrk 0; sbrk_ (i32 (10 * PGSIZE + 2048 - u64 t));; sbrk_ (-10));;
  uexit 0.

(** [open(p)] takes the string "x", which was stored at [p] just before. *)
Definition sbrklast (s : list Z) : uprog () :=
  top ← usbrk 0;
  uwhen (negb (u64 top mod PGSIZE =? 0)) (sbrk_ (PGSIZE - u64 top mod PGSIZE));;
  sbrk_ PGSIZE;;
  sbrk_ 10;;
  sbrk_ (-20);;
  top ← usbrk 0;
  let p := top - 64 in
  poke p (ch "x");;
  poke (p + 1) 0;;
  fd ← ucall (COpenAt p o_crw);
  ucall (CWriteAt fd p 1);;
  uclose fd;;
  fd ← ucall (COpenAt p O_RDWR);
  poke p 0;;
  ucall (CReadAt fd p 1);;
  v ← peek8 p;
  uwhen (negb (v =? ch "x")) (uexit 1).

Definition sbrk8000 (s : list Z) : uprog () :=
  sbrk_ (i32 0x80000004);;
  top ← usbrk 0;
  v ← peek8 (top - 1);
  poke (top - 1) (u8 (v + 1)).

(** ** Memory a process must not touch *)

(** A child does [m]; the parent gets its status. *)
Definition in_child (m : uprog ()) (s : list Z) : uprog Z :=
  pid ← ucall CFork;
  uwhen (pid <? 0) (complain s "%s: fork failed\n");;
  uwhen (pid =? 0) m;;
  '(_, xstatus) ← ucall CWait;
  mret xstatus.

Definition kernmem (s : list Z) : uprog () :=
  uforM (seq 0 40) (fun k =>
    let a := KERNBASE + 50000 * Z.of_nat k in
    xstatus ← in_child (v ← peek8 a; oops "%s: oops could read %p = %x\n" [VStr (Some s); VInt a; VInt v]) s;
    uwhen (negb (xstatus =? -1)) (uexit 1)).

(** [a] is doubled until it overflows to 0. *)
Definition MAXVAplus (s : list Z) : uprog () :=
  uforM (seq 0 26) (fun k =>
    let a := Z.shiftl MAXVA (Z.of_nat k) in
    xstatus ← in_child (poke a 99;; oops "%s: oops wrote %p\n" [VStr (Some s); VInt a]) s;
    uwhen (negb (xstatus =? -1)) (uexit 1)).

(** [sp] is the stack pointer of the child. *)
Definition stacktest (sp : Z) (s : list Z) : uprog () :=
  pid ← ucall CFork;
  if pid =? 0 then
    v ← peek8 (sp - USERSTACK * PGSIZE);
    oops "%s: stacktest: read below stack %d\n" [VStr (Some s); VInt v]
  else
    uwhen (pid <? 0) (complain s "%s: fork failed\n");;
    '(_, xstatus) ← ucall CWait;
    if xstatus =? -1 then uexit 0 else uexit xstatus.

Definition nowrite (s : list Z) : uprog () :=
  uforM copyout_addrs (fun addr =>
    pid ← ucall CFork;
    if pid =? 0 then
      ucall (CStore 4 addr 10);;
      uprintf "%s: write to %p did not fail!\n" [VStr (Some s); VInt addr];;
      uexit 0
    else
      uwhen (pid <? 0) (complain s "%s: fork failed\n");;
      '(_, xstatus) ← ucall CWait;
      uwhen (xstatus =? 0) (uexit 1));;
  uexit 0.

(** ** Lazy allocation *)

Definition REGION_SZ : Z := 1024 * 1024 * 1024.
(** The addresses [prev_end + PGSIZE], and on in steps of [step] below the end of the region. *)
Definition region (prev_end step : Z) : list Z :=
  map (fun k => prev_end + PGSIZE + step * Z.of_nat k) (seq 0 (Z.to_nat ((REGION_SZ - PGSIZE + step - 1) / step))).

Definition lazy_alloc (s : list Z) : uprog () :=
  prev_end ← usbrklazy REGION_SZ;
  uwhen (prev_end =? SBRK_ERROR) (oops "sbrklazy() failed\n" []);;
  uforM (region prev_end (64 * PGSIZE)) (fun i => ucall (CStore 8 i i));;
  uforM (region prev_end (64 * PGSIZE)) (fun i =>
    v ← ucall (CLoad 8 i);
    uwhen (negb (v =? i)) (oops "failed to read value from memory\n" []));;
  uexit 0.

Definition lazy_unmap (s : list Z) : uprog () :=
  prev_end ← usbrklazy REGION_SZ;
  uwhen (prev_end =? SBRK_ERROR) (oops "sbrklazy() failed\n" []);;
  uforM (region prev_end (PGSIZE * PGSIZE)) (fun i => ucall (CStore 8 i i));;
  uforM (region prev_end (PGSIZE * PGSIZE)) (fun i =>
    pid ← ucall CFork;
    if pid <? 0 then oops "error forking\n" []
    else if pid =? 0 then
      usbrklazy (- REGION_SZ);;
      ucall (CStore 8 i i);;
      uexit 0
    else
      '(_, status) ← ucall CWait;
      uwhen (status =? 0) (oops "memory not unmapped\n" []));;
  uexit 0.

Definition bad_addrs : list Z := [0x3fffffc000; 0x3fffffd000; 0x3fffffe000; 0x3ffffff000; 0x4000000000; 0x8000000000].
Definition lazy_copy (s : list Z) : uprog () :=
  p ← usbrk 0;
  usbrklazy (4 * PGSIZE);;
  ucall (COpenAt (p + 8192) 0);;
  xx ← usbrk 0;
  ret ← usbrk (i32 (- (u64 xx + 1)));
  uwhen (negb (ret =? xx)) (oops "sbrk(sbrk(0)+1) returned %p, not old sz\n" [VInt ret]);;
  uforM bad_addrs (fun bad =>
    fd ← u_open "README" 0;
    uwhen (fd <? 0) (oops "cannot open README\n" []);;
    n ← ucall (CReadAt fd bad 512);
    uwhen (n >=? 0) (oops "read succeeded\n" []);;
    uclose fd;;
    fd ← u_open "junk" (o_ct O_RDWR);
    uwhen (fd <? 0) (oops "cannot open junk\n" []);;
    n ← ucall (CWriteAt fd bad 512);
    uwhen (n >=? 0) (oops "write succeeded\n" []);;
    uclose fd);;
  uexit 0.

(** The break goes up in steps of 2^30; a pointer is never below 0, so the
    tests of its sign in the source do not fail. *)
Fixpoint lazy_grow (turns : nat) (p : Z) : uprog Z :=
  if u64 p <? MAXVA - 2 ^ 30 then
    match turns with
    | O => UStuck
    | S turns => usbrklazy (2 ^ 30);; p ← usbrklazy 0; lazy_grow turns p
    end
  else mret p.
Definition lazy_sbrk (turns : nat) (s : list Z) : uprog () :=
  p ← usbrk 0;
  p ← lazy_grow turns p;
  let n := i32 (TRAPFRAME - PGSIZE - u64 p) in
  p1 ← usbrklazy n;
  uwhen (negb (p1 =? p)) (oops "sbrklazy(%d) returned %p, not expected %p\n" [VInt n; VInt p1; VInt p]);;
  p ← usbrk PGSIZE;
  uwhen (negb (u64 p =? TRAPFRAME - PGSIZE))
    (oops "sbrk(%d) returned %p, not expected TRAPFRAME-PGSIZE\n" [VInt PGSIZE; VInt p]);;
  poke p 1;;
  v ← peek8 (p + 1);
  uwhen (negb (v =? 0)) (oops "sbrk() returned non-zero-filled memory\n" []);;
  p ← usbrk 1;
  uwhen (negb (p =? -1)) (oops "sbrk(1) returned %p, expected error\n" [VInt p]);;
  p ← usbrklazy 1;
  uwhen (negb (p =? -1)) (oops "sbrklazy(1) returned %p, expected error\n" [VInt p]);;
  uexit 0.

(** ** Running out of memory *)

Fixpoint take_all (turns : nat) : uprog () :=
  match turns with
  | O => UStuck
  | S turns =>
      a ← usbrk PGSIZE;
      if a =? SBRK_ERROR then mret tt else poke (a + PGSIZE - 1) 1;; take_all turns
  end.
Definition execout (turns : nat) (s : list Z) : uprog () :=
  uforM (seq 0 15) (fun avail =>
    pid ← ucall CFork;
    if pid <? 0 then oops "fork failed\n" []
    else if pid =? 0 then
      take_all turns;;
      uforM (seq 0 avail) (fun _ => sbrk_ (- PGSIZE));;
      uclose 1;;
      ucall (CExec (str "echo") [str "echo"; str "x"]);;
      uexit 0
    else uwait;; mret tt);;
  uexit 0.
