(* ===== verification/TestDrive.v ===== *)
(** * The driver of [usertests.c]

    The two lists of tests, the loop that runs each test in a process of its
    own, and [main].  A test that waits for the kernel takes [turns], and what
    the tests read from their own uninitialised memory is a parameter. *)

From stdpp Require Import base numbers gmap sets strings option list.
From Stdlib Require Import Ascii.
From S2P Require Import Prelude Machine CString Printf User Ulib Utils Stress Umalloc TestFiles TestProcs TestMemory.

(** What a test finds in its memory: the array [uninit], the stack pointer, the
    heap and its static header, and the local variables it uses unset. *)
Record image := mkImage {
  im_uninit : list Z;
  im_sp : Z;
  im_base : Z;
  im_heap : heap;
  im_scratch : Z;
  im_block : list Z
}.

(** [struct test] *)
Record test := mkTest { t_run : list Z -> uprog (); t_name : list Z }.

Section tests.
Context (turns : nat) (im : image).

Definition quicktests : list test :=
  [mkTest t_copyin (str "copyin"); mkTest t_copyout (str "copyout"); mkTest copyinstr1 (str "copyinstr1");
   mkTest copyinstr2 (str "copyinstr2"); mkTest copyinstr3 (str "copyinstr3"); mkTest rwsbrk (str "rwsbrk");
   mkTest truncate1 (str "truncate1"); mkTest truncate2 (str "truncate2"); mkTest truncate3 (str "truncate3");
   mkTest openiputtest (str "openiput"); mkTest exitiputtest (str "exitiput"); mkTest iputtest (str "iput");
   mkTest opentest (str "opentest"); mkTest writetest (str "writetest"); mkTest (writebig turns) (str "writebig");
   mkTest createtest (str "createtest"); mkTest dirtest (str "dirtest"); mkTest exectest (str "exectest");
   mkTest (pipe1 turns) (str "pipe1"); mkTest (killstatus turns) (str "killstatus"); mkTest preempt (str "preempt");
   mkTest exitwait (str "exitwait"); mkTest t_reparent (str "reparent"); mkTest twochildren (str "twochildren");
   mkTest forkfork (str "forkfork"); mkTest (forkforkfork turns) (str "forkforkfork"); mkTest reparent2 (str "reparent2");
   mkTest (t_mem (im_base im) turns (im_heap im)) (str "mem"); mkTest (sharedfd turns) (str "sharedfd");
   mkTest (fourfiles turns) (str "fourfiles"); mkTest createdelete (str "createdelete"); mkTest unlinkread (str "unlinkread");
   mkTest linktest (str "linktest"); mkTest (concreate turns) (str "concreate"); mkTest linkunlink (str "linkunlink");
   mkTest subdir (str "subdir"); mkTest bigwrite (str "bigwrite"); mkTest (bigfile turns) (str "bigfile");
   mkTest fourteen (str "fourteen"); mkTest rmdot (str "rmdot"); mkTest dirfile (str "dirfile"); mkTest iref (str "iref");
   mkTest t_forktest (str "forktest"); mkTest sbrkbasic (str "sbrkbasic"); mkTest sbrkmuch (str "sbrkmuch");
   mkTest kernmem (str "kernmem"); mkTest MAXVAplus (str "MAXVAplus"); mkTest (sbrkfail turns (im_scratch im)) (str "sbrkfail");
   mkTest sbrkarg (str "sbrkarg"); mkTest validatetest (str "validatetest"); mkTest (bsstest (im_uninit im)) (str "bsstest");
   mkTest bigargtest (str "bigargtest"); mkTest argptest (str "argptest"); mkTest (stacktest (im_sp im)) (str "stacktest");
   mkTest nowrite (str "nowrite"); mkTest pgbug (str "pgbug"); mkTest sbrkbugs (str "sbrkbugs"); mkTest sbrklast (str "sbrklast");
   mkTest sbrk8000 (str "sbrk8000"); mkTest badarg (str "badarg"); mkTest lazy_alloc (str "lazy_alloc");
   mkTest lazy_unmap (str "lazy_unmap"); mkTest lazy_copy (str "lazy_copy"); mkTest (lazy_sbrk turns) (str "lazy_sbrk")].

Definition slowtests : list test :=
  [mkTest bigdir (str "bigdir"); mkTest manywrites (str "manywrites"); mkTest badwrite (str "badwrite");
   mkTest (execout turns) (str "execout"); mkTest (diskfull (im_block im)) (str "diskfull"); mkTest outofinodes (str "outofinodes")].

(** Whether the child that runs the test exited with 0. *)
Definition run_test (f : list Z -> uprog ()) (s : list Z) : uprog bool :=
  uprintf "test %s: " [VStr (Some s)];;
  pid ← ucall CFork;
  uwhen (pid <? 0) (oops "runtest: fork error\n" []);;
  if pid =? 0 then f s;; uexit 0
  else
    '(_, xstatus) ← ucall CWait;
    (if negb (xstatus =? 0) then uprintf "FAILED\n" [] else uprintf "OK\n" []);;
    mret (xstatus =? 0).

Fixpoint runtests (tests : list test) (justone : option (list Z)) (continuous ntests : Z) : uprog Z :=
  match tests with
  | [] => mret ntests
  | t :: tests =>
      if match justone with None => true | Some name => bool_decide (t_name t = name) end then
        ok ← run_test (t_run t) (t_name t);
        if negb ok && negb (continuous =? 2) then uprintf "SOME TESTS FAILED\n" [];; mret (-1)
        else runtests tests justone continuous (ntests + 1)
      else runtests tests justone continuous ntests
  end.

(** The pages [sbrk] can still get. *)
Fixpoint count_pages (turns : nat) (n : Z) : uprog Z :=
  match turns with
  | O => UStuck
  | S turns =>
      a ← usbrk PGSIZE;
      if a =? SBRK_ERROR then mret n else count_pages turns (n + 1)
  end.
Definition countfree : uprog Z :=
  sz0 ← usbrk 0;
  n ← count_pages turns 0;
  top ← usbrk 0;
  usbrk (i32 (- (u64 top - u64 sz0)));;
  mret n.

(** One round of [drivetests]: its result when it returns from there. *)
Definition drive_round (quick : bool) (continuous : Z) (justone : option (list Z)) : uprog (option Z) :=
  uprintf "usertests starting\n" [];;
  free0 ← countfree;
  n ← runtests quicktests justone continuous 0;
  if (n <? 0) && negb (continuous =? 2) then mret (Some 1)
  else
    let ntests := if n <? 0 then 0 else n in
    n ← (if quick then mret 0
         else uwhen (bool_decide (justone = None)) (uprintf "usertests slow tests starting\n" []);;
              runtests slowtests justone continuous 0);
    if (n <? 0) && negb (continuous =? 2) then mret (Some 1)
    else
      let ntests := if n <? 0 then ntests else ntests + n in
      free1 ← countfree;
      let lost := free1 <? free0 in
      uwhen lost (uprintf "FAILED -- lost some free pages %d (out of %d)\n" [VInt free1; VInt free0]);;
      if lost && negb (continuous =? 2) then mret (Some 1)
      else if negb (bool_decide (justone = None)) && (ntests =? 0) then uprintf "NO TESTS EXECUTED\n" [];; mret (Some 1)
      else mret None.

Fixpoint drivetests (rounds : nat) (quick : bool) (continuous : Z) (justone : option (list Z)) : uprog Z :=
  match rounds with
  | O => UStuck
  | S rounds =>
      r ← drive_round quick continuous justone;
      match r with
      | Some r => mret r
      | None => if continuous =? 0 then mret 0 else drivetests rounds quick continuous justone
      end
  end.

Definition usertests_main (rounds : nat) (argv : list (list Z)) : uprog () :=
  let drive quick continuous justone :=
    r ← drivetests rounds quick continuous justone;
    uwhen (negb (r =? 0)) (uexit 1);;
    uprintf "ALL TESTS PASSED\n" [];;
    uexit 0 in
  match argv with
  | [] | [_] => drive false 0 None
  | [_; a] =>
      if bool_decide (a = str "-q") then drive true 0 None
      else if bool_decide (a = str "-c") then drive false 1 None
      else if bool_decide (a = str "-C") then drive false 2 None
      else if negb (hd 0 a =? ch "-") then drive false 0 (Some a)
      else oops "Usage: usertests [-c] [-C] [-q] [testname]\n" []
  | _ => oops "Usage: usertests [-c] [-C] [-q] [testname]\n" []
  end.
End tests.
