(* ===== verification/SysSpec.v ===== *)
(** * What the system calls promise

    A specification of the file, pipe and process calls as a user program sees
    them: files are lists of bytes, directories are lists of names, open files
    are shared after [fork], and nothing runs out.  A child runs to its end
    before its parent goes on.  The driver of the tests is run
    on it. *)

From stdpp Require Import base numbers gmap sets strings option list.
From Stdlib Require Import Ascii.
From S2P Require Import Prelude Machine CString Printf Fs Sysfile User Ulib.

(** ** State *)

(** Entries [.] and [..] are implied; the root is its own parent. *)
Inductive node := NFile (l : list Z) | NDir (parent : nat) (ents : list (list Z * nat)).

Inductive okind := OFile (ino off : nat) (readable writable : bool) | OPipe (n : nat) (reading : bool) | OCons.
(** An open file and how many descriptors refer to it. *)
Record ofile := mkOfile { of_kind : okind; of_ref : nat }.

(** The world outside the process. *)
Record sys := mkSys {
  y_nodes : list node;
  y_open : list ofile;
  y_pipes : list (list Z);
  y_next : Z;
  y_out : list Z
}.
(** A process; [u_kids] are the children that exited, with their status. *)
Record uproc := mkUproc { u_pid : Z; u_cwd : nat; u_fds : list (option nat); u_kids : list (Z * Z) }.

Definition set_nodes (f : list node -> list node) (w : sys) : sys :=
  mkSys (f (y_nodes w)) (y_open w) (y_pipes w) (y_next w) (y_out w).
Definition set_open (f : list ofile -> list ofile) (w : sys) : sys :=
  mkSys (y_nodes w) (f (y_open w)) (y_pipes w) (y_next w) (y_out w).
Definition set_pipes (f : list (list Z) -> list (list Z)) (w : sys) : sys :=
  mkSys (y_nodes w) (y_open w) (f (y_pipes w)) (y_next w) (y_out w).
Definition set_out (f : list Z -> list Z) (w : sys) : sys :=
  mkSys (y_nodes w) (y_open w) (y_pipes w) (y_next w) (f (y_out w)).
Definition set_fds (f : list (option nat) -> list (option nat)) (p : uproc) : uproc :=
  mkUproc (u_pid p) (u_cwd p) (f (u_fds p)) (u_kids p).

(** ** Paths *)

Definition name_eqb (a b : list Z) : bool := bool_decide (a = b).

(** The elements of a path, cut to [DIRSIZ] bytes. *)
Fixpoint split_path (cur : list Z) (l : list Z) : list (list Z) :=
  let out := match cur with [] => [] | _ => [take DIRSIZ (rev cur)] end in
  match l with
  | [] => out
  | c :: l => if c =? ch "/" then out ++ split_path [] l else split_path (c :: cur) l
  end.
Definition elements (path : list Z) : list (list Z) := split_path [] path.

Definition find_ent (name : list Z) (ents : list (list Z * nat)) : option nat :=
  snd <$> List.find (fun e => name_eqb name (fst e)) ents.
Definition step_dir (w : sys) (d : nat) (name : list Z) : option nat :=
  match y_nodes w !! d with
  | Some (NDir parent ents) =>
      if name_eqb name (str ".") then Some d
      else if name_eqb name (str "..") then Some parent
      else find_ent name ents
  | _ => None
  end.
Fixpoint walk_path (w : sys) (d : nat) (names : list (list Z)) : option nat :=
  match names with
  | [] => Some d
  | n :: names => d ← step_dir w d n; walk_path w d names
  end.
Definition start_dir (p : uproc) (path : list Z) : nat :=
  match path with c :: _ => if c =? ch "/" then 0%nat else u_cwd p | [] => u_cwd p end.
Definition find_node (w : sys) (p : uproc) (path : list Z) : option nat := walk_path w (start_dir p path) (elements path).
(** The directory of the last element, and that element. *)
Definition find_parent (w : sys) (p : uproc) (path : list Z) : option (nat * list Z) :=
  name ← last (elements path);
  d ← walk_path w (start_dir p path) (removelast (elements path));
  match y_nodes w !! d with Some (NDir _ _) => Some (d, name) | _ => None end.

Definition add_ent (d : nat) (name : list Z) (i : nat) (w : sys) : sys :=
  set_nodes (alter (fun x => match x with NDir parent ents => NDir parent (ents ++ [(name, i)]) | x => x end) d) w.
Definition del_ent (d : nat) (name : list Z) (w : sys) : sys :=
  set_nodes (alter (fun x => match x with
    | NDir parent ents => NDir parent (List.filter (fun e => negb (name_eqb name (fst e))) ents) | x => x end) d) w.

(** A new node under [path], or the file that is there already. *)
Definition make_node (path : list Z) (dir : bool) (p : uproc) (w : sys) : option (nat * sys) :=
  '(d, name) ← find_parent w p path;
  match step_dir w d name with
  | Some i =>
      match y_nodes w !! i with
      | Some (NFile _) => if dir then None else Some (i, w)
      | _ => None
      end
  | None =>
      let i := length (y_nodes w) in
      Some (i, add_ent d name i (set_nodes (fun l => l ++ [if dir then NDir d [] else NFile []]) w))
  end.

(** ** Descriptors *)

Fixpoint first_free (l : list (option nat)) (i : nat) : option nat :=
  match l with
  | [] => None
  | None :: _ => Some i
  | Some _ :: l => first_free l (S i)
  end.
(** The lowest free descriptor for a new open file. *)
Definition new_fd (k : okind) (p : uproc) (w : sys) : option (nat * uproc * sys) :=
  fd ← first_free (u_fds p) 0;
  Some (fd, set_fds <[fd := Some (length (y_open w))]> p, set_open (fun l => l ++ [mkOfile k 1]) w).
Definition fd_file (fd : Z) (p : uproc) (w : sys) : option (nat * okind) :=
  if fd <? 0 then None
  else
    o ← u_fds p !! Z.to_nat fd;
    i ← o;
    f ← y_open w !! i;
    Some (i, of_kind f).
Definition drop_ref (i : nat) (w : sys) : sys := set_open (alter (fun f => mkOfile (of_kind f) (Nat.pred (of_ref f))) i) w.
Definition add_ref (i : nat) (w : sys) : sys := set_open (alter (fun f => mkOfile (of_kind f) (S (of_ref f))) i) w.
Definition set_kind (i : nat) (k : okind) (w : sys) : sys := set_open (alter (fun f => mkOfile k (of_ref f)) i) w.

(** Some descriptor can still write to pipe [n]. *)
Definition has_writer (n : nat) (w : sys) : bool :=
  existsb (fun f => match of_kind f with
    | OPipe m false => (m =? n)%nat && (0 <? of_ref f)%nat
    | _ => false end) (y_open w).

(** ** The calls *)

Definition open_node (i : nat) (mode : Z) (p : uproc) (w : sys) : Z * uproc * sys :=
  let dir := match y_nodes w !! i with Some (NDir _ _) => true | _ => false end in
  if dir && negb (mode =? O_RDONLY) then (-1, p, w)
  else
    let can_read := Z.land mode O_WRONLY =? 0 in
    let can_write := negb (Z.land mode O_WRONLY =? 0) || negb (Z.land mode O_RDWR =? 0) in
    match new_fd (OFile i 0 can_read can_write) p w with
    | None => (-1, p, w)
    | Some (fd, p, w) =>
        (Z.of_nat fd, p, if negb dir && negb (Z.land mode O_TRUNC =? 0) then set_nodes <[i := NFile []]> w else w)
    end.
Definition spec_open (path : list Z) (mode : Z) (p : uproc) (w : sys) : Z * uproc * sys :=
  if negb (Z.land mode O_CREATE =? 0) then
    match make_node path false p w with Some (i, w) => open_node i mode p w | None => (-1, p, w) end
  else match find_node w p path with Some i => open_node i mode p w | None => (-1, p, w) end.

(** Reading a directory or from the console is left open, as is reading from an
    empty pipe that can still be written. *)
Definition spec_read (fd n : Z) (p : uproc) (w : sys) : option (Z * list Z * sys) :=
  match fd_file fd p w with
  | None => Some (-1, [], w)
  | Some (i, OFile ino off true can_write) =>
      match y_nodes w !! ino with
      | Some (NFile l) =>
          let r := take (Z.to_nat n) (drop off l) in
          Some (Z.of_nat (length r), r, set_kind i (OFile ino (off + length r) true can_write) w)
      | _ => None
      end
  | Some (i, OPipe k true) =>
      match y_pipes w !! k with
      | Some [] => if has_writer k w then None else Some (0, [], w)
      | Some l => let r := take (Z.to_nat n) l in
          Some (Z.of_nat (length r), r, set_pipes <[k := drop (Z.to_nat n) l]> w)
      | None => None
      end
  | Some (_, OCons) => None
  | Some _ => Some (-1, [], w)
  end.

(** A write beyond the end fails; one that makes the file too long is left open. *)
Definition spec_write (fd : Z) (l : list Z) (p : uproc) (w : sys) : option (Z * sys) :=
  let n := Z.of_nat (length l) in
  match fd_file fd p w with
  | None => Some (-1, w)
  | Some (i, OFile ino off can_read true) =>
      match y_nodes w !! ino with
      | Some (NFile old) =>
          if (length old <? off)%nat then Some (-1, w)
          else if Z.of_nat off + n >? MAXFILE * BSIZE then None
          else Some (n, set_kind i (OFile ino (off + length l) can_read true)
                          (set_nodes <[ino := NFile (take off old ++ l ++ drop (off + length l) old)]> w))
      | _ => None
      end
  | Some (_, OPipe k false) => Some (n, set_pipes (alter (fun q => q ++ l) k) w)
  | Some (_, OCons) => Some (n, set_out (fun o => o ++ l) w)
  | Some _ => Some (-1, w)
  end.

Definition spec_close (fd : Z) (p : uproc) (w : sys) : Z * uproc * sys :=
  match fd_file fd p w with
  | None => (-1, p, w)
  | Some (i, _) => (0, set_fds <[Z.to_nat fd := None]> p, drop_ref i w)
  end.

Definition spec_pipe (p : uproc) (w : sys) : (Z * (Z * Z)) * uproc * sys :=
  let k := length (y_pipes w) in
  match new_fd (OPipe k true) p (set_pipes (fun l => l ++ [[]]) w) with
  | Some (f0, p1, w1) =>
      match new_fd (OPipe k false) p1 w1 with
      | Some (f1, p2, w2) => ((0, (Z.of_nat f0, Z.of_nat f1)), p2, w2)
      | None => ((-1, (0, 0)), p, w)
      end
  | None => ((-1, (0, 0)), p, w)
  end.

Definition spec_unlink (path : list Z) (p : uproc) (w : sys) : Z * sys :=
  match find_parent w p path with
  | None => (-1, w)
  | Some (d, name) =>
      if name_eqb name (str ".") || name_eqb name (str "..") then (-1, w)
      else
        match step_dir w d name with
        | None => (-1, w)
        | Some i =>
            match y_nodes w !! i with
            | Some (NDir _ (_ :: _)) => (-1, w)
            | _ => (0, del_ent d name w)
            end
        end
  end.

Definition spec_link (old new : list Z) (p : uproc) (w : sys) : Z * sys :=
  match find_node w p old with
  | None => (-1, w)
  | Some i =>
      match y_nodes w !! i, find_parent w p new with
      | Some (NFile _), Some (d, name) =>
          match step_dir w d name with Some _ => (-1, w) | None => (0, add_ent d name i w) end
      | _, _ => (-1, w)
      end
  end.

Definition spec_chdir (path : list Z) (p : uproc) (w : sys) : Z * uproc :=
  match find_node w p path with
  | None => (-1, p)
  | Some i =>
      match y_nodes w !! i with
      | Some (NDir _ _) => (0, mkUproc (u_pid p) i (u_fds p) (u_kids p))
      | _ => (-1, p)
      end
  end.

Definition spec_dup (fd : Z) (p : uproc) (w : sys) : Z * uproc * sys :=
  match fd_file fd p w, first_free (u_fds p) 0 with
  | Some (i, _), Some fd' => (Z.of_nat fd', set_fds <[fd' := Some i]> p, add_ref i w)
  | _, _ => (-1, p, w)
  end.

(** The answer to a call other than [fork] and [exec]; none where nothing is promised here. *)
Definition sys_call {R} (c : call R) (p : uproc) (w : sys) : option (R * uproc * sys) :=
  match c in call R return option (R * uproc * sys) with
  | CWait =>
      match u_kids p with
      | [] => Some ((-1, 0), p, w)
      | k :: ks => Some (k, mkUproc (u_pid p) (u_cwd p) (u_fds p) ks, w)
      end
  | CPipe => Some (spec_pipe p w)
  | CWrite fd l => '(r, w) ← spec_write fd l p w; Some (r, p, w)
  | CRead fd n => '(r, l, w) ← spec_read fd n p w; Some ((r, l), p, w)
  | CClose fd => Some (spec_close fd p w)
  | COpen path mode => Some (spec_open path mode p w)
  | CUnlink path => let '(r, w) := spec_unlink path p w in Some (r, p, w)
  | CLink old new => let '(r, w) := spec_link old new p w in Some (r, p, w)
  | CMkdir path =>
      match make_node path true p w with Some (_, w) => Some (0, p, w) | None => Some (-1, p, w) end
  | CChdir path => let '(r, p) := spec_chdir path p w in Some (r, p, w)
  | CDup fd => Some (spec_dup fd p w)
  | CGetpid => Some (u_pid p, p, w)
  | CPause _ => Some (0, p, w)
  | _ => None
  end.

(** ** Programs *)

Definition as_fork {R} (c : call R) : option (Z -> R) :=
  match c in call R return option (Z -> R) with CFork => Some (fun z => z) | _ => None end.
Definition as_exec {R} (c : call R) : option (list Z * list (list Z) * (Z -> R)) :=
  match c in call R return option (list Z * list (list Z) * (Z -> R)) with
  | CExec path argv => Some (path, argv, fun z => z)
  | _ => None
  end.

(** At [exit] every descriptor is closed. *)
Definition open_ids (p : uproc) : list nat := omap id (u_fds p).
Definition drop_all (p : uproc) (w : sys) : sys := foldl (fun w i => drop_ref i w) w (open_ids p).
Definition forked (p : uproc) (w : sys) : uproc * sys :=
  (mkUproc (y_next w) (u_cwd p) (u_fds p) [],
   let w := foldl (fun w i => add_ref i w) w (open_ids p) in
   mkSys (y_nodes w) (y_open w) (y_pipes w) (y_next w + 1) (y_out w)).

Section run.
(** The programs [exec] can start. *)
Context (progs : list (list Z * (list (list Z) -> uprog ()))).

Section image.
(** How a program that [exec] starts runs. *)
Context (start : uprog () -> uproc -> sys -> uend () * uproc * sys).

Fixpoint sys_run {A} (m : uprog A) (p : uproc) (w : sys) : uend A * uproc * sys :=
  match m with
  | URet a => (Ended a, p, w)
  | UExit n => (Exited n, p, w)
  | UStuck => (Stuck, p, w)
  | UCall c k =>
      match as_fork c with
      | Some f =>
          let '(q, w1) := forked p w in
          match sys_run (k (f 0)) q w1 with
          | (Exited st, q', w2) =>
              sys_run (k (f (u_pid q)))
                (mkUproc (u_pid p) (u_cwd p) (u_fds p) (u_kids p ++ [(u_pid q, st)])) (drop_all q' w2)
          | (_, q', w2) => (Stuck, q', w2)
          end
      | None =>
          match as_exec c with
          | Some (path, argv, f) =>
              match List.find (fun e => name_eqb path (fst e)) progs with
              | Some (_, prog) =>
                  match start (prog argv) p w with
                  | (Exited st, p, w) => (Exited st, p, w)
                  | (_, p, w) => (Stuck, p, w)
                  end
              | None => sys_run (k (f (-1))) p w
              end
          | None =>
              match sys_call c p w with
              | Some (r, p, w) => sys_run (k r) p w
              | None => (Stuck, p, w)
              end
          end
      end
  end.
End image.

(** [n] programs can be started one from the other. *)
Fixpoint starter (n : nat) : uprog () -> uproc -> sys -> uend () * uproc * sys :=
  match n with
  | O => fun m p w => (Stuck, p, w)
  | S n => sys_run (starter n)
  end.
Definition run_depth (n : nat) {A} (m : uprog A) (p : uproc) (w : sys) : uend A * uproc * sys := sys_run (starter n) m p w.
End run.
