(* ===== verification/TestSpec.v ===== *)
(** * The driver of [usertests.c] on the specification

    Programs run on the system of [SysSpec].  The driver [runtests] is shown to
    report exactly what its tests do, whatever they are. *)

From stdpp Require Import base numbers gmap sets strings option list.
From Stdlib Require Import Ascii.
From S2P Require Import Prelude Machine CString Printf User Ulib Utils Stress Umalloc TestFiles TestProcs TestMemory TestDrive SysSpec.

Definition start_sys : sys :=
  mkSys [NDir 0 [(str "README", 1%nat); (str "cat", 2%nat); (str "echo", 3%nat); (str "init", 4%nat)];
         NFile (str "xv6"); NFile []; NFile []; NFile []]
    [mkOfile OCons 3] [] 4 [].
Definition start_proc : uproc := mkUproc 3 0 ([Some 0; Some 0; Some 0]%nat ++ replicate 13 None) [].
Definition progs : list (list Z * (list (list Z) -> uprog ())) := [(str "echo", echo_main)].

(** ** What a run leaves alone *)

(** The console stays the console, and pids only grow. *)
Record sys_grows (w w' : sys) : Prop := {
  gr_cons i f : y_open w !! i = Some f -> of_kind f = OCons -> exists f', y_open w' !! i = Some f' /\ of_kind f' = OCons;
  gr_next : y_next w <= y_next w'
}.
#[export] Instance grows_refl : Reflexive sys_grows.
Proof. split; [by eauto|lia]. Qed.
#[export] Instance grows_trans : Transitive sys_grows.
Proof.
  intros a b c [Hc Hn] [Hc' Hn']. split; [|lia]. intros i f Hf Hk.
  destruct (Hc _ _ Hf Hk) as (g & Hg & Hk'). by eapply Hc'.
Qed.

Lemma grows_same w w' : y_open w' = y_open w -> y_next w' = y_next w -> sys_grows w w'.
Proof. intros E E'. split; [rewrite E; by eauto|lia]. Qed.
(** An alteration that keeps the kind, or of a file that is not the console. *)
Lemma grows_alter i g w :
  (forall f, y_open w !! i = Some f -> of_kind f = OCons -> of_kind (g f) = OCons) -> sys_grows w (set_open (alter g i) w).
Proof.
  intros Hg. split; [|done]. intros j f Hf Hk. simpl. destruct (decide (i = j)) as [<-|Hne].
  - rewrite list_lookup_alter_eq, Hf. simpl. by eauto.
  - rewrite list_lookup_alter_ne by done. by eauto.
Qed.
Lemma grows_drop i w : sys_grows w (drop_ref i w).
Proof. by apply grows_alter. Qed.
Lemma grows_add i w : sys_grows w (add_ref i w).
Proof. by apply grows_alter. Qed.
Lemma grows_kind fd p i k k' w : fd_file fd p w = Some (i, k) -> k <> OCons -> sys_grows w (set_kind i k' w).
Proof.
  unfold fd_file. case_match; [done|]. intros Hfd Hk. apply grows_alter. intros f Hf Hc. exfalso. apply Hk.
  destruct (u_fds p !! Z.to_nat fd) as [[j|]|]; simplify_option_eq; done.
Qed.
Lemma grows_new_fd k p w fd p' w' : new_fd k p w = Some (fd, p', w') -> sys_grows w w'.
Proof.
  unfold new_fd. destruct (first_free _ _); simpl; [|done]. intros [= <- <- <-]. split; [|done].
  intros i f Hf Hk. simpl. exists f. split; [by apply lookup_app_l_Some|done].
Qed.
Lemma grows_make path dir p w i w' : make_node path dir p w = Some (i, w') -> sys_grows w w'.
Proof.
  unfold make_node. destruct (find_parent w p path) as [[d name]|]; simpl; [|done].
  repeat case_match; intros; simplify_eq; by apply grows_same.
Qed.
Lemma grows_fold (f : sys -> nat -> sys) l w : (forall i w, sys_grows w (f w i)) -> sys_grows w (foldl f w l).
Proof. intros Hf. revert w. induction l as [|i l IH]; intros w; simpl; [done|]. etrans; [apply Hf|apply IH]. Qed.
#[export] Hint Resolve grows_drop grows_add : grows.

Lemma grows_open_node i mode p w : sys_grows w (snd (open_node i mode p w)).
Proof.
  unfold open_node. set (dir := match _ with Some _ => _ | None => _ end). clearbody dir. case_match; [done|].
  destruct (new_fd _ p w) as [[[fd p1] w1]|] eqn:E; [|done]. simpl. apply grows_new_fd in E.
  case_match; [|done]. etrans; [exact E|]. by apply grows_same.
Qed.
Lemma grows_open path mode p w : sys_grows w (snd (spec_open path mode p w)).
Proof.
  unfold spec_open. case_match.
  - destruct (make_node path false p w) as [[i w1]|] eqn:E; [|done]. etrans; [by eapply grows_make|apply grows_open_node].
  - destruct (find_node w p path); [apply grows_open_node|done].
Qed.

Lemma grows_call {R} (c : call R) p w r p' w' : sys_call c p w = Some (r, p', w') -> sys_grows w w'.
Proof.
  destruct c; simpl; try done.
  - (* wait *) destruct (u_kids p); intros [= <- <- <-]; done.
  - (* pipe *) unfold spec_pipe. intros E.
    destruct (new_fd _ p _) as [[[f0 p1] w1]|] eqn:E1; [|by simplify_eq].
    destruct (new_fd _ p1 _) as [[[f1 p2] w2]|] eqn:E2; [|by simplify_eq]. simplify_eq.
    apply grows_new_fd in E1, E2. etrans; [|exact E2]. etrans; [|exact E1]. by apply grows_same.
  - (* write *) unfold spec_write. intros E. destruct (fd_file fd p w) as [[i k]|] eqn:Ef; [|by simplify_eq/=].
    destruct k as [ino off rd []|k []|]; simplify_eq/=; try done; try (by apply grows_same).
    repeat case_match; simplify_eq/=; try done.
    match goal with |- sys_grows _ (set_kind _ _ ?x) => transitivity x end; [by apply grows_same|].
    eapply (grows_kind fd); [exact Ef|discriminate].
  - (* read *) unfold spec_read. intros E. destruct (fd_file fd p w) as [[i k]|] eqn:Ef; [|by simplify_eq/=].
    destruct k as [ino off [] wr|k []|]; simplify_eq/=; try done.
    + repeat case_match; simplify_eq/=. by eapply grows_kind.
    + repeat case_match; simplify_eq/=; by apply grows_same.
  - (* close *) unfold spec_close. intros E. destruct (fd_file fd p w) as [[i k]|]; simplify_eq/=; [apply grows_drop|done].
  - (* open *) intros E. pose proof (grows_open path mode p w) as Hg. destruct (spec_open path mode p w) as [[? ?] ?]. by simplify_eq/=.
  - (* unlink *) unfold spec_unlink. intros E. repeat case_match; simplify_eq/=; try done; by apply grows_same.
  - (* link *) unfold spec_link. intros E. repeat case_match; simplify_eq/=; try done; by apply grows_same.
  - (* mkdir *) intros E. destruct (make_node path true p w) as [[i w1]|] eqn:Em; simplify_eq/=; [by eapply grows_make|done].
  - (* chdir *) intros E. destruct (spec_chdir path p w). by simplify_eq/=.
  - (* dup *) unfold spec_dup. intros E. repeat case_match; simplify_eq/=; try done; apply grows_add.
  - intros E. by simplify_eq/=.
  - intros E. by simplify_eq/=.
Qed.

Lemma grows_forked p w q w1 : forked p w = (q, w1) -> sys_grows w w1 /\ u_pid q = y_next w /\ u_fds q = u_fds p.
Proof.
  unfold forked. intros [= <- <-]. simpl. split_and!; [|done..].
  set (w2 := foldl _ _ _). assert (sys_grows w w2) as [Hc Hn] by (apply grows_fold; auto with grows).
  split; [exact Hc|simpl]. lia.
Qed.

(** One program, given that the programs it starts behave. *)
Lemma sys_run_grows progs start {A} (m : uprog A) p w r p' w' :
  (forall m p w r p' w', start m p w = (r, p', w') -> sys_grows w w') ->
  sys_run progs start m p w = (r, p', w') -> sys_grows w w'.
Proof.
  intros Hst. revert p w r p' w'. induction m as [a|st|R c k IH|]; intros p w r p' w'; cbn [sys_run];
    try (intros E; by simplify_eq/=).
  destruct (as_fork c) as [f|].
  - destruct (forked p w) as [q w1] eqn:Ef. apply grows_forked in Ef as [Hg _].
    destruct (sys_run progs start (k (f 0)) q w1) as [[[a|st|] q2] w2] eqn:Ec; apply IH in Ec.
    1, 3: intros E; simplify_eq/=; by etrans.
    intros E%IH. etrans; [exact Hg|]. etrans; [exact Ec|]. etrans; [|exact E]. apply grows_fold. auto with grows.
  - destruct (as_exec c) as [[[path argv] f]|].
    + destruct (List.find _ progs) as [[nm prog]|]; [|apply IH].
      destruct (start (prog argv) p w) as [[e p1] w1] eqn:Es. apply Hst in Es.
      destruct e; intros E; by simplify_eq/=.
    + destruct (sys_call c p w) as [[[v p1] w1]|] eqn:Ec; [|intros E; by simplify_eq/=].
      apply grows_call in Ec. intros E%IH. by etrans.
Qed.

Lemma starter_grows progs n m p w r p' w' : starter progs n m p w = (r, p', w') -> sys_grows w w'.
Proof.
  revert m p w r p' w'. induction n as [|n IH]; intros m p w r p' w'; [intros E; by simplify_eq/=|].
  by apply sys_run_grows.
Qed.

(** ** Runs in sequence *)

Section runs.
Context (progs : list (list Z * (list (list Z) -> uprog ()))) (start : uprog () -> uproc -> sys -> uend () * uproc * sys).
Context (Hstart : forall m p w r p' w', start m p w = (r, p', w') -> sys_grows w w').
Local Abbreviation run := (sys_run progs start).

Lemma run_bind {A B} (m : uprog A) (g : A -> uprog B) p w e p' w' :
  run m p w = (e, p', w') -> e <> Stuck ->
  run (m ≫= g) p w = match e with Ended a => run (g a) p' w' | Exited st => (Exited st, p', w') | Stuck => (Stuck, p', w') end.
Proof.
  revert p w e p' w'. induction m as [a|st|R c k IH|]; intros p w e p' w'; try (cbn; intros E He; by simplify_eq/=).
  change (run (UCall c k ≫= g)) with (run (UCall c (fun r => k r ≫= g))). cbn [sys_run].
  destruct (as_fork c) as [f|].
  - destruct (forked p w) as [q w1].
    destruct (run (k (f 0)) q w1) as [[[a|st|] q2] w2] eqn:Ec; intros E He; simplify_eq/=.
    rewrite (IH _ _ _ _ _ _ Ec) by done. by apply IH.
  - destruct (as_exec c) as [[[path argv] f]|].
    + destruct (List.find _ progs) as [[nm prog]|]; [|by apply IH].
      destruct (start (prog argv) p w) as [[[] p1] w1]; intros E He; by simplify_eq/=.
    + destruct (sys_call c p w) as [[[v p1] w1]|]; [by apply IH|]. intros E He. by simplify_eq/=.
Qed.
Lemma run_ended {A B} (m : uprog A) (g : A -> uprog B) p w a p' w' :
  run m p w = (Ended a, p', w') -> run (m ≫= g) p w = run (g a) p' w'.
Proof. intros E. by apply (run_bind m g _ _ _ _ _ E). Qed.
Lemma run_exited {A B} (m : uprog A) (g : A -> uprog B) p w st p' w' :
  run m p w = (Exited st, p', w') -> run (m ≫= g) p w = (Exited st, p', w').
Proof. intros E. by apply (run_bind m g _ _ _ _ _ E). Qed.

(** Standard output is the console. *)
Definition on_console (p : uproc) (w : sys) : Prop :=
  exists i f, u_fds p !! 1%nat = Some (Some i) /\ y_open w !! i = Some f /\ of_kind f = OCons.

Lemma console_grows p q w w' : u_fds q = u_fds p -> sys_grows w w' -> on_console p w -> on_console q w'.
Proof.
  intros E [Hc _] (i & f & Hi & Hf & Hk). destruct (Hc _ _ Hf Hk) as (f' & Hf' & Hk'). exists i, f'. by rewrite E.
Qed.

Definition said (l : list Z) (w : sys) : sys := set_out (fun o => o ++ l) w.

Lemma put_ok c p w : on_console p w -> run (uputc 1 c) p w = (Ended tt, p, said [u8 c] w).
Proof.
  intros (i & f & Hi & Hf & Hk). unfold uputc, uwrite, ucall. cbn [mbind uprog_bind sys_run as_fork as_exec sys_call].
  unfold spec_write, fd_file. change (1 <? 0) with false. change (Z.to_nat 1) with 1%nat. cbv iota.
  rewrite Hi. simpl. rewrite Hf. simpl. rewrite Hk. reflexivity.
Qed.
Lemma puts_ok l p w : on_console p w -> run (uforM l (uputc 1)) p w = (Ended tt, p, said (map u8 l) w).
Proof.
  revert w. induction l as [|c l IH]; intros w Hc.
  { cbn. unfold said, set_out. rewrite app_nil_r. by destruct w. }
  change (uforM (c :: l) (uputc 1)) with (uputc 1 c ≫= fun _ => uforM l (uputc 1)).
  rewrite (run_ended _ _ _ _ _ _ _ (put_ok c p w Hc)). rewrite IH by exact Hc.
  unfold said, set_out. simpl. by rewrite <- app_assoc.
Qed.
Lemma print_ok fmt ap cs p w :
  uformat (length (str fmt)) (str fmt) ap = Some cs -> on_console p w ->
  run (uprintf fmt ap) p w = (Ended tt, p, said (map u8 cs) w).
Proof. intros E Hc. unfold uprintf, uvprintf. rewrite E. by apply puts_ok. Qed.

(** ** The driver *)

(** A test that exits with [st], or returns when [st] is 0, after printing [say]. *)
Definition behaves (t : test) (st : Z) (say : list Z) : Prop :=
  forall q w, on_console q w -> exists r q' w',
    run (t_run t (t_name t)) q w = (r, q', w') /\ (r = Exited st \/ r = Ended tt /\ st = 0) /\ y_out w' = y_out w ++ say.

(** What [run_test] prints for it. *)
Definition report (t : test) (st : Z) (say : list Z) : list Z :=
  map u8 (str "test " ++ t_name t ++ str ": ") ++ say ++ map u8 (if st =? 0 then str "OK\n" else str "FAILED\n").

Lemma fold_out (f : sys -> nat -> sys) l w : (forall i w, y_out (f w i) = y_out w) -> y_out (foldl f w l) = y_out w.
Proof. intros Hf. revert w. induction l as [|i l IH]; intros w; simpl; [done|]. by rewrite IH. Qed.

Lemma run_test_ok t st say p w :
  behaves t st say -> on_console p w -> 0 < y_next w -> u_kids p = [] ->
  exists w', run (run_test (t_run t) (t_name t)) p w = (Ended (st =? 0), p, w')
    /\ sys_grows w w' /\ y_out w' = y_out w ++ report t st say.
Proof.
  intros Hb Hc Hn Hk. unfold run_test.
  erewrite run_ended; [|by apply (print_ok _ _ (str "test " ++ t_name t ++ str ": "))].
  set (w0 := said _ w). unfold ucall. cbn [mbind uprog_bind].
  match goal with |- context [UCall CFork ?k] => set (kk := k) end. cbn [sys_run as_fork].
  destruct (forked p w0) as [q w1] eqn:Ef. pose proof (grows_forked _ _ _ _ Ef) as (Hg1 & Hpid & Hfds).
  assert (y_out w1 = y_out w0) as Ho1.
  { unfold forked in Ef. injection Ef as _ <-. simpl. by apply fold_out. }
  assert (on_console q w1) as Hcq by (by apply (console_grows p _ w0)).
  destruct (Hb q w1 Hcq) as (r & q2 & w2 & Er & Hr & Ho2). pose proof (sys_run_grows _ _ _ _ _ _ _ _ Hstart Er) as Hg2.
  assert (run (kk 0) q w1 = (Exited st, q2, w2)) as ->.
  { change (kk 0) with (t_run t (t_name t) ≫= fun _ => uexit 0 : uprog bool).
    destruct Hr as [->|[-> ->]]; [by apply run_exited|]. by rewrite (run_ended _ _ _ _ _ _ _ Er). }
  set (w3 := drop_all q2 w2). assert (sys_grows w2 w3) as Hg3 by (apply grows_fold; auto with grows).
  assert (y_out w3 = y_out w2) as Ho3 by (by apply fold_out).
  assert (sys_grows w w3) as Hg by (transitivity w0; [by apply grows_same|]; transitivity w1; [done|]; by transitivity w2).
  rewrite Hk, Hpid. cbn [app]. unfold kk. rewrite (proj2 (Z.ltb_ge (y_next w0) 0)) by (simpl; lia).
  rewrite (proj2 (Z.eqb_neq (y_next w0) 0)) by (simpl; lia). cbn [uwhen mbind uprog_bind sys_run mret uprog_ret as_fork as_exec sys_call u_kids].
  set (p1 := mkUproc _ _ _ _). assert (p1 = p) as -> by (destruct p; simpl in Hk; by subst).
  assert (on_console p w3) as Hc3 by (by apply (console_grows p _ w)).
  assert (run (if negb (st =? 0) then uprintf "FAILED\n" [] else uprintf "OK\n" []) p w3
    = (Ended tt, p, said (map u8 (if st =? 0 then str "OK\n" else str "FAILED\n")) w3)) as Ep.
  { destruct (st =? 0); cbn [negb]; by apply print_ok. }
  rewrite (run_ended _ _ _ _ _ _ _ Ep). eexists. split; [reflexivity|]. split; [etrans; [exact Hg|by apply grows_same]|].
  simpl. rewrite Ho3, Ho2, Ho1. simpl. unfold report. by rewrite <- !app_assoc.
Qed.

(** The number of tests run, or -1 after a failed one that is not to be passed over. *)
Fixpoint verdict (continuous ntests : Z) (l : list (test * Z * list Z)) : Z :=
  match l with
  | [] => ntests
  | (_, st, _) :: l => if negb (st =? 0) && negb (continuous =? 2) then -1 else verdict continuous (ntests + 1) l
  end.
Fixpoint transcript (continuous : Z) (l : list (test * Z * list Z)) : list Z :=
  match l with
  | [] => []
  | (t, st, say) :: l =>
      report t st say ++
      if negb (st =? 0) && negb (continuous =? 2) then map u8 (str "SOME TESTS FAILED\n") else transcript continuous l
  end.
Definition chosen (justone : option (list Z)) (l : list (test * Z * list Z)) : list (test * Z * list Z) :=
  List.filter (fun e => match justone with None => true | Some name => bool_decide (t_name e.1.1 = name) end) l.

Lemma runtests_ok justone continuous l ntests p w :
  Forall (fun '(t, st, say) => behaves t st say) l -> on_console p w -> 0 < y_next w -> u_kids p = [] ->
  exists w', run (runtests (map (fun e => e.1.1) l) justone continuous ntests) p w
    = (Ended (verdict continuous ntests (chosen justone l)), p, w')
    /\ y_out w' = y_out w ++ transcript continuous (chosen justone l).
Proof.
  intros Hl. revert ntests w. induction Hl as [|[[t st] say] l Hb Hl IH]; intros ntests w Hc Hn Hk.
  { exists w. split; [done|]. simpl. by rewrite app_nil_r. }
  cbn [map runtests fst chosen List.filter]. fold (chosen justone l). destruct (match justone with None => true | Some _ => _ end); [|by apply IH].
  destruct (run_test_ok t st say p w Hb Hc Hn Hk) as (w1 & E1 & Hg & Ho). rewrite (run_ended _ _ _ _ _ _ _ E1). cbn [verdict transcript].
  assert (on_console p w1) as Hc1 by (by apply (console_grows p _ w)). destruct (negb (st =? 0) && negb (continuous =? 2)).
  - erewrite run_ended; [|by apply (print_ok _ _ (str "SOME TESTS FAILED\n"))]. eexists. split; [reflexivity|]. simpl.
    by rewrite Ho, <- app_assoc.
  - destruct (IH (ntests + 1) w1) as (w' & E' & Ho'); [done|destruct Hg; lia|done|]. exists w'. split; [done|].
    by rewrite Ho', Ho, <- app_assoc.
Qed.
End runs.

(** ** The theorems *)


Definition bss_good : test := mkTest (bsstest (replicate 10 0)) (str "bsstest").
Definition bss_bad : test := mkTest (bsstest [0; 7]) (str "bad").
Lemma bss_good_behaves progs start : behaves progs start bss_good 0 [].
Proof. intros q w _. exists (Ended tt), q, w. split; [done|]. split; [by right|]. by rewrite app_nil_r. Qed.
Lemma bss_bad_behaves progs start : behaves progs start bss_bad 1 (str "bad: bss test failed\n").
Proof.
  intros q w Hc. exists (Exited 1), q, (said (map u8 (str "bad: bss test failed\n")) w).
  split; [|split; [by left|reflexivity]].
  change (t_run bss_bad (t_name bss_bad)) with
    ((uprintf "%s: bss test failed\n" [VStr (Some (str "bad"))] ≫= fun _ => uexit 1 : uprog ()) ≫= fun _ => mret tt).
  apply run_exited. erewrite run_ended; [|by apply print_ok]. reflexivity.
Qed.

