(* ===== verification/Mkfs.v ===== *)
(** * The file system image

    [mkfs/mkfs.c], the program on the build host that makes the image the
    kernel boots from.  The image file is a map of sectors; a failed
    assertion or host call is a panic.  What the host's files contain comes in
    as the successive results of [read].  The messages on the host's standard
    output are left out.  An inode in memory is the record of [Machine] of
    which only the on-disk fields matter, and [xshort] and [xint], which put
    values into the byte order of the disk, are the little-endian stores of
    [put_dinode] and [le_bytes]. *)

From stdpp Require Import base numbers gmap sets strings option functions list.
From Stdlib Require Import Ascii.
From S2P Require Import Prelude Machine Spinlock CString Printf Bio BlockData Log LogSpec Crash Txn Fs FsSpec.

Definition NINODES : Z := 200.
Definition nbitmap : Z := FSSIZE / BPB + 1.
Definition ninodeblocks : Z := NINODES / IPB + 1.
Definition nlog : Z := Z.of_nat LOGBLOCKS + 1.
Definition nmeta : Z := 2 + nlog + ninodeblocks + nbitmap.
Definition nblocks : Z := FSSIZE - nmeta.

Definition mk_sb : superblock :=
  mkSuperblock FSMAGIC FSSIZE nblocks NINODES nlog 2 (2 + nlog) (2 + nlog + ninodeblocks).

Record mkst := mkMkst { mk_img : gmap Z (list Z); mk_inode : Z; mk_block : Z }.

Abbreviation MK := (M mkst).

Definition mk_modify (f : mkst -> mkst) : MK () := modify f.
Definition mk_assert (b : bool) : MK () := if b then mret tt else panic "assert".

Definition wsect (sec : Z) (buf : list Z) : MK () :=
  mk_modify (fun s => mkMkst (<[sec := buf]> (mk_img s)) (mk_inode s) (mk_block s)).
Definition rsect (sec : Z) : MK (list Z) :=
  img ← gets mk_img;
  match img !! sec with
  | Some d => mret d
  | None => panic "read"
  end.

Definition winode (inum : Z) (ip : inode) : MK () :=
  let bn := IBLOCK inum mk_sb in
  buf ← rsect bn;
  wsect bn (put_dinode buf (dinode_off inum) ip).

Definition mk_dinode0 : inode := mkInode 0 0 0 0 0 0 0 0 0 (replicate (NDIRECT + 1) 0).
Definition rinode (inum : Z) : MK inode :=
  buf ← rsect (IBLOCK inum mk_sb);
  mret (get_dinode buf (dinode_off inum) mk_dinode0).

(** [freeinode++] and [freeblock++] *)
Definition next_inode : MK Z :=
  n ← gets mk_inode;
  mk_modify (fun s => mkMkst (mk_img s) (n + 1) (mk_block s));;
  mret n.
Definition next_block : MK Z :=
  n ← gets mk_block;
  mk_modify (fun s => mkMkst (mk_img s) (mk_inode s) (n + 1));;
  mret n.

Definition mk_ialloc (type : Z) : MK Z :=
  inum ← next_inode;
  winode inum (mk_dinode0 <| i_type := type |> <| i_nlink := 1 |>);;
  mret inum.

(** The bitmap sector with the bits of the first [used] blocks set. *)
Fixpoint mark_loop (n : nat) (i : Z) (buf : list Z) : list Z :=
  match n with
  | O => buf
  | S n => mark_loop n (i + 1) (alter (fun x => u8 (Z.lor x (Z.shiftl 1 (i mod 8)))) (Z.to_nat (i / 8)) buf)
  end.
Definition mk_balloc (used : Z) : MK () :=
  mk_assert (used <? BPB);;
  wsect (sb_bmapstart mk_sb) (mark_loop (Z.to_nat used) 0 zeros).

(** The sector of block [fbn] of a file, allocated when it has none, and the inode. *)
Definition file_block (din : inode) (fbn : Z) : MK (Z * inode) :=
  if fbn <? Z.of_nat NDIRECT then
    a ← deref (i_addrs din !! Z.to_nat fbn);
    if a =? 0 then
      x ← next_block;
      mret (x, din <| i_addrs ::= <[Z.to_nat fbn := x]> |>)
    else mret (a, din)
  else
    a ← deref (i_addrs din !! NDIRECT);
    '(a, din) ←
      (if a =? 0 then
         x ← next_block;
         mret (x, din <| i_addrs ::= <[NDIRECT := x]> |>)
       else mret (a, din));
    indirect ← rsect a;
    let k := (4 * Z.to_nat (fbn - Z.of_nat NDIRECT))%nat in
    if get32 indirect k =? 0 then
      x ← next_block;
      wsect a (put32 indirect k x);;
      mret (x, din)
    else mret (get32 indirect k, din).

Fixpoint iappend_loop (fuel : nat) (din : inode) (off : Z) (p : list Z) : MK (inode * Z) :=
  match p, fuel with
  | [], _ => mret (din, off)
  | _, O => hangs HFuel
  | _, S fuel =>
      let fbn := off / BSIZE in
      mk_assert (fbn <? MAXFILE);;
      '(x, din) ← file_block din fbn;
      let n1 := Z.to_nat (Z.min (Z.of_nat (length p)) ((fbn + 1) * BSIZE - off)) in
      buf ← rsect x;
      wsect x (list_inserts (Z.to_nat (off - fbn * BSIZE)) (take n1 p) buf);;
      iappend_loop fuel din (off + Z.of_nat n1) (drop n1 p)
  end.

Definition iappend (inum : Z) (p : list Z) : MK () :=
  din ← rinode inum;
  '(din, off) ← iappend_loop (length p) din (i_size din) p;
  winode inum (din <| i_size := off |>).

(** The name without the directory of the build tree and the leading underscore. *)
Definition shortname (arg : list Z) : list Z :=
  let s := if bool_decide (take 5 arg = str "user/") then drop 5 arg else arg in
  match s with
  | 95 :: s' => s'
  | _ => s
  end.
Definition has_slash (arg : list Z) : bool :=
  existsb (Z.eqb (ch "/")) (if bool_decide (take 5 arg = str "user/") then drop 5 arg else arg).

(** A file of the host: its argument and what the calls of [read] return. *)
Definition hostfile : Type := list Z * list (list Z).

Definition add_file (rootino : Z) (f : hostfile) : MK () :=
  let '(arg, chunks) := f in
  mk_assert (negb (has_slash arg));;
  let name := shortname arg in
  mk_assert (Nat.leb (length name) DIRSIZ);;
  inum ← mk_ialloc T_FILE;
  iappend rootino (dirent_bytes inum name);;
  forM chunks (iappend inum).

Definition sb_bytes (sb : superblock) : list Z :=
  flat_map (le_bytes 4) [sb_magic sb; sb_size sb; sb_nblocks sb; sb_ninodes sb; sb_nlog sb; sb_logstart sb; sb_inodestart sb; sb_bmapstart sb].

Definition mk_main (files : list hostfile) : MK () :=
  mk_modify (fun s => mkMkst (mk_img s) (mk_inode s) nmeta);;
  forM (seq 0 (Z.to_nat FSSIZE)) (fun i => wsect (Z.of_nat i) zeros);;
  wsect 1 (list_inserts 0 (sb_bytes mk_sb) zeros);;
  rootino ← mk_ialloc T_DIR;
  mk_assert (rootino =? ROOTINO);;
  iappend rootino (dirent_bytes rootino (str "."));;
  iappend rootino (dirent_bytes rootino (str ".."));;
  forM files (add_file rootino);;
  din ← rinode rootino;
  winode rootino (din <| i_size := (i_size din / BSIZE + 1) * BSIZE |>);;
  used ← gets mk_block;
  mk_balloc used.

(** The image file is empty and [freeinode] is 1 at the start. *)
Definition mk_start : mkst := mkMkst ∅ 1 0.

(** ** Reasoning about mkfs *)

(** [m] returns with [P] or fails an assertion; it does nothing else. *)
Definition safe {A} (m : MK A) (s : mkst) (P : A -> mkst -> Prop) : Prop :=
  match m s with
  | Ret a s => P a s
  | Panic _ => True
  | _ => False
  end.

Lemma safe_elim {A} (m : MK A) s (P : A -> mkst -> Prop) :
  safe m s P -> match m s with Ret a s' => P a s' | Panic _ => True | _ => False end.
Proof. done. Qed.
Lemma safe_bind {A B} (m : MK A) (f : A -> MK B) s P Q :
  safe m s P -> (forall a s', P a s' -> safe (f a) s' Q) -> safe (a ← m; f a) s Q.
Proof. unfold safe, mbind, M_bind. destruct (m s); simpl; try done. intros HP Hf. by apply Hf. Qed.
Lemma safe_ret {A} (a : A) s (P : A -> mkst -> Prop) : P a s -> safe (mret a) s P.
Proof. done. Qed.
Lemma safe_assert b s (P : () -> mkst -> Prop) : (b = true -> P tt s) -> safe (mk_assert b) s P.
Proof. destruct b; [|done]. intros HP. by apply HP. Qed.
Lemma safe_weaken {A} (m : MK A) s (P Q : A -> mkst -> Prop) : safe m s P -> (forall a s', P a s' -> Q a s') -> safe m s Q.
Proof. unfold safe. destruct (m s); try done. auto. Qed.
Lemma safe_forM {A} (l : list A) (f : A -> MK ()) (I : nat -> mkst -> Prop) s k :
  I k s -> (forall j x s', l !! j = Some x -> I (k + j)%nat s' -> safe (f x) s' (fun _ => I (S (k + j)))) ->
  safe (forM l f) s (fun _ => I (k + length l)%nat).
Proof.
  revert s k. induction l as [|x l IH]; intros s k HI Hf; simpl; [by rewrite Nat.add_0_r|].
  eapply safe_bind; [apply (Hf 0%nat x s eq_refl); by rewrite Nat.add_0_r|]. cbn beta; intros u s'. rewrite Nat.add_0_r. intros HI'.
  replace (k + S (length l))%nat with (S k + length l)%nat by lia. apply IH; [done|].
  intros j y s'' Hj. replace (S k + j)%nat with (k + S j)%nat by lia. by apply Hf.
Qed.

(** Zeroed data reads as zeros. *)
Lemma get_zeros n o : get_le n zeros o = 0.
Proof.
  unfold get_le, zeros. rewrite drop_replicate, take_replicate. generalize (n `min` (Z.to_nat BSIZE - o))%nat as k.
  induction k as [|k IH]; [done|]. simpl. by rewrite IH.
Qed.

(** The addresses of an inode: blocks of the data area below [hi], the indirect ones among [ind]. *)
Definition addrs_ok (ind : gset Z) (hi : Z) (l : list Z) : Prop :=
  length l = (NDIRECT + 1)%nat
  /\ (forall k a, (k < NDIRECT)%nat -> l !! k = Some a -> a = 0 \/ (nmeta <= a < hi /\ a ∉ ind))
  /\ forall a, l !! NDIRECT = Some a -> a = 0 \/ a ∈ ind.

Definition fields_ok (ip : inode) : Prop :=
  - 2 ^ 15 <= i_type ip < 2 ^ 15 /\ - 2 ^ 15 <= i_major ip < 2 ^ 15 /\ - 2 ^ 15 <= i_minor ip < 2 ^ 15
  /\ - 2 ^ 15 <= i_nlink ip < 2 ^ 15 /\ 0 <= i_size ip <= MAXFILE * BSIZE.

Definition sb_block : list Z := list_inserts 0 (sb_bytes mk_sb) zeros.

(** Inode numbers that fit into the inode blocks. *)
Definition MAXINUM : Z := ninodeblocks * IPB.

(** The image while it is being filled; [ind] are the indirect blocks. *)
Record mk_inv (ind : gset Z) (s : mkst) : Prop := {
  mi_dom : forall n, is_Some (mk_img s !! n) <-> 0 <= n < FSSIZE;
  mi_len : forall n d, mk_img s !! n = Some d -> length d = Z.to_nat BSIZE;
  mi_sb : mk_img s !! 1 = Some sb_block;
  mi_log : forall n, in_log 2 n -> mk_img s !! n = Some zeros;
  mi_block : nmeta <= mk_block s <= FSSIZE + 1;
  mi_fresh : forall n, mk_block s <= n < FSSIZE -> mk_img s !! n = Some zeros;
  mi_inodes : forall i d, 0 <= i < MAXINUM -> mk_img s !! IBLOCK i mk_sb = Some d ->
    fields_ok (get_dinode d (dinode_off i) mk_dinode0) /\ addrs_ok ind (mk_block s) (i_addrs (get_dinode d (dinode_off i) mk_dinode0));
  mi_ind : forall b, b ∈ ind -> nmeta <= b < mk_block s /\
    forall d k, mk_img s !! b = Some d -> (k < 256)%nat ->
      get32 d (4 * k) = 0 \/ (nmeta <= get32 d (4 * k) < mk_block s /\ get32 d (4 * k) ∉ ind)
}.

Lemma layout : nmeta = 47 /\ nlog = 31 /\ ninodeblocks = 13 /\ MAXINUM = 208 /\ sb_inodestart mk_sb = 33 /\ sb_bmapstart mk_sb = 46.
Proof. split_and!; reflexivity. Qed.

Lemma IBLOCK_range i : 0 <= i < MAXINUM -> IBLOCK i mk_sb = i / 16 + 33 /\ 33 <= IBLOCK i mk_sb < 46.
Proof.
  intros Hi. change MAXINUM with 208 in Hi. pose proof (Z.div_pos i 16 ltac:(lia) ltac:(lia)).
  pose proof (Z.div_lt_upper_bound i 16 13 ltac:(lia) ltac:(lia)).
  unfold IBLOCK. change (sb_inodestart mk_sb) with 33. unfold IPB. rewrite u32_small by lia. lia.
Qed.

Lemma addrs_mono ind ind' hi hi' l :
  (forall a, a ∈ ind' -> a ∈ ind \/ hi <= a) -> ind ⊆ ind' -> hi <= hi' -> addrs_ok ind hi l -> addrs_ok ind' hi' l.
Proof.
  intros Hi Hsub Hhi (Hl & Hd & Hn). split; [done|]. split.
  - intros k a Hk Ha. destruct (Hd k a Hk Ha) as [?|[? Hni]]; [by left|right]. split; [lia|].
    intros [?|?]%Hi; [done|lia].
  - intros a Ha. destruct (Hn a Ha); [by left|right]. by apply Hsub.
Qed.

Lemma addrs_inode_ok ind s ip :
  mk_inv ind s -> fields_ok ip -> addrs_ok ind (mk_block s) (i_addrs ip) -> inode_ok ip.
Proof.
  intros Hinv (? & ? & ? & ? & ?) (Hl & Hd & Hn). destruct (mi_block _ _ Hinv). change nmeta with 47 in *. unfold FSSIZE in *.
  split; try done.
  - change (MAXFILE * BSIZE) with 274432 in *. lia.
  - apply Forall_lookup. intros k a Ha. pose proof (lookup_lt_Some _ _ _ Ha) as Hk. rewrite Hl in Hk.
    destruct (decide (k = NDIRECT)) as [->|].
    + destruct (Hn a Ha) as [->|Hi]; [lia|]. destruct (mi_ind _ _ Hinv a Hi) as [Hr _]. change nmeta with 47 in Hr. lia.
    + destruct (Hd k a ltac:(lia) Ha) as [->|[Hr _]]; lia.
Qed.

(** *** Steps that keep the invariant *)

Definition with_img (f : gmap Z (list Z) -> gmap Z (list Z)) (s : mkst) : mkst := mkMkst (f (mk_img s)) (mk_inode s) (mk_block s).

Lemma inv_inum ind s n : mk_inv ind s -> mk_inv ind (mkMkst (mk_img s) n (mk_block s)).
Proof. by intros []. Qed.

(** A block is taken, for data or, when [x] is in [ind'], as an indirect block. *)
Lemma inv_next ind ind' s :
  mk_inv ind s -> mk_block s <= FSSIZE -> ind ⊆ ind' -> (forall a, a ∈ ind' -> a ∈ ind \/ a = mk_block s) ->
  mk_inv ind' (mkMkst (mk_img s) (mk_inode s) (mk_block s + 1)).
Proof.
  intros Hinv Hle Hsub Hind. pose proof (mi_block _ _ Hinv) as Hb. split; cbn [mk_img mk_block mk_inode]; try apply Hinv.
  - lia.
  - intros n Hn. apply (mi_fresh _ _ Hinv). lia.
  - intros i d Hi Hd. destruct (mi_inodes _ _ Hinv i d Hi Hd) as [Hf Ha]. split; [done|].
    apply (addrs_mono ind ind' (mk_block s)); [|done|lia|done]. intros a [?|?]%Hind; [by left|right; lia].
  - intros b [Hb'|Hb']%Hind.
    + destruct (mi_ind _ _ Hinv b Hb') as [Hr Hw]. split; [lia|]. intros d k Hd Hk.
      destruct (Hw d k Hd Hk) as [?|[? Hni]]; [by left|right]. split; [lia|]. intros [?|?]%Hind; [done|lia].
    + subst b. split; [lia|]. intros d k Hd Hk. left.
      assert (0 <= mk_block s < FSSIZE) as Hx by (apply (mi_dom _ _ Hinv); by exists d).
      rewrite (mi_fresh _ _ Hinv) in Hd by lia. injection Hd as <-. apply get_zeros.
Qed.

(** A write to a sector of the data area in use. *)
Lemma inv_write ind s x d :
  mk_inv ind s -> nmeta <= x < mk_block s -> x < FSSIZE -> length d = Z.to_nat BSIZE ->
  (x ∈ ind -> forall k, (k < 256)%nat -> get32 d (4 * k) = 0 \/ (nmeta <= get32 d (4 * k) < mk_block s /\ get32 d (4 * k) ∉ ind)) ->
  mk_inv ind (with_img <[x := d]> s).
Proof.
  intros Hinv Hx Hlt Hd Hw. pose proof (mi_block _ _ Hinv) as Hb. pose proof layout as (Hm & Hn & _).
  split; cbn [with_img mk_img mk_block mk_inode]; try done.
  - intros n. rewrite <- (mi_dom _ _ Hinv n). destruct (decide (n = x)) as [->|]; [rewrite lookup_insert_eq|by rewrite lookup_insert_ne].
    split; [|done]. intros _. apply (mi_dom _ _ Hinv). lia.
  - intros n e [[<- <-]|[_ He]]%lookup_insert_Some; [done|]. by apply (mi_len _ _ Hinv n).
  - rewrite lookup_insert_ne by lia. apply Hinv.
  - intros n Hl. rewrite lookup_insert_ne; [by apply Hinv|]. unfold in_log in Hl. change LOGBLOCKS with 30%nat in Hl. lia.
  - intros n Hn'. rewrite lookup_insert_ne by lia. by apply (mi_fresh _ _ Hinv).
  - intros i e Hi. pose proof (IBLOCK_range i Hi). rewrite lookup_insert_ne by lia. by apply (mi_inodes _ _ Hinv).
  - intros b Hb'. destruct (mi_ind _ _ Hinv b Hb') as [Hr Hk]. split; [done|].
    intros e k [[<- <-]|[_ He]]%lookup_insert_Some Hk'; [by apply Hw|by apply Hk].
Qed.

(** An inode is written back. *)
Lemma dinode_off_other i j : 0 <= i -> 0 <= j -> i / 16 = j / 16 -> i <> j ->
  (dinode_off i + DINODE_SIZE <= dinode_off j \/ dinode_off j + DINODE_SIZE <= dinode_off i)%nat.
Proof.
  intros Hi Hj E Hne. unfold dinode_off, DINODE_SIZE, IPB. pose proof (Z.div_mod i 16 ltac:(lia)). pose proof (Z.div_mod j 16 ltac:(lia)).
  pose proof (Z.mod_pos_bound i 16 ltac:(lia)). pose proof (Z.mod_pos_bound j 16 ltac:(lia)). lia.
Qed.
Lemma dinode_off_fits i : 0 <= i -> (dinode_off i + DINODE_SIZE <= Z.to_nat BSIZE)%nat.
Proof. intros Hi. unfold dinode_off, DINODE_SIZE, IPB, BSIZE. pose proof (Z.mod_pos_bound i 16 ltac:(lia)). lia. Qed.

Lemma inv_winode ind s i d ip :
  mk_inv ind s -> 0 <= i < MAXINUM -> mk_img s !! IBLOCK i mk_sb = Some d ->
  fields_ok ip -> addrs_ok ind (mk_block s) (i_addrs ip) ->
  mk_inv ind (with_img <[IBLOCK i mk_sb := put_dinode d (dinode_off i) ip]> s).
Proof.
  intros Hinv Hi Hd Hf Ha. pose proof (IBLOCK_range i Hi) as [Ei Hr]. pose proof layout as (Hm & Hn & _).
  pose proof (mi_block _ _ Hinv) as Hb. pose proof (mi_len _ _ Hinv _ _ Hd) as Hl.
  split; cbn [with_img mk_img mk_block mk_inode]; try done.
  - intros n. rewrite <- (mi_dom _ _ Hinv n). destruct (decide (n = IBLOCK i mk_sb)) as [->|]; [rewrite lookup_insert_eq, Hd|by rewrite lookup_insert_ne].
    split; intros _; by eexists.
  - intros n e [[<- <-]|[_ He]]%lookup_insert_Some; [by rewrite length_put_dinode|]. by apply (mi_len _ _ Hinv n).
  - rewrite lookup_insert_ne by lia. apply Hinv.
  - intros n Hlg. rewrite lookup_insert_ne; [by apply Hinv|]. unfold in_log in Hlg. change LOGBLOCKS with 30%nat in Hlg. lia.
  - intros n Hn'. rewrite lookup_insert_ne by lia. by apply (mi_fresh _ _ Hinv).
  - intros j e Hj [[E <-]|[_ He]]%lookup_insert_Some; [|by apply (mi_inodes _ _ Hinv)].
    destruct (decide (j = i)) as [->|Hne].
    + rewrite get_put_dinode; [by destruct ip|by eapply addrs_inode_ok|]. rewrite Hl. apply dinode_off_fits; lia.
    + pose proof (IBLOCK_range j Hj) as [Ej _]. rewrite get_put_dinode_other; [|by apply Ha|apply dinode_off_other; lia].
      apply (mi_inodes _ _ Hinv); [done|]. by rewrite <- E.
  - intros b Hb'. destruct (mi_ind _ _ Hinv b Hb') as [Hr' Hk]. split; [done|].
    rewrite lookup_insert_ne by lia. done.
Qed.

(** *** The operations *)

Lemma safe_rsect n s (P : list Z -> mkst -> Prop) : (forall d, mk_img s !! n = Some d -> P d s) -> safe (rsect n) s P.
Proof. intros HP. unfold safe, rsect. mrun. destruct (mk_img s !! n) eqn:E; [|done]. by apply HP. Qed.
Lemma safe_wsect n d s (P : () -> mkst -> Prop) : P tt (with_img <[n := d]> s) -> safe (wsect n d) s P.
Proof. done. Qed.
Lemma safe_next s (P : Z -> mkst -> Prop) :
  P (mk_block s) (mkMkst (mk_img s) (mk_inode s) (mk_block s + 1)) -> safe next_block s P.
Proof. done. Qed.

(** What appending to a file keeps: the invariant, and of the inode all but its addresses. *)
Definition grown (s : mkst) (din : inode) (s' : mkst) (din' : inode) (ind' : gset Z) : Prop :=
  mk_inv ind' s' /\ addrs_ok ind' (mk_block s') (i_addrs din') /\ mk_inode s' = mk_inode s
  /\ (fields_ok din -> fields_ok din').

Lemma grown_trans s din s1 din1 ind1 s2 din2 ind2 :
  grown s din s1 din1 ind1 -> grown s1 din1 s2 din2 ind2 -> grown s din s2 din2 ind2.
Proof. intros (? & ? & E & ?) (? & ? & E2 & ?). split_and!; try done; [congruence|auto]. Qed.

Lemma addrs_insert_direct ind hi l k :
  addrs_ok ind hi l -> (k < NDIRECT)%nat -> nmeta <= hi -> hi ∉ ind -> addrs_ok ind (hi + 1) (<[k := hi]> l).
Proof.
  intros (Hl & Hd & Hn) Hk Hhi Hni. split; [by rewrite length_insert|]. split.
  - intros j a Hj [(-> & -> & _)|[_ Ha]]%list_lookup_insert_Some; [right; split; [lia|done]|].
    destruct (Hd j a Hj Ha) as [?|[? ?]]; [by left|right; split; [lia|done]].
  - intros a. rewrite list_lookup_insert_ne by lia. apply Hn.
Qed.

Lemma addrs_insert_indirect ind hi l :
  addrs_ok ind hi l -> addrs_ok (ind ∪ {[hi]}) (hi + 1) (<[NDIRECT := hi]> l).
Proof.
  intros (Hl & Hd & Hn). split; [by rewrite length_insert|]. split.
  - intros j a Hj. rewrite list_lookup_insert_ne by lia. intros Ha.
    destruct (Hd j a Hj Ha) as [?|[? ?]]; [by left|right; split; [lia|]]. rewrite elem_of_union, elem_of_singleton. intros [?|?]; [done|lia].
  - intros a. rewrite list_lookup_insert_eq by (rewrite Hl; lia). intros [= <-]. right. set_solver.
Qed.

Lemma fresh_not_ind ind s : mk_inv ind s -> mk_block s ∉ ind.
Proof. intros Hinv Hi. destruct (mi_ind _ _ Hinv _ Hi) as [Hr _]. lia. Qed.

(** The indirect block of a file is found or made. *)
Lemma indirect_safe ind s din :
  mk_inv ind s -> mk_block s <= FSSIZE -> addrs_ok ind (mk_block s) (i_addrs din) ->
  safe (a ← deref (i_addrs din !! NDIRECT);
        if a =? 0 then x ← next_block; mret (x, din <| i_addrs ::= <[NDIRECT := x]> |>) else mret (a, din)) s
    (fun r s' => exists ind', grown s din s' r.2 ind' /\ r.1 ∈ ind' /\ (r.1 < FSSIZE -> mk_block s' <= FSSIZE)).
Proof.
  intros Hinv Hle Ha. pose proof Ha as (Hl & _ & Hn).
  destruct (lookup_lt_is_Some_2 (i_addrs din) NDIRECT ltac:(rewrite Hl; lia)) as [a Ea]. rewrite Ea.
  eapply safe_bind; [apply (safe_ret a s (fun r s' => r = a /\ s' = s)); done|]. intros ? ? [-> ->].
  destruct (Z.eqb_spec a 0) as [->|Hne].
  - eapply safe_bind; [by apply (safe_next s (fun r s' => r = mk_block s /\ s' = mkMkst (mk_img s) (mk_inode s) (mk_block s + 1)))|].
    intros ? ? [-> ->]. apply safe_ret. exists (ind ∪ {[mk_block s]}). cbn [fst snd]. split; [|split; [set_solver|simpl; lia]].
    split; [|split; [|done]].
    + apply inv_next with ind; [done|done|set_solver|set_solver].
    + apply addrs_insert_indirect; done.
  - apply safe_ret. exists ind. split; [by split|]. split; [by destruct (Hn a Ea)|done].
Qed.

(** The entry of the indirect block is found or made. *)
Lemma entry_safe ind s din a k :
  mk_inv ind s -> (a < FSSIZE -> mk_block s <= FSSIZE) -> addrs_ok ind (mk_block s) (i_addrs din) -> a ∈ ind -> (k < 256)%nat ->
  safe (indirect ← rsect a;
        if get32 indirect (4 * k) =? 0 then x ← next_block; wsect a (put32 indirect (4 * k) x);; mret (x, din)
        else mret (get32 indirect (4 * k), din)) s
    (fun r s' => grown s din s' r.2 ind /\ nmeta <= r.1 < mk_block s' /\ r.1 ∉ ind /\ (r.1 < FSSIZE -> mk_block s' <= FSSIZE)).
Proof.
  intros Hinv Hle Ha Hi Hk. destruct (mi_ind _ _ Hinv a Hi) as [Hr Hw]. pose proof layout as [Hm _].
  eapply safe_bind; [apply (safe_rsect a s (fun d s' => mk_img s !! a = Some d /\ s' = s)); done|]. intros d ? [Hd ->].
  assert (0 <= a < FSSIZE) as Hlt by (apply (mi_dom _ _ Hinv); by exists d). specialize (Hle (proj2 Hlt)).
  pose proof (mi_len _ _ Hinv _ _ Hd) as Hlen. change (Z.to_nat BSIZE) with 1024%nat in Hlen.
  destruct (Z.eqb_spec (get32 d (4 * k)) 0) as [Hz|Hne].
  - pose proof (fresh_not_ind _ _ Hinv) as Hfr.
    eapply safe_bind; [by apply (safe_next s (fun r s' => r = mk_block s /\ s' = mkMkst (mk_img s) (mk_inode s) (mk_block s + 1)))|].
    intros ? ? [-> ->]. set (s1 := mkMkst _ _ _). assert (mk_inv ind s1) as Hinv1 by (apply inv_next with ind; [done|done|done|by left]).
    eapply safe_bind; [by apply (safe_wsect a _ s1 (fun _ s' => s' = with_img <[a := put32 d (4 * k) (mk_block s)]> s1))|].
    intros ? ? ->. apply safe_ret. cbn [fst snd]. split; [|split; [simpl; lia|split; [done|simpl; lia]]].
    split; [|split; [apply (addrs_mono ind ind (mk_block s)); [by left|done|simpl; lia|done]|done]].
    apply inv_write; [done|simpl; lia|lia|by rewrite length_put_le, Hlen|]. intros _ j Hj.
    pose proof (mi_block _ _ Hinv). unfold FSSIZE in *.
    destruct (decide (j = k)) as [->|Hjk].
    + right. rewrite get32_u32 by lia. cbn [s1 mk_block]. split; [lia|done].
    + rewrite get_put_other by lia. apply (mi_ind _ _ Hinv1 a Hi); [done|done].
  - apply safe_ret. destruct (Hw d k Hd Hk) as [?|[? ?]]; [done|]. by split.
Qed.

Lemma safe_assoc {A B C} (m : MK A) (f : A -> MK B) (g : B -> MK C) s P :
  safe (b ← (a ← m; f a); g b) s P -> safe (a ← m; b ← f a; g b) s P.
Proof. unfold safe. by rewrite bind_assoc. Qed.

Lemma file_block_safe ind s din fbn :
  mk_inv ind s -> mk_block s <= FSSIZE -> addrs_ok ind (mk_block s) (i_addrs din) -> 0 <= fbn < MAXFILE ->
  safe (file_block din fbn) s
    (fun r s' => exists ind', grown s din s' r.2 ind' /\ nmeta <= r.1 < mk_block s' /\ r.1 ∉ ind' /\ (r.1 < FSSIZE -> mk_block s' <= FSSIZE)).
Proof.
  intros Hinv Hle Ha Hf. change MAXFILE with 268 in Hf. pose proof (mi_block _ _ Hinv) as Hb. unfold file_block.
  destruct (Z.ltb_spec fbn (Z.of_nat NDIRECT)) as [Hlt|Hge].
  - pose proof Ha as (Hl & Hd & _). change NDIRECT with 12%nat in *.
    destruct (lookup_lt_is_Some_2 (i_addrs din) (Z.to_nat fbn) ltac:(rewrite Hl; lia)) as [a Ea]. rewrite Ea.
    eapply safe_bind; [apply (safe_ret a s (fun r s' => r = a /\ s' = s)); done|]. intros ? ? [-> ->].
    pose proof (fresh_not_ind _ _ Hinv) as Hfr. destruct (Z.eqb_spec a 0) as [->|Hne].
    + eapply safe_bind; [by apply (safe_next s (fun r s' => r = mk_block s /\ s' = mkMkst (mk_img s) (mk_inode s) (mk_block s + 1)))|].
      intros ? ? [-> ->]. apply safe_ret. exists ind. split; [|simpl; split; [lia|split; [done|lia]]].
      split; [apply inv_next with ind; [done|done|done|by left]|]. split; [|done].
      apply addrs_insert_direct; [done|change NDIRECT with 12%nat; lia|lia|done].
    + apply safe_ret. exists ind. destruct (Hd (Z.to_nat fbn) a ltac:(lia) Ea) as [?|[? ?]]; [done|]. by split.
  - apply safe_assoc. eapply safe_bind; [by eapply indirect_safe|]. intros [a din1] s1 (ind1 & Hg1 & Hi1 & Hle1). cbn [fst snd] in *.
    change NDIRECT with 12%nat in Hge. pose proof Hg1 as (Hinv1 & Ha1 & _).
    eapply safe_weaken; [apply (entry_safe ind1 s1 din1 a (Z.to_nat (fbn - Z.of_nat NDIRECT)) Hinv1 Hle1 Ha1 Hi1); change NDIRECT with 12%nat; lia|].
    intros r s2 (Hg2 & Hr). exists ind1. split; [by eapply grown_trans|done].
Qed.

Lemma iappend_loop_safe fuel : forall p din off ind s,
  mk_inv ind s -> mk_block s <= FSSIZE -> addrs_ok ind (mk_block s) (i_addrs din) ->
  (length p <= fuel)%nat -> 0 <= off <= MAXFILE * BSIZE ->
  safe (iappend_loop fuel din off p) s
    (fun r s' => exists ind', grown s din s' r.1 ind' /\ mk_block s' <= FSSIZE /\ 0 <= r.2 <= MAXFILE * BSIZE).
Proof.
  induction fuel as [|fuel IH]; intros p din off ind s Hinv Hle Ha Hp Hoff;
    (destruct p as [|c p]; [apply safe_ret; exists ind; by split|]); [simpl in Hp; lia|].
  remember (c :: p) as q eqn:Eq. assert (0 < length q <= S fuel)%nat as Hq by (subst q; cbn [length] in *; lia).
  assert (iappend_loop (S fuel) din off q =
    (mk_assert (off / BSIZE <? MAXFILE);; '(x, din) ← file_block din (off / BSIZE);
     let n1 := Z.to_nat (Z.min (Z.of_nat (length q)) ((off / BSIZE + 1) * BSIZE - off)) in
     buf ← rsect x; wsect x (list_inserts (Z.to_nat (off - off / BSIZE * BSIZE)) (take n1 q) buf);;
     iappend_loop fuel din (off + Z.of_nat n1) (drop n1 q))) as -> by (by subst q). clear c p Hp Eq.
  cbv zeta. set (fbn := off / BSIZE). change BSIZE with 1024 in *. change MAXFILE with 268 in *.
  assert (0 <= off - fbn * 1024 < 1024 /\ 0 <= fbn) as [Ho Hfb].
  { unfold fbn. pose proof (Z.div_mod off 1024 ltac:(lia)). pose proof (Z.mod_pos_bound off 1024 ltac:(lia)).
    pose proof (Z.div_pos off 1024 ltac:(lia) ltac:(lia)). lia. }
  eapply safe_bind; [apply (safe_assert _ s (fun _ s' => s' = s /\ fbn < 268)); intros ?%Z.ltb_lt; done|]. intros _ ? [-> Hlt].
  eapply safe_bind; [by eapply file_block_safe|]. intros [x din1] s1 (ind1 & Hg1 & Hx & Hni & Hle1). cbn [fst snd] in *.
  eapply safe_bind; [apply (safe_rsect x s1 (fun d s' => mk_img s1 !! x = Some d /\ s' = s1)); done|]. intros d ? [Hd ->].
  pose proof Hg1 as (Hinv1 & Ha1 & Hin1 & Hf1).
  assert (0 <= x < FSSIZE) as Hlt' by (apply (mi_dom _ _ Hinv1); by exists d).
  set (n1 := Z.to_nat (Z.min _ _)). set (e := list_inserts _ _ d).
  assert (mk_inv ind1 (with_img <[x := e]> s1)) as Hinv2.
  { apply inv_write; [done|done|lia|unfold e; rewrite length_inserts; by apply (mi_len _ _ Hinv1 x)|done]. }
  eapply safe_bind; [by apply (safe_wsect x e s1 (fun _ s' => s' = with_img <[x := e]> s1))|]. intros _ ? ->.
  eapply safe_weaken.
  - eapply (IH _ _ _ ind1); [done|apply Hle1, Hlt'|done|rewrite length_drop; lia|lia].
  - intros r s2 (ind2 & Hg2 & Hr). exists ind2. split; [|done].
    by apply (grown_trans s din (with_img <[x := e]> s1) din1 ind1).
Qed.

(** Between operations: the image is in order and the next inode is [n]. *)
Definition mk_ready (n : Z) (s : mkst) : Prop := exists ind, mk_inv ind s /\ mk_block s <= FSSIZE /\ mk_inode s = n.

Lemma winode_safe ind s i ip (P : () -> mkst -> Prop) :
  mk_inv ind s -> 0 <= i < MAXINUM -> fields_ok ip -> addrs_ok ind (mk_block s) (i_addrs ip) ->
  (forall s', mk_inv ind s' -> mk_block s' = mk_block s -> mk_inode s' = mk_inode s -> P tt s') ->
  safe (winode i ip) s P.
Proof.
  intros Hinv Hi Hf Ha HP. unfold winode.
  eapply safe_bind; [apply (safe_rsect _ s (fun d s' => mk_img s !! IBLOCK i mk_sb = Some d /\ s' = s)); done|]. intros d ? [Hd ->].
  apply safe_wsect. apply HP; [by apply inv_winode|done|done].
Qed.

Lemma iappend_safe n i p s : mk_ready n s -> 0 <= i < MAXINUM -> safe (iappend i p) s (fun _ => mk_ready n).
Proof.
  intros (ind & Hinv & Hle & Hn) Hi. unfold iappend, rinode.
  eapply safe_bind; [eapply safe_bind;
    [apply (safe_rsect _ s (fun d s' => mk_img s !! IBLOCK i mk_sb = Some d /\ s' = s)); done|]|].
  { intros d ? [Hd ->]. apply (safe_ret _ s (fun r s' => fields_ok r /\ addrs_ok ind (mk_block s) (i_addrs r) /\ s' = s)).
    destruct (mi_inodes _ _ Hinv i d Hi Hd). done. }
  intros din ? (Hf & Ha & ->). pose proof Hf as (_ & _ & _ & _ & Hsz).
  eapply safe_bind; [by eapply (iappend_loop_safe _ p din (i_size din) ind s)|].
  intros [din1 off] s1 (ind1 & (Hinv1 & Ha1 & Hn1 & Hf1) & Hle1 & Hoff). cbn [fst snd] in *.
  apply (winode_safe ind1); [done|done| |done|].
  - destruct (Hf1 Hf) as (? & ? & ? & ? & _). by do 4 (split; [done|]).
  - intros s2 Hinv2 Eb Ei. exists ind1. split_and!; [done|lia|congruence].
Qed.

Lemma ialloc_safe n ty s : mk_ready n s -> 0 <= n < MAXINUM -> - 2 ^ 15 <= ty < 2 ^ 15 ->
  safe (mk_ialloc ty) s (fun r s' => r = n /\ mk_ready (n + 1) s').
Proof.
  intros (ind & Hinv & Hle & Hn) Hi Hty. unfold mk_ialloc. set (s1 := mkMkst (mk_img s) (n + 1) (mk_block s)).
  eapply safe_bind; [apply (fun Hp => Hp : safe next_inode s (fun r s' => r = n /\ s' = s1)); unfold s1; by rewrite <- Hn|].
  intros ? ? [-> ->].
  eapply safe_bind.
  - apply (winode_safe ind _ _ _ (fun _ s' => mk_ready (n + 1) s')); [by apply inv_inum|done| | |].
    + unfold fields_ok. change (MAXFILE * BSIZE) with 274432. simpl. lia.
    + apply (addrs_mono ind ind nmeta); [by left|done|apply (mi_block _ _ Hinv)|].
      split; [done|]. cbn [i_addrs mk_dinode0]. split; [intros k a _|intros a]; intros [-> _]%lookup_replicate; by left.
    + intros s2 Hinv2 Eb Ei. exists ind. split_and!; [done|simpl in Eb; lia|done].
  - intros u s2 Hr. by apply safe_ret.
Qed.

Lemma add_file_safe n root f s :
  mk_ready n s -> 0 <= n < MAXINUM -> 0 <= root < MAXINUM -> safe (add_file root f) s (fun _ => mk_ready (n + 1)).
Proof.
  intros Hr Hn Hroot. destruct f as [arg chunks]. unfold add_file. cbv zeta.
  eapply safe_bind; [apply (safe_assert _ s (fun _ => eq s)); done|]. intros _ ? <-.
  eapply safe_bind; [apply (safe_assert _ s (fun _ => eq s)); done|]. intros _ ? <-.
  eapply safe_bind; [apply (ialloc_safe n); [done|done|unfold T_FILE; lia]|]. intros ? s1 [-> Hr1].
  eapply safe_bind; [by apply (iappend_safe (n + 1))|]. intros u s2 Hr2.
  apply (safe_forM chunks (iappend n) (fun _ => mk_ready (n + 1)) s2 0); [done|].
  intros j p s3 _ Hr3. by apply iappend_safe.
Qed.

Lemma format_safe s :
  mk_img s = ∅ -> mk_inode s = 1 -> mk_block s = nmeta ->
  safe (forM (seq 0 (Z.to_nat FSSIZE)) (fun i => wsect (Z.of_nat i) zeros);; wsect 1 sb_block) s (fun _ => mk_ready 1).
Proof.
  intros Hi Hn Hb.
  eapply safe_bind.
  - apply (safe_forM (seq 0 (Z.to_nat FSSIZE)) _ (fun k s' => mk_inode s' = 1 /\ mk_block s' = nmeta
      /\ forall n, mk_img s' !! n = if decide (0 <= n < Z.of_nat k) then Some zeros else None) s 0).
    + split_and!; [done|done|]. intros n. rewrite Hi, decide_False by lia. apply lookup_empty.
    + intros j x s' Hj (Hi' & Hb' & Hs'). apply lookup_seq in Hj as [-> Hj]. apply safe_wsect. split_and!; [done|done|].
      intros n. cbn [with_img mk_img]. destruct (decide (n = Z.of_nat (0 + j))) as [->|Hne];
        [rewrite lookup_insert_eq, decide_True by lia; done|]. rewrite lookup_insert_ne, Hs' by done.
      destruct (decide (0 <= n < Z.of_nat (0 + j))); [rewrite decide_True by lia; done|by rewrite decide_False by lia].
  - cbn beta. intros u s1. rewrite length_seq. intros (Hi1 & Hb1 & Hs1). change (Z.of_nat (0 + Z.to_nat FSSIZE)) with FSSIZE in Hs1.
    apply safe_wsect. exists ∅. pose proof layout as (Hm & _).
    split; [|split; [simpl; rewrite Hb1, Hm; unfold FSSIZE; lia|done]].
    split; cbn [with_img mk_img mk_block mk_inode].
    + intros n. destruct (decide (n = 1)) as [->|]; [rewrite lookup_insert_eq|rewrite lookup_insert_ne, Hs1 by done].
      * split; [unfold FSSIZE; lia|by eexists].
      * destruct (decide (0 <= n < FSSIZE)); split; [done|by eexists|by intros []|done].
    + intros n d [[_ <-]|[_ Hd]]%lookup_insert_Some; [by unfold sb_block, zeros; rewrite length_inserts, length_replicate|].
      rewrite Hs1 in Hd. case_decide; [|done]. injection Hd as <-. apply length_replicate.
    + apply lookup_insert_eq.
    + intros n Hl. unfold in_log in Hl. change LOGBLOCKS with 30%nat in Hl. rewrite lookup_insert_ne, Hs1, decide_True by (unfold FSSIZE; lia). done.
    + rewrite Hb1, Hm. unfold FSSIZE. lia.
    + intros n Hn'. rewrite Hb1, Hm in Hn'. rewrite lookup_insert_ne, Hs1, decide_True by lia. done.
    + intros i d Hi2. pose proof (IBLOCK_range i Hi2). rewrite lookup_insert_ne, Hs1, decide_True by (unfold FSSIZE; lia).
      intros [= <-]. unfold fields_ok, addrs_ok, get_dinode. simpl. rewrite !get_zeros. change (i16 0) with 0. change (MAXFILE * BSIZE) with 274432.
      split; [lia|]. split; [done|].
      change (0 :: _) with (replicate 13 0). split; [intros k a _ [-> _]%lookup_replicate|intros a [= <-]]; by left.
    + intros b Hb'. by apply not_elem_of_empty in Hb'.
Qed.

(** ** The bitmap *)

Lemma bits_u8 x k : 0 <= k < 8 -> Z.testbit (u8 x) k = Z.testbit x k.
Proof. intros Hk. unfold u8. change 256 with (2 ^ 8). apply Z.mod_pow2_bits_low. lia. Qed.

Lemma mark_loop_length n : forall i d, length (mark_loop n i d) = length d.
Proof. induction n as [|n IH]; intros i d; [done|]. cbn [mark_loop]. rewrite IH. apply length_alter. Qed.

Lemma mark_loop_bits n : forall (i : nat) d j, (i + n <= 8 * length d)%nat ->
  bit_clear (mark_loop n (Z.of_nat i) d) j = bit_clear d j && negb (bool_decide (i <= j < i + n)%nat).
Proof.
  induction n as [|n IH]; intros i d j Hl; [rewrite bool_decide_false by lia; by rewrite andb_true_r|].
  cbn [mark_loop]. replace (Z.of_nat i + 1) with (Z.of_nat (S i)) by lia. change 8 with (Z.of_nat 8) at 2.
  rewrite <- Nat2Z.inj_div, Nat2Z.id. rewrite IH by (rewrite length_alter; lia).
  assert (i / 8 < length d)%nat as Hi by (apply Nat.Div0.div_lt_upper_bound; lia).
  change (Z.shiftl 1 (Z.of_nat i mod 8)) with (bit_mask (Z.of_nat i)).
  pose proof (Z.mod_pos_bound (Z.of_nat i) 8 ltac:(lia)) as Hm.
  rewrite bit_clear_alter; [|done|].
  - destruct (decide (i = j)) as [<-|Hne].
    + rewrite bits_u8, Z.lor_spec, mask_testbit, bool_decide_true, orb_true_r by done. rewrite (bool_decide_true (i <= i < _)%nat) by lia.
      by rewrite andb_false_r.
    + f_equal. f_equal. apply bool_decide_ext. lia.
  - intros x _ k Hk Hne. rewrite bits_u8, Z.lor_spec, mask_testbit, bool_decide_false by done. apply orb_false_r.
Qed.

Lemma mk_BBLOCK b : 0 <= b < FSSIZE -> BBLOCK b mk_sb = sb_bmapstart mk_sb.
Proof. intros Hb. unfold BBLOCK. unfold FSSIZE in Hb. rewrite Z.div_small by (rewrite BPB_eq; lia). reflexivity. Qed.

Lemma used_marked img n b :
  0 <= n <= FSSIZE -> 0 <= b < FSSIZE -> used mk_sb (<[sb_bmapstart mk_sb := mark_loop (Z.to_nat n) 0 zeros]> img) b = (b <? n).
Proof.
  intros Hn Hb. unfold used. rewrite mk_BBLOCK, lookup_insert_eq by done. unfold FSSIZE in *.
  rewrite Z.mod_small by (rewrite BPB_eq; lia). change 0 with (Z.of_nat 0) at 1.
  rewrite mark_loop_bits by (unfold zeros; rewrite length_replicate; change (Z.to_nat BSIZE) with 1024%nat; lia).
  assert (bit_clear zeros (Z.to_nat b) = true) as ->.
  { rewrite bit_clear_testbit. unfold zeros. rewrite nth_lookup.
    destruct (replicate (Z.to_nat BSIZE) 0 !! (Z.to_nat b / 8)%nat) as [x|] eqn:E; simpl; [apply lookup_replicate in E as [-> _]|]; by rewrite Z.testbit_0_l. }
  rewrite andb_true_l, negb_involutive. destruct (Z.ltb_spec b n); [apply bool_decide_true; lia|apply bool_decide_false; lia].
Qed.

(** ** The finished image *)

(** No block, or a block of the data area the bitmap has as used. *)
Definition in_use (img : gmap Z (list Z)) (a : Z) : Prop := a = 0 \/ (nmeta <= a < FSSIZE /\ used mk_sb img a = true).

Record image_ok (img : gmap Z (list Z)) (hi : Z) : Prop := {
  im_sb : exists d, img !! 1 = Some d /\ superblock_of d = mk_sb;
  im_log : clean (sb_logstart mk_sb) img;
  im_bitmap : bitmap_ok (sb_logstart mk_sb) mk_sb img;
  im_used : nmeta <= hi <= FSSIZE /\ forall b, 0 <= b < FSSIZE -> used mk_sb img b = (b <? hi);
  im_addrs : forall i d, 0 <= i < MAXINUM -> img !! IBLOCK i mk_sb = Some d ->
    Forall (in_use img) (i_addrs (get_dinode d (dinode_off i) mk_dinode0));
  im_indirect : forall i d a e k, 0 <= i < MAXINUM -> img !! IBLOCK i mk_sb = Some d ->
    i_addrs (get_dinode d (dinode_off i) mk_dinode0) !! NDIRECT = Some a -> a <> 0 -> img !! a = Some e -> (k < 256)%nat ->
    in_use img (get32 e (4 * k))
}.

Lemma sb_block_reads : superblock_of sb_block = mk_sb.
Proof. vm_compute. reflexivity. Qed.

Section finish.
Context (ind : gset Z) (s : mkst) (Hinv : mk_inv ind s) (Hle : mk_block s <= FSSIZE).
Context (r : Z) (Hr : 0 <= r < MAXINUM) (d0 : list Z) (Hd0 : mk_img s !! IBLOCK r mk_sb = Some d0) (sz : Z) (Hsz : 0 <= sz < 2 ^ 32).

Definition last_inode : inode := get_dinode d0 (dinode_off r) mk_dinode0 <| i_size := sz |>.
Definition last_img : gmap Z (list Z) :=
  <[sb_bmapstart mk_sb := mark_loop (Z.to_nat (mk_block s)) 0 zeros]>
    (<[IBLOCK r mk_sb := put_dinode d0 (dinode_off r) last_inode]> (mk_img s)).

Lemma last_other n : n <> 46 -> ~ (33 <= n < 46) -> last_img !! n = mk_img s !! n.
Proof.
  intros H1 H2. unfold last_img. pose proof (IBLOCK_range r Hr). change (sb_bmapstart mk_sb) with 46.
  by rewrite !lookup_insert_ne by lia.
Qed.

Lemma last_dom n : is_Some (last_img !! n) <-> 0 <= n < FSSIZE.
Proof.
  unfold last_img. pose proof (IBLOCK_range r Hr). change (sb_bmapstart mk_sb) with 46. unfold FSSIZE.
  destruct (decide (n = 46)) as [->|]; [rewrite lookup_insert_eq; split; [lia|by eexists]|]. rewrite lookup_insert_ne by done.
  destruct (decide (n = IBLOCK r mk_sb)) as [->|]; [rewrite lookup_insert_eq; split; [lia|by eexists]|]. rewrite lookup_insert_ne by done.
  apply (mi_dom _ _ Hinv).
Qed.

Lemma last_used b : 0 <= b < FSSIZE -> used mk_sb last_img b = (b <? mk_block s).
Proof. intros Hb. apply used_marked; [|done]. pose proof (mi_block _ _ Hinv). pose proof layout as [? _]. lia. Qed.

Lemma last_in_use a : a = 0 \/ nmeta <= a < mk_block s -> in_use last_img a.
Proof.
  intros [->|Ha]; [by left|right]. pose proof layout as [Hm _]. split; [lia|]. rewrite last_used by lia. apply Z.ltb_lt. lia.
Qed.

(** Every inode has the addresses it had. *)
Lemma last_addrs i d : 0 <= i < MAXINUM -> last_img !! IBLOCK i mk_sb = Some d ->
  addrs_ok ind (mk_block s) (i_addrs (get_dinode d (dinode_off i) mk_dinode0)).
Proof.
  intros Hi. pose proof (IBLOCK_range i Hi) as [Ei Hri]. pose proof (IBLOCK_range r Hr) as [Er _].
  unfold last_img. change (sb_bmapstart mk_sb) with 46. rewrite lookup_insert_ne by lia.
  destruct (mi_inodes _ _ Hinv r d0 Hr Hd0) as [Hf Ha]. pose proof (mi_len _ _ Hinv _ _ Hd0) as Hl.
  intros [[E <-]|[_ He]]%lookup_insert_Some; [|by apply (mi_inodes _ _ Hinv)].
  destruct (decide (i = r)) as [->|Hne].
  - rewrite get_put_dinode; [done| |rewrite Hl; apply dinode_off_fits; lia].
    destruct (addrs_inode_ok ind s _ Hinv Hf Ha). by split.
  - rewrite get_put_dinode_other; [|apply Ha|apply dinode_off_other; lia]. apply (mi_inodes _ _ Hinv); [done|]. by rewrite <- E.
Qed.

Lemma last_image_ok : image_ok last_img (mk_block s).
Proof.
  pose proof (mi_block _ _ Hinv) as Hb. pose proof layout as (Hm & _). change (sb_logstart mk_sb) with 2 in *.
  assert (forall n, in_log 2 n -> last_img !! n = Some zeros) as Hlog.
  { intros n Hn. rewrite last_other; [by apply Hinv|..]; unfold in_log in Hn; change LOGBLOCKS with 30%nat in Hn; lia. }
  assert (in_log 2 2) as Hl2 by (unfold in_log; lia).
  assert (disk_blocks 2 last_img = []) as Hblk.
  { unfold disk_blocks. rewrite Hlog by done. simpl. unfold head_blocks, head_n. by rewrite get_zeros. }
  split; change (sb_logstart mk_sb) with 2.
  - exists sb_block. rewrite last_other by lia. split; [apply Hinv|apply sb_block_reads].
  - split; [|done]. split; rewrite ?Hblk; [|intros n Hn; rewrite Hlog by done; by eexists| |constructor|constructor].
    + intros n d. unfold last_img. intros [[_ <-]|[_ [[_ <-]|[_ Hd]]%lookup_insert_Some]]%lookup_insert_Some;
        [rewrite mark_loop_length; apply length_replicate|rewrite length_put_dinode|]; by eapply Hinv.
    + intros d. rewrite Hlog by done. intros [= <-]. unfold head_n. rewrite get_zeros. vm_compute. by split.
  - split.
    + vm_compute. by split.
    + vm_compute. split; [by intros|done].
    + intros b Hbs. change (sb_size mk_sb) with FSSIZE in Hbs. rewrite mk_BBLOCK by done. split; [apply last_dom; vm_compute; by split|].
      unfold in_log. change (sb_bmapstart mk_sb) with 46. change LOGBLOCKS with 30%nat. lia.
    + intros b Hbs. change (sb_size mk_sb) with FSSIZE in Hbs. rewrite last_used by done. intros Hlt%Z.ltb_ge.
      split; [by apply last_dom|]. split; [unfold in_log; change LOGBLOCKS with 30%nat; lia|].
      intros b' Hb'. rewrite mk_BBLOCK by done. change (sb_bmapstart mk_sb) with 46. lia.
  - split; [lia|]. apply last_used.
  - intros i d Hi Hd. destruct (last_addrs i d Hi Hd) as (Hl & Hdir & Hn). apply Forall_lookup. intros k a Ha. apply last_in_use.
    pose proof (lookup_lt_Some _ _ _ Ha). destruct (decide (k = NDIRECT)) as [->|].
    + destruct (Hn a Ha) as [?|Hi']; [by left|right; by apply (mi_ind _ _ Hinv)].
    + destruct (Hdir k a ltac:(lia) Ha) as [?|[? _]]; [by left|by right].
  - intros i d a e k Hi Hd Ha Hne He Hk. destruct (last_addrs i d Hi Hd) as (_ & _ & Hn). destruct (Hn a Ha) as [?|Hi']; [done|].
    apply last_in_use. destruct (mi_ind _ _ Hinv a Hi') as [Hra Hw]. rewrite last_other in He by lia.
    destruct (Hw e k He Hk) as [?|[? _]]; [by left|by right].
Qed.
End finish.

Lemma files_safe files s :
  mk_ready 2 s -> (length files <= 206)%nat -> safe (forM files (add_file 1)) s (fun _ s' => exists n, mk_ready n s').
Proof.
  intros Hr Hl. eapply safe_weaken.
  - apply (safe_forM files (add_file 1) (fun k s' => mk_ready (Z.of_nat k) s') s 2); [done|].
    intros j f s' Hj Hr'. pose proof (lookup_lt_Some _ _ _ Hj). change MAXINUM with 208.
    replace (Z.of_nat (S (2 + j))) with (Z.of_nat (2 + j) + 1) by lia. apply add_file_safe; [done|change MAXINUM with 208; lia..].
  - intros u s' Hr'. by exists (Z.of_nat (2 + length files)).
Qed.

(** The size of the root directory is rounded up and the bitmap is written. *)
Lemma finish_safe n s :
  mk_ready n s ->
  safe (din ← rinode 1; winode 1 (din <| i_size := (i_size din / BSIZE + 1) * BSIZE |>);; used ← gets mk_block; mk_balloc used) s
    (fun _ s' => image_ok (mk_img s') (mk_block s')).
Proof.
  intros (ind & Hinv & Hle & _). assert (0 <= 1 < MAXINUM) as H1 by (change MAXINUM with 208; lia).
  pose proof (IBLOCK_range 1 H1) as [_ HB]. destruct (proj2 (mi_dom _ _ Hinv (IBLOCK 1 mk_sb)) ltac:(unfold FSSIZE; lia)) as [d Hd].
  destruct (mi_inodes _ _ Hinv 1 d H1 Hd) as [(_ & _ & _ & _ & Hsz) _]. change (MAXFILE * BSIZE) with 274432 in Hsz.
  unfold rinode. eapply safe_bind; [eapply safe_bind; [apply (safe_rsect _ s (fun e s' => mk_img s !! IBLOCK 1 mk_sb = Some e /\ s' = s)); done|]|].
  { intros e ? [He ->]. rewrite Hd in He. injection He as <-. by apply (safe_ret _ s (fun r s' => r = get_dinode d (dinode_off 1) mk_dinode0 /\ s' = s)). }
  intros ? ? [-> ->]. set (sz := _ * BSIZE).
  assert (0 <= sz < 2 ^ 32) as Hs.
  { unfold sz. change BSIZE with 1024. pose proof (Z.div_pos (i_size (get_dinode d (dinode_off 1) mk_dinode0)) 1024 ltac:(lia) ltac:(lia)).
    pose proof (Z.mul_div_le (i_size (get_dinode d (dinode_off 1) mk_dinode0)) 1024 ltac:(lia)). lia. }
  unfold winode. eapply safe_bind; [eapply safe_bind; [apply (safe_rsect _ s (fun e s' => mk_img s !! IBLOCK 1 mk_sb = Some e /\ s' = s)); done|]|].
  { intros e ? [He ->]. rewrite Hd in He. injection He as <-.
    by apply (safe_wsect _ _ s (fun _ s' => s' = with_img <[IBLOCK 1 mk_sb := put_dinode d (dinode_off 1) (last_inode 1 d sz)]> s)). }
  intros ? ? ->. set (s1 := with_img _ s).
  eapply safe_bind; [by apply (fun Hp => Hp : safe (gets mk_block) s1 (fun r s' => r = mk_block s /\ s' = s1))|]. intros ? ? [-> ->].
  eapply safe_bind; [apply (safe_assert _ s1 (fun _ => eq s1)); done|].
  intros ? ? <-. apply safe_wsect. by apply (last_image_ok ind s Hinv Hle 1 H1 d Hd sz Hs).
Qed.

Lemma mk_main_safe files :
  (length files <= 206)%nat -> safe (mk_main files) mk_start (fun _ s => image_ok (mk_img s) (mk_block s)).
Proof.
  intros Hl. unfold mk_main.
  eapply safe_bind; [by apply (fun Hp => Hp : safe (mk_modify _) mk_start (fun _ s' => s' = mkMkst ∅ 1 nmeta))|]. intros _ ? ->.
  apply safe_assoc. eapply safe_bind; [by apply format_safe|]. cbn beta. intros u s1 Hr1.
  assert (0 <= 1 < MAXINUM) as H1 by (change MAXINUM with 208; lia).
  eapply safe_bind; [apply (ialloc_safe 1); [done|done|unfold T_DIR; lia]|]. intros ? s2 [-> Hr2].
  eapply safe_bind; [apply (safe_assert _ s2 (fun _ => eq s2)); done|]. intros ? ? <-.
  eapply safe_bind; [by apply (iappend_safe 2)|]. cbn beta. intros ? s3 Hr3.
  eapply safe_bind; [by apply (iappend_safe 2)|]. cbn beta. intros ? s4 Hr4.
  eapply safe_bind; [by apply files_safe|]. cbn beta. intros ? s5 [n Hr5]. by apply (finish_safe n).
Qed.

(** C9: [mkfs] on up to 206 files either stops at a failed assertion or leaves an
    image the kernel can start from: the superblock describes the layout, the
    log is empty, the bitmap has exactly the blocks below [freeblock] as used
    and meets what [balloc] and [bfree] rely on, and every block an inode or an
    indirect block names lies in the data area and is marked used. *)
Theorem mkfs_image files : (length files <= 206)%nat ->
  match mk_main files mk_start with
  | Ret _ s => image_ok (mk_img s) (mk_block s)
  | Panic _ => True
  | _ => False
  end.
Proof. intros Hl. apply (safe_elim (mk_main files)). by apply mk_main_safe. Qed.

(** A text file and a program of fourteen blocks, the last two through the indirect block. *)
Definition demo_files : list hostfile :=
  [(str "README", [str "xv6 is a re-implementation"]); (str "user/_cat", replicate 14 (replicate 1024 7))].

Lemma mkfs_image_witness :
  exists s, mk_main demo_files mk_start = Ret tt s /\ mk_block s = 64 /\ image_ok (mk_img s) (mk_block s).
Proof.
  pose proof (mkfs_image demo_files ltac:(simpl; lia)) as Hi.
  assert (match mk_main demo_files mk_start with Ret _ s => mk_block s =? 64 | _ => false end = true) as Hb by (vm_compute; reflexivity).
  destruct (mk_main demo_files mk_start) as [[] s|m|t k|h]; [|discriminate Hb..].
  exists s. split; [reflexivity|]. split; [by apply Z.eqb_eq|exact Hi].
Defined.
